(* ===== verification/_CoqProject ===== *)
-Q . S2P
Prelude.v
Axi.v
AxiMaster.v
CustomMac.v
Operator.v
FixedPoint.v
Kernels.v
KernelSpec.v
KernelsFloat.v
HybridDispatch.v
KernelFrame.v
EnvParse.v
Bridge.v
BridgeSpec.v
HybridSubmit.v
Drain.v
DrainSpec.v
Gem5.v
StageA.v
Verilated.v
VerilatedSpec.v
NpuDevice.v
NpuSpec.v
NpuSystem.v
NpuDrain.v
Mobilenet.v
MobilenetConv.v
MobilenetHybrid.v
MobilenetSpec.v
Words.v
Firmware.v
FirmwareSpec.v
KernelDriver.v
DriverSpec.v
HostRuntime.v
HostSpec.v
HostSafe.v
MobilenetMain.v
Tools.v
ToolsSpec.v
ToolsRun.v
AddrRange.v
AddrRangeSpec.v
Ndp.v
NdpSpec.v
Gemmini.v
GemminiSpec.v
