(* ===== verification/Prelude.v ===== *)
(** * OpenNPUX: a verification of the NPU stack

    OpenNPUX couples a Coral NPU core, in Verilog, to a gem5 full-system
    simulation: a program on the simulated host hands the NPU work through a
    kernel driver and a shared memory window; the NPU is a gem5 device whose
    back end is either a small functional model or the Verilated core behind a
    C interface; firmware on the core executes commands, itself, on a custom
    multiply-accumulate unit, or by handing whole operators to kernels that run
    on the simulating machine.  Beside that stack the repository has two
    near-data processing devices and its own copies of parts of gem5.

    This development is a shallow embedding of that code.  Names of
    definitions are those of the source.

    ** The parts and their files

    From the bottom up, with the sources under src/ (BR is
    sim/coralnpu/hw_sim/gem5_bridge, NPU is sim/gem5/src/dev/npu, HOST is
    runtime/host):

    - Common ground.  [Prelude]: outcomes, machine integers, byte buffers,
      loops.  [Words]: 32-bit words of a buffer.
    - The core's surroundings.  [Axi]: AXI records and the DMA request builders
      (BR/gem5_dma_request_builder.h).  [AxiMaster]: the two AXI master drivers
      (BR/gem5_axi_master_drivers.h).  [CustomMac]: the multiply-accumulate
      unit (OpenNpuXCustomMac.sv) and its driver (BR/gem5_custom_mac.h).
    - Hybrid operators.  [Operator]: descriptors and the firmware's client
      (BR/coral_operator.h, coral_operator_client.h).  [FixedPoint], [Kernels],
      [KernelsFloat]: the kernels (BR/gem5_hybrid_kernels.cc).
      [HybridDispatch]: validation and dispatch (BR/gem5_hybrid_operator.cc).
      [KernelSpec] and [KernelFrame] have their theorems.
    - The bridge.  [EnvParse] and [Bridge]: the handle, its callbacks and the C
      interface (BR/coralnpu_gem5_abi.cc).  [BridgeSpec]: its invariant.
      [HybridSubmit]: an operator from the firmware to the kernel and back.
    - The gem5 device.  [Gem5]: what the device uses of the simulator.
      [StageA], [Verilated]: the back ends (NPU/coral_stagea_backend.cc,
      coral_verilated_backend.cc).  [NpuDevice]: the device (NPU/npu_device.cc).
      [VerilatedSpec], [NpuSpec], [NpuSystem] have their theorems, [NpuDrain]
      puts the device under the drain manager below.
    - Firmware.  [Firmware], [FirmwareSpec]: the command and the DMA program
      (BR/gem5_command_smoke.c, gem5_dma_smoke.c).  [Mobilenet]: the inference
      program (BR/gem5_mobilenet.cc), on a machine made of the bridge's handle
      and the core's memory.  [MobilenetConv]: tensor sizes, the machine's
      memory and the staging area; [MobilenetHybrid]: a convolution through the
      bridge; [MobilenetSpec]: what is counted; [MobilenetMain]: the mailbox,
      up to the host's check of it.
    - The host.  [KernelDriver], [DriverSpec]: the driver
      (runtime/kernel/opennpux_coral.c).  [HostRuntime], [HostSpec],
      [HostSafe]: the user-space library (HOST/src/coral_runtime.c).  [Tools],
      [ToolsSpec], [ToolsRun]: the command-line tools (HOST/tools/coralctl.c,
      mmio32.c).
    - gem5 itself.  [AddrRange], [AddrRangeSpec]: address ranges
      (sim/gem5/src/base/addr_range.hh).  [Drain], [DrainSpec]: the drain
      manager (sim/gem5/src/sim/drain.cc).
    - Near-data processing.  [Ndp], [NdpSpec]: the base device and the search
      device (sim/gem5/src/ndp, ndp_dev_a).  [Gemmini], [GemminiSpec]: the
      Gemmini-like device (sim/gem5/src/gemmini_dev_a).

    ** How code becomes definitions

    A computation that may fail is a [res]: [Ret] for a result, [Fatal] where
    the code stops (a panic, a failed assertion, exit), [Undef] where C or C++
    leaves the behaviour undefined (an access outside an object, a signed
    overflow, a shift by the width), [Hang] where a bounded loop of the model
    ran out of turns.  A w-bit integer is a [Z] with its wrap-around written
    out ([wrap], [swrap] and their abbreviations).  Memory is a [buf], a total
    function on offsets with a length.  State is passed explicitly: a class
    becomes a record, a method a function from the record to a [res] of the
    record.  The driver's programs, the host runtime and the inference program
    have monads of their own, over the kernel's primitives, the system calls
    and the machine.

    What is not in the repository is a class, whose laws are the documented
    behaviour the code relies on and which has a concrete instance: the core
    behind its pins and behind the wrapper ([AxiMaster], [Bridge]), gem5's
    ports, event queue and packets ([Gem5], [Ndp]), its bit functions
    ([AddrRange]), the objects a drain asks ([Drain]), the operating system
    ([HostRuntime]), TensorFlow Lite Micro, the copy routines and the clocks
    ([Mobilenet]), the C library's exponential ([KernelsFloat]), the
    processor's floats ([Gemmini]), and the device a host talks to
    ([HostSpec]).

    ** What is shown

    - End to end: a vector addition requested on the command line or through
      the library is computed by the firmware and reported
      ([HostSpec.vector_add_end_to_end], [ToolsRun.coralctl_vector_add],
      [FirmwareSpec.command_main_adds]); a matrix product submitted by the
      firmware is computed by the kernel ([HybridSubmit]); a convolution of the
      network goes through staging, descriptor, doorbell and kernel into the
      node's output ([MobilenetHybrid.hybrid_conv_invoke]); an inference leaves
      a mailbox the host accepts exactly when it succeeded
      ([MobilenetMain.main_mailbox]); a DMA read of the core is served from the
      host's memory ([NpuSystem.rtl_dma_read]).
    - The arithmetic: the integer kernels compute the padded, strided,
      requantised operators ([KernelSpec]); the fixed-point routines are
      rounded real arithmetic ([FixedPoint]); both variants of a matrix product
      give the same bits ([GemminiSpec]).
    - Invariants over all interleavings and runs: the bridge's pending request
      ([BridgeSpec]), the device's event ([NpuSpec]), the driver's asynchronous
      protocol and its exclusion ([DriverSpec]), the read driver's order
      ([AxiMaster]), the drain counter ([DrainSpec], and [NpuDrain] for
      the device).
    - Refinement and equivalence: a convolution counts the same wherever it
      runs ([MobilenetSpec]); submission refines the dispatch ([HybridSubmit]);
      the page
      cache of functional DMA is a flat memory ([NpuSystem]).
    - Safety: a dispatch changes nothing but its output ([KernelFrame]); the
      driver maps the shared window only ([DriverSpec.mmap_exact]); the library
      and the tools stay inside their mappings and give them back, whatever the
      arguments, files and answers ([HostSafe], [ToolsSpec]).
    - Termination: search commands end under every schedule that is not unfair
      for ever ([NdpSpec.dev_a_answers]); drain cycles end ([DrainSpec]); the
      firmware's polling ends ([FirmwareSpec]).
    - Sets and round trips: exclusion is set difference, interleaving is a
      partition and its bit removal a bijection ([AddrRangeSpec]); descriptors,
      local memory and shared words are read back as written ([Operator],
      [BridgeSpec], [ToolsRun]).
    - What goes wrong: an unchecked bias, an erased request, a start that races
      a run, misaligned operands, a drain that is not reported or reported too
      early; each as a theorem about the definitions.

    ** Bounds

    Loops over a count are structural ([forZ], lists).  Loops without one take
    a number of turns, and [Hang] is their end: the accesses of the Verilated
    back end ([fuel], [pieces]), the polls of the firmware (the theorems show
    that 4 per operation and 256 elements are enough for every command it
    accepts), the retried poll of the runtime ([turns], only signals use them
    up), the resume loop of the drain manager (one turn is enough), bursts of
    the near-data device (a turn per packet).  A theorem that something
    returns fixes enough turns; a theorem about safety holds for any number.

    ** Not modelled

    - Diagnostics and debug output, statistics objects, and the text of usage
      messages.
    - The Coral core itself, its slave port drivers, and the toolchain's
      start-up code: Verilog and assembly from outside the repository, behind
      the wrapper's class.
    - TensorFlow Lite Micro and the generated model data of the inference
      program, which are not in the repository: a call of the interpreter is
      an operation of a class, and the traced kernels are verified as the
      functions the program registers with it.  How the compiler splits an
      access of that program to its data is not in the source either, so that
      such accesses do not count in the bridge's traffic statistics.
    - The remaining local changes to gem5 (processors, caches, Ruby, devices of
      other platforms, Python) and its configuration scripts: the stack meets
      them only through the interfaces that are classes here.
    - Build, image and report scripts, and the tests: they run external tools.
    - The synchronous hardware barriers (the memory is sequentially
      consistent), memory allocation failure outside [os_malloc], and
      concurrency inside the simulator, whose event loop is sequential. *)

From Stdlib Require Export ZArith Lia.
From stdpp Require Export base list gmap numbers.

#[export] Set Default Goal Selector "!".
#[global] Open Scope Z_scope.

(** ** Outcomes of a C++ computation *)

(** A computation returns a value, stops the simulator through gem5's [fatal]
    or [panic], runs into undefined behaviour (an access outside an object, a
    signed overflow), or has not finished within the steps it was given. *)
Inductive res (A : Type) : Type :=
| Ret (a : A)
| Fatal
| Undef
| Hang.
Arguments Ret {A} a.
Arguments Fatal {A}.
Arguments Undef {A}.
Arguments Hang {A}.

#[export] Instance res_ret : MRet res := fun A a => Ret a.
#[export] Instance res_bind : MBind res := fun A B f m =>
  match m with
  | Ret a => f a
  | Fatal => Fatal
  | Undef => Undef
  | Hang => Hang
  end.

(** The outcome is a value: the run neither stopped nor was undefined. *)
Definition is_ret {A} (m : res A) : bool :=
  match m with Ret _ => true | _ => false end.

(** [fatal_if(cond, ...)]. *)
Definition fatal_if (cond : bool) : res unit := if cond then Fatal else Ret tt.
(** The run is undefined unless [ok] holds. *)
Definition undef_unless (ok : bool) : res unit := if ok then Ret tt else Undef.

Declare Scope npu_scope.
Delimit Scope npu_scope with npu.

Lemma bind_ret_inv {A B} (m : res A) (f : A -> res B) b :
  m ≫= f = Ret b -> exists a, m = Ret a /\ f a = Ret b.
Proof. destruct m; simpl; intros H; [eauto | discriminate H ..]. Qed.

Lemma bind_is_ret {A B} (m : res A) (f : A -> res B) :
  is_ret (m ≫= f) = true <-> exists a, m = Ret a /\ is_ret (f a) = true.
Proof.
  destruct m; simpl; split; try done; [eauto | | by intros (? & ? & _) ..].
  intros (a0 & [= ->] & H). done.
Qed.

(** ** Machine integers *)

(** The value of [z] in an unsigned type of [w] bits. *)
Definition wrap (w z : Z) : Z := z mod 2 ^ w.
(** The value of [z] in a two's complement type of [w] bits. *)
Definition swrap (w z : Z) : Z := (z + 2 ^ (w - 1)) mod 2 ^ w - 2 ^ (w - 1).

Abbreviation u8 := (wrap 8).
Abbreviation u16 := (wrap 16).
Abbreviation u32 := (wrap 32).
Abbreviation u64 := (wrap 64).
Abbreviation i8 := (swrap 8).
Abbreviation i32 := (swrap 32).
Abbreviation i64 := (swrap 64).

Abbreviation UINT32_MAX := 4294967295.
Abbreviation UINT64_MAX := 18446744073709551615.
Abbreviation INT32_MIN := (-2147483648).
Abbreviation INT32_MAX := 2147483647.
Abbreviation INT64_MIN := (-9223372036854775808).
Abbreviation INT64_MAX := 9223372036854775807.
Abbreviation INT8_MIN := (-128).
Abbreviation INT8_MAX := 127.

(** A signed [w]-bit operation whose exact result is [z]: overflow is
    undefined. *)
Definition signed (w z : Z) : res Z :=
  if (- 2 ^ (w - 1) <=? z) && (z <? 2 ^ (w - 1)) then Ret z else Undef.

Definition is_byte (b : Z) : Prop := 0 <= b < 256.

Lemma wrap_range w z : 0 <= w -> 0 <= wrap w z < 2 ^ w.
Proof. intros. apply Z.mod_pos_bound, Z.pow_pos_nonneg; lia. Qed.

Lemma wrap_small w z : 0 <= z < 2 ^ w -> wrap w z = z.
Proof. apply Z.mod_small. Qed.

Lemma wrap_wrap w z : 0 <= w -> wrap w (wrap w z) = wrap w z.
Proof. intros. apply wrap_small, wrap_range. lia. Qed.

Lemma swrap_small w z :
  0 < w -> - 2 ^ (w - 1) <= z < 2 ^ (w - 1) -> swrap w z = z.
Proof.
  intros Hw Hz. unfold swrap.
  assert (2 ^ w = 2 * 2 ^ (w - 1)) as E.
  { replace w with (Z.succ (w - 1)) at 1 by lia. apply Z.pow_succ_r. lia. }
  rewrite Z.mod_small; lia.
Qed.

Lemma swrap_range w z : 0 < w -> - 2 ^ (w - 1) <= swrap w z < 2 ^ (w - 1).
Proof.
  intros Hw. unfold swrap.
  assert (2 ^ w = 2 * 2 ^ (w - 1)) as E.
  { replace w with (Z.succ (w - 1)) at 1 by lia. apply Z.pow_succ_r. lia. }
  assert (0 < 2 ^ (w - 1)) by (apply Z.pow_pos_nonneg; lia).
  pose proof (Z.mod_pos_bound (z + 2 ^ (w - 1)) (2 ^ w)). lia.
Qed.

Lemma signed_ret w z :
  - 2 ^ (w - 1) <= z < 2 ^ (w - 1) -> signed w z = Ret z.
Proof.
  intros. unfold signed.
  replace (_ && _) with true; [done |].
  symmetry. apply andb_true_iff. rewrite Z.leb_le, Z.ltb_lt. done.
Qed.

Lemma signed_ret_inv w z z' :
  signed w z = Ret z' -> z' = z /\ - 2 ^ (w - 1) <= z < 2 ^ (w - 1).
Proof.
  unfold signed. destruct (_ && _) eqn:E; [| done].
  intros H. injection H as <-.
  apply andb_true_iff in E. rewrite Z.leb_le, Z.ltb_lt in E. done.
Qed.

(** Clamping: [std::max(lo, std::min(hi, v))]. *)
Definition clamp (lo hi v : Z) : Z := Z.max lo (Z.min hi v).

Lemma clamp_range lo hi v : lo <= hi -> lo <= clamp lo hi v <= hi.
Proof. unfold clamp. lia. Qed.

Lemma clamp_id lo hi v : lo <= v <= hi -> clamp lo hi v = v.
Proof. unfold clamp. lia. Qed.

(** ** Little-endian bytes *)

Fixpoint le_bytes (n : nat) (z : Z) : list Z :=
  match n with
  | O => []
  | S n => z mod 256 :: le_bytes n (z / 256)
  end.

Definition le_val (bs : list Z) : Z := foldr (fun b acc => b + 256 * acc) 0 bs.

Lemma length_le_bytes n z : length (le_bytes n z) = n.
Proof. revert z; induction n; simpl; auto. Qed.

Lemma le_bytes_byte n z : Forall is_byte (le_bytes n z).
Proof.
  revert z; induction n; simpl; constructor; auto.
  apply Z.mod_pos_bound. lia.
Qed.

Lemma pow256 (n : nat) : 2 ^ (8 * Z.of_nat (S n)) = 256 * 2 ^ (8 * Z.of_nat n).
Proof.
  replace (8 * Z.of_nat (S n)) with (8 + 8 * Z.of_nat n) by lia.
  rewrite Z.pow_add_r by lia. reflexivity.
Qed.

Lemma le_val_bytes n z : le_val (le_bytes n z) = z mod 2 ^ (8 * Z.of_nat n).
Proof.
  revert z; induction n as [|n IH]; intros z.
  { simpl. rewrite Z.mod_1_r. reflexivity. }
  cbn [le_bytes le_val foldr]. fold (le_val (le_bytes n (z / 256))).
  rewrite IH, pow256, Z.rem_mul_r; [lia .. | ].
  apply Z.pow_pos_nonneg; lia.
Qed.

Lemma le_val_range bs :
  Forall is_byte bs -> 0 <= le_val bs < 2 ^ (8 * Z.of_nat (length bs)).
Proof.
  induction 1 as [|b bs Hb _ IH]; [simpl; lia |].
  cbn [length]. rewrite pow256. cbn [le_val foldr]. fold (le_val bs).
  unfold is_byte in Hb. lia.
Qed.

Lemma le_bytes_val bs :
  Forall is_byte bs -> le_bytes (length bs) (le_val bs) = bs.
Proof.
  induction 1 as [|b bs Hb _ IH]; [done |].
  cbn [length le_bytes le_val foldr]. fold (le_val bs).
  unfold is_byte in Hb.
  rewrite (Z.add_comm b), (Z.mul_comm 256), Z.div_add_l, Z.add_comm by lia.
  rewrite Z.mod_add, Z.mod_small, Z.div_small, Z.add_0_r, IH by lia. done.
Qed.

(** ** Loops *)

(** [for (i = 0; i < n; ++i) body(i)] over a state [S]; the body may stop. *)
Fixpoint foldM {A S} (body : A -> S -> res S) (l : list A) (s : S) : res S :=
  match l with
  | [] => Ret s
  | a :: l => s' ← body a s; foldM body l s'
  end.

Definition forZ {S} (n : Z) (body : Z -> S -> res S) (s : S) : res S :=
  foldM body (seqZ 0 n) s.

(** The sum of [f 0 .. f (n-1)]. *)
Definition sumZ (n : Z) (f : Z -> Z) : Z :=
  foldr (fun i acc => f i + acc) 0 (seqZ 0 n).

Lemma foldM_app {A S} (body : A -> S -> res S) l1 l2 s :
  foldM body (l1 ++ l2) s = foldM body l1 s ≫= foldM body l2.
Proof.
  revert s. induction l1 as [|a l1 IH]; intros s; [done |]. simpl.
  destruct (body a s); simpl; auto.
Qed.

Lemma seqZ_snoc n : 0 <= n -> seqZ 0 (n + 1) = seqZ 0 n ++ [n].
Proof. intros. rewrite seqZ_app by lia. simpl. by rewrite Z.add_0_l. Qed.

Lemma forZ_0 {S} n (body : Z -> S -> res S) s : n <= 0 -> forZ n body s = Ret s.
Proof. intros. unfold forZ. by rewrite seqZ_nil by lia. Qed.

Lemma forZ_succ {S} n (body : Z -> S -> res S) s :
  0 <= n -> forZ (n + 1) body s = forZ n body s ≫= body n.
Proof.
  intros. unfold forZ. rewrite seqZ_snoc, foldM_app by lia.
  destruct (foldM body (seqZ 0 n) s); simpl; [| done ..].
  by destruct (body n a).
Qed.

(** Total correctness: an invariant that every iteration re-establishes holds
    when the loop ends, and the loop does end with a value. *)
Lemma forZ_ret {S} (P : Z -> S -> Prop) n (body : Z -> S -> res S) s :
  0 <= n -> P 0 s ->
  (forall i s, 0 <= i < n -> P i s -> exists s', body i s = Ret s' /\ P (i + 1) s') ->
  exists s', forZ n body s = Ret s' /\ P n s'.
Proof.
  intros Hn H0 Hstep.
  assert (forall m, 0 <= m -> m <= n -> exists s', forZ m body s = Ret s' /\ P m s')
    as H; [| by apply H].
  intros m Hm. pattern m. apply natlike_ind; [| | done].
  - intros _. exists s. by rewrite forZ_0.
  - intros k Hk IH Hkn. destruct IH as (s1 & E1 & H1); [lia |].
    destruct (Hstep k s1) as (s2 & E2 & H2); [lia | done |].
    exists s2. unfold Z.succ. rewrite forZ_succ, E1 by lia. done.
Qed.

(** Partial correctness: what holds of every run that ends with a value. *)
Lemma forZ_inv {S} (P : Z -> S -> Prop) n (body : Z -> S -> res S) s s' :
  0 <= n -> forZ n body s = Ret s' -> P 0 s ->
  (forall i s s', 0 <= i < n -> P i s -> body i s = Ret s' -> P (i + 1) s') ->
  P n s'.
Proof.
  intros Hn E H0 Hstep.
  assert (forall m, 0 <= m -> m <= n -> forall s', forZ m body s = Ret s' -> P m s')
    as H; [| by apply (H n)].
  clear s' E. intros m Hm. pattern m. apply natlike_ind; [| | done].
  - intros _ s' E. rewrite forZ_0 in E by lia. by injection E as <-.
  - intros k Hk IH Hkn s2 E2. unfold Z.succ in E2.
    rewrite forZ_succ in E2 by lia.
    apply bind_ret_inv in E2 as (s1 & E1 & E2).
    apply (Hstep k s1); [lia | apply IH; [lia | done] | done].
Qed.

Lemma forZ_ext {S} n (f g : Z -> S -> res S) s :
  (forall i s, 0 <= i < n -> f i s = g i s) -> forZ n f s = forZ n g s.
Proof.
  intros Hfg. unfold forZ.
  assert (Forall (fun i => 0 <= i < n) (seqZ 0 n)) as HF.
  { apply Forall_seqZ. lia. }
  revert s. induction HF as [|i l Hi _ IH]; intros s; [done |].
  simpl. rewrite Hfg by done. by destruct (g i s); simpl.
Qed.

Lemma sumZ_0 f n : n <= 0 -> sumZ n f = 0.
Proof. intros. unfold sumZ. by rewrite seqZ_nil by lia. Qed.

Lemma sumZ_succ n f : 0 <= n -> sumZ (n + 1) f = sumZ n f + f n.
Proof.
  intros. unfold sumZ. rewrite seqZ_snoc, foldr_app by lia. simpl.
  rewrite Z.add_0_r. generalize (f n). intros c.
  induction (seqZ 0 n) as [|i l IH]; simpl; lia.
Qed.

Lemma sumZ_ext n f g :
  (forall i, 0 <= i < n -> f i = g i) -> sumZ n f = sumZ n g.
Proof.
  intros Hfg. unfold sumZ.
  assert (Forall (fun i => 0 <= i < n) (seqZ 0 n)) as HF.
  { apply Forall_seqZ. lia. }
  induction HF as [|i l Hi _ IH]; [done |]. simpl. rewrite Hfg, IH by done. done.
Qed.

Lemma sumZ_bound n f c :
  0 <= n -> 0 <= c -> (forall i, 0 <= i < n -> Z.abs (f i) <= c) ->
  Z.abs (sumZ n f) <= n * c.
Proof.
  intros Hn Hc Hf.
  assert (forall m, 0 <= m -> m <= n -> Z.abs (sumZ m f) <= m * c) as H; [| by apply H].
  intros m Hm. pattern m. apply natlike_ind; [| | done].
  - intros _. rewrite sumZ_0 by lia. lia.
  - intros k Hk IH Hkn. unfold Z.succ. rewrite sumZ_succ by lia.
    specialize (IH ltac:(lia)). specialize (Hf k ltac:(lia)). lia.
Qed.

(** ** Byte buffers *)

(** A [std::vector<uint8_t>] (or a C array) of [buf_len] bytes; the bytes no
    write has touched are zero, as after [vector(n, 0)]. *)
Record buf := Buf { buf_len : Z; buf_map : gmap Z Z }.

Definition buf_new (n : Z) : buf := Buf n ∅.
Definition buf_at (b : buf) (i : Z) : Z := default 0 (buf_map b !! i).

Fixpoint blit (m : gmap Z Z) (off : Z) (bs : list Z) : gmap Z Z :=
  match bs with
  | [] => m
  | b :: bs => <[off := b]> (blit m (off + 1) bs)
  end.

(** [off .. off+n) lies inside the buffer. *)
Definition buf_in (b : buf) (off n : Z) : bool :=
  (0 <=? off) && (0 <=? n) && (off + n <=? buf_len b).

Definition buf_slice (b : buf) (off n : Z) : list Z := buf_at b <$> seqZ off n.
Definition buf_blit (b : buf) (off : Z) (bs : list Z) : buf :=
  Buf (buf_len b) (blit (buf_map b) off bs).

(** [memcpy] out of and into a buffer: outside its bytes it is undefined. *)
Definition buf_read (b : buf) (off n : Z) : res (list Z) :=
  if buf_in b off n then Ret (buf_slice b off n) else Undef.
Definition buf_write (b : buf) (off : Z) (bs : list Z) : res buf :=
  if buf_in b off (Z.of_nat (length bs)) then Ret (buf_blit b off bs) else Undef.

Definition load_u8 (b : buf) (off : Z) : res Z :=
  bs ← buf_read b off 1; Ret (le_val bs).
Definition load_i8 (b : buf) (off : Z) : res Z :=
  bs ← buf_read b off 1; Ret (i8 (le_val bs)).
Definition load_u32 (b : buf) (off : Z) : res Z :=
  bs ← buf_read b off 4; Ret (le_val bs).
Definition load_i32 (b : buf) (off : Z) : res Z :=
  bs ← buf_read b off 4; Ret (i32 (le_val bs)).
Definition store_i8 (b : buf) (off v : Z) : res buf :=
  buf_write b off (le_bytes 1 v).
Definition store_u32 (b : buf) (off v : Z) : res buf :=
  buf_write b off (le_bytes 4 v).

Definition buf_bytes (b : buf) : Prop := forall i, is_byte (buf_at b i).

Lemma lookup_blit m off bs i :
  blit m off bs !! i =
    if decide (off <= i < off + Z.of_nat (length bs))
    then bs !! Z.to_nat (i - off) else m !! i.
Proof.
  revert off. induction bs as [|b bs IH]; intros off; simpl.
  { case_decide; [lia | done]. }
  destruct (decide (off = i)) as [<-|Hne].
  - rewrite lookup_insert_eq, Z.sub_diag. case_decide; [done | lia].
  - rewrite lookup_insert_ne, IH by done.
    case_decide; case_decide; try lia; try done.
    replace (Z.to_nat (i - off)) with (S (Z.to_nat (i - (off + 1)))) by lia.
    done.
Qed.

Lemma buf_at_blit b off bs i :
  buf_at (buf_blit b off bs) i =
    if decide (off <= i < off + Z.of_nat (length bs))
    then bs !!! Z.to_nat (i - off) else buf_at b i.
Proof.
  unfold buf_at, buf_blit. simpl. rewrite lookup_blit.
  case_decide; [| done].
  rewrite (list_lookup_lookup_total_lt bs) by lia. done.
Qed.

Lemma buf_at_new n i : buf_at (buf_new n) i = 0.
Proof. done. Qed.

Lemma buf_bytes_new n : buf_bytes (buf_new n).
Proof. intros i. rewrite buf_at_new. unfold is_byte. lia. Qed.

Lemma buf_bytes_blit b off bs :
  buf_bytes b -> Forall is_byte bs -> buf_bytes (buf_blit b off bs).
Proof.
  intros Hb Hbs i. rewrite buf_at_blit. case_decide; [| apply Hb].
  apply (Forall_lookup_1 _ _ (Z.to_nat (i - off)) _ Hbs).
  apply list_lookup_lookup_total_lt. lia.
Qed.

Lemma length_buf_slice b off n : length (buf_slice b off n) = Z.to_nat n.
Proof. unfold buf_slice. by rewrite length_fmap, length_seqZ. Qed.

Lemma lookup_buf_slice b off n (i : nat) :
  (Z.of_nat i < n) -> buf_slice b off n !! i = Some (buf_at b (off + Z.of_nat i)).
Proof.
  intros. unfold buf_slice. rewrite list_lookup_fmap, lookup_seqZ_lt by lia. done.
Qed.

Lemma buf_slice_ext b1 b2 off n :
  (forall i, off <= i < off + n -> buf_at b1 i = buf_at b2 i) ->
  buf_slice b1 off n = buf_slice b2 off n.
Proof.
  intros H. unfold buf_slice. apply list_fmap_ext. intros k i Hk.
  apply lookup_seqZ in Hk. apply H. lia.
Qed.

Lemma buf_slice_bytes b off n : buf_bytes b -> Forall is_byte (buf_slice b off n).
Proof. intros Hb. unfold buf_slice. apply Forall_fmap, Forall_true. intros i. apply Hb. Qed.

Lemma buf_slice_blit_same b off bs :
  buf_slice (buf_blit b off bs) off (Z.of_nat (length bs)) = bs.
Proof.
  apply list_eq_same_length with (n := length bs); [done | |].
  { rewrite length_buf_slice. lia. }
  intros i x y Hi Hx Hy. rewrite lookup_buf_slice in Hx by lia.
  injection Hx as <-. rewrite buf_at_blit. case_decide; [| lia].
  replace (Z.to_nat _) with i by lia. by apply list_lookup_total_correct.
Qed.

Lemma buf_slice_blit_disjoint b off bs off' n :
  off' + n <= off \/ off + Z.of_nat (length bs) <= off' ->
  buf_slice (buf_blit b off bs) off' n = buf_slice b off' n.
Proof.
  intros H. apply buf_slice_ext. intros i Hi. rewrite buf_at_blit.
  case_decide; [lia | done].
Qed.

Lemma buf_read_ret b off n :
  0 <= off -> 0 <= n -> off + n <= buf_len b -> buf_read b off n = Ret (buf_slice b off n).
Proof.
  intros. unfold buf_read, buf_in.
  replace (_ && _ && _) with true; [done |]. symmetry.
  rewrite !andb_true_iff, !Z.leb_le. lia.
Qed.

Lemma buf_write_ret b off bs :
  0 <= off -> off + Z.of_nat (length bs) <= buf_len b ->
  buf_write b off bs = Ret (buf_blit b off bs).
Proof.
  intros. unfold buf_write, buf_in.
  replace (_ && _ && _) with true; [done |]. symmetry.
  rewrite !andb_true_iff, !Z.leb_le. lia.
Qed.

Lemma buf_read_inv b off n bs :
  buf_read b off n = Ret bs ->
  0 <= off /\ 0 <= n /\ off + n <= buf_len b /\ bs = buf_slice b off n.
Proof.
  unfold buf_read. destruct (buf_in b off n) eqn:E; [| done].
  intros [= <-]. unfold buf_in in E. rewrite !andb_true_iff, !Z.leb_le in E.
  destruct E as [[? ?] ?]. done.
Qed.

Lemma buf_write_inv b off bs b' :
  buf_write b off bs = Ret b' ->
  0 <= off /\ off + Z.of_nat (length bs) <= buf_len b /\ b' = buf_blit b off bs.
Proof.
  unfold buf_write. destruct (buf_in b off _) eqn:E; [| done].
  intros [= <-]. unfold buf_in in E. rewrite !andb_true_iff, !Z.leb_le in E.
  destruct E as [[? ?] ?]. done.
Qed.

Lemma lookup_total_slice b off n (i : nat) :
  Z.of_nat i < n -> buf_slice b off n !!! i = buf_at b (off + Z.of_nat i).
Proof. intros. apply list_lookup_total_correct. by apply lookup_buf_slice. Qed.

(** A slice inside the bytes just written. *)
Lemma buf_slice_blit_in b off bs k n :
  0 <= k -> 0 <= n -> k + n <= Z.of_nat (length bs) ->
  buf_slice (buf_blit b off bs) (off + k) n = take (Z.to_nat n) (drop (Z.to_nat k) bs).
Proof.
  intros Hk Hn Hl. apply list_eq_same_length with (n := Z.to_nat n).
  - rewrite length_take, length_drop. lia.
  - by rewrite length_buf_slice.
  - intros i x y Hi Hx Hy. rewrite lookup_buf_slice in Hx by lia. injection Hx as <-.
    rewrite lookup_take_lt, lookup_drop in Hy by done.
    rewrite buf_at_blit. case_decide; [| lia].
    replace (Z.to_nat _) with (Z.to_nat k + i)%nat by lia.
    by apply list_lookup_total_correct.
Qed.

(** ** Powers of two and masks *)

(** [x & (x - 1) == 0] for a nonzero [x]. *)
Lemma pow2_of_land x : 0 < x -> Z.land x (x - 1) = 0 -> x = 2 ^ Z.log2 x.
Proof.
  intros Hx H. pose proof (Z.log2_spec x Hx) as [Hlo Hhi].
  destruct (decide (x = 2 ^ Z.log2 x)) as [|Hne]; [done | exfalso].
  pose proof (Z.log2_nonneg x).
  assert (Z.log2 (x - 1) = Z.log2 x) as E.
  { apply Z.log2_unique; lia. }
  assert (Z.testbit (Z.land x (x - 1)) (Z.log2 x) = true) as Hb.
  { rewrite Z.land_spec, Z.bit_log2 by done. rewrite <- E at 1.
    rewrite Z.bit_log2; [done |].
    pose proof (Z.pow_pos_nonneg 2 (Z.log2 x) ltac:(lia) ltac:(lia)). lia. }
  by rewrite H, Z.bits_0 in Hb.
Qed.

Lemma land_pow2_pred k : 0 <= k -> Z.land (2 ^ k) (2 ^ k - 1) = 0.
Proof.
  intros. replace (2 ^ k - 1) with (Z.ones k) by (rewrite Z.ones_equiv; lia).
  rewrite Z.land_ones by done. by apply Z.mod_same, Z.pow_nonzero.
Qed.

(** [z & ~(2^k - 1)] in 32 bits rounds down to a multiple of [2^k]. *)
Lemma land_align z k :
  0 <= z < 2 ^ 32 -> 0 <= k <= 32 ->
  Z.land z (u32 (Z.lnot (2 ^ k - 1))) = z - z mod 2 ^ k.
Proof.
  intros Hz Hk.
  pose proof (Z.pow_pos_nonneg 2 k ltac:(lia) ltac:(lia)).
  assert (z - z mod 2 ^ k = Z.ldiff z (Z.ones k)) as ->.
  { rewrite Z.ldiff_ones_r, Z.shiftl_mul_pow2, Z.shiftr_div_pow2 by lia.
    pose proof (Z.div_mod z (2 ^ k) ltac:(lia)). lia. }
  apply Z.bits_inj'. intros n Hn.
  rewrite Z.land_spec, Z.ldiff_spec. unfold wrap.
  destruct (decide (n < 32)).
  - rewrite Z.mod_pow2_bits_low, Z.lnot_spec by lia.
    replace (2 ^ k - 1) with (Z.ones k) by (rewrite Z.ones_equiv; lia). done.
  - rewrite <- (Z.mod_small z (2 ^ 32)) at 1 2 by lia.
    by rewrite Z.mod_pow2_bits_high by lia.
Qed.

(** A loop whose body may [return false] part way: the state it has reached
    is what the caller sees. *)
Fixpoint whileM {A S} (body : A -> S -> bool * S) (l : list A) (s : S) : bool * S :=
  match l with
  | [] => (true, s)
  | a :: l => let '(ok, s') := body a s in if ok then whileM body l s' else (false, s')
  end.

Definition for_while {S} (n : Z) (body : Z -> S -> bool * S) (s : S) : bool * S :=
  whileM body (seqZ 0 n) s.

Lemma whileM_app {A S} (body : A -> S -> bool * S) l1 l2 s :
  whileM body (l1 ++ l2) s =
    let '(ok, s') := whileM body l1 s in
    if ok then whileM body l2 s' else (false, s').
Proof.
  revert s. induction l1 as [|a l1 IH]; intros s; simpl; [done |].
  destruct (body a s) as [[] s1]; auto.
Qed.

Lemma forallb_seqZ_snoc (Q : Z -> bool) n :
  0 <= n -> forallb Q (seqZ 0 (n + 1)) = forallb Q (seqZ 0 n) && Q n.
Proof. intros. rewrite seqZ_snoc, forallb_app by lia. simpl. by rewrite andb_true_r. Qed.

Lemma forallb_seqZ (Q : Z -> bool) n :
  forallb Q (seqZ 0 n) = true <-> forall i, 0 <= i < n -> Q i = true.
Proof.
  rewrite forallb_forall. split; intros H i Hi; apply H.
  - apply list_elem_of_In, elem_of_seqZ. lia.
  - apply list_elem_of_In, elem_of_seqZ in Hi. lia.
Qed.

(** Such a loop returns [true] exactly when the guard [Q] of every iteration
    holds, and then its invariant holds at the end. *)
Lemma for_while_spec {S} (Inv : Z -> S -> Prop) (Q : Z -> bool) n
    (body : Z -> S -> bool * S) s :
  0 <= n -> Inv 0 s ->
  (forall i s, 0 <= i < n -> Inv i s ->
     if Q i then exists s', body i s = (true, s') /\ Inv (i + 1) s'
     else fst (body i s) = false) ->
  if forallb Q (seqZ 0 n)
  then exists s', for_while n body s = (true, s') /\ Inv n s'
  else fst (for_while n body s) = false.
Proof.
  intros Hn H0 Hstep. unfold for_while.
  assert (forall m, 0 <= m -> m <= n ->
    if forallb Q (seqZ 0 m)
    then exists s', whileM body (seqZ 0 m) s = (true, s') /\ Inv m s'
    else fst (whileM body (seqZ 0 m) s) = false) as H; [| by apply H].
  intros m Hm. pattern m. apply natlike_ind; [| | done].
  - intros _. simpl. eauto.
  - intros k Hk IH Hkn. specialize (IH ltac:(lia)). unfold Z.succ.
    rewrite forallb_seqZ_snoc, seqZ_snoc, whileM_app by lia.
    destruct (forallb Q (seqZ 0 k)); simpl.
    + destruct IH as (s1 & -> & H1). specialize (Hstep k s1 ltac:(lia) H1).
      simpl. destruct (Q k).
      * destruct Hstep as (s2 & -> & H2). eauto.
      * destruct (body k s1) as [ok s2]. simpl in Hstep. by subst ok.
    + destruct (whileM body (seqZ 0 k) s) as [ok s1]. simpl in IH. by subst ok.
Qed.

(** The case in which the state after [i] iterations is a function of [i]. *)
Lemma for_while_fun {S} (F : Z -> S) (Q : Z -> bool) n (body : Z -> S -> bool * S) :
  0 <= n ->
  (forall i, 0 <= i < n ->
     if Q i then body i (F i) = (true, F (i + 1)) else fst (body i (F i)) = false) ->
  if forallb Q (seqZ 0 n) then for_while n body (F 0) = (true, F n)
  else fst (for_while n body (F 0)) = false.
Proof.
  intros Hn Hstep.
  pose proof (for_while_spec (fun i s => s = F i) Q n body (F 0) Hn eq_refl) as H.
  destruct (forallb Q _).
  - destruct H as (s' & -> & ->); [| done].
    intros i s Hi ->. specialize (Hstep i Hi). destruct (Q i); eauto.
  - apply H. intros i s Hi ->. specialize (Hstep i Hi). destruct (Q i); eauto.
Qed.

Lemma for_while_true_inv {S} n (body : Z -> S -> bool * S) s s' i :
  for_while n body s = (true, s') -> 0 <= i < n -> exists si, fst (body i si) = true.
Proof.
  unfold for_while. intros E Hi.
  assert (i ∈ seqZ 0 n) as Hin by (apply elem_of_seqZ; lia).
  clear Hi. revert s E. induction (seqZ 0 n) as [|a l IH]; intros s E.
  { by apply not_elem_of_nil in Hin. }
  simpl in E. destruct (body a s) as [[] s1] eqn:Ea; [| done].
  apply elem_of_cons in Hin as [->|Hin]; [| eauto].
  exists s. by rewrite Ea.
Qed.

(** ** Automation *)

Create HintDb npu.
#[export] Hint Resolve wrap_range swrap_range buf_bytes_new buf_bytes_blit
  buf_slice_bytes le_bytes_byte : npu.

(** Turns the boolean tests among the hypotheses and in the goal into
    arithmetic. *)
Ltac bool_prop :=
  rewrite ?andb_true_iff, ?orb_true_iff, ?negb_true_iff, ?andb_false_iff,
    ?orb_false_iff, ?negb_false_iff, ?Z.ltb_lt, ?Z.ltb_ge, ?Z.leb_le,
    ?Z.leb_gt, ?Z.eqb_eq, ?Z.eqb_neq in *.

(** Splits on the first boolean test the goal branches on. *)
Ltac case_test :=
  match goal with
  | |- context [if ?b then _ else _] =>
      match type of b with
      | bool => let E := fresh "E" in destruct b eqn:E
      end
  end.

Ltac case_test_in H :=
  match type of H with
  | context [if ?b then _ else _] =>
      match type of b with
      | bool => let E := fresh "E" in destruct b eqn:E
      end
  end.

(** Follows a chain of binds that ended with a value. *)
Ltac inv_ret :=
  repeat match goal with
  | H : Ret _ = Ret _ |- _ => injection H as ?; subst
  | H : Undef = Ret _ |- _ => discriminate H
  | H : Fatal = Ret _ |- _ => discriminate H
  | H : Hang = Ret _ |- _ => discriminate H
  | H : (_ ≫= _) = Ret _ |- _ =>
      let x := fresh "x" in let E := fresh "E" in
      apply bind_ret_inv in H as (x & E & H)
  end.
