(* ===== verification/Axi.v ===== *)
(** * AXI transactions and the DMA request of the gem5 bridge

    The AXI records the bridge exchanges with the core, the DMA request of
    [coralnpu_gem5_abi.h], the two builders of [gem5_dma_request_builder.h]
    and the split of read data into response beats that
    [coralnpu_gem5_abi.cc] performs for local memory and for completed DMA.
    A [VlWide<4>] is the list of its sixteen bytes in memory order. *)

From S2P Require Import Prelude.

(** ** Data *)

Definition CORAL_GEM5_ABI_VERSION : Z := 6.
Definition CORAL_GEM5_AXI_DATA_BYTES : Z := 16.
Definition CORAL_GEM5_DMA_DATA_BYTES : Z := 4096.
Definition CORAL_GEM5_DMA_READ : Z := 0.
Definition CORAL_GEM5_DMA_WRITE : Z := 1.

Record AxiAddr := {
  addr_bits_addr : Z; addr_bits_prot : Z; addr_bits_id : Z; addr_bits_len : Z;
  addr_bits_size : Z; addr_bits_burst : Z; addr_bits_lock : Z;
  addr_bits_cache : Z; addr_bits_qos : Z; addr_bits_region : Z }.

Record AxiWData := {
  write_data_bits_data : list Z;
  write_data_bits_strb : Z;
  write_data_bits_last : Z }.

Record AxiRData := {
  read_data_bits_data : list Z;
  read_data_bits_id : Z;
  read_data_bits_resp : Z;
  read_data_bits_last : Z }.

Record AxiWResp := { write_resp_bits_id : Z; write_resp_bits_resp : Z }.

Record coral_gem5_dma_request := {
  req_type : Z; req_addr : Z; req_size : Z; req_id : Z; req_data : list Z }.

(** The fields hold what their C types hold. *)
Definition axi_addr_wf (a : AxiAddr) : Prop :=
  0 <= addr_bits_addr a < 2 ^ 32 /\ 0 <= addr_bits_id a < 2 ^ 8 /\
  0 <= addr_bits_len a < 2 ^ 8 /\ 0 <= addr_bits_size a < 2 ^ 8 /\
  0 <= addr_bits_burst a < 2 ^ 8.

Definition axi_wdata_wf (d : AxiWData) : Prop :=
  length (write_data_bits_data d) = 16%nat /\
  Forall is_byte (write_data_bits_data d) /\
  0 <= write_data_bits_strb d < 2 ^ 16 /\ 0 <= write_data_bits_last d < 2 ^ 8.

Definition zero_data : list Z := replicate 4096 0.

(** [memset(request, 0, sizeof( *request))]. *)
Definition dma_request_zero : coral_gem5_dma_request :=
  {| req_type := 0; req_addr := 0; req_size := 0; req_id := 0;
     req_data := zero_data |}.

Definition set_data (r : coral_gem5_dma_request) (d : list Z) :
    coral_gem5_dma_request :=
  {| req_type := req_type r; req_addr := req_addr r; req_size := req_size r;
     req_id := req_id r; req_data := d |}.

(** ** Bursts *)

Definition bytes_per_beat (addr : AxiAddr) : Z :=
  u32 (Z.shiftl 1 (addr_bits_size addr)).
Definition burst_beats (addr : AxiAddr) : Z := u32 (addr_bits_len addr + 1).
Definition burst_size (addr : AxiAddr) : Z :=
  u32 (bytes_per_beat addr * burst_beats addr).
Definition page_offset (addr : AxiAddr) : Z := Z.land (addr_bits_addr addr) 4095.

(** The byte lane of beat [beat] of a burst at [base]. *)
Definition beat_lane (base beat_size beat : Z) : Z :=
  Z.land (u32 (base + u32 (beat * beat_size))) (CORAL_GEM5_AXI_DATA_BYTES - 1).

Definition lane_fits (base beat_size beat : Z) : bool :=
  beat_lane base beat_size beat + beat_size <=? CORAL_GEM5_AXI_DATA_BYTES.

(** ** The read request *)

(** [None] is [return false]; every failing test precedes the first store. *)
Definition BuildGem5DmaReadRequest (addr : AxiAddr)
    (request : option coral_gem5_dma_request) (beat_size beat_count : option Z) :
    option (coral_gem5_dma_request * Z * Z) :=
  match request, beat_size, beat_count with
  | Some _, Some _, Some _ =>
      if (4 <? addr_bits_size addr) || negb (addr_bits_burst addr =? 1) then None
      else if (CORAL_GEM5_DMA_DATA_BYTES <? burst_size addr)
              || (4096 <? page_offset addr + burst_size addr) then None
      else if forallb (lane_fits (addr_bits_addr addr) (bytes_per_beat addr))
                (seqZ 0 (burst_beats addr))
      then Some ({| req_type := CORAL_GEM5_DMA_READ;
                    req_addr := addr_bits_addr addr;
                    req_size := burst_size addr;
                    req_id := addr_bits_id addr;
                    req_data := req_data dma_request_zero |},
                 bytes_per_beat addr, burst_beats addr)
      else None
  | _, _, _ => None
  end.

(** ** The write request *)

(** One byte of one beat: its strobe must be set. *)
Definition copy_byte (d : AxiWData) (bpb beat lane i : Z) (data : list Z) :
    bool * list Z :=
  let byte_lane := lane + i in
  if Z.land (write_data_bits_strb d) (Z.shiftl 1 byte_lane) =? 0
  then (false, data)
  else (true, <[Z.to_nat (beat * bpb + i) :=
                  write_data_bits_data d !!! Z.to_nat byte_lane]> data).

(** One beat: the [last] flag, the lane, then the bytes. *)
Definition copy_beat (addr : AxiAddr) (wdata : list AxiWData) (beat : Z)
    (data : list Z) : bool * list Z :=
  match wdata !! Z.to_nat beat with
  | None => (false, data)
  | Some d =>
      let bpb := bytes_per_beat addr in
      let last := beat + 1 =? burst_beats addr in
      if negb (write_data_bits_last d =? Z.b2z last) then (false, data)
      else if negb (lane_fits (addr_bits_addr addr) bpb beat) then (false, data)
      else for_while bpb
             (copy_byte d bpb beat (beat_lane (addr_bits_addr addr) bpb beat)) data
  end.

(** The result and the request as the call leaves it: a failure after the
    [memset] leaves it partly filled. *)
Definition BuildGem5DmaWriteRequest (addr : AxiAddr) (data : list AxiWData)
    (request : option coral_gem5_dma_request) :
    bool * option coral_gem5_dma_request :=
  match request with
  | None => (false, None)
  | Some r0 =>
      if (4 <? addr_bits_size addr) || negb (addr_bits_burst addr =? 1)
      then (false, Some r0)
      else if negb (Z.of_nat (length data) =? burst_beats addr)
              || (CORAL_GEM5_DMA_DATA_BYTES <? burst_size addr)
              || (4096 <? page_offset addr + burst_size addr)
      then (false, Some r0)
      else
        let r := {| req_type := CORAL_GEM5_DMA_WRITE;
                    req_addr := addr_bits_addr addr;
                    req_size := burst_size addr;
                    req_id := addr_bits_id addr;
                    req_data := req_data dma_request_zero |} in
        let '(ok, bytes) :=
          for_while (burst_beats addr) (copy_beat addr data) (req_data r) in
        (ok, Some (set_data r bytes))
  end.

(** ** Response beats *)

(** [memcpy(destination + lane, bytes, n)] into the sixteen zeroed bytes. *)
Definition lane_data (lane : Z) (bytes : list Z) : list Z :=
  replicate (Z.to_nat lane) 0 ++ bytes ++
  replicate (16 - Z.to_nat lane - length bytes) 0.

(** Beat [beat] of the answer to a read of [beat_count] beats at [base]:
    [source] holds the bytes of the whole burst. *)
Definition read_beat (base beat_size beat_count id : Z) (source : list Z)
    (beat : Z) : AxiRData :=
  {| read_data_bits_data :=
       lane_data (beat_lane base beat_size beat)
         (take (Z.to_nat beat_size) (drop (Z.to_nat (beat * beat_size)) source));
     read_data_bits_id := u8 id;
     read_data_bits_resp := 0;
     read_data_bits_last := Z.b2z (beat + 1 =? beat_count) |}.

Definition read_beats (base beat_size beat_count id : Z) (source : list Z) :
    list AxiRData :=
  read_beat base beat_size beat_count id source <$> seqZ 0 beat_count.

(** The single-beat error answer. *)
Definition kAxiSlvErr : Z := 2.
Definition read_error (id : Z) : AxiRData :=
  {| read_data_bits_data := replicate 16 0; read_data_bits_id := id;
     read_data_bits_resp := kAxiSlvErr; read_data_bits_last := 1 |}.

(** ** What a legal burst is *)

(** An incrementing burst of at most sixteen bytes a beat that stays in its
    4 KiB page and whose beats stay on the data lanes. *)
Definition burst_ok (addr : AxiAddr) : Prop :=
  addr_bits_size addr <= 4 /\ addr_bits_burst addr = 1 /\
  addr_bits_addr addr mod 4096
    + 2 ^ addr_bits_size addr * (addr_bits_len addr + 1) <= 4096 /\
  forall beat, 0 <= beat < addr_bits_len addr + 1 ->
    (addr_bits_addr addr + beat * 2 ^ addr_bits_size addr) mod 16
      + 2 ^ addr_bits_size addr <= 16.

(** The bytes beat [beat] carries, and the payload of the first [n] beats. *)
Definition beat_bytes (addr : AxiAddr) (wdata : list AxiWData) (beat : Z) : list Z :=
  match wdata !! Z.to_nat beat with
  | Some d =>
      take (Z.to_nat (2 ^ addr_bits_size addr))
        (drop (Z.to_nat ((addr_bits_addr addr + beat * 2 ^ addr_bits_size addr) mod 16))
          (write_data_bits_data d))
  | None => []
  end.

Definition payload (addr : AxiAddr) (wdata : list AxiWData) (n : Z) : list Z :=
  mjoin (beat_bytes addr wdata <$> seqZ 0 n).

(** The beat is complete: its [last] flag is right and the strobes of its
    lanes are all set. *)
Definition beat_ok (addr : AxiAddr) (wdata : list AxiWData) (beat : Z) : Prop :=
  exists d, wdata !! Z.to_nat beat = Some d /\
    write_data_bits_last d = Z.b2z (beat =? addr_bits_len addr) /\
    forall i, 0 <= i < 2 ^ addr_bits_size addr ->
      Z.testbit (write_data_bits_strb d)
        ((addr_bits_addr addr + beat * 2 ^ addr_bits_size addr) mod 16 + i) = true.

(** [bs] at the start of the zeroed data array. *)
Definition pad (bs : list Z) : list Z := bs ++ replicate (4096 - length bs) 0.

(** ** Lemmas *)

Lemma pow2_size_range s : 0 <= s <= 4 -> 1 <= 2 ^ s <= 16.
Proof.
  intros. split; [change 1 with (2 ^ 0) | change 16 with (2 ^ 4)];
    apply Z.pow_le_mono_r; lia.
Qed.

Lemma bytes_per_beat_eq addr :
  axi_addr_wf addr -> addr_bits_size addr <= 4 ->
  bytes_per_beat addr = 2 ^ addr_bits_size addr.
Proof.
  intros (_ & _ & _ & ? & _) Hs. unfold bytes_per_beat.
  rewrite Z.shiftl_1_l, wrap_small; [done |].
  pose proof (pow2_size_range (addr_bits_size addr)). lia.
Qed.

Lemma burst_beats_eq addr :
  axi_addr_wf addr -> burst_beats addr = addr_bits_len addr + 1.
Proof. intros (_ & _ & ? & _ & _). unfold burst_beats. apply wrap_small. lia. Qed.

(** The product of a legal beat size and beat count always fits the data
    array. *)
Lemma burst_size_eq addr :
  axi_addr_wf addr -> addr_bits_size addr <= 4 ->
  burst_size addr = 2 ^ addr_bits_size addr * (addr_bits_len addr + 1) /\
  1 <= burst_size addr <= 4096.
Proof.
  intros Hwf Hs. unfold burst_size.
  rewrite bytes_per_beat_eq, burst_beats_eq by done.
  destruct Hwf as (_ & _ & ? & ? & _).
  pose proof (pow2_size_range (addr_bits_size addr) ltac:(lia)).
  rewrite wrap_small by nia. nia.
Qed.

Lemma page_offset_eq addr : page_offset addr = addr_bits_addr addr mod 4096.
Proof. unfold page_offset. change 4095 with (Z.ones 12). by rewrite Z.land_ones by lia. Qed.

Lemma beat_lane_eq base bs beat : beat_lane base bs beat = (base + beat * bs) mod 16.
Proof.
  unfold beat_lane, CORAL_GEM5_AXI_DATA_BYTES. change (16 - 1) with (Z.ones 4).
  rewrite Z.land_ones by lia. unfold wrap. change (2 ^ 4) with 16.
  rewrite Zplus_mod_idemp_r.
  apply Z.mod_mod_divide. exists (2 ^ 28). reflexivity.
Qed.

Lemma lane_fits_iff base bs beat :
  lane_fits base bs beat = true <-> (base + beat * bs) mod 16 + bs <= 16.
Proof. unfold lane_fits. rewrite beat_lane_eq, Z.leb_le. done. Qed.

(** A legal burst does not wrap around the address space. *)
Lemma burst_in_page addr :
  axi_addr_wf addr -> burst_ok addr ->
  addr_bits_addr addr / 4096 =
    (addr_bits_addr addr + burst_size addr - 1) / 4096 /\
  addr_bits_addr addr + burst_size addr <= 2 ^ 32.
Proof.
  intros Hwf (Hs & _ & Hp & _).
  destruct (burst_size_eq addr Hwf Hs) as [E Hb]. rewrite <- E in Hp.
  destruct Hwf as (Ha & _).
  pose proof (Z.div_mod (addr_bits_addr addr) 4096 ltac:(lia)).
  pose proof (Z.mod_pos_bound (addr_bits_addr addr) 4096 ltac:(lia)).
  assert (addr_bits_addr addr / 4096 < 2 ^ 20).
  { apply Z.div_lt_upper_bound; lia. }
  split; [| lia].
  apply Z.div_unique with
    (r := addr_bits_addr addr mod 4096 + burst_size addr - 1); lia.
Qed.

(** The tests the two builders share. *)
Lemma burst_tests addr :
  axi_addr_wf addr ->
  ((4 <? addr_bits_size addr) || negb (addr_bits_burst addr =? 1)) = false /\
  ((CORAL_GEM5_DMA_DATA_BYTES <? burst_size addr)
     || (4096 <? page_offset addr + burst_size addr)) = false /\
  forallb (lane_fits (addr_bits_addr addr) (bytes_per_beat addr))
    (seqZ 0 (burst_beats addr)) = true <->
  burst_ok addr.
Proof.
  intros Hwf. unfold burst_ok, CORAL_GEM5_DMA_DATA_BYTES.
  rewrite page_offset_eq, forallb_seqZ, burst_beats_eq by done.
  split.
  - intros (H1 & H2 & H3). bool_prop. destruct H1 as [Hs Hbu].
    destruct (burst_size_eq addr Hwf Hs) as [E _].
    repeat split; try done; [lia |].
    intros beat Hb. rewrite <- (bytes_per_beat_eq addr Hwf Hs).
    by apply lane_fits_iff, H3.
  - intros (Hs & Hbu & Hp & Hl). destruct (burst_size_eq addr Hwf Hs) as [E ?].
    split; [| split].
    + bool_prop. lia.
    + bool_prop. lia.
    + intros i Hi. rewrite lane_fits_iff, (bytes_per_beat_eq addr Hwf Hs). auto.
Qed.

Lemma read_request_iff addr r0 bs0 bc0 r bs bc :
  axi_addr_wf addr ->
  BuildGem5DmaReadRequest addr (Some r0) (Some bs0) (Some bc0) = Some (r, bs, bc) <->
  burst_ok addr /\ bs = 2 ^ addr_bits_size addr /\ bc = addr_bits_len addr + 1 /\
  r = {| req_type := CORAL_GEM5_DMA_READ; req_addr := addr_bits_addr addr;
         req_size := bs * bc; req_id := addr_bits_id addr;
         req_data := zero_data |}.
Proof.
  intros Hwf. pose proof (burst_tests addr Hwf) as Ht.
  unfold BuildGem5DmaReadRequest.
  destruct (_ || negb _); [split; [done | intros (H & _)]; by apply Ht in H as [? _] |].
  destruct (_ || (4096 <? _));
    [split; [done | intros (H & _)]; by apply Ht in H as (_ & ? & _) |].
  destruct (forallb _ _);
    [| split; [done | intros (H & _)]; by apply Ht in H as (_ & _ & ?)].
  destruct Ht as [Ht _]. specialize (Ht ltac:(done)).
  destruct (burst_size_eq addr Hwf (proj1 Ht)) as [E _].
  rewrite bytes_per_beat_eq, burst_beats_eq, E by (done || apply Ht).
  split.
  - intros [= <- <- <-]. done.
  - intros (_ & -> & -> & ->). done.
Qed.

Lemma length_pad bs : (length bs <= 4096)%nat -> length (pad bs) = 4096%nat.
Proof. intros. unfold pad. rewrite length_app, length_replicate. lia. Qed.

Lemma pad_insert bs x :
  (length bs < 4096)%nat -> <[length bs := x]> (pad bs) = pad (bs ++ [x]).
Proof.
  intros. unfold pad. rewrite insert_app_r_alt, Nat.sub_diag by lia.
  rewrite length_app. simpl.
  replace (4096 - length bs)%nat with (S (4096 - (length bs + 1))) by lia.
  simpl. by rewrite <- app_assoc.
Qed.

Lemma take_succ_total (l : list Z) i :
  (i < length l)%nat -> take (S i) l = take i l ++ [l !!! i].
Proof. intros. apply take_S_r. by apply list_lookup_lookup_total_lt. Qed.

Lemma strobe_bit d k : 0 <= k ->
  (Z.land (write_data_bits_strb d) (Z.shiftl 1 k) =? 0) =
  negb (Z.testbit (write_data_bits_strb d) k).
Proof.
  intros Hk. rewrite Z.shiftl_1_l.
  destruct (Z.testbit (write_data_bits_strb d) k) eqn:E; simpl; bool_prop.
  - intros H. apply (f_equal (fun z => Z.testbit z k)) in H.
    rewrite Z.land_spec, E, Z.pow2_bits_true in H by done.
    by rewrite Z.testbit_0_l in H.
  - apply Z.bits_inj'. intros n Hn. rewrite Z.land_spec, Z.bits_0.
    destruct (decide (n = k)) as [->|]; [by rewrite E |].
    rewrite Z.pow2_bits_false by lia. apply andb_false_r.
Qed.

(** The bytes of one beat. *)
Lemma copy_bytes_spec d bpb beat lane pre :
  length (write_data_bits_data d) = 16%nat ->
  0 <= lane -> 0 <= bpb -> lane + bpb <= 16 ->
  0 <= beat -> Z.of_nat (length pre) = beat * bpb -> beat * bpb + bpb <= 4096 ->
  if forallb (fun i => Z.testbit (write_data_bits_strb d) (lane + i)) (seqZ 0 bpb)
  then for_while bpb (copy_byte d bpb beat lane) (pad pre) =
         (true, pad (pre ++ take (Z.to_nat bpb)
                              (drop (Z.to_nat lane) (write_data_bits_data d))))
  else fst (for_while bpb (copy_byte d bpb beat lane) (pad pre)) = false.
Proof.
  intros Hd Hl Hb Hlb Hbeat Hpre Hfit.
  set (src := drop (Z.to_nat lane) (write_data_bits_data d)).
  pose proof (for_while_fun (fun i => pad (pre ++ take (Z.to_nat i) src))
    (fun i => Z.testbit (write_data_bits_strb d) (lane + i))
    bpb (copy_byte d bpb beat lane) Hb) as H.
  simpl in H. rewrite app_nil_r in H. apply H. clear H.
  intros i Hi. unfold copy_byte. rewrite strobe_bit by lia.
  destruct (Z.testbit _ _); simpl; [| done]. f_equal.
  assert (length (take (Z.to_nat i) src) = Z.to_nat i) as Hlen.
  { rewrite length_take. unfold src. rewrite length_drop. lia. }
  replace (Z.to_nat (beat * bpb + i)) with (length (pre ++ take (Z.to_nat i) src))
    by (rewrite length_app, Hlen; lia).
  rewrite pad_insert by (rewrite length_app, Hlen; lia).
  replace (Z.to_nat (i + 1)) with (S (Z.to_nat i)) by lia.
  rewrite take_succ_total by (unfold src; rewrite length_drop; lia).
  unfold src at 3. rewrite lookup_total_drop, app_assoc.
  by replace (Z.to_nat lane + Z.to_nat i)%nat with (Z.to_nat (lane + i)) by lia.
Qed.

Lemma payload_succ addr wdata n :
  0 <= n -> payload addr wdata (n + 1) = payload addr wdata n ++ beat_bytes addr wdata n.
Proof.
  intros. unfold payload. rewrite seqZ_snoc, fmap_app, join_app by lia. simpl.
  by rewrite app_nil_r.
Qed.

Lemma length_beat_bytes addr wdata beat :
  axi_addr_wf addr -> burst_ok addr -> Forall axi_wdata_wf wdata ->
  Z.of_nat (length wdata) = addr_bits_len addr + 1 ->
  0 <= beat < addr_bits_len addr + 1 ->
  Z.of_nat (length (beat_bytes addr wdata beat)) = 2 ^ addr_bits_size addr.
Proof.
  intros (_ & _ & _ & ? & _) (Hs & _ & _ & Hl) Hd Hlen Hb. unfold beat_bytes.
  destruct (wdata !! Z.to_nat beat) as [d|] eqn:E.
  - apply (Forall_lookup_1 _ _ _ _ Hd) in E as (Hd16 & _).
    pose proof (pow2_size_range (addr_bits_size addr) ltac:(lia)).
    specialize (Hl beat Hb).
    pose proof (Z.mod_pos_bound
      (addr_bits_addr addr + beat * 2 ^ addr_bits_size addr) 16 ltac:(lia)).
    rewrite length_take, length_drop, Hd16. lia.
  - apply lookup_ge_None in E. lia.
Qed.

Lemma length_payload addr wdata n :
  axi_addr_wf addr -> burst_ok addr -> Forall axi_wdata_wf wdata ->
  Z.of_nat (length wdata) = addr_bits_len addr + 1 ->
  0 <= n <= addr_bits_len addr + 1 ->
  Z.of_nat (length (payload addr wdata n)) = n * 2 ^ addr_bits_size addr.
Proof.
  intros Hwf Hok Hd Hlen [Hn Hle]. revert Hle. pattern n.
  apply natlike_ind; [by rewrite Z.mul_0_l | | done].
  intros k Hk IH Hle. unfold Z.succ.
  rewrite payload_succ, length_app, Nat2Z.inj_add, IH by lia.
  rewrite length_beat_bytes by (done || lia). lia.
Qed.

(** The boolean form of [beat_ok]. *)
Definition beat_test (addr : AxiAddr) (wdata : list AxiWData) (beat : Z) : bool :=
  match wdata !! Z.to_nat beat with
  | Some d =>
      (write_data_bits_last d =? Z.b2z (beat =? addr_bits_len addr)) &&
      forallb (fun i => Z.testbit (write_data_bits_strb d)
        ((addr_bits_addr addr + beat * 2 ^ addr_bits_size addr) mod 16 + i))
        (seqZ 0 (2 ^ addr_bits_size addr))
  | None => false
  end.

Lemma beat_test_iff addr wdata beat :
  beat_test addr wdata beat = true <-> beat_ok addr wdata beat.
Proof.
  unfold beat_test, beat_ok. destruct (wdata !! Z.to_nat beat) as [d|].
  - rewrite andb_true_iff, Z.eqb_eq, forallb_seqZ. split; [eauto |].
    by intros (? & [= <-] & ?).
  - split; [done |]. by intros (? & ? & _).
Qed.

Lemma copy_beats_spec addr wdata :
  axi_addr_wf addr -> burst_ok addr -> Forall axi_wdata_wf wdata ->
  Z.of_nat (length wdata) = addr_bits_len addr + 1 ->
  if forallb (beat_test addr wdata) (seqZ 0 (addr_bits_len addr + 1))
  then for_while (addr_bits_len addr + 1) (copy_beat addr wdata) zero_data =
         (true, pad (payload addr wdata (addr_bits_len addr + 1)))
  else fst (for_while (addr_bits_len addr + 1) (copy_beat addr wdata) zero_data) = false.
Proof.
  intros Hwf Hok Hd Hlen.
  assert (0 <= addr_bits_len addr < 2 ^ 8 /\ 0 <= addr_bits_size addr) as [Hl Hs0]
    by (destruct Hwf as (_ & _ & ? & ? & _); lia).
  change zero_data with (pad (payload addr wdata 0)).
  apply (for_while_fun (fun i => pad (payload addr wdata i))); [lia |].
  intros i Hi. rewrite payload_succ by lia.
  unfold copy_beat, beat_test, beat_bytes.
  destruct (wdata !! Z.to_nat i) as [d|] eqn:E; [| done].
  pose proof (Forall_lookup_1 _ _ _ _ Hd E) as (Hd16 & _).
  pose proof (length_payload addr wdata i Hwf Hok Hd Hlen ltac:(lia)) as Hp.
  rewrite bytes_per_beat_eq, burst_beats_eq, beat_lane_eq by (done || apply Hok).
  replace (i + 1 =? addr_bits_len addr + 1) with (i =? addr_bits_len addr) by lia.
  destruct (write_data_bits_last d =? _); simpl; [| done].
  destruct Hok as (Hs & _ & Hpage & Hlane). specialize (Hlane i Hi).
  pose proof (pow2_size_range (addr_bits_size addr) ltac:(lia)).
  pose proof (Z.mod_pos_bound (addr_bits_addr addr) 4096 ltac:(lia)).
  pose proof (Z.mod_pos_bound
      (addr_bits_addr addr + i * 2 ^ addr_bits_size addr) 16 ltac:(lia)).
  rewrite (proj2 (lane_fits_iff _ _ _) Hlane). simpl.
  apply copy_bytes_spec; (done || lia || nia).
Qed.

Lemma copy_beat_lane addr wdata beat s :
  fst (copy_beat addr wdata beat s) = true ->
  lane_fits (addr_bits_addr addr) (bytes_per_beat addr) beat = true.
Proof.
  unfold copy_beat. destruct (wdata !! _); [| done].
  destruct (negb _); [done |]. by destruct (lane_fits _ _ _).
Qed.

Lemma write_request_iff addr wdata r0 r :
  axi_addr_wf addr -> Forall axi_wdata_wf wdata ->
  (BuildGem5DmaWriteRequest addr wdata (Some r0) = (true, Some r)) <->
  (burst_ok addr /\ Z.of_nat (length wdata) = addr_bits_len addr + 1 /\
  (forall beat, 0 <= beat < addr_bits_len addr + 1 -> beat_ok addr wdata beat) /\
  r = {| req_type := CORAL_GEM5_DMA_WRITE; req_addr := addr_bits_addr addr;
         req_size := 2 ^ addr_bits_size addr * (addr_bits_len addr + 1);
         req_id := addr_bits_id addr;
         req_data := pad (payload addr wdata (addr_bits_len addr + 1)) |}).
Proof.
  intros Hwf Hd. pose proof (burst_tests addr Hwf) as Ht.
  unfold BuildGem5DmaWriteRequest. rewrite <- orb_assoc.
  destruct (_ || negb (addr_bits_burst addr =? 1));
    [split; [done | intros (H & _)]; by apply Ht in H as [? _] |].
  destruct (_ || (4096 <? _));
    [rewrite orb_true_r; split; [done | intros (H & _)];
     by apply Ht in H as (_ & ? & _) |].
  rewrite orb_false_r, burst_beats_eq by done. unfold dma_request_zero, set_data.
  destruct (Z.eqb_spec (Z.of_nat (length wdata)) (addr_bits_len addr + 1)) as [Hlen|];
    [simpl | split; [done | by intros (_ & ? & _)]].
  assert (burst_ok addr ->
    burst_size addr = 2 ^ addr_bits_size addr * (addr_bits_len addr + 1)) as Hsz.
  { intros Hok. by apply burst_size_eq; [| apply Hok]. }
  split.
  - destruct (for_while _ _ _) as [[] bytes] eqn:Ef; [| done]. intros [= <-].
    assert (burst_ok addr) as Hok.
    { apply Ht. split; [done | split; [done |]].
      rewrite burst_beats_eq by done. apply forallb_seqZ. intros i Hi.
      destruct (for_while_true_inv _ _ _ _ i Ef Hi) as [si Hsi].
      by apply copy_beat_lane in Hsi. }
    pose proof (copy_beats_spec addr wdata Hwf Hok Hd Hlen) as Hc. rewrite Ef in Hc.
    destruct (forallb (beat_test addr wdata) _) eqn:Eb; [| done]. injection Hc as ->.
    rewrite Hsz by done. refine (conj Hok (conj Hlen (conj _ eq_refl))).
    intros beat Hb. apply beat_test_iff. by apply (proj1 (forallb_seqZ _ _) Eb).
  - intros (Hok & _ & Hb & ->).
    pose proof (copy_beats_spec addr wdata Hwf Hok Hd Hlen) as Hc.
    rewrite (proj2 (forallb_seqZ _ _)) in Hc.
    + rewrite Hc, Hsz by done. done.
    + intros i Hi. by apply beat_test_iff, Hb.
Qed.

(** ** The beats of a read answer *)

Lemma drop_lane_data lane bytes :
  0 <= lane -> drop (Z.to_nat lane) (lane_data lane bytes) =
    bytes ++ replicate (16 - Z.to_nat lane - length bytes) 0.
Proof. intros. unfold lane_data. apply drop_app_length'. by rewrite length_replicate. Qed.

Lemma length_lane_data lane bytes :
  0 <= lane -> lane + Z.of_nat (length bytes) <= 16 ->
  length (lane_data lane bytes) = 16%nat.
Proof.
  intros. unfold lane_data. rewrite !length_app, !length_replicate. lia.
Qed.

Lemma lane_data_bytes lane bytes :
  Forall is_byte bytes -> Forall is_byte (lane_data lane bytes).
Proof.
  intros. unfold lane_data.
  rewrite !Forall_app. split; [| split; [done |]];
    apply Forall_replicate; unfold is_byte; lia.
Qed.

Section answer.
Context (addr : AxiAddr) (source : list Z).
Context (Hwf : axi_addr_wf addr) (Hok : burst_ok addr).
Context (Hlen : 2 ^ addr_bits_size addr * (addr_bits_len addr + 1) <=
  Z.of_nat (length source)).
Context (Hbytes : Forall is_byte source).

Abbreviation bpb := (2 ^ addr_bits_size addr).
Abbreviation count := (addr_bits_len addr + 1).
Abbreviation beats id := (read_beats (addr_bits_addr addr) bpb count id source).

(** The beat as the core would send it back, all strobes set. *)
Definition as_wdata (r : AxiRData) : AxiWData :=
  {| write_data_bits_data := read_data_bits_data r;
     write_data_bits_strb := 65535;
     write_data_bits_last := read_data_bits_last r |}.

Lemma bpb_range : 1 <= bpb <= 16.
Proof. destruct Hwf as (_ & _ & _ & ? & _), Hok. apply pow2_size_range. lia. Qed.

Lemma length_chunk beat : 0 <= beat < count ->
  Z.of_nat (length (take (Z.to_nat bpb) (drop (Z.to_nat (beat * bpb)) source))) = bpb.
Proof.
  intros. pose proof bpb_range.
  rewrite length_take, length_drop. nia.
Qed.

Lemma lookup_read_beats id beat : 0 <= beat < count ->
  beats id !! Z.to_nat beat =
    Some (read_beat (addr_bits_addr addr) bpb count id source beat).
Proof.
  intros. unfold read_beats. rewrite list_lookup_fmap, lookup_seqZ_lt by lia.
  simpl. by rewrite Z2Nat.id by lia.
Qed.

Lemma read_beat_bytes id beat : 0 <= beat < count ->
  beat_bytes addr (as_wdata <$> beats id) beat =
    take (Z.to_nat bpb) (drop (Z.to_nat (beat * bpb)) source).
Proof.
  intros Hb. unfold beat_bytes. rewrite list_lookup_fmap, lookup_read_beats by done.
  simpl. rewrite beat_lane_eq, drop_lane_data by (apply Z.mod_pos_bound; lia).
  apply take_app_length'. pose proof (length_chunk beat Hb). lia.
Qed.

Lemma payload_read_beats id n : 0 <= n <= count ->
  payload addr (as_wdata <$> beats id) n = take (Z.to_nat (n * bpb)) source.
Proof.
  pose proof bpb_range.
  intros [Hn Hle]. revert Hle. pattern n. apply natlike_ind; [done | | done].
  intros k Hk IH Hle. unfold Z.succ.
  rewrite payload_succ, IH, read_beat_bytes by lia.
  rewrite take_take_drop. f_equal. nia.
Qed.

Lemma read_beats_wf id : Forall axi_wdata_wf (as_wdata <$> beats id).
Proof.
  apply Forall_fmap, Forall_fmap, Forall_seqZ. intros beat Hb.
  pose proof bpb_range. destruct Hok as (_ & _ & _ & Hlane).
  specialize (Hlane beat ltac:(lia)).
  pose proof (length_chunk beat ltac:(lia)).
  split; [| split; [| split]]; simpl.
  - apply length_lane_data; rewrite beat_lane_eq; [apply Z.mod_pos_bound; lia | lia].
  - apply lane_data_bytes. by apply Forall_take, Forall_drop.
  - lia.
  - destruct (_ =? _); simpl; lia.
Qed.

Lemma beat_ok_read_beats id beat :
  0 <= beat < count -> beat_ok addr (as_wdata <$> beats id) beat.
Proof.
  intros Hb. eexists. rewrite list_lookup_fmap, lookup_read_beats by done.
  split; [done | split; simpl].
  - f_equal. lia.
  - intros i Hi. change 65535 with (Z.ones 16).
    destruct Hok as (_ & _ & _ & Hlane). specialize (Hlane beat Hb).
    pose proof (Z.mod_pos_bound (addr_bits_addr addr + beat * bpb) 16 ltac:(lia)).
    rewrite Z.ones_spec_low by lia. done.
Qed.

End answer.

(** ** Properties *)

(** The read builder accepts exactly the legal bursts (incrementing, at
    most sixteen bytes a beat, inside one 4 KiB page, every beat on its byte
    lanes); the request it then fills has the burst's address, id and byte
    count, fits the data array and does not leave its page. *)
Theorem dma_read_request_correct addr r0 bs0 bc0 r bs bc :
  axi_addr_wf addr ->
  (BuildGem5DmaReadRequest addr (Some r0) (Some bs0) (Some bc0) = Some (r, bs, bc) <->
   burst_ok addr /\ bs = 2 ^ addr_bits_size addr /\ bc = addr_bits_len addr + 1 /\
   r = {| req_type := CORAL_GEM5_DMA_READ; req_addr := addr_bits_addr addr;
          req_size := bs * bc; req_id := addr_bits_id addr; req_data := zero_data |}) /\
  (burst_ok addr ->
   1 <= burst_size addr <= CORAL_GEM5_DMA_DATA_BYTES /\
   addr_bits_addr addr / 4096 = (addr_bits_addr addr + burst_size addr - 1) / 4096 /\
   addr_bits_addr addr + burst_size addr <= 2 ^ 32).
Proof.
  intros Hwf. split; [by apply read_request_iff |]. intros Hok.
  split; [by apply burst_size_eq; [| apply Hok] | by apply burst_in_page].
Qed.

Definition sample_addr : AxiAddr :=
  {| addr_bits_addr := 536870920; addr_bits_prot := 0; addr_bits_id := 3;
     addr_bits_len := 1; addr_bits_size := 3; addr_bits_burst := 1;
     addr_bits_lock := 0; addr_bits_cache := 0; addr_bits_qos := 0;
     addr_bits_region := 0 |}.

Lemma sample_addr_wf : axi_addr_wf sample_addr.
Proof. unfold axi_addr_wf; simpl; lia. Qed.

Lemma sample_burst_ok : burst_ok sample_addr.
Proof.
  unfold burst_ok. simpl. split; [lia | split; [done | split]].
  - vm_compute. discriminate.
  - intros beat Hb. assert (beat = 0 \/ beat = 1) as [-> | ->] by lia;
      vm_compute; discriminate.
Qed.

Lemma dma_read_request_witness :
  BuildGem5DmaReadRequest sample_addr (Some dma_request_zero) (Some 0) (Some 0) =
    Some ({| req_type := CORAL_GEM5_DMA_READ; req_addr := 536870920;
             req_size := 16; req_id := 3; req_data := zero_data |}, 8, 2).
Proof.
  apply (dma_read_request_correct sample_addr dma_request_zero 0 0 _ _ _ sample_addr_wf).
  split; [exact sample_burst_ok | done].
Defined.

(** The write builder succeeds exactly when the burst is legal, has as
    many beats as its length field says, only the last beat is flagged last
    and every byte strobe of its lanes is set; the request then carries the
    bytes of the beats in address order, followed by zeros. *)
Theorem dma_write_request_correct addr wdata r0 r :
  axi_addr_wf addr -> Forall axi_wdata_wf wdata ->
  (BuildGem5DmaWriteRequest addr wdata (Some r0) = (true, Some r)) <->
  (burst_ok addr /\ Z.of_nat (length wdata) = addr_bits_len addr + 1 /\
   (forall beat, 0 <= beat < addr_bits_len addr + 1 -> beat_ok addr wdata beat) /\
   r = {| req_type := CORAL_GEM5_DMA_WRITE; req_addr := addr_bits_addr addr;
          req_size := 2 ^ addr_bits_size addr * (addr_bits_len addr + 1);
          req_id := addr_bits_id addr;
          req_data := pad (payload addr wdata (addr_bits_len addr + 1)) |}).
Proof. apply write_request_iff. Qed.

Definition sample_beat (last : Z) : AxiWData :=
  {| write_data_bits_data := seqZ 1 16; write_data_bits_strb := 65535;
     write_data_bits_last := last |}.

Lemma sample_beat_wf last : 0 <= last < 2 ^ 8 -> axi_wdata_wf (sample_beat last).
Proof.
  intros. split; [done | split; [| simpl; lia]].
  apply Forall_seqZ. unfold is_byte. lia.
Qed.

Lemma dma_write_request_witness :
  BuildGem5DmaWriteRequest sample_addr [sample_beat 0; sample_beat 1]
    (Some dma_request_zero) =
  (true, Some {| req_type := CORAL_GEM5_DMA_WRITE; req_addr := 536870920;
                 req_size := 16; req_id := 3;
                 req_data := pad (seqZ 9 8 ++ seqZ 1 8) |}).
Proof.
  apply (dma_write_request_correct sample_addr [sample_beat 0; sample_beat 1]
           dma_request_zero _ sample_addr_wf).
  - apply Forall_cons; [apply sample_beat_wf; lia |].
    apply Forall_singleton. apply sample_beat_wf. lia.
  - refine (conj sample_burst_ok (conj eq_refl (conj _ eq_refl))).
    intros beat Hb. apply beat_test_iff.
    change (addr_bits_len sample_addr + 1) with 2 in Hb.
    assert (beat = 0 \/ beat = 1) as [-> | ->] by lia; vm_compute; reflexivity.
Defined.

(** The beats the bridge answers a read with are laid out on the lanes
    the write builder decodes: handing them back as a write burst yields a
    request with exactly the bytes the read returned. *)
Theorem read_beats_roundtrip addr source id r0 :
  axi_addr_wf addr -> burst_ok addr ->
  Z.of_nat (length source) = 2 ^ addr_bits_size addr * (addr_bits_len addr + 1) ->
  Forall is_byte source ->
  BuildGem5DmaWriteRequest addr
    (as_wdata <$> read_beats (addr_bits_addr addr) (2 ^ addr_bits_size addr)
                    (addr_bits_len addr + 1) id source) (Some r0) =
  (true, Some {| req_type := CORAL_GEM5_DMA_WRITE; req_addr := addr_bits_addr addr;
                 req_size := 2 ^ addr_bits_size addr * (addr_bits_len addr + 1);
                 req_id := addr_bits_id addr; req_data := pad source |}).
Proof.
  intros Hwf Hok Hlen Hb.
  assert (0 <= addr_bits_len addr) by (destruct Hwf as (_ & _ & ? & _); lia).
  apply write_request_iff; [done | apply read_beats_wf; done || lia |].
  refine (conj Hok (conj _ (conj _ _))).
  - unfold read_beats. rewrite !length_fmap, length_seqZ. lia.
  - intros beat Hbeat. apply beat_ok_read_beats; done || lia.
  - rewrite payload_read_beats by (done || lia). rewrite take_ge by lia. done.
Qed.

Lemma read_beats_roundtrip_witness :
  BuildGem5DmaWriteRequest sample_addr
    (as_wdata <$> read_beats 536870920 8 2 3 (seqZ 100 16)) (Some dma_request_zero) =
  (true, Some {| req_type := CORAL_GEM5_DMA_WRITE; req_addr := 536870920;
                 req_size := 16; req_id := 3; req_data := pad (seqZ 100 16) |}).
Proof.
  apply (read_beats_roundtrip sample_addr (seqZ 100 16) 3 dma_request_zero
           sample_addr_wf sample_burst_ok).
  - reflexivity.
  - apply Forall_seqZ. unfold is_byte. lia.
Defined.
