(* ===== verification/AxiMaster.v ===== *)
(** * The AXI master drivers of the bridge

    [Gem5AxiMasterReadDriver] and [Gem5AxiMasterWriteDriver] of
    [gem5_axi_master_drivers.h]: one falling clock edge is a step over the
    driver's members and the pins it drives.  The core behind the pins is a
    parameter: [Eval] recomputes it from the driven pins, [pins] reads the
    pins it drives.  The deferred callback runs on the state of its owner and
    may queue responses before it returns.  A [uint8_t] pin is a [Z]; the
    tests on it are C's ([0] is false). *)

From S2P Require Import Prelude Axi.

(** The truth value of a pin. *)
Definition pin (z : Z) : bool := negb (z =? 0).

(** ** The read driver *)

(** The pins the core drives. *)
Record read_pins := {
  ar_valid : Z; ar_addr : Z; ar_prot : Z; ar_id : Z; ar_len : Z; ar_size : Z;
  ar_burst : Z; ar_lock : Z; ar_cache : Z; ar_qos : Z; ar_region : Z;
  r_ready : Z }.

(** The pins the driver drives. *)
Record read_driven := {
  ar_ready : Z; r_valid : Z; r_data : list Z; r_id : Z; r_resp : Z; r_last : Z }.

Record Gem5AxiMasterReadDriver := {
  rd_responses : list AxiRData;
  rd_request : AxiAddr;
  rd_request_pending : bool;
  rd_request_seen : bool;
  rd_response_handshake_pending : bool;
  rd_driven : read_driven }.

Definition addr_of_read_pins (p : read_pins) : AxiAddr :=
  {| addr_bits_addr := ar_addr p; addr_bits_prot := ar_prot p;
     addr_bits_id := ar_id p; addr_bits_len := ar_len p;
     addr_bits_size := ar_size p; addr_bits_burst := ar_burst p;
     addr_bits_lock := ar_lock p; addr_bits_cache := ar_cache p;
     addr_bits_qos := ar_qos p; addr_bits_region := ar_region p |}.

(** The constructor, over the reset values [driven] of the model's pins. *)
Definition read_driver_init (request : AxiAddr) (driven : read_driven) :
    Gem5AxiMasterReadDriver :=
  {| rd_responses := []; rd_request := request; rd_request_pending := false;
     rd_request_seen := false; rd_response_handshake_pending := false;
     rd_driven := {| ar_ready := 1; r_valid := r_valid driven;
                     r_data := r_data driven; r_id := r_id driven;
                     r_resp := r_resp driven; r_last := r_last driven |} |}.

(** [QueueResponse]. *)
Definition read_queue (d : Gem5AxiMasterReadDriver) (rs : list AxiRData) :
    Gem5AxiMasterReadDriver :=
  {| rd_responses := rd_responses d ++ rs; rd_request := rd_request d;
     rd_request_pending := rd_request_pending d;
     rd_request_seen := rd_request_seen d;
     rd_response_handshake_pending := rd_response_handshake_pending d;
     rd_driven := rd_driven d |}.

(** The accepted beat leaves the queue; the last one ends the request. *)
Definition read_pop (d : Gem5AxiMasterReadDriver) : res Gem5AxiMasterReadDriver :=
  if rd_response_handshake_pending d then
    match rd_responses d with
    | [] => Undef
    | r :: rs =>
        Ret {| rd_responses := rs; rd_request := rd_request d;
               rd_request_pending :=
                 if pin (read_data_bits_last r) then false else rd_request_pending d;
               rd_request_seen := rd_request_seen d;
               rd_response_handshake_pending := false; rd_driven := rd_driven d |}
    end
  else Ret d.

(** The pins for this cycle: address readiness and the front of the queue. *)
Definition read_present (valid : bool) (d : Gem5AxiMasterReadDriver) :
    Gem5AxiMasterReadDriver :=
  let v := rd_driven d in
  let ready := Z.b2z (negb (rd_request_pending d)) in
  {| rd_responses := rd_responses d; rd_request := rd_request d;
     rd_request_pending := rd_request_pending d;
     rd_request_seen := if valid then rd_request_seen d else false;
     rd_response_handshake_pending := false;
     rd_driven :=
       match rd_responses d with
       | [] => {| ar_ready := ready; r_valid := 0; r_data := r_data v; r_id := r_id v;
                  r_resp := r_resp v; r_last := r_last v |}
       | r :: _ => {| ar_ready := ready; r_valid := 1;
                      r_data := read_data_bits_data r; r_id := read_data_bits_id r;
                      r_resp := read_data_bits_resp r;
                      r_last := read_data_bits_last r |}
       end |}.

Definition read_set_handshake (b : bool) (d : Gem5AxiMasterReadDriver) :
    Gem5AxiMasterReadDriver :=
  {| rd_responses := rd_responses d; rd_request := rd_request d;
     rd_request_pending := rd_request_pending d; rd_request_seen := rd_request_seen d;
     rd_response_handshake_pending := b; rd_driven := rd_driven d |}.

(** The members as the callback finds them. *)
Definition read_capture (a : AxiAddr) (d : Gem5AxiMasterReadDriver) :
    Gem5AxiMasterReadDriver :=
  {| rd_responses := rd_responses d; rd_request := a; rd_request_pending := true;
     rd_request_seen := true;
     rd_response_handshake_pending := rd_response_handshake_pending d;
     rd_driven := rd_driven d |}.

Definition read_ready_low (d : Gem5AxiMasterReadDriver) : Gem5AxiMasterReadDriver :=
  let v := rd_driven d in
  {| rd_responses := rd_responses d; rd_request := rd_request d;
     rd_request_pending := rd_request_pending d; rd_request_seen := rd_request_seen d;
     rd_response_handshake_pending := rd_response_handshake_pending d;
     rd_driven := {| ar_ready := 0; r_valid := r_valid v; r_data := r_data v;
                     r_id := r_id v; r_resp := r_resp v; r_last := r_last v |} |}.

Section read_driver.
Context {core owner : Type}.
Context (Eval : core -> read_driven -> core) (pins : core -> read_pins).
(** The callback: the owner's new state and the responses it queued. *)
Context (callback : AxiAddr -> owner -> owner * list AxiRData).

(** [OnFallingEdge]; the last component is the request handed to the callback. *)
Definition read_falling_edge (c : core) (o : owner) (d : Gem5AxiMasterReadDriver) :
    res (core * owner * Gem5AxiMasterReadDriver * option AxiAddr) :=
  let valid := pin (ar_valid (pins c)) in
  let addr_handshake := valid && pin (ar_ready (rd_driven d)) in
  d1 ← read_pop d;
  let d2 := read_present valid d1 in
  let c1 := Eval c (rd_driven d2) in
  let d3 := read_set_handshake
              (pin (r_valid (rd_driven d2)) && pin (r_ready (pins c1))) d2 in
  if addr_handshake && negb (rd_request_seen d3) && negb (rd_request_pending d3)
  then
    let a := addr_of_read_pins (pins c1) in
    let '(o1, rs) := callback a o in
    let d4 := read_ready_low (read_queue (read_capture a d3) rs) in
    Ret (Eval c1 (rd_driven d4), o1, d4, Some a)
  else Ret (c1, o, d3, None).

(** ** The read driver: invariant and behaviour *)

(** Between edges: a beat the core has taken is the front of the queue and is
    what the pins show; address readiness is the absence of a request. *)
Definition read_inv (d : Gem5AxiMasterReadDriver) : Prop :=
  (rd_response_handshake_pending d = true ->
   exists r rs, rd_responses d = r :: rs /\
     r_data (rd_driven d) = read_data_bits_data r /\
     r_id (rd_driven d) = read_data_bits_id r /\
     r_resp (rd_driven d) = read_data_bits_resp r /\
     r_last (rd_driven d) = read_data_bits_last r) /\
  pin (ar_ready (rd_driven d)) = negb (rd_request_pending d).

Lemma read_inv_init a v : read_inv (read_driver_init a v).
Proof. split; [discriminate | done]. Qed.

Lemma read_inv_queue d rs : read_inv d -> read_inv (read_queue d rs).
Proof.
  intros [H1 H2]. split; [| done]. intros Hp.
  destruct (H1 Hp) as (r & l & E & H). exists r, (l ++ rs). simpl. by rewrite E.
Qed.

(** The beats still to be taken by the core: the queue without the beat whose
    handshake is pending. *)
Definition read_remaining (d : Gem5AxiMasterReadDriver) : list AxiRData :=
  if rd_response_handshake_pending d then tail (rd_responses d) else rd_responses d.

(** The beat the core takes at the end of an edge. *)
Definition read_taken (d : Gem5AxiMasterReadDriver) : list AxiRData :=
  if rd_response_handshake_pending d then take 1 (rd_responses d) else [].

Lemma read_pop_spec d :
  read_inv d ->
  exists d1, read_pop d = Ret d1 /\ rd_responses d1 = read_remaining d /\
    rd_request_seen d1 = rd_request_seen d /\
    rd_request_pending d1 =
      (rd_request_pending d &&
       negb (existsb (fun r => pin (read_data_bits_last r)) (read_taken d))).
Proof.
  intros [H _]. unfold read_pop, read_remaining, read_taken.
  destruct (rd_response_handshake_pending d).
  - destruct (H eq_refl) as (r & rs & E & _). rewrite E.
    eexists. split; [done |]. simpl. rewrite orb_false_r.
    by destruct (pin _), (rd_request_pending d).
  - eexists. split; [done |]. simpl. by rewrite andb_true_r.
Qed.

Lemma b2z_pin b : pin (Z.b2z b) = b.
Proof. by destruct b. Qed.

Lemma read_present_inv valid d b :
  (b = true -> pin (r_valid (rd_driven (read_present valid d))) = true) ->
  read_inv (read_set_handshake b (read_present valid d)).
Proof.
  intros Hb. unfold read_inv. simpl. split.
  - intros ->. specialize (Hb eq_refl). simpl in Hb.
    destruct (rd_responses d) as [|r rs]; [done |]. by exists r, rs.
  - destruct (rd_responses d); simpl; apply b2z_pin.
Qed.

(** One edge from a state that satisfies the invariant. *)
Lemma read_edge_spec c o d :
  read_inv d ->
  exists c' o' d' ev queued, read_falling_edge c o d = Ret (c', o', d', ev) /\
    read_inv d' /\
    rd_responses d' = read_remaining d ++ queued /\
    match ev with
    | None => queued = [] /\ o' = o /\
        (rd_request_pending d' = true -> rd_request_pending d = true)
    | Some a =>
        callback a o = (o', queued) /\ rd_request_pending d' = true /\
        rd_request_pending d = false /\ rd_request d' = a
    end.
Proof.
  intros Hinv. unfold read_falling_edge.
  destruct (read_pop_spec d Hinv) as (d1 & -> & Er & Es & Ep). simpl.
  set (b := pin _ && pin (r_ready _)).
  assert (read_inv (read_set_handshake b (read_present (pin (ar_valid (pins c))) d1)))
    as Hinv3.
  { apply read_present_inv. intros Hb. by apply andb_prop in Hb as [? _]. }
  destruct Hinv as [_ Hready].
  destruct (pin (ar_valid (pins c))) eqn:Ev; simpl.
  - destruct (pin (ar_ready (rd_driven d))) eqn:Ea; simpl.
    + symmetry in Hready. apply negb_true_iff in Hready.
      destruct (rd_request_seen d1) eqn:Ese; simpl.
      { do 5 eexists. split; [done |]. split; [done |]. simpl.
        rewrite Er, app_nil_r. split; [done |].
        split; [done | split; [done |]]. rewrite Ep, Hready. done. }
      rewrite Ep, Hready. simpl.
      destruct (callback _ o) as [o1 rs] eqn:Ec.
      do 5 eexists. split; [done |]. split; [| split; [| by rewrite Ec]].
      * destruct Hinv3 as [H3 _]. split; [| done]. simpl. intros Hb.
        destruct (H3 Hb) as (r & l & E & H). exists r, (l ++ rs).
        simpl in E, H. by rewrite E.
      * simpl. by rewrite Er.
    + do 5 eexists. split; [done |]. split; [done |]. simpl.
      rewrite Er, app_nil_r. split; [done |]. split; [done | split; [done |]].
      rewrite Ep. intros [? _]%andb_prop. done.
  - do 5 eexists. split; [done |]. split; [done |]. simpl.
    rewrite Er, app_nil_r. split; [done |]. split; [done | split; [done |]].
    rewrite Ep. intros [? _]%andb_prop. done.
Qed.

(** Everything that can happen to the driver, with the number [n] of requests
    handed to the callback, the responses [q] queued and the beats [p] that
    have left the queue so far.  The core and the owner move freely between
    edges. *)
Inductive read_reach : nat -> list AxiRData -> list AxiRData ->
    core -> owner -> Gem5AxiMasterReadDriver -> Prop :=
| read_reach_init a v c o : read_reach 0 [] [] c o (read_driver_init a v)
| read_reach_env n q p c o d c' o' :
    read_reach n q p c o d -> read_reach n q p c' o' d
| read_reach_queue n q p c o d rs :
    read_reach n q p c o d -> read_reach n (q ++ rs) p c o (read_queue d rs)
| read_reach_edge n q p c o d c' o' d' :
    read_reach n q p c o d ->
    read_falling_edge c o d = Ret (c', o', d', None) ->
    read_reach n q (p ++ read_taken d) c' o' d'
| read_reach_request n q p c o d c' o' d' a :
    read_reach n q p c o d ->
    read_falling_edge c o d = Ret (c', o', d', Some a) ->
    read_reach (S n) (q ++ (callback a o).2) (p ++ read_taken d) c' o' d'.

Definition lasts (l : list AxiRData) : nat :=
  length (List.filter (fun r => pin (read_data_bits_last r)) l).

Lemma lasts_app l1 l2 : lasts (l1 ++ l2) = (lasts l1 + lasts l2)%nat.
Proof. unfold lasts. by rewrite List.filter_app, length_app. Qed.

Lemma lasts_taken d :
  lasts (read_taken d) =
    Nat.b2n (existsb (fun r => pin (read_data_bits_last r)) (read_taken d)).
Proof.
  unfold read_taken, lasts.
  destruct (rd_response_handshake_pending d); [| done].
  destruct (rd_responses d) as [|r rs]; [done |]. simpl.
  by destruct (pin (read_data_bits_last r)).
Qed.

Lemma read_taken_remaining d :
  read_inv d -> read_taken d ++ read_remaining d = rd_responses d.
Proof.
  intros [H _]. unfold read_taken, read_remaining.
  destruct (rd_response_handshake_pending d); [| done].
  by destruct (H eq_refl) as (r & rs & -> & _).
Qed.

(** The pending flag after an edge: a request ends only with a last beat. *)
Lemma read_edge_pending c o d c' o' d' ev :
  read_inv d -> read_falling_edge c o d = Ret (c', o', d', ev) ->
  rd_request_pending d' =
    match ev with
    | Some _ => true
    | None => rd_request_pending d &&
        negb (existsb (fun r => pin (read_data_bits_last r)) (read_taken d))
    end.
Proof.
  intros Hinv. unfold read_falling_edge.
  destruct (read_pop_spec d Hinv) as (d1 & -> & Er & Es & Ep). simpl.
  destruct (_ && _ && _).
  - destruct (callback _ o). by intros [= <- <- <- <-].
  - intros [= <- <- <- <-]. done.
Qed.

Lemma read_reach_inv n q p c o d :
  read_reach n q p c o d ->
  read_inv d /\ q = p ++ rd_responses d /\
  (n <= lasts p + Nat.b2n (rd_request_pending d))%nat.
Proof.
  induction 1 as [ | | ? ? ? ? ? ? ? _ (Hi & -> & Hn)
                 | n q p c o d c' o' d' _ (Hi & -> & Hn) E
                 | n q p c o d c' o' d' a _ (Hi & -> & Hn) E ].
  - split; [apply read_inv_init | done].
  - done.
  - split; [by apply read_inv_queue |]. simpl. by rewrite app_assoc.
  - pose proof (read_edge_pending _ _ _ _ _ _ _ Hi E) as Hp.
    destruct (read_edge_spec c o d Hi) as (? & ? & ? & ? & qd & E' & Hi' & Er & Hev).
    rewrite E in E'. injection E' as <- <- <- <-. destruct Hev as (-> & _ & _).
    rewrite app_nil_r in Er. rewrite Er, <- app_assoc, read_taken_remaining by done.
    split; [done | split; [done |]]. rewrite lasts_app, lasts_taken, Hp.
    destruct (existsb _ _), (rd_request_pending d); simpl in *; lia.
  - pose proof (read_edge_pending _ _ _ _ _ _ _ Hi E) as Hp.
    destruct (read_edge_spec c o d Hi) as (? & ? & ? & ? & qd & E' & Hi' & Er & Hev).
    rewrite E in E'. injection E' as <- <- <- <-.
    destruct Hev as (Ec & _ & Hnp & _). rewrite Ec, Er, Hp. simpl.
    rewrite <- !app_assoc. rewrite (app_assoc (read_taken d)).
    rewrite read_taken_remaining by done. split; [done | split; [done |]].
    rewrite lasts_app, Hnp in *. simpl in *. lia.
Qed.

(** [k] consecutive edges; the requests handed to the callback. *)
Fixpoint read_edges (k : nat) (c : core) (o : owner) (d : Gem5AxiMasterReadDriver) :
    res (core * owner * Gem5AxiMasterReadDriver * list AxiAddr) :=
  match k with
  | O => Ret (c, o, d, [])
  | S k =>
      '(c1, o1, d1, ev) ← read_falling_edge c o d;
      '(c2, o2, d2, evs) ← read_edges k c1 o1 d1;
      Ret (c2, o2, d2, option_list ev ++ evs)
  end.

(** A burst whose last beat, and only it, is flagged. *)
Definition burst_flags (rs : list AxiRData) : Prop :=
  exists init r, rs = init ++ [r] /\ pin (read_data_bits_last r) = true /\
    Forall (fun r => pin (read_data_bits_last r) = false) init.

Lemma burst_flags_cons r rs :
  burst_flags (r :: rs) -> rs <> [] ->
  pin (read_data_bits_last r) = false /\ burst_flags rs.
Proof.
  intros (init & x & E & Hx & Hi) Hne. destruct init as [|y init].
  { simpl in E. injection E as -> ->. done. }
  injection E as <- ->. apply Forall_cons_1 in Hi as [Hy Hi].
  split; [done |]. by exists init, x.
Qed.

(** While a request is pending and the core is ready, an edge takes the front
    of the queue and starts no request. *)
Lemma read_edge_ready c o d :
  (forall c, pin (r_ready (pins c)) = true) ->
  read_inv d -> rd_request_pending d = true ->
  exists c' d', read_falling_edge c o d = Ret (c', o, d', None) /\ read_inv d' /\
    rd_responses d' = read_remaining d /\
    rd_response_handshake_pending d' = negb (bool_decide (read_remaining d = [])) /\
    rd_request_pending d' =
      negb (existsb (fun r => pin (read_data_bits_last r)) (read_taken d)).
Proof.
  intros Hr Hi Hp.
  destruct (read_edge_spec c o d Hi) as (c' & o' & d' & ev & qd & E & Hi' & Er & Hev).
  pose proof (read_edge_pending _ _ _ _ _ _ _ Hi E) as Hp'.
  destruct ev as [a|]; [destruct Hev as (_ & _ & ? & _); congruence |].
  destruct Hev as (-> & -> & _). rewrite app_nil_r in Er. rewrite Hp in Hp'.
  exists c', d'. split; [done | split; [done | split; [done | split; [| done]]]].
  unfold read_falling_edge in E.
  destruct (read_pop_spec d Hi) as (d1 & E1 & Er1 & _). rewrite E1 in E. simpl in E.
  destruct (_ && _ && _); [destruct (callback _ _); discriminate E |].
  injection E as <- <-. simpl. rewrite Hr, andb_true_r, <- Er1.
  by destruct (rd_responses d1).
Qed.

Lemma read_drain rs : forall c o d,
  (forall c, pin (r_ready (pins c)) = true) ->
  read_inv d -> rd_request_pending d = true ->
  rd_response_handshake_pending d = true -> rd_responses d = rs -> burst_flags rs ->
  exists c' d', read_edges (length rs) c o d = Ret (c', o, d', []) /\
    rd_responses d' = [] /\ rd_request_pending d' = false /\ read_inv d'.
Proof.
  induction rs as [|r rs IH]; intros c o d Hr Hi Hp Hh Hrs Hf.
  { destruct Hf as ([] & ? & ? & _); done. }
  destruct (read_edge_ready c o d Hr Hi Hp) as (c1 & d1 & E & Hi1 & Er & Eh & Ep).
  unfold read_remaining, read_taken in Er, Eh, Ep. rewrite Hh, Hrs in Er, Eh, Ep.
  simpl in Er, Eh, Ep. rewrite orb_false_r in Ep.
  simpl. rewrite E. simpl. destruct rs as [|r' rs].
  - destruct Hf as (init & x & Ei & Hx & _). destruct init as [|? []]; [| done..].
    injection Ei as ->. rewrite Hx in Ep. exists c1, d1. done.
  - destruct (burst_flags_cons _ _ Hf) as [Hl Hf']; [done |].
    rewrite Hl in Ep. destruct (IH c1 o d1) as (c2 & d2 & E2 & H2); try done.
    rewrite E2. exists c2, d2. done.
Qed.

End read_driver.

(** ** The write driver *)

Record write_pins := {
  aw_valid : Z; aw_addr : Z; aw_prot : Z; aw_id : Z; aw_len : Z; aw_size : Z;
  aw_burst : Z; aw_lock : Z; aw_cache : Z; aw_qos : Z; aw_region : Z;
  w_valid : Z; w_data : list Z; w_strb : Z; w_last : Z; b_ready : Z }.

Record write_driven := {
  aw_ready : Z; w_ready : Z; b_valid : Z; b_id : Z; b_resp : Z }.

Record Gem5AxiMasterWriteDriver := {
  wd_responses : list AxiWResp;
  wd_request_addr : AxiAddr;
  wd_request_data : list AxiWData;
  wd_request_pending : bool;
  wd_addr_captured : bool;
  wd_data_complete : bool;
  wd_request_submitted : bool;
  wd_response_handshake_pending : bool;
  wd_driven : write_driven }.

Definition addr_of_write_pins (p : write_pins) : AxiAddr :=
  {| addr_bits_addr := aw_addr p; addr_bits_prot := aw_prot p;
     addr_bits_id := aw_id p; addr_bits_len := aw_len p;
     addr_bits_size := aw_size p; addr_bits_burst := aw_burst p;
     addr_bits_lock := aw_lock p; addr_bits_cache := aw_cache p;
     addr_bits_qos := aw_qos p; addr_bits_region := aw_region p |}.

Definition beat_of_write_pins (p : write_pins) : AxiWData :=
  {| write_data_bits_data := w_data p; write_data_bits_strb := w_strb p;
     write_data_bits_last := w_last p |}.

Definition write_driver_init (request : AxiAddr) (driven : write_driven) :
    Gem5AxiMasterWriteDriver :=
  {| wd_responses := []; wd_request_addr := request; wd_request_data := [];
     wd_request_pending := false; wd_addr_captured := false;
     wd_data_complete := false; wd_request_submitted := false;
     wd_response_handshake_pending := false;
     wd_driven := {| aw_ready := 0; w_ready := 0; b_valid := b_valid driven;
                     b_id := b_id driven; b_resp := b_resp driven |} |}.

Definition write_queue (d : Gem5AxiMasterWriteDriver) (rs : list AxiWResp) :
    Gem5AxiMasterWriteDriver :=
  {| wd_responses := wd_responses d ++ rs; wd_request_addr := wd_request_addr d;
     wd_request_data := wd_request_data d; wd_request_pending := wd_request_pending d;
     wd_addr_captured := wd_addr_captured d; wd_data_complete := wd_data_complete d;
     wd_request_submitted := wd_request_submitted d;
     wd_response_handshake_pending := wd_response_handshake_pending d;
     wd_driven := wd_driven d |}.

(** The accepted response ends the transaction. *)
Definition write_pop (d : Gem5AxiMasterWriteDriver) : res Gem5AxiMasterWriteDriver :=
  if wd_response_handshake_pending d then
    match wd_responses d with
    | [] => Undef
    | _ :: rs =>
        Ret {| wd_responses := rs; wd_request_addr := wd_request_addr d;
               wd_request_data := []; wd_request_pending := false;
               wd_addr_captured := false; wd_data_complete := false;
               wd_request_submitted := false; wd_response_handshake_pending := false;
               wd_driven := wd_driven d |}
    end
  else Ret d.

(** The response pins for this cycle. *)
Definition write_present (d : Gem5AxiMasterWriteDriver) : write_driven :=
  let v := wd_driven d in
  match wd_responses d with
  | [] => {| aw_ready := aw_ready v; w_ready := w_ready v; b_valid := 0;
             b_id := b_id v; b_resp := b_resp v |}
  | r :: _ => {| aw_ready := aw_ready v; w_ready := w_ready v; b_valid := 1;
                 b_id := write_resp_bits_id r; b_resp := write_resp_bits_resp r |}
  end.

(** The address and data handshakes of this cycle, from the pins [p]. *)
Definition write_capture (addr_handshake data_handshake hs : bool) (p : write_pins)
    (driven : write_driven) (d : Gem5AxiMasterWriteDriver) :
    Gem5AxiMasterWriteDriver :=
  let ca := addr_handshake && negb (wd_addr_captured d) in
  let cd := data_handshake && negb (wd_data_complete d) in
  {| wd_responses := wd_responses d;
     wd_request_addr := if ca then addr_of_write_pins p else wd_request_addr d;
     wd_request_data :=
       if cd then wd_request_data d ++ [beat_of_write_pins p] else wd_request_data d;
     wd_request_pending := wd_request_pending d;
     wd_addr_captured := ca || wd_addr_captured d;
     wd_data_complete := if cd then pin (w_last p) else wd_data_complete d;
     wd_request_submitted := wd_request_submitted d;
     wd_response_handshake_pending := hs;
     wd_driven := driven |}.

Definition write_submit (rs : list AxiWResp) (d : Gem5AxiMasterWriteDriver) :
    Gem5AxiMasterWriteDriver :=
  {| wd_responses := wd_responses d ++ rs; wd_request_addr := wd_request_addr d;
     wd_request_data := wd_request_data d; wd_request_pending := true;
     wd_addr_captured := wd_addr_captured d; wd_data_complete := wd_data_complete d;
     wd_request_submitted := true;
     wd_response_handshake_pending := wd_response_handshake_pending d;
     wd_driven := wd_driven d |}.

(** The ready pins for the next cycle. *)
Definition write_ready (d : Gem5AxiMasterWriteDriver) : Gem5AxiMasterWriteDriver :=
  let v := wd_driven d in
  {| wd_responses := wd_responses d; wd_request_addr := wd_request_addr d;
     wd_request_data := wd_request_data d; wd_request_pending := wd_request_pending d;
     wd_addr_captured := wd_addr_captured d; wd_data_complete := wd_data_complete d;
     wd_request_submitted := wd_request_submitted d;
     wd_response_handshake_pending := wd_response_handshake_pending d;
     wd_driven :=
       {| aw_ready := Z.b2z (negb (wd_request_pending d) && negb (wd_addr_captured d));
          w_ready := Z.b2z (negb (wd_request_pending d) && negb (wd_data_complete d)
                            && (length (wd_request_data d) <? 256)%nat);
          b_valid := b_valid v; b_id := b_id v; b_resp := b_resp v |} |}.

Section write_driver.
Context {core owner : Type}.
Context (Eval : core -> write_driven -> core) (pins : core -> write_pins).
Context (callback : AxiAddr -> list AxiWData -> owner -> owner * list AxiWResp).

Definition write_falling_edge (c : core) (o : owner) (d : Gem5AxiMasterWriteDriver) :
    res (core * owner * Gem5AxiMasterWriteDriver * option (AxiAddr * list AxiWData)) :=
  let addr_handshake := pin (aw_valid (pins c)) && pin (aw_ready (wd_driven d)) in
  let data_handshake := pin (w_valid (pins c)) && pin (w_ready (wd_driven d)) in
  d1 ← write_pop d;
  let driven := write_present d1 in
  let c1 := Eval c driven in
  let hs := pin (b_valid driven) && pin (b_ready (pins c1)) in
  let d2 := write_capture addr_handshake data_handshake hs (pins c1) driven d1 in
  let '(o1, d3, ev) :=
    if wd_addr_captured d2 && wd_data_complete d2 && negb (wd_request_submitted d2)
    then let '(o1, rs) := callback (wd_request_addr d2) (wd_request_data d2) o in
         (o1, write_submit rs d2, Some (wd_request_addr d2, wd_request_data d2))
    else (o, d2, None) in
  let d4 := write_ready d3 in
  Ret (Eval c1 (wd_driven d4), o1, d4, ev).

(** *** Invariant *)

(** The beats collected so far: only a final beat is flagged last, and it is
    exactly when the data is complete. *)
Definition data_flags (complete : bool) (l : list AxiWData) : Prop :=
  if complete then
    exists init b, l = init ++ [b] /\ pin (write_data_bits_last b) = true /\
      Forall (fun b => pin (write_data_bits_last b) = false) init
  else Forall (fun b => pin (write_data_bits_last b) = false) l.

Record write_inv (d : Gem5AxiMasterWriteDriver) : Prop := {
  wi_handshake : wd_response_handshake_pending d = true -> wd_responses d <> [];
  wi_addr_ready : pin (aw_ready (wd_driven d)) = true ->
    wd_request_pending d = false /\ wd_addr_captured d = false;
  wi_data_ready : pin (w_ready (wd_driven d)) = true ->
    wd_request_pending d = false /\ wd_data_complete d = false /\
    (length (wd_request_data d) < 256)%nat;
  wi_data_bound : (length (wd_request_data d) <= 256)%nat;
  wi_data_flags : data_flags (wd_data_complete d) (wd_request_data d);
  wi_submitted : wd_request_submitted d = wd_request_pending d;
  wi_pending : wd_request_pending d = true ->
    wd_addr_captured d = true /\ wd_data_complete d = true }.

Lemma write_inv_init a v : write_inv (write_driver_init a v).
Proof. split; simpl; try done; (lia || constructor). Qed.

Lemma write_inv_queue d rs : write_inv d -> write_inv (write_queue d rs).
Proof.
  intros [H1 H2 H3 H4 H5 H6 H7]. split; simpl; try done.
  intros H. specialize (H1 H). by destruct (wd_responses d).
Qed.

(** What the invariant says of the members alone. *)
Record write_core (d : Gem5AxiMasterWriteDriver) : Prop := {
  wc_bound : (length (wd_request_data d) <= 256)%nat;
  wc_flags : data_flags (wd_data_complete d) (wd_request_data d);
  wc_submitted : wd_request_submitted d = wd_request_pending d;
  wc_pending : wd_request_pending d = true ->
    wd_addr_captured d = true /\ wd_data_complete d = true }.

Lemma write_pop_spec d :
  write_inv d -> exists d1, write_pop d = Ret d1 /\ write_core d1 /\
    wd_driven d1 = wd_driven d /\
    (wd_response_handshake_pending d = false -> d1 = d) /\
    (wd_response_handshake_pending d = true ->
       wd_request_pending d1 = false /\ wd_addr_captured d1 = false /\
       wd_data_complete d1 = false /\ wd_request_data d1 = []).
Proof.
  intros [H1 H2 H3 H4 H5 H6 H7]. unfold write_pop.
  destruct (wd_response_handshake_pending d).
  - specialize (H1 eq_refl). destruct (wd_responses d) as [|r rs]; [done |].
    eexists. split; [done |]. split; [| done].
    split; simpl; try done; (lia || constructor).
  - eexists. split; [done |]. split; [| done]. by split.
Qed.

Lemma data_flags_snoc l b :
  data_flags false l -> data_flags (pin (write_data_bits_last b)) (l ++ [b]).
Proof.
  simpl. intros H. destruct (pin (write_data_bits_last b)) eqn:E; simpl.
  - by exists l, b.
  - apply Forall_app. split; [done |]. by apply Forall_singleton.
Qed.

Lemma write_capture_core ah dh hs p v d :
  write_core d ->
  (ah = true -> wd_request_pending d = false) ->
  (dh = true -> wd_request_pending d = false /\
     (wd_data_complete d = false -> (length (wd_request_data d) < 256)%nat)) ->
  write_core (write_capture ah dh hs p v d).
Proof.
  intros [C1 C2 C3 C4] Ha Hd. split; simpl.
  - destruct (dh && _) eqn:E; [| done]. apply andb_prop in E as [-> E].
    apply negb_true_iff in E. rewrite length_app. simpl.
    destruct (Hd eq_refl) as [_ H]. specialize (H E). lia.
  - destruct (dh && _) eqn:E; [| done]. apply andb_prop in E as [-> E].
    apply negb_true_iff in E. rewrite E in C2. exact (data_flags_snoc _ (beat_of_write_pins p) C2).
  - done.
  - intros Hp. destruct (C4 Hp) as [-> Hc]. rewrite orb_true_r, Hc. simpl.
    split; [done |]. by rewrite andb_false_r.
Qed.

Lemma write_ready_inv d :
  write_core d -> (wd_response_handshake_pending d = true -> wd_responses d <> []) ->
  write_inv (write_ready d).
Proof.
  intros [C1 C2 C3 C4] Hh. split; simpl; try done.
  - rewrite b2z_pin. intros [? ?]%andb_prop. by rewrite !negb_true_iff in *.
  - rewrite b2z_pin. intros [[? ?]%andb_prop Hl]%andb_prop.
    rewrite !negb_true_iff in *. apply Nat.ltb_lt in Hl. done.
Qed.

Lemma write_edge_spec c o d :
  write_inv d ->
  exists c' o' d' ev, write_falling_edge c o d = Ret (c', o', d', ev) /\
    write_inv d' /\
    match ev with
    | None => o' = o
    | Some (a, data) =>
        (exists rs, callback a data o = (o', rs)) /\
        a = wd_request_addr d' /\ data = wd_request_data d' /\
        wd_request_pending d' = true /\ data_flags true data /\
        (length data <= 256)%nat /\
        (wd_response_handshake_pending d = false -> wd_request_pending d = false)
    end.
Proof.
  intros Hinv. unfold write_falling_edge.
  destruct (write_pop_spec d Hinv) as (d1 & -> & Hc1 & Ed & Hsame & Hpop).
  cbn [mbind res_bind].
  set (ah := pin (aw_valid _) && _). set (dh := pin (w_valid _) && _).
  set (hs := pin (b_valid _) && _).
  set (d2 := write_capture ah dh hs _ _ d1).
  assert (write_core d2) as Hc2.
  { apply write_capture_core; [done | |].
    - intros [_ Ha]%andb_prop. destruct (wd_response_handshake_pending d).
      + by destruct Hpop.
      + rewrite Hsame by done. by destruct (wi_addr_ready d Hinv Ha).
    - intros [_ Ha]%andb_prop. destruct (wd_response_handshake_pending d).
      + destruct Hpop as (? & ? & ? & ->); [done |]. simpl. split; [done | lia].
      + rewrite Hsame by done. destruct (wi_data_ready d Hinv Ha) as (? & ? & ?). done. }
  assert (hs = true -> wd_responses d1 <> []) as Hhs.
  { unfold hs, write_present. destruct (wd_responses d1); [| done].
    by intros [? _]%andb_prop. }
  destruct (wd_addr_captured d2 && wd_data_complete d2 && negb (wd_request_submitted d2))
    eqn:E; [| do 4 eexists; split; [done |]; split; [by apply write_ready_inv | done]].
  apply andb_prop in E as [[E1 E2]%andb_prop E3]. apply negb_true_iff in E3.
  change (wd_request_submitted d2) with (wd_request_submitted d1) in E3.
  destruct (callback _ _ o) as [o1 rs] eqn:Ec. simpl.
  do 4 eexists. split; [done |]. destruct Hc2 as [B1 B2 B3 B4]. split; [| split].
  - apply write_ready_inv; [by split |]. simpl.
    intros H. specialize (Hhs H). by destruct (wd_responses d1).
  - eauto.
  - simpl. rewrite E2 in B2. repeat split; try done.
    intros Hn. rewrite <- (Hsame Hn). rewrite <- (wc_submitted d1 Hc1). done.
Qed.

(** Everything that can happen to the driver. *)
Inductive write_reach : core -> owner -> Gem5AxiMasterWriteDriver -> Prop :=
| write_reach_init a v c o : write_reach c o (write_driver_init a v)
| write_reach_env c o d c' o' : write_reach c o d -> write_reach c' o' d
| write_reach_queue c o d rs : write_reach c o d -> write_reach c o (write_queue d rs)
| write_reach_edge c o d c' o' d' ev :
    write_reach c o d -> write_falling_edge c o d = Ret (c', o', d', ev) ->
    write_reach c' o' d'.

Lemma write_reach_inv c o d : write_reach c o d -> write_inv d.
Proof.
  induction 1 as [ | | | c o d c' o' d' ev _ Hi E].
  - apply write_inv_init.
  - done.
  - by apply write_inv_queue.
  - destruct (write_edge_spec c o d Hi) as (? & ? & ? & ? & E' & Hi' & _).
    rewrite E in E'. by injection E' as <- <- <- <-.
Qed.

End write_driver.

(** ** Properties *)


(** A core that holds a read request and is always ready for data. *)
Definition sample_read_pins : read_pins :=
  {| ar_valid := 1; ar_addr := 536870912; ar_prot := 0; ar_id := 3; ar_len := 0;
     ar_size := 2; ar_burst := 1; ar_lock := 0; ar_cache := 0; ar_qos := 0;
     ar_region := 0; r_ready := 1 |}.
Definition sample_driven : read_driven :=
  {| ar_ready := 0; r_valid := 0; r_data := []; r_id := 0; r_resp := 0; r_last := 0 |}.
Definition sample_answer : AxiRData :=
  {| read_data_bits_data := seqZ 0 16; read_data_bits_id := 3;
     read_data_bits_resp := 0; read_data_bits_last := 1 |}.
Definition sample_callback (_ : AxiAddr) (o : nat) : nat * list AxiRData :=
  (S o, [sample_answer]).
Abbreviation sample_edge :=
  (read_falling_edge (fun c (_ : read_driven) => c) (fun c : read_pins => c) sample_callback).
Definition sample_read_driver : Gem5AxiMasterReadDriver :=
  match sample_edge sample_read_pins 0%nat (read_driver_init sample_addr sample_driven) with
  | Ret (_, _, d, _) => d
  | _ => read_driver_init sample_addr sample_driven
  end.


(** A queued answer of [k] beats whose last one, and only it, is flagged
    is delivered to a core that is ready in [k + 1] edges: the queue is then
    empty, the request is over, the driver accepts a new address, and no
    request was handed on in between. *)
Theorem read_answer_delivered {core owner} (Eval : core -> read_driven -> core) pins
    (callback : AxiAddr -> owner -> owner * list AxiRData) c o d :
  (forall c, pin (r_ready (pins c)) = true) ->
  read_inv d -> rd_request_pending d = true ->
  rd_response_handshake_pending d = false -> burst_flags (rd_responses d) ->
  exists c' d',
    read_edges Eval pins callback (S (length (rd_responses d))) c o d
      = Ret (c', o, d', []) /\
    rd_responses d' = [] /\ rd_request_pending d' = false /\
    pin (ar_ready (rd_driven d')) = true.
Proof.
  intros Hr Hi Hp Hh Hf.
  destruct (read_edge_ready Eval pins callback c o d Hr Hi Hp)
    as (c1 & d1 & E & Hi1 & Er & Eh & Ep).
  unfold read_remaining, read_taken in Er, Eh, Ep. rewrite Hh in Er, Eh, Ep.
  assert (rd_responses d <> []) as Hne by (by destruct Hf as ([] & ? & -> & _)).
  rewrite bool_decide_eq_false_2 in Eh by done.
  destruct (read_drain Eval pins callback (rd_responses d) c1 o d1)
    as (c2 & d2 & E2 & H1 & H2 & H3); try done.
  exists c2, d2. simpl. rewrite E. simpl. rewrite E2. simpl.
  split; [done | split; [done | split; [done |]]].
  destruct H3 as [_ H3]. by rewrite H3, H2.
Qed.

Definition sample_two_beats : Gem5AxiMasterReadDriver :=
  {| rd_responses := read_beats 536870920 8 2 3 (seqZ 100 16);
     rd_request := sample_addr; rd_request_pending := true; rd_request_seen := true;
     rd_response_handshake_pending := false; rd_driven := sample_driven |}.

Lemma read_answer_delivered_witness :
  exists c' d',
    read_edges (fun c (_ : read_driven) => c) (fun c : unit => sample_read_pins)
      sample_callback 3 tt 0%nat sample_two_beats = Ret (c', 0%nat, d', []) /\
    rd_responses d' = [] /\ rd_request_pending d' = false /\
    pin (ar_ready (rd_driven d')) = true.
Proof.
  apply (read_answer_delivered (fun c (_ : read_driven) => c)
    (fun c : unit => sample_read_pins) sample_callback tt 0%nat sample_two_beats).
  - done.
  - by split.
  - done.
  - done.
  - eexists [_], _. split; [reflexivity | split; [done |]].
    by repeat constructor.
Defined.

(** Whatever the core and the owner do, a falling edge of the write
    driver never pops an empty queue, and it hands a burst on only when the
    previous one has been answered, with its captured address and between one
    and 256 beats of which the last, and only it, is flagged last. *)
Theorem write_driver_submits {core owner} (Eval : core -> write_driven -> core) pins
    (callback : AxiAddr -> list AxiWData -> owner -> owner * list AxiWResp) c o d :
  write_reach Eval pins callback c o d ->
  exists c' o' d' ev, write_falling_edge Eval pins callback c o d = Ret (c', o', d', ev) /\
    forall a data, ev = Some (a, data) ->
      (wd_response_handshake_pending d = false -> wd_request_pending d = false) /\
      wd_request_addr d' = a /\ wd_request_data d' = data /\
      wd_request_pending d' = true /\
      pin (aw_ready (wd_driven d')) = false /\ pin (w_ready (wd_driven d')) = false /\
      (1 <= length data <= 256)%nat /\
      exists init b, data = init ++ [b] /\ pin (write_data_bits_last b) = true /\
        Forall (fun b => pin (write_data_bits_last b) = false) init.
Proof.
  intros Hr. apply write_reach_inv in Hr.
  destruct (write_edge_spec Eval pins callback c o d Hr) as (c' & o' & d' & ev & E & Hi & Hev).
  exists c', o', d', ev. split; [done |]. intros a data ->.
  destruct Hev as (_ & -> & -> & Hp & Hf & Hl & Hn).
  destruct Hi as [_ Ha Hd _ _ _ _].
  split; [done | split; [done | split; [done | split; [done |]]]].
  split; [| split; [| split]].
  - destruct (pin (aw_ready _)); [| done]. by destruct (Ha eq_refl) as [? _]; congruence.
  - destruct (pin (w_ready _)); [| done]. by destruct (Hd eq_refl) as [? _]; congruence.
  - destruct Hf as (init & b & E' & _). rewrite E' in Hl |- *.
    rewrite length_app in *. simpl in *. lia.
  - exact Hf.
Qed.

Definition sample_write_pins : write_pins :=
  {| aw_valid := 1; aw_addr := 536870912; aw_prot := 0; aw_id := 5; aw_len := 0;
     aw_size := 2; aw_burst := 1; aw_lock := 0; aw_cache := 0; aw_qos := 0;
     aw_region := 0; w_valid := 1; w_data := seqZ 0 16; w_strb := 15; w_last := 1;
     b_ready := 1 |}.
Definition sample_write_driven : write_driven :=
  {| aw_ready := 0; w_ready := 0; b_valid := 0; b_id := 0; b_resp := 0 |}.
Definition sample_write_callback (_ : AxiAddr) (_ : list AxiWData) (o : nat) :
    nat * list AxiWResp := (S o, []).
Abbreviation sample_write_edge :=
  (write_falling_edge (fun c (_ : write_driven) => c) (fun c : write_pins => c)
     sample_write_callback).
(** After the edge that raises both ready pins. *)
Definition sample_write_driver : Gem5AxiMasterWriteDriver :=
  write_ready (write_driver_init sample_addr
    {| aw_ready := 0; w_ready := 0; b_valid := 0; b_id := 0; b_resp := 0 |}).

Lemma write_driver_submits_witness :
  exists c' o' d' ev, sample_write_edge sample_write_pins 0%nat sample_write_driver
    = Ret (c', o', d', ev) /\
    ev = Some (addr_of_write_pins sample_write_pins, [beat_of_write_pins sample_write_pins]) /\
    wd_request_pending d' = true.
Proof.
  destruct (write_driver_submits (fun c (_ : write_driven) => c) (fun c : write_pins => c)
    sample_write_callback sample_write_pins 0%nat sample_write_driver)
    as (c' & o' & d' & ev & E & H).
  - exact (write_reach_edge (fun c (_ : write_driven) => c) (fun c : write_pins => c)
      sample_write_callback sample_write_pins 0%nat
      (write_driver_init sample_addr sample_write_driven) sample_write_pins 0%nat
      sample_write_driver None (write_reach_init _ _ _ _ _ _ _) eq_refl).
  - exists c', o', d', ev. split; [done |]. vm_compute in E.
    injection E as <- <- <- <-. split; [done |]. by eapply H.
Defined.
