(* ===== verification/CustomMac.v ===== *)
(** * The custom multiply-accumulate unit

    The registers and the clocked process of [OpenNpuXCustomMac.sv], and
    [Gem5CustomMac] of [gem5_custom_mac.h], which drives the Verilated module
    pin by pin.  [eval] with a rising [clk_i] runs the clocked process once;
    every other [eval] only recomputes [read_data_o]. *)

From S2P Require Import Prelude.

(** ** The RTL *)

Definition kOperandA : Z := 0.
Definition kOperandB : Z := 4.
Definition kAccumulator : Z := 8.
Definition kCommand : Z := 12.
Definition kResult : Z := 16.
Definition kStatus : Z := 20.
Definition kCycles : Z := 24.
Definition kId : Z := 28.

Record mac_regs := {
  operand_a_q : Z; operand_b_q : Z; accumulator_q : Z; result_q : Z; cycles_q : Z;
  countdown_q : Z; busy_q : bool; done_q : bool }.

Definition mac_reset : mac_regs :=
  {| operand_a_q := 0; operand_b_q := 0; accumulator_q := 0; result_q := 0;
     cycles_q := 0; countdown_q := 0; busy_q := false; done_q := false |}.

Definition product_w (r : mac_regs) : Z := u32 (operand_a_q r * operand_b_q r).

(** The countdown of a running operation, from the registers before the edge. *)
Definition mac_busy_part (r : mac_regs) : mac_regs :=
  if busy_q r then
    if countdown_q r =? 1 then
      {| operand_a_q := operand_a_q r; operand_b_q := operand_b_q r;
         accumulator_q := accumulator_q r;
         result_q := u32 (product_w r + accumulator_q r);
         cycles_q := u32 (cycles_q r + 1);
         countdown_q := 0; busy_q := false; done_q := true |}
    else
      {| operand_a_q := operand_a_q r; operand_b_q := operand_b_q r;
         accumulator_q := accumulator_q r; result_q := result_q r;
         cycles_q := u32 (cycles_q r + 1);
         countdown_q := wrap 3 (countdown_q r - 1);
         busy_q := busy_q r; done_q := done_q r |}
  else r.

(** The register write of the same edge: [r] holds the registers before the
    edge, [n] the nonblocking assignments made so far. *)
Definition mac_write_part (r n : mac_regs) (addr data : Z) : mac_regs :=
  if addr =? kOperandA then
    {| operand_a_q := data; operand_b_q := operand_b_q n;
       accumulator_q := accumulator_q n; result_q := result_q n;
       cycles_q := cycles_q n; countdown_q := countdown_q n;
       busy_q := busy_q n; done_q := done_q n |}
  else if addr =? kOperandB then
    {| operand_a_q := operand_a_q n; operand_b_q := data;
       accumulator_q := accumulator_q n; result_q := result_q n;
       cycles_q := cycles_q n; countdown_q := countdown_q n;
       busy_q := busy_q n; done_q := done_q n |}
  else if addr =? kAccumulator then
    {| operand_a_q := operand_a_q n; operand_b_q := operand_b_q n;
       accumulator_q := data; result_q := result_q n;
       cycles_q := cycles_q n; countdown_q := countdown_q n;
       busy_q := busy_q n; done_q := done_q n |}
  else if (addr =? kCommand) && Z.testbit data 0 && negb (busy_q r) then
    {| operand_a_q := operand_a_q n; operand_b_q := operand_b_q n;
       accumulator_q := accumulator_q n; result_q := result_q n;
       cycles_q := cycles_q n; countdown_q := 3; busy_q := true; done_q := false |}
  else n.

(** [always_ff @(posedge clk_i or negedge rst_ni)]. *)
Definition mac_posedge (rst_n write_en : bool) (addr data : Z) (r : mac_regs) : mac_regs :=
  if negb rst_n then mac_reset
  else let n := mac_busy_part r in
       if write_en then mac_write_part r n addr data else n.

(** [always_comb]. *)
Definition read_data_o (r : mac_regs) (addr : Z) : Z :=
  if addr =? kOperandA then operand_a_q r
  else if addr =? kOperandB then operand_b_q r
  else if addr =? kAccumulator then accumulator_q r
  else if addr =? kResult then result_q r
  else if addr =? kStatus then 2 * Z.b2z (busy_q r) + Z.b2z (done_q r)
  else if addr =? kCycles then cycles_q r
  else if addr =? kId then 1313888417
  else 0.

(** ** The driver *)

Definition kBase : Z := 805306368.
Definition kSize : Z := 256.

Record Gem5CustomMac := {
  model : mac_regs;
  rst_ni : bool;
  write_en_i : bool;
  addr_i : Z;
  write_data_i : Z;
  active_cycles : Z }.

Definition Step (m : Gem5CustomMac) : Gem5CustomMac :=
  {| model := mac_posedge (rst_ni m) (write_en_i m) (addr_i m) (write_data_i m) (model m);
     rst_ni := rst_ni m; write_en_i := write_en_i m; addr_i := addr_i m;
     write_data_i := write_data_i m; active_cycles := active_cycles m |}.

Definition set_rst (b : bool) (m : Gem5CustomMac) : Gem5CustomMac :=
  {| model := model m; rst_ni := b; write_en_i := write_en_i m; addr_i := addr_i m;
     write_data_i := write_data_i m; active_cycles := active_cycles m |}.
Definition set_active (n : Z) (m : Gem5CustomMac) : Gem5CustomMac :=
  {| model := model m; rst_ni := rst_ni m; write_en_i := write_en_i m;
     addr_i := addr_i m; write_data_i := write_data_i m; active_cycles := n |}.
Definition set_write (en : bool) (addr data : Z) (m : Gem5CustomMac) : Gem5CustomMac :=
  {| model := model m; rst_ni := rst_ni m; write_en_i := en; addr_i := addr;
     write_data_i := data; active_cycles := active_cycles m |}.

(** [Reset]: one edge with reset low, one with it high. *)
Definition Reset (m : Gem5CustomMac) : Gem5CustomMac :=
  set_active 0 (Step (set_rst true (Step (set_rst false m)))).

(** The constructor; the registers' power-up values do not survive [Reset]. *)
Definition custom_mac_init (powerup : mac_regs) : Gem5CustomMac :=
  Reset {| model := powerup; rst_ni := true; write_en_i := false; addr_i := 0;
           write_data_i := 0; active_cycles := 0 |}.

Definition StepIfActive (m : Gem5CustomMac) : Gem5CustomMac :=
  if active_cycles m =? 0 then m
  else let m1 := Step m in set_active (active_cycles m1 - 1) m1.

Definition Contains (addr size : Z) : bool :=
  (kBase <=? addr) && negb (size =? 0) && (u32 (addr - kBase) <? kSize) &&
  (size <=? u32 (kSize - u32 (addr - kBase))).

Definition Write32 (addr value : Z) (m : Gem5CustomMac) : Gem5CustomMac :=
  let a := u8 (addr - kBase) in
  let m1 := set_write false a value (Step (set_write true a value m)) in
  if (addr =? kBase + 12) && negb (Z.land value 1 =? 0) then set_active 3 m1 else m1.

Definition Read32 (addr : Z) (m : Gem5CustomMac) : Z * Gem5CustomMac :=
  let a := u8 (addr - kBase) in
  (read_data_o (model m) a, set_write (write_en_i m) a (write_data_i m) m).

(** ** Invariant *)

(** Between calls: the write enable is low, reset is high, and the driver
    still has at least as many clock edges to give as a running operation
    needs. *)
Definition mac_inv (m : Gem5CustomMac) : Prop :=
  rst_ni m = true /\ write_en_i m = false /\ 0 <= active_cycles m <= 3 /\
  if busy_q (model m) then 1 <= countdown_q (model m) <= active_cycles m
  else countdown_q (model m) = 0.

Inductive mac_reach : Gem5CustomMac -> Prop :=
| mac_reach_init r : mac_reach (custom_mac_init r)
| mac_reach_reset m : mac_reach m -> mac_reach (Reset m)
| mac_reach_step m : mac_reach m -> mac_reach (StepIfActive m)
| mac_reach_write m addr value : mac_reach m ->
    0 <= addr < 2 ^ 32 -> Contains addr 4 = true -> 0 <= value < 2 ^ 32 -> mac_reach (Write32 addr value m)
| mac_reach_read m addr : mac_reach m -> mac_reach (Read32 addr m).2.

Lemma contains_iff addr size :
  0 <= addr < 2 ^ 32 -> 0 <= size < 2 ^ 32 ->
  Contains addr size = true <->
    1 <= size /\ kBase <= addr /\ addr + size <= kBase + kSize.
Proof.
  intros Ha Hs. unfold Contains, kBase, kSize.
  destruct (decide (805306368 <= addr < 805306368 + 256)) as [H|H].
  - rewrite (wrap_small 32 (addr - _)), wrap_small by lia. bool_prop. lia.
  - destruct (decide (addr < 805306368)).
    + bool_prop. lia.
    + rewrite (wrap_small 32 (addr - _)) by lia. bool_prop. lia.
Qed.

Lemma wrap3_small z : 0 <= z < 8 -> wrap 3 z = z.
Proof. intros. by apply wrap_small. Qed.

Lemma mac_write_part_ctl r n addr data :
  busy_q (mac_write_part r n addr data) = true ->
  busy_q n = true /\ countdown_q (mac_write_part r n addr data) = countdown_q n \/
  (addr = kCommand /\ Z.testbit data 0 = true /\ busy_q r = false /\
   countdown_q (mac_write_part r n addr data) = 3).
Proof.
  unfold mac_write_part. do 3 (case_test; [by left |]).
  case_test; [| by left]. bool_prop. intros _. right.
  destruct E2 as [[-> ?] ?]. done.
Qed.

Lemma mac_write_part_idle r n addr data :
  busy_q (mac_write_part r n addr data) = false ->
  busy_q n = false /\ countdown_q (mac_write_part r n addr data) = countdown_q n.
Proof. unfold mac_write_part. do 4 (case_test; [done |]). done. Qed.

Lemma land_1_testbit v : negb (Z.land v 1 =? 0) = Z.testbit v 0.
Proof.
  change 1 with (Z.ones 1). rewrite Z.land_ones by lia. change (2 ^ 1) with 2.
  rewrite Zmod_odd, <- Z.bit0_odd. by destruct (Z.testbit v 0).
Qed.

Lemma mac_inv_write addr value m :
  0 <= addr < 2 ^ 32 -> Contains addr 4 = true -> mac_inv m ->
  mac_inv (Write32 addr value m).
Proof.
  intros Ha Hc (Hr & Hw & Hac & Hb). apply contains_iff in Hc; [| lia | lia].
  unfold kBase, kSize in Hc.
  assert (u8 (addr - kBase) = addr - kBase) as Eu.
  { apply wrap_small. unfold kBase. lia. }
  unfold Write32. rewrite Eu, land_1_testbit.
  set (a := addr - kBase).
  assert ((addr =? kBase + 12) = (a =? kCommand)) as -> by (unfold a, kCommand; lia).
  set (n := mac_busy_part (model m)).
  assert (if busy_q n then busy_q (model m) = true /\ 1 <= countdown_q n <= active_cycles m
          else countdown_q n = 0) as Hn.
  { unfold n, mac_busy_part. destruct (busy_q (model m)) eqn:Eb; [| rewrite ?Eb; done].
    destruct (countdown_q (model m) =? 1) eqn:Ec; simpl; [done |].
    rewrite Z.eqb_neq in Ec. rewrite wrap3_small by lia. lia. }
  destruct ((a =? kCommand) && Z.testbit value 0) eqn:Ecmd;
    unfold mac_inv; simpl; unfold mac_posedge; rewrite Hr; simpl; fold n.
  - do 3 (split; [done || lia |]).
    destruct (busy_q (mac_write_part _ _ _ _)) eqn:Eb.
    + apply mac_write_part_ctl in Eb as [[Eb ->]|(_ & _ & _ & ->)]; [| lia].
      rewrite Eb in Hn. lia.
    + apply mac_write_part_idle in Eb as [Eb ->]. by rewrite Eb in Hn.
  - do 3 (split; [done || lia |]).
    destruct (busy_q (mac_write_part _ _ _ _)) eqn:Eb.
    + apply mac_write_part_ctl in Eb as [[Eb ->]|(Ea & Et & _)];
        [rewrite Eb in Hn; lia | by rewrite Ea, Et in Ecmd].
    + apply mac_write_part_idle in Eb as [Eb ->]. by rewrite Eb in Hn.
Qed.

Lemma mac_inv_step m : mac_inv m -> mac_inv (StepIfActive m).
Proof.
  intros (Hr & Hw & Hac & Hb). unfold StepIfActive.
  destruct (active_cycles m =? 0) eqn:E; [by split |]. rewrite Z.eqb_neq in E.
  unfold mac_inv. simpl. unfold mac_posedge. rewrite Hr, Hw. simpl.
  do 3 (split; [done || lia |]). unfold mac_busy_part.
  destruct (busy_q (model m)) eqn:Eb; [| rewrite ?Eb; done].
  destruct (countdown_q (model m) =? 1) eqn:Ec; simpl; [done |].
  rewrite Z.eqb_neq in Ec. rewrite ?Eb, wrap3_small by lia. lia.
Qed.

Lemma mac_inv_reset m : write_en_i m = false -> mac_inv (Reset m).
Proof. intros Hw. unfold mac_inv. simpl. by rewrite Hw. Qed.

Lemma mac_reach_inv m : mac_reach m -> mac_inv m.
Proof.
  induction 1 as [r | m _ IH | m _ IH | m addr value _ IH Ha Hc Hv | m addr _ IH].
  - by apply mac_inv_reset.
  - apply mac_inv_reset. apply IH.
  - by apply mac_inv_step.
  - by apply mac_inv_write.
  - destruct IH as (? & ? & ? & ?). by split.
Qed.

Lemma mac_write_other addr value m :
  rst_ni m = true -> busy_q (model m) = false ->
  model (Write32 addr value m) = mac_write_part (model m) (model m) (u8 (addr - kBase)) value.
Proof.
  intros Hr Hb. unfold Write32.
  destruct (_ && _); simpl; unfold mac_posedge, mac_busy_part; by rewrite Hr, Hb.
Qed.

Lemma step_idle m :
  mac_inv m -> busy_q (model m) = false -> busy_q (model (StepIfActive m)) = false.
Proof.
  intros (Hr & Hw & _ & _) Hb. unfold StepIfActive.
  destruct (_ =? 0); [done |]. simpl. unfold mac_posedge, mac_busy_part.
  by rewrite Hr, Hw, Hb.
Qed.

(** ** Properties *)

(** In every reachable state of the driver in which the unit is idle,
    starting it takes exactly three of the driver's steps: it is busy and not
    done for two of them, and after the third the result register reads
    [a * b + c] modulo [2^32] of the operands at the start, the status reads
    done, the cycle counter has advanced by three, and further steps change
    nothing. *)
Theorem mac_start_completes m :
  mac_reach m -> busy_q (model m) = false ->
  let m0 := Write32 (kBase + kCommand) 1 m in
  let m1 := StepIfActive m0 in
  let m2 := StepIfActive m1 in
  let m3 := StepIfActive m2 in
  (Read32 (kBase + kStatus) m0).1 = 2 /\ (Read32 (kBase + kStatus) m1).1 = 2 /\
  (Read32 (kBase + kStatus) m2).1 = 2 /\ (Read32 (kBase + kStatus) m3).1 = 1 /\
  (Read32 (kBase + kResult) m3).1 =
    u32 (operand_a_q (model m) * operand_b_q (model m) + accumulator_q (model m)) /\
  (Read32 (kBase + kCycles) m3).1 = u32 (cycles_q (model m) + 3) /\
  StepIfActive m3 = m3.
Proof.
  intros Hreach Hb. apply mac_reach_inv in Hreach as (Hr & Hw & _ & _).
  unfold Read32, Write32, StepIfActive. simpl. unfold mac_posedge. rewrite Hr.
  simpl. unfold mac_busy_part. rewrite Hb. simpl. unfold mac_write_part. rewrite Hb.
  simpl. do 4 (split; [done |]). split; [| split; [| done]].
  - change (u32 (u32 (operand_a_q (model m) * operand_b_q (model m))
                 + accumulator_q (model m)) =
            u32 (operand_a_q (model m) * operand_b_q (model m) + accumulator_q (model m))).
    unfold wrap. by rewrite Zplus_mod_idemp_l.
  - change (u32 (u32 (u32 (cycles_q (model m) + 1) + 1) + 1) = u32 (cycles_q (model m) + 3)).
    unfold wrap. replace (cycles_q (model m) + 3) with (cycles_q (model m) + 1 + 1 + 1) by lia.
    by rewrite (Zplus_mod_idemp_l (cycles_q (model m) + 1) 1), Zplus_mod_idemp_l.
Qed.

Definition sample_mac : Gem5CustomMac :=
  Write32 (kBase + kAccumulator) 5 (Write32 (kBase + kOperandB) 7
    (Write32 (kBase + kOperandA) 6 (custom_mac_init mac_reset))).

Lemma sample_mac_reach : mac_reach sample_mac.
Proof.
  unfold sample_mac.
  repeat (apply mac_reach_write; [| vm_compute; split; [discriminate | reflexivity] |
    reflexivity | vm_compute; split; [discriminate | reflexivity]]).
  apply mac_reach_init.
Qed.

Lemma mac_start_witness :
  let m0 := Write32 (kBase + kCommand) 1 sample_mac in
  (Read32 (kBase + kResult) (StepIfActive (StepIfActive (StepIfActive m0)))).1 = 47.
Proof.
  destruct (mac_start_completes sample_mac sample_mac_reach eq_refl)
    as (_ & _ & _ & _ & H & _). exact H.
Defined.

(** An operation that was started always finishes: in every reachable
    state, after as many driver steps as remain active the unit is idle, so
    polling the status register terminates. *)
Theorem mac_always_finishes m :
  mac_reach m ->
  busy_q (model (StepIfActive (StepIfActive (StepIfActive m)))) = false /\
  (busy_q (model m) = true -> done_q (model (StepIfActive (StepIfActive (StepIfActive m)))) = true).
Proof.
  intros Hreach.
  pose proof (mac_reach_inv m Hreach) as (Hr & Hw & Ha & Hb).
  destruct (busy_q (model m)) eqn:Eb.
  - assert (active_cycles m = 1 \/ active_cycles m = 2 \/ active_cycles m = 3) as Ea by lia.
    assert (countdown_q (model m) = 1 \/ countdown_q (model m) = 2 \/
            countdown_q (model m) = 3) as Ec by lia.
    unfold StepIfActive.
    destruct Ea as [Ea|[Ea|Ea]], Ec as [Ec|[Ec|Ec]]; try lia;
      repeat (simpl; unfold mac_posedge, mac_busy_part; rewrite ?Hr, ?Hw, ?Eb, ?Ea, ?Ec);
      done.
  - split; [| done]. pose proof (mac_reach_inv m Hreach) as Hi.
    apply step_idle; [by do 2 apply mac_inv_step |].
    apply step_idle; [by apply mac_inv_step |]. by apply step_idle.
Qed.

Lemma mac_always_finishes_witness :
  done_q (model (StepIfActive (StepIfActive (StepIfActive
    (Write32 (kBase + kCommand) 1 sample_mac))))) = true.
Proof.
  apply (mac_always_finishes (Write32 (kBase + kCommand) 1 sample_mac)).
  - apply mac_reach_write; [exact sample_mac_reach | vm_compute; split; [discriminate | reflexivity] |
      reflexivity | vm_compute; split; [discriminate | reflexivity]].
  - reflexivity.
Defined.
