(* ===== verification/Operator.v ===== *)
(** * Operator descriptors and the firmware-side client

    The structures of [coral_operator.h], their layout in memory, and the
    client of [coral_operator_client.h]: the choice between RTL and hybrid
    execution, the staging allocator, and the filling of a descriptor. *)

From S2P Require Import Prelude.

(** ** Constants *)

Definition CORAL_OPERATOR_ABI_MAGIC : Z := 0x4e50584f.
Definition CORAL_OPERATOR_ABI_VERSION : Z := 4.
Definition CORAL_OPERATOR_MMIO_BASE : Z := 0x30000100.
Definition CORAL_OPERATOR_MODE_REG : Z := CORAL_OPERATOR_MMIO_BASE + 0x00.
Definition CORAL_OPERATOR_DOORBELL_REG : Z := CORAL_OPERATOR_MMIO_BASE + 0x04.
Definition CORAL_OPERATOR_STATUS_REG : Z := CORAL_OPERATOR_MMIO_BASE + 0x08.
Definition CORAL_OPERATOR_CAPABILITIES_REG : Z := CORAL_OPERATOR_MMIO_BASE + 0x0c.
Definition CORAL_OPERATOR_SAMPLED_RTL_MASK_REG : Z := CORAL_OPERATOR_MMIO_BASE + 0x10.
Definition CORAL_OPERATOR_DESCRIPTOR_OFFSET : Z := 0x00400300.
Definition CORAL_OPERATOR_STAGING_OFFSET : Z := 0x00500000.
Definition CORAL_OPERATOR_STAGING_SIZE : Z := 0x00300000.
Definition CORAL_OPERATOR_MAX_TENSORS : Z := 4.
Definition CORAL_OPERATOR_MAX_DIMS : Z := 4.

Definition CORAL_OPERATOR_MODE_RTL : Z := 0.
Definition CORAL_OPERATOR_MODE_HYBRID : Z := 1.
Definition CORAL_OPERATOR_MODE_SAMPLED : Z := 2.

Definition CORAL_OPERATOR_OP_INVALID : Z := 0.
Definition CORAL_OPERATOR_OP_PARTIAL_MOBILENET : Z := 1.
Definition CORAL_OPERATOR_OP_CONV_2D_INT8 : Z := 2.
Definition CORAL_OPERATOR_OP_DEPTHWISE_CONV_2D_INT8 : Z := 3.
Definition CORAL_OPERATOR_OP_MATMUL_INT8 : Z := 4.
Definition CORAL_OPERATOR_OP_FULLY_CONNECTED_INT8 : Z := 5.
Definition CORAL_OPERATOR_OP_ADD_INT8 : Z := 6.
Definition CORAL_OPERATOR_OP_SOFTMAX : Z := 7.
Definition CORAL_OPERATOR_OP_LAYER_NORM : Z := 8.

Definition CORAL_OPERATOR_STATE_IDLE : Z := 0.
Definition CORAL_OPERATOR_STATE_SUBMITTED : Z := 1.
Definition CORAL_OPERATOR_STATE_RUNNING : Z := 2.
Definition CORAL_OPERATOR_STATE_COMPLETE : Z := 3.
Definition CORAL_OPERATOR_STATE_ERROR : Z := 4.

Definition CORAL_OPERATOR_ERROR_NONE : Z := 0.
Definition CORAL_OPERATOR_ERROR_BAD_DESCRIPTOR : Z := 1.
Definition CORAL_OPERATOR_ERROR_UNSUPPORTED : Z := 2.
Definition CORAL_OPERATOR_ERROR_EXECUTION : Z := 3.
Definition CORAL_OPERATOR_ERROR_ADDRESS : Z := 4.

Definition CORAL_OPERATOR_ELEMENT_INT8 : Z := 1.
Definition CORAL_OPERATOR_ELEMENT_INT32 : Z := 2.
Definition CORAL_OPERATOR_ELEMENT_FLOAT32 : Z := 3.

(** ** Structures *)

Record coral_operator_tensor := {
  t_address : Z; t_size : Z; t_rank : Z; t_dimensions : list Z;
  t_element_type : Z; t_zero_point : Z }.

(** [tensor.dimensions[i]]; the array has four elements. *)
Definition dim (t : coral_operator_tensor) (i : nat) : Z :=
  nth i (t_dimensions t) 0.

Record coral_operator_descriptor := {
  d_magic : Z; d_version : Z; d_descriptor_size : Z; d_opcode : Z;
  d_state : Z; d_error : Z; d_flags : Z; d_execution_mode : Z;
  d_tensor_count : Z; d_tensors : list coral_operator_tensor;
  d_stride_height : Z; d_stride_width : Z; d_padding_height : Z;
  d_padding_width : Z; d_multiplier_address : Z; d_shift_address : Z;
  d_output_zero_point : Z; d_activation_min : Z; d_activation_max : Z;
  d_quantization_count : Z; d_operation_count : Z; d_host_elapsed_ns : Z;
  d_modeled_cycles : Z; d_bytes_read : Z; d_bytes_written : Z;
  d_reserved : list Z }.

Definition tensor_zero : coral_operator_tensor :=
  {| t_address := 0; t_size := 0; t_rank := 0; t_dimensions := [0; 0; 0; 0];
     t_element_type := 0; t_zero_point := 0 |}.

Definition tensor_at (d : coral_operator_descriptor) (i : nat) : coral_operator_tensor :=
  nth i (d_tensors d) tensor_zero.

(** The fields hold what their C types hold. *)
Definition is_u32 (z : Z) : Prop := 0 <= z < 2 ^ 32.
Definition is_u64 (z : Z) : Prop := 0 <= z < 2 ^ 64.
Definition is_i32 (z : Z) : Prop := - 2 ^ 31 <= z < 2 ^ 31.

Definition tensor_wf (t : coral_operator_tensor) : Prop :=
  is_u32 (t_address t) /\ is_u32 (t_size t) /\ is_u32 (t_rank t) /\
  length (t_dimensions t) = 4%nat /\ Forall is_u32 (t_dimensions t) /\
  is_u32 (t_element_type t) /\ is_i32 (t_zero_point t).

Record descriptor_wf (d : coral_operator_descriptor) : Prop := {
  wf_u32 : Forall is_u32
    [d_magic d; d_version d; d_descriptor_size d; d_opcode d; d_state d; d_error d;
     d_flags d; d_execution_mode d; d_tensor_count d; d_stride_height d;
     d_stride_width d; d_padding_height d; d_padding_width d;
     d_multiplier_address d; d_shift_address d; d_quantization_count d];
  wf_i32 : Forall is_i32
    [d_output_zero_point d; d_activation_min d; d_activation_max d];
  wf_u64 : Forall is_u64
    [d_operation_count d; d_host_elapsed_ns d; d_modeled_cycles d; d_bytes_read d;
     d_bytes_written d];
  wf_tensors : length (d_tensors d) = 4%nat /\ Forall tensor_wf (d_tensors d);
  wf_reserved : length (d_reserved d) = 8%nat /\ Forall is_u32 (d_reserved d) }.

(** ** Layout *)

(** [sizeof(coral_operator_descriptor)]: 55 words, four bytes of padding in
    front of the 64-bit fields, then 18 words. *)
Definition descriptor_sizeof : Z := 296.

Definition tensor_words (t : coral_operator_tensor) : list Z :=
  [t_address t; t_size t; t_rank t] ++ t_dimensions t ++
  [t_element_type t; u32 (t_zero_point t)].

Definition words64 (z : Z) : list Z := [u32 z; u32 (Z.shiftr z 32)].

(** The words in front of the padding. *)
Definition head_words (d : coral_operator_descriptor) : list Z :=
  [d_magic d; d_version d; d_descriptor_size d; d_opcode d; d_state d; d_error d;
   d_flags d; d_execution_mode d; d_tensor_count d] ++
  mjoin (tensor_words <$> d_tensors d) ++
  [d_stride_height d; d_stride_width d; d_padding_height d; d_padding_width d;
   d_multiplier_address d; d_shift_address d; u32 (d_output_zero_point d);
   u32 (d_activation_min d); u32 (d_activation_max d); d_quantization_count d].

(** The words behind it. *)
Definition tail_words (d : coral_operator_descriptor) : list Z :=
  words64 (d_operation_count d) ++ words64 (d_host_elapsed_ns d) ++
  words64 (d_modeled_cycles d) ++ words64 (d_bytes_read d) ++
  words64 (d_bytes_written d) ++ d_reserved d.

Definition bytes_of_words (ws : list Z) : list Z := mjoin (le_bytes 4 <$> ws).

(** Storing every field of the descriptor at offset [off]. *)
Definition store_descriptor (b : buf) (off : Z) (d : coral_operator_descriptor) : buf :=
  buf_blit (buf_blit b off (bytes_of_words (head_words d)))
    (off + 224) (bytes_of_words (tail_words d)).

Definition word (b : buf) (off i : Z) : Z := le_val (buf_slice b (off + 4 * i) 4).
Definition sword (b : buf) (off i : Z) : Z := i32 (word b off i).
Definition word64 (b : buf) (off i : Z) : Z :=
  word b off i + 2 ^ 32 * word b off (i + 1).

Definition load_tensor (b : buf) (off i : Z) : coral_operator_tensor :=
  {| t_address := word b off i; t_size := word b off (i + 1);
     t_rank := word b off (i + 2);
     t_dimensions := [word b off (i + 3); word b off (i + 4); word b off (i + 5);
                      word b off (i + 6)];
     t_element_type := word b off (i + 7); t_zero_point := sword b off (i + 8) |}.

Definition load_descriptor (b : buf) (off : Z) : coral_operator_descriptor :=
  {| d_magic := word b off 0; d_version := word b off 1;
     d_descriptor_size := word b off 2; d_opcode := word b off 3;
     d_state := word b off 4; d_error := word b off 5; d_flags := word b off 6;
     d_execution_mode := word b off 7; d_tensor_count := word b off 8;
     d_tensors := [load_tensor b off 9; load_tensor b off 18; load_tensor b off 27;
                   load_tensor b off 36];
     d_stride_height := word b off 45; d_stride_width := word b off 46;
     d_padding_height := word b off 47; d_padding_width := word b off 48;
     d_multiplier_address := word b off 49; d_shift_address := word b off 50;
     d_output_zero_point := sword b off 51; d_activation_min := sword b off 52;
     d_activation_max := sword b off 53; d_quantization_count := word b off 54;
     d_operation_count := word64 b off 56; d_host_elapsed_ns := word64 b off 58;
     d_modeled_cycles := word64 b off 60; d_bytes_read := word64 b off 62;
     d_bytes_written := word64 b off 64;
     d_reserved := (fun i => word b off (66 + i)) <$> seqZ 0 8 |}.

(** ** The client *)

(** The MMIO registers as the firmware reads them. *)
Record operator_regs := {
  reg_mode : Z; reg_capabilities : Z; reg_sampled_rtl_mask : Z }.

Definition HybridOperatorSupported (r : operator_regs) (opcode : Z) : bool :=
  (opcode <? 32) && negb (Z.land (reg_capabilities r) (u32 (Z.shiftl 1 opcode)) =? 0).

Definition OperatorUsesHybrid (r : operator_regs) (opcode : Z) : bool :=
  let mode := reg_mode r in
  if mode =? CORAL_OPERATOR_MODE_HYBRID then HybridOperatorSupported r opcode
  else if mode =? CORAL_OPERATOR_MODE_SAMPLED then
    HybridOperatorSupported r opcode &&
    (Z.land (reg_sampled_rtl_mask r) (u32 (Z.shiftl 1 opcode)) =? 0)
  else false.

Record OperatorStagingAllocator := { a_base : Z; a_size : Z; a_cursor : Z }.

Definition InitializeStagingAllocator (extmem_base : Z) : OperatorStagingAllocator :=
  {| a_base := u32 (extmem_base + CORAL_OPERATOR_STAGING_OFFSET);
     a_size := CORAL_OPERATOR_STAGING_SIZE; a_cursor := 0 |}.

(** The address (zero on failure) and the allocator afterwards. *)
Definition AllocateStaging (allocator : option OperatorStagingAllocator)
    (size alignment : Z) : Z * option OperatorStagingAllocator :=
  match allocator with
  | None => (0, None)
  | Some a =>
      if (size =? 0) || (alignment =? 0)
         || negb (Z.land alignment (u32 (alignment - 1)) =? 0)
      then (0, Some a)
      else
        let aligned := Z.land (u32 (a_cursor a + alignment - 1))
                              (u32 (Z.lnot (alignment - 1))) in
        if (aligned <? a_cursor a) || (a_size a <? size)
           || (u32 (a_size a - size) <? aligned)
        then (0, Some a)
        else (u32 (a_base a + aligned),
              Some {| a_base := a_base a; a_size := a_size a;
                      a_cursor := u32 (aligned + size) |})
  end.

(** The descriptor with its tensors replaced. *)
Definition set_tensors (d : coral_operator_descriptor) (count : Z)
    (ts : list coral_operator_tensor) : coral_operator_descriptor :=
  {| d_magic := d_magic d; d_version := d_version d;
     d_descriptor_size := d_descriptor_size d; d_opcode := d_opcode d;
     d_state := d_state d; d_error := d_error d; d_flags := d_flags d;
     d_execution_mode := d_execution_mode d; d_tensor_count := count;
     d_tensors := ts; d_stride_height := d_stride_height d;
     d_stride_width := d_stride_width d; d_padding_height := d_padding_height d;
     d_padding_width := d_padding_width d;
     d_multiplier_address := d_multiplier_address d;
     d_shift_address := d_shift_address d;
     d_output_zero_point := d_output_zero_point d;
     d_activation_min := d_activation_min d; d_activation_max := d_activation_max d;
     d_quantization_count := d_quantization_count d;
     d_operation_count := d_operation_count d; d_host_elapsed_ns := d_host_elapsed_ns d;
     d_modeled_cycles := d_modeled_cycles d; d_bytes_read := d_bytes_read d;
     d_bytes_written := d_bytes_written d; d_reserved := d_reserved d |}.

Definition SetOperatorTensor (descriptor : option coral_operator_descriptor)
    (index address size rank : Z) (dimensions : option (list Z))
    (element_type zero_point : Z) : bool * option coral_operator_descriptor :=
  match descriptor, dimensions with
  | Some d, Some dims =>
      if (CORAL_OPERATOR_MAX_TENSORS <=? index) || (address =? 0) || (size =? 0)
         || (rank =? 0) || (CORAL_OPERATOR_MAX_DIMS <? rank)
      then (false, Some d)
      else
        let t := {| t_address := address; t_size := size; t_rank := rank;
                    t_dimensions := take 4 dims; t_element_type := element_type;
                    t_zero_point := zero_point |} in
        let count := if d_tensor_count d <=? index then index + 1
                     else d_tensor_count d in
        (true, Some (set_tensors d count (<[Z.to_nat index := t]> (d_tensors d))))
  | d, _ => (false, d)
  end.

Definition InitializeOperatorDescriptor (opcode execution_mode : Z) :
    coral_operator_descriptor :=
  {| d_magic := CORAL_OPERATOR_ABI_MAGIC; d_version := CORAL_OPERATOR_ABI_VERSION;
     d_descriptor_size := descriptor_sizeof; d_opcode := opcode; d_state := 0;
     d_error := 0; d_flags := 0; d_execution_mode := execution_mode;
     d_tensor_count := 0; d_tensors := replicate 4 tensor_zero;
     d_stride_height := 0; d_stride_width := 0; d_padding_height := 0;
     d_padding_width := 0; d_multiplier_address := 0; d_shift_address := 0;
     d_output_zero_point := 0; d_activation_min := 0; d_activation_max := 0;
     d_quantization_count := 0; d_operation_count := 0; d_host_elapsed_ns := 0;
     d_modeled_cycles := 0; d_bytes_read := 0; d_bytes_written := 0;
     d_reserved := replicate 8 0 |}.

(** ** Layout lemmas *)

Lemma length_bytes_of_words ws : length (bytes_of_words ws) = (4 * length ws)%nat.
Proof.
  induction ws as [|w ws IH]; [done |].
  change (bytes_of_words (w :: ws)) with (le_bytes 4 w ++ bytes_of_words ws).
  rewrite length_app, length_le_bytes, IH. simpl. lia.
Qed.

Lemma bytes_of_words_slice ws i :
  (i < length ws)%nat ->
  take 4 (drop (4 * i) (bytes_of_words ws)) = le_bytes 4 (ws !!! i).
Proof.
  revert i. induction ws as [|w ws IH]; intros i Hi; [simpl in Hi; lia |].
  change (bytes_of_words (w :: ws)) with (le_bytes 4 w ++ bytes_of_words ws).
  destruct i as [|i].
  - rewrite drop_0. by apply take_app_length'.
  - replace (4 * S i)%nat with (length (le_bytes 4 w) + 4 * i)%nat
      by (rewrite length_le_bytes; lia).
    rewrite drop_app_add'; [| done]. simpl in Hi. apply IH. lia.
Qed.

Lemma word_blit b off ws i :
  0 <= i < Z.of_nat (length ws) ->
  word (buf_blit b off (bytes_of_words ws)) off i = u32 (ws !!! Z.to_nat i).
Proof.
  intros Hi. unfold word.
  rewrite buf_slice_blit_in by (rewrite ?length_bytes_of_words; lia).
  replace (Z.to_nat (4 * i)) with (4 * Z.to_nat i)%nat by lia.
  change (Z.to_nat 4) with 4%nat.
  rewrite bytes_of_words_slice by lia. by rewrite le_val_bytes.
Qed.

Lemma word_head b off d i :
  length (head_words d) = 55%nat -> 0 <= i < 55 ->
  word (store_descriptor b off d) off i = u32 (head_words d !!! Z.to_nat i).
Proof.
  intros Hl Hi. unfold store_descriptor. rewrite <- word_blit with (b := b) (off := off) by lia.
  unfold word. rewrite buf_slice_blit_disjoint; [done |]. lia.
Qed.

Lemma word_tail b off d i :
  length (tail_words d) = 18%nat -> 0 <= i < 18 ->
  word (store_descriptor b off d) off (56 + i) = u32 (tail_words d !!! Z.to_nat i).
Proof.
  intros Hl Hi. unfold store_descriptor.
  rewrite <- word_blit with (b := buf_blit b off (bytes_of_words (head_words d)))
    (off := off + 224) by lia.
  unfold word. by replace (off + 4 * (56 + i)) with (off + 224 + 4 * i) by lia.
Qed.

Lemma word64_tail b off d i z :
  length (tail_words d) = 18%nat -> 0 <= i < 17 -> is_u64 z ->
  tail_words d !!! Z.to_nat i = u32 z ->
  tail_words d !!! Z.to_nat (i + 1) = u32 (Z.shiftr z 32) ->
  word64 (store_descriptor b off d) off (56 + i) = z.
Proof.
  intros Hl Hi Hz H1 H2. unfold word64.
  replace (56 + i + 1) with (56 + (i + 1)) by lia.
  rewrite !word_tail, H1, H2, !wrap_wrap by lia. unfold wrap, is_u64 in *.
  rewrite Z.shiftr_div_pow2 by lia.
  rewrite (Z.mod_small (z / 2 ^ 32)); [pose proof (Z.div_mod z (2 ^ 32)); lia |].
  split; [apply Z.div_pos; lia | apply Z.div_lt_upper_bound; lia].
Qed.

Lemma sword_u32 z : is_i32 z -> i32 (u32 (u32 z)) = z.
Proof.
  intros Hz. rewrite wrap_wrap by lia. unfold is_i32, wrap, swrap in *.
  change (32 - 1) with 31.
  rewrite Zplus_mod_idemp_l, Z.mod_small; lia.
Qed.

Lemma u32_id z : is_u32 z -> u32 z = z.
Proof. apply wrap_small. Qed.

(** A tensor whose nine words are at index [i]. *)
Lemma load_tensor_words b off i t :
  tensor_wf t ->
  (forall k, 0 <= k < 9 -> word b off (i + k) = u32 (tensor_words t !!! Z.to_nat k)) ->
  load_tensor b off i = t.
Proof.
  intros (H1 & H2 & H3 & H4 & H5 & H6 & H7) Hw.
  destruct t as [a z k ds e p]. cbn in *.
  destruct ds as [|d0 [|d1 [|d2 [|d3 [|]]]]]; try discriminate H4.
  rewrite !Forall_cons_iff in H5. destruct H5 as (? & ? & ? & ? & _).
  unfold load_tensor, sword.
  rewrite <- (Z.add_0_r i) at 1. rewrite !Hw by lia.
  simpl. rewrite !u32_id by done. f_equal. by apply sword_u32.
Qed.

Lemma length_tensor_words t : tensor_wf t -> length (tensor_words t) = 9%nat.
Proof.
  intros (_ & _ & _ & H & _). unfold tensor_words. rewrite !length_app, H. done.
Qed.

(** Word [k] of tensor [j] in the head of the descriptor. *)
Lemma head_tensor_word d j t k :
  length (d_tensors d) = 4%nat -> Forall tensor_wf (d_tensors d) ->
  d_tensors d !! j = Some t -> (k < 9)%nat ->
  head_words d !!! (9 + 9 * j + k)%nat = tensor_words t !!! k.
Proof.
  intros H4 Hwf Hj Hk. unfold head_words.
  destruct (d_tensors d) as [|t0 [|t1 [|t2 [|t3 [|]]]]]; try discriminate H4.
  rewrite !Forall_cons_iff in Hwf. destruct Hwf as (W0 & W1 & W2 & W3 & _).
  apply length_tensor_words in W0, W1, W2, W3.
  change (mjoin (tensor_words <$> [t0; t1; t2; t3])) with
    (tensor_words t0 ++ tensor_words t1 ++ tensor_words t2 ++ tensor_words t3 ++ []).
  rewrite <- Nat.add_assoc, lookup_total_app_r by (simpl; lia).
  rewrite lookup_total_app_l by (rewrite !length_app; apply lookup_lt_Some in Hj;
    simpl in *; lia).
  simpl length.
  destruct j as [|[|[|[|j]]]]; [| | | | discriminate Hj]; injection Hj as <-.
  - rewrite lookup_total_app_l by lia. f_equal. lia.
  - rewrite lookup_total_app_r, lookup_total_app_l by lia. f_equal. lia.
  - do 2 rewrite lookup_total_app_r by lia. rewrite lookup_total_app_l by lia.
    f_equal. lia.
  - do 3 rewrite lookup_total_app_r by lia. rewrite lookup_total_app_l by lia.
    f_equal. lia.
Qed.

Lemma load_tensors_store b off d j t :
  length (head_words d) = 55%nat ->
  length (d_tensors d) = 4%nat -> Forall tensor_wf (d_tensors d) ->
  d_tensors d !! j = Some t ->
  load_tensor (store_descriptor b off d) off (9 + 9 * Z.of_nat j) = t.
Proof.
  intros Hh H4 Hwf Hj. apply load_tensor_words.
  { by apply (Forall_lookup_1 _ _ _ _ Hwf Hj). }
  intros k Hk. apply lookup_lt_Some in Hj as Hj4.
  rewrite word_head by lia. rewrite <- (head_tensor_word d j t) by (done || lia).
  do 2 f_equal. lia.
Qed.

Lemma length_head_words d :
  length (d_tensors d) = 4%nat -> Forall tensor_wf (d_tensors d) ->
  length (head_words d) = 55%nat.
Proof.
  intros H4 Hwf. unfold head_words. rewrite !length_app.
  destruct (d_tensors d) as [|t0 [|t1 [|t2 [|t3 [|]]]]]; try discriminate H4.
  rewrite !Forall_cons_iff in Hwf. destruct Hwf as (W0 & W1 & W2 & W3 & _).
  apply length_tensor_words in W0, W1, W2, W3.
  change (mjoin (tensor_words <$> [t0; t1; t2; t3])) with
    (tensor_words t0 ++ tensor_words t1 ++ tensor_words t2 ++ tensor_words t3 ++ []).
  rewrite !length_app, W0, W1, W2, W3. done.
Qed.

(** Word [k] behind the tensors. *)
Lemma head_late_word d k :
  length (d_tensors d) = 4%nat -> Forall tensor_wf (d_tensors d) -> (k < 10)%nat ->
  head_words d !!! (45 + k)%nat =
    [d_stride_height d; d_stride_width d; d_padding_height d; d_padding_width d;
     d_multiplier_address d; d_shift_address d; u32 (d_output_zero_point d);
     u32 (d_activation_min d); u32 (d_activation_max d); d_quantization_count d] !!! k.
Proof.
  intros H4 Hwf Hk. pose proof (length_head_words d H4 Hwf) as Hl.
  unfold head_words in *. rewrite !length_app in Hl. simpl length in Hl.
  rewrite lookup_total_app_r by (simpl; lia). simpl length.
  rewrite lookup_total_app_r by lia. f_equal. lia.
Qed.

(** A 32-bit field in front of the tensors, and one behind them. *)
Lemma load_early b off d k w :
  length (head_words d) = 55%nat -> (k < 9)%nat -> is_u32 w ->
  head_words d !!! k = w ->
  word (store_descriptor b off d) off (Z.of_nat k) = w.
Proof.
  intros Hh Hk Hw E. rewrite word_head, Nat2Z.id, E by lia. by apply u32_id.
Qed.

Lemma load_late b off d k w :
  length (d_tensors d) = 4%nat -> Forall tensor_wf (d_tensors d) -> (k < 10)%nat ->
  [d_stride_height d; d_stride_width d; d_padding_height d; d_padding_width d;
   d_multiplier_address d; d_shift_address d; u32 (d_output_zero_point d);
   u32 (d_activation_min d); u32 (d_activation_max d); d_quantization_count d] !!! k = w ->
  word (store_descriptor b off d) off (45 + Z.of_nat k) = u32 w.
Proof.
  intros H4 Ht Hk E. rewrite word_head by (try apply length_head_words; done || lia).
  replace (Z.to_nat (45 + Z.of_nat k)) with (45 + k)%nat by lia.
  by rewrite head_late_word, E.
Qed.

Lemma load_reserved b off d :
  length (tail_words d) = 18%nat -> length (d_reserved d) = 8%nat ->
  Forall is_u32 (d_reserved d) ->
  (fun i => word (store_descriptor b off d) off (66 + i)) <$> seqZ 0 8 = d_reserved d.
Proof.
  intros Ht H8 Hr. apply list_eq_same_length with (n := 8%nat); [done | done |].
  intros i x y Hi Hx Hy. rewrite list_lookup_fmap, lookup_seqZ_lt in Hx by lia.
  injection Hx as <-. replace (66 + (0 + Z.of_nat i)) with (56 + (10 + Z.of_nat i)) by lia.
  rewrite word_tail by lia.
  replace (Z.to_nat (10 + Z.of_nat i)) with (10 + i)%nat by lia.
  change (tail_words d !!! (10 + i)%nat) with (d_reserved d !!! i).
  rewrite (list_lookup_total_correct _ _ _ Hy). apply u32_id.
  exact (Forall_lookup_1 _ _ _ _ Hr Hy).
Qed.

(** Solves [load field = field] from the lemmas above. *)
Ltac load_field early late w64 :=
  match goal with
  | |- word _ _ ?i = _ =>
      first
        [ let k := eval vm_compute in (Z.to_nat i) in apply (early k); (done || lia)
        | let k := eval vm_compute in (Z.to_nat (i - 45)) in
          etransitivity; [apply (late k); [lia | done] | by apply u32_id] ]
  | |- sword ?s ?off ?i = ?v =>
      let k := eval vm_compute in (Z.to_nat (i - 45)) in
      transitivity (i32 (u32 (u32 v))); [| by apply sword_u32];
      unfold sword; f_equal; apply (late k); [lia | done]
  | |- word64 _ _ ?i = _ =>
      let k := eval vm_compute in (i - 56) in apply (w64 k); (done || lia)
  end.

(** ** Properties of the layout *)

Lemma load_store_descriptor b off d :
  descriptor_wf d -> load_descriptor (store_descriptor b off d) off = d.
Proof.
  intros [Hu Hi H64 [Ht4 Ht] [Hr8 Hr]].
  pose proof (length_head_words d Ht4 Ht) as Hh.
  assert (length (tail_words d) = 18%nat) as Htl.
  { unfold tail_words. rewrite !length_app, Hr8. done. }
  rewrite !Forall_cons_iff in Hu. rewrite !Forall_cons_iff in Hi.
  rewrite !Forall_cons_iff in H64. destruct_and?.
  pose proof (fun k w => load_early b off d k w Hh) as Hearly.
  pose proof (fun k w => load_late b off d k w Ht4 Ht) as Hlate.
  pose proof (fun j t => load_tensors_store b off d j t Hh Ht4 Ht) as Htens.
  pose proof (fun i z => word64_tail b off d i z Htl) as Hw64.
  pose proof (load_reserved b off d Htl Hr8 Hr) as Hres.
  set (s := store_descriptor b off d) in *. clearbody s.
  destruct d as [mg ver dsz opc st er fl em tc ts sh sw ph pw ma sa oz amin amax qc
                 oc he mc br bw rsv].
  simpl in *. unfold load_descriptor. f_equal; try load_field Hearly Hlate Hw64.
  - destruct ts as [|t0 [|t1 [|t2 [|t3 [|]]]]]; try discriminate Ht4.
    f_equal; [| f_equal; [| f_equal; [| f_equal]]].
    + by apply (Htens 0%nat t0).
    + by apply (Htens 1%nat t1).
    + by apply (Htens 2%nat t2).
    + by apply (Htens 3%nat t3).
  - exact Hres.
Qed.


Definition sample_tensor : coral_operator_tensor :=
  {| t_address := 0x20500000; t_size := 4; t_rank := 2; t_dimensions := [2; 2; 0; 0];
     t_element_type := CORAL_OPERATOR_ELEMENT_INT8; t_zero_point := -3 |}.

Definition sample_descriptor : coral_operator_descriptor :=
  set_tensors (InitializeOperatorDescriptor CORAL_OPERATOR_OP_ADD_INT8
                 CORAL_OPERATOR_MODE_HYBRID)
    1 [sample_tensor; tensor_zero; tensor_zero; tensor_zero].

Lemma sample_descriptor_wf : descriptor_wf sample_descriptor.
Proof.
  split; cbn; unfold is_u32, is_i32, is_u64, tensor_wf;
    repeat (split || constructor); vm_compute; congruence.
Qed.


(** ** The staging allocator *)

(** The region does not wrap around the address space, and the cursor is in it. *)
Definition alloc_wf (a : OperatorStagingAllocator) : Prop :=
  0 < a_base a /\ a_base a + a_size a <= 2 ^ 32 /\ 0 <= a_cursor a <= a_size a.

(** The smallest multiple of [al] that is at least [c]. *)
Definition round_up (c al : Z) : Z := c + (- c) mod al.

Lemma round_up_spec c al :
  0 < al -> (al | round_up c al) /\ c <= round_up c al < c + al.
Proof.
  intros Hal. unfold round_up. split.
  - apply Z.mod_divide; [lia |]. rewrite Zplus_mod_idemp_r.
    by rewrite Z.add_opp_diag_r, Z.mod_0_l by lia.
  - pose proof (Z.mod_pos_bound (- c) al Hal). lia.
Qed.

Lemma round_down_pred c k :
  0 <= k -> c + 2 ^ k - 1 - (c + 2 ^ k - 1) mod 2 ^ k = round_up c (2 ^ k).
Proof.
  intros Hk. pose proof (Z.pow_pos_nonneg 2 k ltac:(lia) Hk) as Hp.
  unfold round_up.
  assert ((c + 2 ^ k - 1) mod 2 ^ k = 2 ^ k - 1 - (- c) mod 2 ^ k) as ->; [| lia].
  symmetry. apply Z.mod_unique with (q := (c + (- c) mod 2 ^ k) / 2 ^ k).
  - left. pose proof (Z.mod_pos_bound (- c) (2 ^ k) Hp). lia.
  - destruct (round_up_spec c (2 ^ k) Hp) as [Hd _]. unfold round_up in Hd.
    destruct Hd as [q Hq]. rewrite Hq, Z.div_mul by lia. lia.
Qed.

Lemma aligned_eq a k :
  alloc_wf a -> 0 <= k <= 31 ->
  Z.land (u32 (a_cursor a + 2 ^ k - 1)) (u32 (Z.lnot (2 ^ k - 1))) =
    (if a_cursor a + 2 ^ k - 1 <? 2 ^ 32 then round_up (a_cursor a) (2 ^ k)
     else 0).
Proof.
  intros (Hb & Hs & Hc) Hk.
  assert (1 <= 2 ^ k <= 2 ^ 31) as Hp.
  { split; [change 1 with (2 ^ 0) |]; apply Z.pow_le_mono_r; lia. }
  rewrite land_align by (try apply wrap_range; lia).
  case_test; bool_prop.
  - rewrite wrap_small by lia. apply round_down_pred. lia.
  - unfold wrap. replace (a_cursor a + 2 ^ k - 1) with
      (a_cursor a + 2 ^ k - 1 - 2 ^ 32 + 1 * 2 ^ 32) by lia.
    rewrite Z.mod_add by lia.
    rewrite (Z.mod_small _ (2 ^ 32)) by lia.
    rewrite (Z.mod_small _ (2 ^ k)); lia.
Qed.

(** A request succeeds exactly when its alignment is a power of two and the
    aligned block fits behind the cursor. *)
Lemma allocate_spec a size alignment :
  alloc_wf a -> is_u32 size -> is_u32 alignment ->
  AllocateStaging (Some a) size alignment =
    if (1 <=? size) && (alignment =? 2 ^ Z.log2 alignment)
       && (round_up (a_cursor a) alignment + size <=? a_size a)
    then (a_base a + round_up (a_cursor a) alignment,
          Some {| a_base := a_base a; a_size := a_size a;
                  a_cursor := round_up (a_cursor a) alignment + size |})
    else (0, Some a).
Proof.
  intros Ha Hsz Hal. unfold AllocateStaging, is_u32 in *.
  destruct (decide (size = 0)) as [->|Hs0]; [done |].
  rewrite (proj2 (Z.eqb_neq size 0)) by done.
  replace (1 <=? size) with true by lia. cbn [orb andb].
  destruct (decide (alignment = 0)) as [->|Ha0]; [done |].
  rewrite (proj2 (Z.eqb_neq alignment 0)) by done. cbn [orb].
  rewrite (wrap_small 32 (alignment - 1)) by lia.
  destruct (Z.eqb_spec alignment (2 ^ Z.log2 alignment)) as [Hpow|Hpow].
  2: { destruct (Z.eqb_spec (Z.land alignment (alignment - 1)) 0) as [E|E]; [| done].
       apply pow2_of_land in E; [done | lia]. }
  pose proof (Z.log2_nonneg alignment) as Hk0.
  assert (Z.log2 alignment <= 31) as Hk1.
  { destruct (decide (Z.log2 alignment <= 31)); [done |].
    assert (2 ^ 32 <= 2 ^ Z.log2 alignment) by (apply Z.pow_le_mono_r; lia). lia. }
  set (k := Z.log2 alignment) in *. clearbody k. subst alignment.
  rewrite land_pow2_pred by done. cbn [negb Z.eqb andb].
  rewrite aligned_eq by (done || lia).
  destruct Ha as (Hb & Hs & Hc).
  destruct (round_up_spec (a_cursor a) (2 ^ k) ltac:(lia)) as [_ Hr].
  destruct (decide (size <= a_size a)).
  2: { replace (a_size a <? size) with true by lia. rewrite orb_true_r.
       replace (round_up _ _ + size <=? a_size a) with false by lia. done. }
  rewrite (wrap_small 32 (a_size a - size)) by lia.
  destruct (a_cursor a + 2 ^ k - 1 <? 2 ^ 32) eqn:Eo; bool_prop.
  - destruct (round_up (a_cursor a) (2 ^ k) + size <=? a_size a) eqn:E; bool_prop.
    + rewrite (proj2 (Z.ltb_ge _ (a_cursor a))), (proj2 (Z.ltb_ge (a_size a) _)),
        (proj2 (Z.ltb_ge (a_size a - size) _)) by lia.
      cbn [orb]. rewrite !wrap_small by lia. done.
    + rewrite (proj2 (Z.ltb_lt (a_size a - size) _)) by lia. by rewrite orb_true_r.
  - destruct (decide (a_cursor a = 0)) as [E0|E0]; [lia |].
    rewrite (proj2 (Z.ltb_lt 0 (a_cursor a))) by lia. cbn [orb].
    rewrite (proj2 (Z.leb_gt _ (a_size a))); [done |].
    destruct (round_up_spec (a_cursor a) (2 ^ k) ltac:(lia)) as [[q Hq] _].
    assert (2 ^ 32 = 2 ^ (32 - k) * 2 ^ k) as E32
      by (rewrite <- Z.pow_add_r by lia; f_equal; lia).
    rewrite Hq in *. generalize dependent (2 ^ (32 - k)). intros m E32.
    assert (m <= q) by (apply Z.lt_pred_le, Z.mul_lt_mono_pos_r with (p := 2 ^ k); lia).
    assert (m * 2 ^ k <= q * 2 ^ k) by (apply Z.mul_le_mono_nonneg_r; lia). lia.
Qed.

(** The addresses and sizes of the requests that succeed, in order. *)
Fixpoint alloc_all (reqs : list (Z * Z)) (a : OperatorStagingAllocator) : list (Z * Z) :=
  match reqs with
  | [] => []
  | (size, alignment) :: reqs =>
      match AllocateStaging (Some a) size alignment with
      | (addr, Some a') =>
          if addr =? 0 then alloc_all reqs a'
          else (addr, size) :: alloc_all reqs a'
      | (_, None) => []
      end
  end.

Lemma alloc_all_chain reqs a :
  alloc_wf a -> Forall (fun r => is_u32 r.1 /\ is_u32 r.2) reqs ->
  Forall (fun r => a_base a + a_cursor a <= r.1 /\ 1 <= r.2 /\
                   r.1 + r.2 <= a_base a + a_size a) (alloc_all reqs a) /\
  ForallOrdPairs (fun r1 r2 => r1.1 + r1.2 <= r2.1) (alloc_all reqs a).
Proof.
  intros Ha Hr. revert a Ha. induction Hr as [|[size al] reqs [Hs Hal] _ IH]; intros a Ha.
  { split; constructor. }
  simpl in Hs, Hal. cbn [alloc_all]. rewrite allocate_spec by done.
  destruct (_ && _ && _) eqn:E; simpl; [| by apply IH].
  bool_prop. destruct E as [[E1 E2] E3]. destruct Ha as (Hb & Hsz & Hc).
  assert (0 < al).
  { rewrite E2. apply Z.pow_pos_nonneg; [lia | apply Z.log2_nonneg]. }
  destruct (round_up_spec (a_cursor a) al ltac:(done)) as [_ Hru].
  rewrite (proj2 (Z.eqb_neq _ 0)) by lia.
  destruct (IH {| a_base := a_base a; a_size := a_size a;
                  a_cursor := round_up (a_cursor a) al + size |}) as [H1 H2].
  { split; [done |]. simpl. lia. }
  simpl in H1. split.
  - constructor; [simpl; lia |].
    eapply Forall_impl; [| exact H1]. cbv beta. intros r ?. lia.
  - constructor; [| done]. eapply Forall_impl; [| exact H1]. cbn. intros r ?. lia.
Qed.

Lemma staging_init_wf extmem_base :
  0 <= extmem_base -> extmem_base + 0x800000 <= 2 ^ 32 ->
  alloc_wf (InitializeStagingAllocator extmem_base).
Proof.
  intros. unfold alloc_wf, InitializeStagingAllocator, CORAL_OPERATOR_STAGING_OFFSET,
    CORAL_OPERATOR_STAGING_SIZE. cbn [a_base a_size a_cursor].
  rewrite wrap_small by lia. lia.
Qed.

(** Whatever sizes and alignments are asked of a fresh staging allocator,
    the blocks it hands out lie in the staging window, behind the operator
    descriptor, and no two of them overlap. *)
Theorem staging_blocks_disjoint extmem_base reqs :
  0 <= extmem_base -> extmem_base + 0x800000 <= 2 ^ 32 ->
  Forall (fun r => is_u32 r.1 /\ is_u32 r.2) reqs ->
  let blocks := alloc_all reqs (InitializeStagingAllocator extmem_base) in
  Forall (fun r =>
    extmem_base + CORAL_OPERATOR_STAGING_OFFSET <= r.1 /\ 1 <= r.2 /\
    r.1 + r.2 <= extmem_base + CORAL_OPERATOR_STAGING_OFFSET
                 + CORAL_OPERATOR_STAGING_SIZE /\
    extmem_base + CORAL_OPERATOR_DESCRIPTOR_OFFSET + descriptor_sizeof <= r.1) blocks /\
  ForallOrdPairs (fun r1 r2 => r1.1 + r1.2 <= r2.1) blocks.
Proof.
  intros Hb0 Hb1 Hr blocks.
  destruct (alloc_all_chain reqs _ (staging_init_wf _ Hb0 Hb1) Hr) as [H1 H2].
  split; [| exact H2]. eapply Forall_impl; [| exact H1]. cbv beta. intros r.
  unfold InitializeStagingAllocator, CORAL_OPERATOR_STAGING_OFFSET,
    CORAL_OPERATOR_STAGING_SIZE, CORAL_OPERATOR_DESCRIPTOR_OFFSET, descriptor_sizeof.
  cbn [a_base a_size a_cursor]. rewrite wrap_small by lia. lia.
Qed.

Lemma staging_blocks_witness :
  alloc_all [(5, 16); (0x300000, 16); (7, 3); (100, 64)]
    (InitializeStagingAllocator 0x20000000) =
    [(0x20500000, 5); (0x20500040, 100)] /\
  Forall (fun r => 0x20500000 <= r.1)
    (alloc_all [(5, 16); (0x300000, 16); (7, 3); (100, 64)]
      (InitializeStagingAllocator 0x20000000)).
Proof.
  split; [vm_compute; reflexivity |].
  destruct (staging_blocks_disjoint 0x20000000 [(5, 16); (0x300000, 16); (7, 3); (100, 64)])
    as [H _]; [lia | lia | |].
  - unfold is_u32. repeat constructor; simpl; lia.
  - eapply Forall_impl; [| exact H]. cbv beta. intros r. unfold CORAL_OPERATOR_STAGING_OFFSET. lia.
Defined.

(** A staging request succeeds exactly when the size is not zero, the
    alignment is a power of two and the block fits behind the first aligned
    offset at or after the cursor; it then returns that offset, so the address
    is aligned relative to the window, and a request that fails changes
    nothing. *)
Theorem staging_allocate_exact a size alignment :
  alloc_wf a -> is_u32 size -> is_u32 alignment ->
  AllocateStaging (Some a) size alignment =
    (if (1 <=? size) && (alignment =? 2 ^ Z.log2 alignment)
        && (round_up (a_cursor a) alignment + size <=? a_size a)
     then (a_base a + round_up (a_cursor a) alignment,
           Some {| a_base := a_base a; a_size := a_size a;
                   a_cursor := round_up (a_cursor a) alignment + size |})
     else (0, Some a)) /\
  (0 < alignment ->
   (alignment | round_up (a_cursor a) alignment) /\
   a_cursor a <= round_up (a_cursor a) alignment < a_cursor a + alignment).
Proof.
  intros Ha Hs Hal. split; [by apply allocate_spec |]. apply round_up_spec.
Qed.

Lemma staging_allocate_witness :
  AllocateStaging (Some {| a_base := 0x20500000; a_size := 0x300000; a_cursor := 5 |}) 8 16
  = (0x20500010, Some {| a_base := 0x20500000; a_size := 0x300000; a_cursor := 24 |}).
Proof.
  destruct (staging_allocate_exact
    {| a_base := 0x20500000; a_size := 0x300000; a_cursor := 5 |} 8 16) as [H _].
  - unfold alloc_wf. simpl. lia.
  - unfold is_u32. lia.
  - unfold is_u32. lia.
  - exact H.
Defined.
