(* ===== verification/FixedPoint.v ===== *)
(** * Fixed-point rescaling of the hybrid kernels

    [SaturatingRoundingDoublingHighMul], [RoundingDivideByPowerOfTwo] and
    [MultiplyByQuantizedMultiplier] of [gem5_hybrid_kernels.cc], with the
    roundings they compute. *)

From S2P Require Import Prelude Operator.

Definition SaturatingRoundingDoublingHighMul (a b : Z) : Z :=
  if (a =? INT32_MIN) && (b =? INT32_MIN) then INT32_MAX
  else
    let product := i64 (a * b) in
    let nudge := if 0 <=? product then Z.shiftl 1 30 else 1 - Z.shiftl 1 30 in
    i32 (Z.quot (i64 (product + nudge)) (Z.shiftl 1 31)).

(** A shift of a 32-bit value by 32 or more is undefined. *)
Definition RoundingDivideByPowerOfTwo (value exponent : Z) : res Z :=
  if exponent <=? 0 then Ret value
  else
    _ ← undef_unless (exponent <? 32);
    let mask := u32 (u32 (Z.shiftl 1 exponent) - 1) in
    let remainder := Z.land (u32 value) mask in
    let threshold := u32 (Z.shiftr mask 1 + (if value <? 0 then 1 else 0)) in
    signed 32 (Z.shiftr value exponent + (if threshold <? remainder then 1 else 0)).

Definition MultiplyByQuantizedMultiplier (value multiplier shift : Z) : res Z :=
  let left_shift := Z.max shift 0 in
  minus_shift ← signed 32 (- shift);
  let right_shift := Z.max minus_shift 0 in
  _ ← undef_unless (left_shift <? 63);
  shifted ← signed 64 (value * Z.shiftl 1 left_shift);
  let bounded := i32 (clamp INT32_MIN INT32_MAX shifted) in
  RoundingDivideByPowerOfTwo (SaturatingRoundingDoublingHighMul bounded multiplier)
    right_shift.

(** ** The roundings *)

(** To the nearest integer, ties towards plus infinity. *)
Definition round_half_up (p d : Z) : Z := (p + d / 2) / d.

(** To the nearest integer, ties away from zero. *)
Definition round_half_away (v d : Z) : Z :=
  if 0 <=? v then (v + d / 2) / d else - ((- v + d / 2) / d).

Lemma i32_id z : is_i32 z -> i32 z = z.
Proof. intros. by apply swrap_small. Qed.

Lemma i64_id z : - 2 ^ 63 <= z < 2 ^ 63 -> i64 z = z.
Proof. intros. by apply swrap_small. Qed.

Lemma quot_neg_ceil x d : 0 < d -> x <= 0 -> Z.quot x d = - ((- x) / d).
Proof.
  intros Hd Hx. rewrite <- (Z.opp_involutive x) at 1. rewrite Z.quot_opp_l by lia.
  by rewrite Z.quot_div_nonneg by lia.
Qed.

Lemma product_i32 a b : is_i32 a -> is_i32 b -> - 2 ^ 62 < a * b <= 2 ^ 62.
Proof. unfold is_i32. intros. change (2 ^ 62) with (2 ^ 31 * 2 ^ 31). nia. Qed.

Lemma round_half_up_i32 a b :
  is_i32 a -> is_i32 b -> ~ (a = INT32_MIN /\ b = INT32_MIN) ->
  is_i32 (round_half_up (a * b) (2 ^ 31)).
Proof.
  intros Ha Hb Hn. unfold round_half_up. change (2 ^ 31 / 2) with (2 ^ 30).
  assert (- 2 ^ 62 < a * b < 2 ^ 62 - 2 ^ 30) as H.
  { unfold is_i32 in *. change (2 ^ 62) with (2 ^ 31 * 2 ^ 31). split; [nia |].
    destruct (decide (a = - 2 ^ 31)) as [->|].
    - assert (b <> - 2 ^ 31) by (intros ->; by apply Hn). nia.
    - destruct (decide (b = - 2 ^ 31)) as [->|]; nia. }
  unfold is_i32. split.
  - apply Z.div_le_lower_bound; lia.
  - apply Z.div_lt_upper_bound; lia.
Qed.

Lemma high_mul_rounds a b :
  is_i32 a -> is_i32 b ->
  SaturatingRoundingDoublingHighMul a b =
    if (a =? INT32_MIN) && (b =? INT32_MIN) then INT32_MAX
    else round_half_up (a * b) (2 ^ 31).
Proof.
  intros Ha Hb. unfold SaturatingRoundingDoublingHighMul.
  destruct ((a =? INT32_MIN) && (b =? INT32_MIN)) eqn:E; [done |].
  assert (~ (a = INT32_MIN /\ b = INT32_MIN)) as Hn.
  { intros [-> ->]. by vm_compute in E. }
  pose proof (product_i32 a b Ha Hb) as Hp.
  rewrite <- (i32_id (round_half_up (a * b) (2 ^ 31))) by (by apply round_half_up_i32).
  change (Z.shiftl 1 31) with (2 ^ 31). change (Z.shiftl 1 30) with (2 ^ 30).
  rewrite (i64_id (a * b)), i64_id by (try case_test; lia).
  f_equal. unfold round_half_up. change (2 ^ 31 / 2) with (2 ^ 30).
  destruct (0 <=? a * b) eqn:Es; bool_prop.
  - by rewrite Z.quot_div_nonneg by lia.
  - rewrite quot_neg_ceil by lia.
    set (x := - (a * b + (1 - 2 ^ 30))).
    pose proof (Z.div_mod x (2 ^ 31) ltac:(lia)).
    pose proof (Z.mod_pos_bound x (2 ^ 31) ltac:(lia)).
    apply Z.div_unique with (r := 2 ^ 31 - 1 - x mod 2 ^ 31); lia.
Qed.

Lemma high_mul_i32 a b :
  is_i32 a -> is_i32 b -> is_i32 (SaturatingRoundingDoublingHighMul a b).
Proof.
  intros Ha Hb. rewrite high_mul_rounds by done.
  destruct (_ && _) eqn:E; [unfold is_i32; lia |]. apply round_half_up_i32; [done.. |].
  intros [-> ->]. by vm_compute in E.
Qed.

(** The rounding of a right shift. *)
Lemma divide_rounds value exponent :
  is_i32 value -> 1 <= exponent <= 31 ->
  RoundingDivideByPowerOfTwo value exponent =
    Ret (round_half_away value (2 ^ exponent)).
Proof.
  intros Hv He. unfold RoundingDivideByPowerOfTwo.
  rewrite (proj2 (Z.leb_gt exponent 0)), (proj2 (Z.ltb_lt exponent 32)) by lia.
  cbn [undef_unless mbind res_bind].
  assert (2 ^ exponent = 2 * 2 ^ (exponent - 1)) as E2.
  { rewrite <- Z.pow_succ_r by lia. f_equal. lia. }
  assert (1 <= 2 ^ (exponent - 1) <= 2 ^ 30) as Hh.
  { split; [change 1 with (2 ^ 0) |]; apply Z.pow_le_mono_r; lia. }
  rewrite Z.shiftl_1_l, (wrap_small 32 (2 ^ exponent)), (wrap_small 32 (2 ^ exponent - 1)) by lia.
  rewrite Z.shiftr_div_pow2, Z.shiftr_div_pow2 by lia.
  replace ((2 ^ exponent - 1) / 2 ^ 1) with (2 ^ (exponent - 1) - 1)
    by (apply Z.div_unique with (r := 1); lia).
  assert (Z.land (u32 value) (2 ^ exponent - 1) = value mod 2 ^ exponent) as ->.
  { replace (2 ^ exponent - 1) with (Z.ones exponent) by (rewrite Z.ones_equiv; lia).
    rewrite Z.land_ones by lia. apply Z.mod_mod_divide.
    exists (2 ^ (32 - exponent)). rewrite <- Z.pow_add_r by lia. f_equal. lia. }
  rewrite wrap_small by (destruct (value <? 0); lia).
  set (h := 2 ^ (exponent - 1)) in *.
  pose proof (Z.div_mod value (2 ^ exponent) ltac:(lia)) as Hdm.
  pose proof (Z.mod_pos_bound value (2 ^ exponent) ltac:(lia)) as Hmb.
  set (q := value / 2 ^ exponent) in *. set (r := value mod 2 ^ exponent) in *.
  assert (q + (if h - 1 + (if value <? 0 then 1 else 0) <? r then 1 else 0) =
          round_half_away value (2 ^ exponent)) as ->.
  { unfold round_half_away. rewrite E2, (Z.mul_comm 2 h), Z.div_mul by lia.
    destruct (Z.ltb_spec value 0) as [Hneg|Hpos].
    - replace (0 <=? value) with false by lia.
      destruct (Z.ltb_spec (h - 1 + 1) r); apply Z.opp_inj; rewrite Z.opp_involutive.
      + apply Z.div_unique with (r := 3 * h - r); lia.
      + apply Z.div_unique with (r := h - r); lia.
    - replace (0 <=? value) with true by lia.
      destruct (Z.ltb_spec (h - 1 + 0) r).
      + apply Z.div_unique with (r := r - h); lia.
      + apply Z.div_unique with (r := r + h); lia. }
  apply signed_ret. change (32 - 1) with 31. unfold is_i32 in Hv.
  unfold round_half_away. rewrite E2, (Z.mul_comm 2 h), Z.div_mul by lia.
  destruct (0 <=? value) eqn:Es; bool_prop.
  - split; [apply Z.le_trans with 0; [lia | apply Z.div_pos; lia] |].
    apply Z.div_lt_upper_bound; lia.
  - assert ((- value + h) / (h * 2) <= 2 ^ 31) by (apply Z.div_le_upper_bound; lia).
    assert (0 <= (- value + h) / (h * 2)) by (apply Z.div_pos; lia). lia.
Qed.

Lemma divide_i32 value exponent :
  is_i32 value -> 1 <= exponent <= 31 -> is_i32 (round_half_away value (2 ^ exponent)).
Proof.
  intros Hv He. pose proof (divide_rounds value exponent Hv He) as H.
  unfold RoundingDivideByPowerOfTwo in H.
  rewrite (proj2 (Z.leb_gt exponent 0)), (proj2 (Z.ltb_lt exponent 32)) in H by lia.
  apply signed_ret_inv in H as [-> H]. exact H.
Qed.

(** The rescaling as a formula. *)
Definition rescale (value multiplier shift : Z) : Z :=
  let bounded := clamp INT32_MIN INT32_MAX (value * 2 ^ Z.max shift 0) in
  let high := if (bounded =? INT32_MIN) && (multiplier =? INT32_MIN) then INT32_MAX
              else round_half_up (bounded * multiplier) (2 ^ 31) in
  if shift <? 0 then round_half_away high (2 ^ (- shift)) else high.

Lemma rescale_correct value multiplier shift :
  is_i32 value -> is_i32 multiplier -> -31 <= shift <= 30 ->
  MultiplyByQuantizedMultiplier value multiplier shift =
    Ret (rescale value multiplier shift) /\
  is_i32 (rescale value multiplier shift).
Proof.
  intros Hv Hm Hs. unfold MultiplyByQuantizedMultiplier, rescale.
  rewrite (signed_ret 32 (- shift)) by (change (32 - 1) with 31; lia). cbn [mbind res_bind].
  rewrite (proj2 (Z.ltb_lt (Z.max shift 0) 63)) by lia. cbn [undef_unless mbind res_bind].
  assert (1 <= 2 ^ Z.max shift 0 <= 2 ^ 30) as Hp.
  { split; [change 1 with (2 ^ 0) |]; apply Z.pow_le_mono_r; lia. }
  rewrite Z.shiftl_1_l, signed_ret by (change (64 - 1) with 63; unfold is_i32 in Hv; nia).
  cbn [mbind res_bind].
  set (bounded := clamp _ _ _).
  assert (is_i32 bounded) as Hb.
  { pose proof (clamp_range INT32_MIN INT32_MAX (value * 2 ^ Z.max shift 0) ltac:(lia)).
    unfold is_i32. fold bounded in H. lia. }
  rewrite (i32_id bounded) by done.
  pose proof (high_mul_i32 bounded multiplier Hb Hm) as Hh.
  rewrite high_mul_rounds in Hh by done. rewrite high_mul_rounds by done.
  destruct (Z.ltb_spec shift 0).
  - rewrite Z.max_l by lia. split; [apply divide_rounds | apply divide_i32]; done || lia.
  - unfold RoundingDivideByPowerOfTwo. rewrite Z.max_r by lia. done.
Qed.

(** ** Properties *)

(** C28: for every 32-bit accumulator, every 32-bit multiplier and every shift
    the kernels let through, the rescaling neither overflows nor shifts out of
    range; it clamps the left-shifted value to 32 bits, takes the doubled high
    product rounded to nearest with ties upwards (saturated in the one case
    that would not fit) and the right shift rounded to nearest with ties away
    from zero, and the result fits 32 bits. *)
Theorem quantized_multiplier_correct value multiplier shift :
  is_i32 value -> is_i32 multiplier -> -31 <= shift <= 30 ->
  exists r, MultiplyByQuantizedMultiplier value multiplier shift = Ret r /\ is_i32 r /\
    let bounded := clamp INT32_MIN INT32_MAX (value * 2 ^ Z.max shift 0) in
    let high := if (bounded =? INT32_MIN) && (multiplier =? INT32_MIN) then INT32_MAX
                else round_half_up (bounded * multiplier) (2 ^ 31) in
    r = if shift <? 0 then round_half_away high (2 ^ (- shift)) else high.
Proof.
  intros Hv Hm Hs. destruct (rescale_correct value multiplier shift Hv Hm Hs) as [E Hr].
  exists (rescale value multiplier shift). done.
Qed.

Lemma quantized_multiplier_witness :
  exists r, MultiplyByQuantizedMultiplier (-1000) 1518500250 (-3) = Ret r /\ r = -88.
Proof.
  destruct (quantized_multiplier_correct (-1000) 1518500250 (-3)) as (r & E & _ & Hr).
  - unfold is_i32. lia.
  - unfold is_i32. lia.
  - lia.
  - exists r. split; [exact E |]. rewrite Hr. vm_compute. reflexivity.
Defined.
