(* ===== verification/Kernels.v ===== *)
(** * The integer kernels of the hybrid operators

    [gem5_hybrid_kernels.cc]: the tensor checks and the int8 kernels
    (convolution, depthwise convolution, matrix product, fully connected,
    addition).  A kernel runs over the external memory, a byte buffer, so
    that overlapping tensors behave as in the code; an access outside the
    buffer and a signed overflow are undefined.  [None] in the result is
    [return false]; [elapsed] stands for the measured host time. *)

From S2P Require Import Prelude Operator FixedPoint.

(** ** Tensor checks *)

Fixpoint element_count_loop (dims : list Z) (count : Z) : Z :=
  match dims with
  | [] => count
  | d :: dims =>
      if (d =? 0) || (UINT64_MAX / d <? count) then 0
      else element_count_loop dims (u64 (count * d))
  end.

Definition ElementCount (t : coral_operator_tensor) : Z :=
  if (t_rank t =? 0) || (CORAL_OPERATOR_MAX_DIMS <? t_rank t) then 0
  else element_count_loop (take (Z.to_nat (t_rank t)) (t_dimensions t)) 1.

Definition TensorBytesMatch (t : coral_operator_tensor) (element_size : Z) : bool :=
  let count := ElementCount t in
  negb (count =? 0) && (count <=? UINT32_MAX / element_size)
  && (t_size t =? u64 (count * element_size)).

Definition SameShape (lhs rhs : coral_operator_tensor) : bool :=
  (t_rank lhs =? t_rank rhs) &&
  forallb (fun i => dim lhs (Z.to_nat i) =? dim rhs (Z.to_nat i)) (seqZ 0 (t_rank lhs)).

Definition activation_ok (d : coral_operator_descriptor) : bool :=
  (INT8_MIN <=? d_activation_min d) && (d_activation_max d <=? INT8_MAX)
  && (d_activation_min d <=? d_activation_max d).

Definition CommonConvValid (d : coral_operator_descriptor) (depthwise : bool) : bool :=
  let input := tensor_at d 0 in
  let filter := tensor_at d 1 in
  let bias := tensor_at d 2 in
  let output := tensor_at d 3 in
  if negb (d_tensor_count d =? 4) || (d_quantization_count d =? 0)
     || (d_stride_height d =? 0) || (d_stride_width d =? 0) then false
  else if negb (t_element_type input =? CORAL_OPERATOR_ELEMENT_INT8)
     || negb (t_element_type filter =? CORAL_OPERATOR_ELEMENT_INT8)
     || negb (t_element_type bias =? CORAL_OPERATOR_ELEMENT_INT32)
     || negb (t_element_type output =? CORAL_OPERATOR_ELEMENT_INT8)
     || negb (t_rank input =? 4) || negb (t_rank filter =? 4) || negb (t_rank bias =? 1)
     || negb (t_rank output =? 4)
     || negb (t_size input =? ElementCount input)
     || negb (t_size filter =? ElementCount filter)
     || negb (t_size bias =? u64 (ElementCount bias * 4))
     || negb (t_size output =? ElementCount output)
     || (dim input 0 =? 0)
     || negb (dim output 0 =? dim input 0)
     || negb (d_quantization_count d =? dim output 3) then false
  else if negb (activation_ok d) then false
  else if depthwise then
    (dim filter 0 =? 1) && (dim filter 3 =? dim output 3)
    && (Z.rem (dim output 3) (dim input 3) =? 0)
  else (dim filter 0 =? dim output 3) && (dim filter 3 =? dim input 3).

(** ** Shared steps *)

Record kernel_stats := {
  k_operation_count : Z; k_bytes_read : Z; k_bytes_written : Z; k_host_elapsed_ns : Z }.

(** [TensorData]: the offset of a tensor in the external memory. *)
Definition tensor_off (base : Z) (t : coral_operator_tensor) : Z := u32 (t_address t - base).

(** [(int32(x[i]) - zx) * (int32(y[j]) - zy)] of two int8 elements. *)
Definition centered_product (b : buf) (xa zx ya zy : Z) : res Z :=
  x ← load_i8 b xa;
  y ← load_i8 b ya;
  dx ← signed 32 (x - zx);
  dy ← signed 32 (y - zy);
  signed 32 (dx * dy).

(** ** Matrix product *)

Definition matmul_types_ok (d : coral_operator_descriptor) : bool :=
  let t0 := tensor_at d 0 in
  let t1 := tensor_at d 1 in
  let t2 := tensor_at d 2 in
  (d_tensor_count d =? 3)
  && (t_element_type t0 =? CORAL_OPERATOR_ELEMENT_INT8)
  && (t_element_type t1 =? CORAL_OPERATOR_ELEMENT_INT8)
  && (t_element_type t2 =? CORAL_OPERATOR_ELEMENT_INT8)
  && (t_rank t0 =? 2) && (t_rank t1 =? 2) && (t_rank t2 =? 2)
  && TensorBytesMatch t0 1 && TensorBytesMatch t1 1 && TensorBytesMatch t2 1.

Definition matmul_shapes_ok (d : coral_operator_descriptor) : bool :=
  let lhs := tensor_at d 0 in
  let rhs := tensor_at d 1 in
  let output := tensor_at d 2 in
  (dim rhs 0 =? dim lhs 1) && (dim output 0 =? dim lhs 0)
  && (dim output 1 =? dim rhs 1) && activation_ok d.

(** The row-by-column product with a 32-bit accumulator. *)
Definition matmul_element (d : coral_operator_descriptor) (base row col : Z) (b : buf) :
    res buf :=
  let lhs := tensor_at d 0 in
  let rhs := tensor_at d 1 in
  let output := tensor_at d 2 in
  let k := dim lhs 1 in
  let n := dim rhs 1 in
  accumulator ← forZ k (fun inner acc =>
    p ← centered_product b (tensor_off base lhs + u32 (row * k + inner)) (t_zero_point lhs)
                           (tensor_off base rhs + u32 (inner * n + col)) (t_zero_point rhs);
    signed 32 (acc + p)) 0;
  accumulator ← signed 32 (accumulator + d_output_zero_point d);
  store_i8 b (tensor_off base output + u32 (row * n + col))
    (clamp (d_activation_min d) (d_activation_max d) accumulator).

Definition RunGem5HybridMatMulInt8 (descriptor : option coral_operator_descriptor)
    (extmem : buf) (base elapsed : Z) : res (option kernel_stats * buf) :=
  match descriptor with
  | None => Ret (None, extmem)
  | Some d =>
      if negb (matmul_types_ok d) then Ret (None, extmem)
      else if negb (matmul_shapes_ok d) then Ret (None, extmem)
      else
        let lhs := tensor_at d 0 in
        let rhs := tensor_at d 1 in
        let output := tensor_at d 2 in
        let m := dim lhs 0 in
        let k := dim lhs 1 in
        let n := dim rhs 1 in
        b ← forZ m (fun row => forZ n (fun col => matmul_element d base row col)) extmem;
        Ret (Some {| k_operation_count := u64 (m * n * k);
                     k_bytes_read := u32 (t_size lhs + t_size rhs);
                     k_bytes_written := t_size output;
                     k_host_elapsed_ns := elapsed |}, b)
  end.

(** ** Fully connected *)

(** The last tensor is the output; with four, the third is the bias. *)
Definition fc_output (d : coral_operator_descriptor) : coral_operator_tensor :=
  tensor_at d (Z.to_nat (d_tensor_count d - 1)).
Definition fc_has_bias (d : coral_operator_descriptor) : bool := d_tensor_count d =? 4.

Definition fc_types_ok (d : coral_operator_descriptor) : bool :=
  let t0 := tensor_at d 0 in
  let t1 := tensor_at d 1 in
  (3 <=? d_tensor_count d) && (d_tensor_count d <=? 4)
  && (t_element_type t0 =? CORAL_OPERATOR_ELEMENT_INT8)
  && (t_element_type t1 =? CORAL_OPERATOR_ELEMENT_INT8)
  && (t_element_type (fc_output d) =? CORAL_OPERATOR_ELEMENT_INT8)
  && (t_rank t0 =? 2) && (t_rank t1 =? 2) && (t_rank (fc_output d) =? 2)
  && TensorBytesMatch t0 1 && TensorBytesMatch t1 1 && TensorBytesMatch (fc_output d) 1
  && (if fc_has_bias d then
        (t_element_type (tensor_at d 2) =? CORAL_OPERATOR_ELEMENT_INT32)
        && (t_rank (tensor_at d 2) =? 1) && TensorBytesMatch (tensor_at d 2) 4
      else true).

Definition fc_shapes_ok (d : coral_operator_descriptor) : bool :=
  let input := tensor_at d 0 in
  let weights := tensor_at d 1 in
  let output := fc_output d in
  (dim weights 1 =? dim input 1) && (dim output 0 =? dim input 0)
  && (dim output 1 =? dim weights 0) && activation_ok d
  && (if fc_has_bias d then dim (tensor_at d 2) 0 =? dim weights 0 else true).

Definition fc_element (d : coral_operator_descriptor) (base batch out : Z) (b : buf) :
    res buf :=
  let input := tensor_at d 0 in
  let weights := tensor_at d 1 in
  let input_depth := dim input 1 in
  let output_depth := dim weights 0 in
  bias ← (if fc_has_bias d then load_i32 b (tensor_off base (tensor_at d 2) + 4 * out)
          else Ret 0);
  accumulator ← forZ input_depth (fun i acc =>
    p ← centered_product b
          (tensor_off base input + u32 (batch * input_depth + i)) (t_zero_point input)
          (tensor_off base weights + u32 (out * input_depth + i)) (t_zero_point weights);
    signed 32 (acc + p)) bias;
  accumulator ← signed 32 (accumulator + d_output_zero_point d);
  store_i8 b (tensor_off base (fc_output d) + u32 (batch * output_depth + out))
    (clamp (d_activation_min d) (d_activation_max d) accumulator).

Definition RunGem5HybridFullyConnectedInt8 (descriptor : option coral_operator_descriptor)
    (extmem : buf) (base elapsed : Z) : res (option kernel_stats * buf) :=
  match descriptor with
  | None => Ret (None, extmem)
  | Some d =>
      if negb (fc_types_ok d) then Ret (None, extmem)
      else if negb (fc_shapes_ok d) then Ret (None, extmem)
      else
        let input := tensor_at d 0 in
        let weights := tensor_at d 1 in
        let batches := dim input 0 in
        let output_depth := dim weights 0 in
        b ← forZ batches (fun batch =>
              forZ output_depth (fun out => fc_element d base batch out)) extmem;
        Ret (Some {| k_operation_count := u64 (batches * output_depth * dim input 1);
                     k_bytes_read := u32 (t_size input + t_size weights +
                       (if fc_has_bias d then t_size (tensor_at d 2) else 0));
                     k_bytes_written := t_size (fc_output d);
                     k_host_elapsed_ns := elapsed |}, b)
  end.

(** ** Addition *)

Definition add_ok (d : coral_operator_descriptor) : bool :=
  let t0 := tensor_at d 0 in
  let t1 := tensor_at d 1 in
  let t2 := tensor_at d 2 in
  (d_tensor_count d =? 3)
  && (t_element_type t0 =? CORAL_OPERATOR_ELEMENT_INT8)
  && (t_element_type t1 =? CORAL_OPERATOR_ELEMENT_INT8)
  && (t_element_type t2 =? CORAL_OPERATOR_ELEMENT_INT8)
  && SameShape t0 t1 && SameShape t0 t2
  && TensorBytesMatch t0 1 && TensorBytesMatch t1 1 && TensorBytesMatch t2 1
  && activation_ok d.

Definition add_element (d : coral_operator_descriptor) (base i : Z) (b : buf) : res buf :=
  let lhs := tensor_at d 0 in
  let rhs := tensor_at d 1 in
  x ← load_i8 b (tensor_off base lhs + i);
  y ← load_i8 b (tensor_off base rhs + i);
  dx ← signed 32 (x - t_zero_point lhs);
  dy ← signed 32 (y - t_zero_point rhs);
  s ← signed 32 (dx + dy);
  value ← signed 32 (s + d_output_zero_point d);
  store_i8 b (tensor_off base (tensor_at d 2) + i)
    (clamp (d_activation_min d) (d_activation_max d) value).

Definition RunGem5HybridAddInt8 (descriptor : option coral_operator_descriptor)
    (extmem : buf) (base elapsed : Z) : res (option kernel_stats * buf) :=
  match descriptor with
  | None => Ret (None, extmem)
  | Some d =>
      if negb (add_ok d) then Ret (None, extmem)
      else
        let count := ElementCount (tensor_at d 2) in
        b ← forZ count (add_element d base) extmem;
        Ret (Some {| k_operation_count := count;
                     k_bytes_read := u32 (t_size (tensor_at d 0) + t_size (tensor_at d 1));
                     k_bytes_written := t_size (tensor_at d 2);
                     k_host_elapsed_ns := elapsed |}, b)
  end.

(** ** Convolutions *)

(** The row (or column) of the input a filter tap meets, as the code computes
    it: unsigned arithmetic converted to a signed integer. *)
Definition tap (out stride f pad : Z) : Z := i32 (u32 (out * stride + f - pad)).
Definition tap_outside (i extent : Z) : bool := (i <? 0) || (i32 extent <=? i).

(** The shifts of all channels are in range: the check before the loops. *)
Fixpoint shifts_ok (b : buf) (shifts : Z) (l : list Z) : res bool :=
  match l with
  | [] => Ret true
  | i :: l =>
      s ← load_i32 b (shifts + 4 * i);
      if (s <? -31) || (30 <? s) then Ret false else shifts_ok b shifts l
  end.

(** Rescaling, zero point, clamping and the store of one output element. *)
Definition conv_finish (d : coral_operator_descriptor) (base index out_c accumulator : Z)
    (b : buf) : res buf :=
  let bounded := i32 (clamp INT32_MIN INT32_MAX accumulator) in
  multiplier ← load_i32 b (d_multiplier_address d - base + 4 * out_c);
  shift ← load_i32 b (d_shift_address d - base + 4 * out_c);
  scaled ← MultiplyByQuantizedMultiplier bounded multiplier shift;
  scaled ← signed 32 (scaled + d_output_zero_point d);
  store_i8 b (tensor_off base (tensor_at d 3) + u32 index)
    (clamp (d_activation_min d) (d_activation_max d) scaled).

(** The taps of one output element, all input channels of each. *)
Definition conv_accumulate (d : coral_operator_descriptor)
    (base batch out_y out_x out_c : Z) (b : buf) (init : Z) : res Z :=
  let input := tensor_at d 0 in
  let filter := tensor_at d 1 in
  let input_h := dim input 1 in
  let input_w := dim input 2 in
  let input_c := dim input 3 in
  let filter_h := dim filter 1 in
  let filter_w := dim filter 2 in
  forZ filter_h (fun filter_y acc =>
    let in_y := tap out_y (d_stride_height d) filter_y (d_padding_height d) in
    if tap_outside in_y input_h then Ret acc
    else forZ filter_w (fun filter_x acc =>
      let in_x := tap out_x (d_stride_width d) filter_x (d_padding_width d) in
      if tap_outside in_x input_w then Ret acc
      else forZ input_c (fun in_c acc =>
        let input_index := u32 (((batch * input_h + in_y) * input_w + in_x) * input_c + in_c) in
        let filter_index :=
          u32 (((out_c * filter_h + filter_y) * filter_w + filter_x) * input_c + in_c) in
        p ← centered_product b (tensor_off base input + input_index) (t_zero_point input)
                               (tensor_off base filter + filter_index) (t_zero_point filter);
        signed 64 (acc + p)) acc) acc) init.

Definition conv_element (d : coral_operator_descriptor)
    (base batch out_y out_x out_c : Z) (b : buf) : res buf :=
  let output := tensor_at d 3 in
  bias ← load_i32 b (tensor_off base (tensor_at d 2) + 4 * out_c);
  accumulator ← conv_accumulate d base batch out_y out_x out_c b bias;
  conv_finish d base
    (((batch * dim output 1 + out_y) * dim output 2 + out_x) * dim output 3 + out_c)
    out_c accumulator b.

(** The four loops over the output of either convolution. *)
Definition conv_loops (d : coral_operator_descriptor)
    (element : Z -> Z -> Z -> Z -> buf -> res buf) (extmem : buf) : res buf :=
  let output := tensor_at d 3 in
  forZ (dim (tensor_at d 0) 0) (fun batch =>
    forZ (dim output 1) (fun out_y =>
      forZ (dim output 2) (fun out_x =>
        forZ (dim output 3) (fun out_c => element batch out_y out_x out_c)))) extmem.

Definition conv_bytes_read (d : coral_operator_descriptor) : Z :=
  u64 (u32 (t_size (tensor_at d 0) + t_size (tensor_at d 1) + t_size (tensor_at d 2))
       + 2 * d_quantization_count d * 4).

Definition RunGem5HybridConv2D (d : coral_operator_descriptor) (extmem : buf)
    (base elapsed : Z) : res (option kernel_stats * buf) :=
  if negb (CommonConvValid d false) then Ret (None, extmem)
  else
    let input := tensor_at d 0 in
    let filter := tensor_at d 1 in
    let output := tensor_at d 3 in
    ok ← shifts_ok extmem (d_shift_address d - base) (seqZ 0 (dim output 3));
    if negb ok then Ret (None, extmem)
    else
      b ← conv_loops d (conv_element d base) extmem;
      Ret (Some {| k_operation_count :=
                     u64 (dim input 0 * dim output 1 * dim output 2 * dim output 3
                          * dim filter 1 * dim filter 2 * dim input 3);
                   k_bytes_read := conv_bytes_read d;
                   k_bytes_written := t_size output;
                   k_host_elapsed_ns := elapsed |}, b).

(** *** Depthwise *)

Definition depthwise_accumulate (d : coral_operator_descriptor)
    (base batch out_y out_x out_c : Z) (b : buf) (init : Z) : res Z :=
  let input := tensor_at d 0 in
  let filter := tensor_at d 1 in
  let input_h := dim input 1 in
  let input_w := dim input 2 in
  let input_c := dim input 3 in
  let output_c := dim (tensor_at d 3) 3 in
  let filter_h := dim filter 1 in
  let filter_w := dim filter 2 in
  let in_c := Z.quot out_c (Z.quot output_c input_c) in
  forZ filter_h (fun filter_y acc =>
    let in_y := tap out_y (d_stride_height d) filter_y (d_padding_height d) in
    if tap_outside in_y input_h then Ret acc
    else forZ filter_w (fun filter_x acc =>
      let in_x := tap out_x (d_stride_width d) filter_x (d_padding_width d) in
      if tap_outside in_x input_w then Ret acc
      else
        let input_index := u32 (((batch * input_h + in_y) * input_w + in_x) * input_c + in_c) in
        let filter_index := u32 ((filter_y * filter_w + filter_x) * output_c + out_c) in
        p ← centered_product b (tensor_off base input + input_index) (t_zero_point input)
                               (tensor_off base filter + filter_index) (t_zero_point filter);
        signed 64 (acc + p)) acc) init.

Definition depthwise_element (d : coral_operator_descriptor)
    (base batch out_y out_x out_c : Z) (b : buf) : res buf :=
  let output := tensor_at d 3 in
  bias ← load_i32 b (tensor_off base (tensor_at d 2) + 4 * out_c);
  accumulator ← depthwise_accumulate d base batch out_y out_x out_c b bias;
  conv_finish d base
    (((batch * dim output 1 + out_y) * dim output 2 + out_x) * dim output 3 + out_c)
    out_c accumulator b.

Definition RunGem5HybridDepthwiseConv2D (d : coral_operator_descriptor) (extmem : buf)
    (base elapsed : Z) : res (option kernel_stats * buf) :=
  if negb (CommonConvValid d true) then Ret (None, extmem)
  else
    let input := tensor_at d 0 in
    let filter := tensor_at d 1 in
    let output := tensor_at d 3 in
    ok ← shifts_ok extmem (d_shift_address d - base) (seqZ 0 (dim output 3));
    if negb ok then Ret (None, extmem)
    else
      b ← conv_loops d (depthwise_element d base) extmem;
      Ret (Some {| k_operation_count :=
                     u64 (dim input 0 * dim output 1 * dim output 2 * dim output 3
                          * dim filter 1 * dim filter 2);
                   k_bytes_read := conv_bytes_read d;
                   k_bytes_written := t_size output;
                   k_host_elapsed_ns := elapsed |}, b).
