(* ===== verification/KernelSpec.v ===== *)
(** * The integer kernels compute the reference operators

    For each int8 kernel of [Kernels]: when the descriptor passes the kernel's
    own checks, the tensors lie in the external memory and the output overlaps
    no input, the run has a defined result, the output elements are the
    reference values, and no other byte changes. *)

From S2P Require Import Prelude Operator FixedPoint Kernels.

(** ** Elements of a buffer *)

Definition at8 (b : buf) (off : Z) : Z := i8 (buf_at b off).
Definition at32 (b : buf) (off : Z) : Z := i32 (le_val (buf_slice b off 4)).

Lemma at8_range b off : - 128 <= at8 b off <= 127.
Proof. unfold at8. pose proof (swrap_range 8 (buf_at b off) ltac:(lia)). lia. Qed.

Lemma at32_range b off : is_i32 (at32 b off).
Proof. unfold at32. apply (swrap_range 32 _ ltac:(lia)). Qed.

Lemma load_i8_ret b off : 0 <= off -> off + 1 <= buf_len b -> load_i8 b off = Ret (at8 b off).
Proof.
  intros. unfold load_i8. rewrite buf_read_ret by lia. cbn [mbind res_bind].
  unfold at8, buf_slice. rewrite seqZ_cons, seqZ_nil by lia. unfold le_val. simpl.
  by rewrite Z.add_0_r.
Qed.

Lemma load_i32_ret b off : 0 <= off -> off + 4 <= buf_len b -> load_i32 b off = Ret (at32 b off).
Proof. intros. unfold load_i32. by rewrite buf_read_ret by lia. Qed.

(** The product of two zero-point-centred elements. *)
Definition term (b : buf) (xa zx ya zy : Z) : Z := (at8 b xa - zx) * (at8 b ya - zy).

Lemma term_bound b xa zx ya zy :
  - 128 <= zx <= 127 -> - 128 <= zy <= 127 -> Z.abs (term b xa zx ya zy) <= 65025.
Proof.
  intros. unfold term. pose proof (at8_range b xa). pose proof (at8_range b ya).
  rewrite Z.abs_mul. change 65025 with (255 * 255). apply Z.mul_le_mono_nonneg; lia.
Qed.

(** ** Loops that fill the output *)

Section fill.
(** The memory before the kernel, and the output region. *)
Context (b0 : buf) (L N : Z).

Definition agree (b : buf) : Prop :=
  buf_len b = buf_len b0 /\ forall j, ~ (L <= j < L + N) -> buf_at b j = buf_at b0 j.

(** [b'] is [b] with [F 0 .. F (n-1)] at [lo]. *)
Definition filled (b b' : buf) (lo n : Z) (F : Z -> Z) : Prop :=
  buf_len b' = buf_len b /\
  (forall i, 0 <= i < n -> buf_at b' (lo + i) = F i) /\
  (forall j, ~ (lo <= j < lo + n) -> buf_at b' j = buf_at b j).

Definition fills (body : buf -> res buf) (lo n : Z) (F : Z -> Z) : Prop :=
  forall b, agree b -> exists b', body b = Ret b' /\ filled b b' lo n F.

Lemma agree_refl : agree b0.
Proof. done. Qed.

Lemma filled_agree b b' lo n F :
  agree b -> filled b b' lo n F -> L <= lo -> lo + n <= L + N -> agree b'.
Proof.
  intros [Hl Ha] (Hl' & _ & Ho) H1 H2. split; [lia |].
  intros j Hj. rewrite Ho by lia. auto.
Qed.

Lemma fills_loop m n body lo F :
  0 <= m -> 0 <= n -> L <= lo -> lo + m * n <= L + N ->
  (forall i, 0 <= i < m -> fills (body i) (lo + i * n) n (F i)) ->
  fills (forZ m body) lo (m * n) (fun j => F (j / n) (j mod n)).
Proof.
  intros Hm Hn HL HN Hbody b Hb.
  apply (forZ_ret (fun i s => filled b s lo (i * n) (fun j => F (j / n) (j mod n))));
    [done | |].
  { split; [done | split; [lia | done]]. }
  intros i s Hi Hs.
  destruct (Hbody i Hi s) as (s' & E & Hl & Hf & Ho).
  { apply (filled_agree b s lo (i * n) _ Hb Hs); nia. }
  exists s'. split; [done |]. destruct Hs as (Hsl & Hsf & Hso).
  split; [lia | split].
  - intros j Hj. destruct (decide (j < i * n)).
    + rewrite Ho by lia. apply Hsf; lia.
    + replace (lo + j) with (lo + i * n + (j - i * n)) by lia.
      rewrite Hf by lia.
      assert (j / n = i) as -> by (symmetry; apply Z.div_unique with (r := j - i * n); lia).
      assert (j mod n = j - i * n) as ->
        by (symmetry; apply Z.mod_unique with (q := i); lia).
      done.
  - intros j Hj. rewrite Ho by nia. apply Hso. nia.
Qed.

Lemma fills_ext body lo n F G :
  (forall i, 0 <= i < n -> F i = G i) -> fills body lo n F -> fills body lo n G.
Proof.
  intros Hfg H b Hb. destruct (H b Hb) as (b' & E & Hl & Hf & Ho).
  exists b'. split; [done | split; [done | split; [| done]]].
  intros i Hi. rewrite <- Hfg by done. by apply Hf.
Qed.

(** A loop over single elements. *)
Lemma fills_row n body lo G :
  0 <= n -> L <= lo -> lo + n <= L + N ->
  (forall c, 0 <= c < n -> fills (body c) (lo + c) 1 (fun _ => G c)) ->
  fills (forZ n body) lo n G.
Proof.
  intros Hn HL HN Hb.
  pose proof (fills_loop n 1 body lo (fun c _ => G c) Hn ltac:(lia) HL ltac:(lia)) as H.
  rewrite Z.mul_1_r in H. eapply fills_ext; [| apply H].
  - intros i Hi. cbv beta. by rewrite Z.div_1_r.
  - intros c Hc. rewrite Z.mul_1_r. by apply Hb.
Qed.

Lemma fills_store v body lo :
  0 <= lo -> lo + 1 <= buf_len b0 ->
  (forall b, agree b -> body b = store_i8 b lo v) ->
  fills body lo 1 (fun _ => v mod 256).
Proof.
  intros H0 H1 Hc b Hb. rewrite Hc by done. unfold store_i8.
  rewrite buf_write_ret by (destruct Hb; simpl; lia).
  eexists. split; [done |]. split; [done | split].
  - intros i Hi. rewrite buf_at_blit. simpl length. case_decide; [| lia].
    replace (Z.to_nat _) with 0%nat by lia. done.
  - intros j Hj. rewrite buf_at_blit. simpl length. case_decide; [lia | done].
Qed.

Lemma agree_load_i8 b off :
  agree b -> 0 <= off -> off + 1 <= buf_len b0 -> ~ (L <= off < L + N) ->
  load_i8 b off = Ret (at8 b0 off).
Proof.
  intros [Hl Ha] H0 H1 Hd. rewrite load_i8_ret by lia. unfold at8. by rewrite Ha.
Qed.

Lemma agree_load_i32 b off :
  agree b -> 0 <= off -> off + 4 <= buf_len b0 ->
  (off + 4 <= L \/ L + N <= off) -> load_i32 b off = Ret (at32 b0 off).
Proof.
  intros [Hl Ha] H0 H1 Hd. rewrite load_i32_ret by lia. unfold at32.
  rewrite (buf_slice_ext b b0); [done |]. intros i Hi. apply Ha. lia.
Qed.

Lemma agree_product b xa zx ya zy :
  agree b ->
  0 <= xa -> xa + 1 <= buf_len b0 -> ~ (L <= xa < L + N) ->
  0 <= ya -> ya + 1 <= buf_len b0 -> ~ (L <= ya < L + N) ->
  - 128 <= zx <= 127 -> - 128 <= zy <= 127 ->
  centered_product b xa zx ya zy = Ret (term b0 xa zx ya zy).
Proof.
  intros. unfold centered_product. rewrite !agree_load_i8 by done. simpl.
  pose proof (at8_range b0 xa). pose proof (at8_range b0 ya).
  rewrite (signed_ret 32 (at8 b0 xa - zx)) by (change (32 - 1) with 31; lia). simpl.
  rewrite (signed_ret 32 (at8 b0 ya - zy)) by (change (32 - 1) with 31; lia). simpl.
  apply signed_ret. change (32 - 1) with 31.
  pose proof (term_bound b0 xa zx ya zy ltac:(done) ltac:(done)) as Hb.
  fold (term b0 xa zx ya zy). lia.
Qed.

End fill.

(** A sum accumulated in a signed type that holds every partial sum. *)
Lemma accumulate_loop w n (body : Z -> Z -> res Z) init (t : Z -> Z) c :
  0 <= n -> 0 <= c ->
  (forall i acc, 0 <= i < n -> body i acc = signed w (acc + t i)) ->
  (forall i, 0 <= i < n -> Z.abs (t i) <= c) ->
  Z.abs init + n * c < 2 ^ (w - 1) ->
  forZ n body init = Ret (init + sumZ n t) /\ Z.abs (init + sumZ n t) <= Z.abs init + n * c.
Proof.
  intros Hn Hc Hb Ht Hw.
  split; [| pose proof (sumZ_bound n t c Hn Hc Ht); lia].
  destruct (forZ_ret (fun i s => s = init + sumZ i t) n body init) as (s & E & ->);
    [done | by rewrite sumZ_0, Z.add_0_r | | done].
  intros i s Hi ->. exists (init + sumZ (i + 1) t). split; [| done].
  rewrite Hb, sumZ_succ, Z.add_assoc by lia.
  apply signed_ret.
  pose proof (sumZ_bound i t c ltac:(lia) Hc ltac:(intros; apply Ht; lia)).
  pose proof (Ht i Hi). nia.
Qed.

(** ** What the tensor checks establish *)

Definition prodZ (l : list Z) : Z := foldr Z.mul 1 l.

Lemma element_count_loop_spec dims : forall count,
  0 < count < 2 ^ 64 -> Forall is_u32 dims -> element_count_loop dims count <> 0 ->
  element_count_loop dims count = count * prodZ dims /\ Forall (fun d => 1 <= d) dims /\
  0 < element_count_loop dims count < 2 ^ 64.
Proof.
  induction dims as [|d dims IH]; intros count Hc Hd Hne.
  { simpl in *. rewrite Z.mul_1_r. done. }
  apply Forall_cons_1 in Hd as [Hd Hds]. unfold is_u32 in Hd. simpl in *.
  destruct (d =? 0) eqn:E0; [done |]. destruct (UINT64_MAX / d <? count) eqn:E1; [done |].
  simpl in *. bool_prop.
  assert (count * d <= UINT64_MAX) as Hm.
  { pose proof (Z.mul_div_le UINT64_MAX d ltac:(lia)). nia. }
  rewrite wrap_small in * by nia.
  destruct (IH (count * d)) as (-> & Hf & Hr); [nia | done | done |].
  split; [lia | split; [| done]]. constructor; [lia | done].
Qed.

Lemma element_count_spec t :
  tensor_wf t -> ElementCount t <> 0 ->
  1 <= t_rank t <= 4 /\
  ElementCount t = prodZ (take (Z.to_nat (t_rank t)) (t_dimensions t)) /\
  Forall (fun d => 1 <= d) (take (Z.to_nat (t_rank t)) (t_dimensions t)) /\
  0 < ElementCount t < 2 ^ 64.
Proof.
  intros (_ & _ & Hr & _ & Hd & _) Hne. unfold is_u32 in Hr. unfold ElementCount in *.
  destruct ((t_rank t =? 0) || _) eqn:E; [done |].
  unfold CORAL_OPERATOR_MAX_DIMS in E. bool_prop. split; [lia |].
  destruct (element_count_loop_spec (take (Z.to_nat (t_rank t)) (t_dimensions t)) 1)
    as (H & H1 & H2); [lia | by apply Forall_take | done |].
  rewrite H at 1. rewrite Z.mul_1_l. done.
Qed.

(** The dimensions of tensors of rank one, two and four. *)
Lemma take_dims_1 t : tensor_wf t -> take 1 (t_dimensions t) = [dim t 0].
Proof.
  intros (_ & _ & _ & H & _). unfold dim.
  destruct (t_dimensions t) as [|? [|]]; done.
Qed.
Lemma take_dims_2 t : tensor_wf t -> take 2 (t_dimensions t) = [dim t 0; dim t 1].
Proof.
  intros (_ & _ & _ & H & _). unfold dim.
  destruct (t_dimensions t) as [|? [|? [|]]]; done.
Qed.
Lemma take_dims_4 t :
  tensor_wf t -> take 4 (t_dimensions t) = [dim t 0; dim t 1; dim t 2; dim t 3].
Proof.
  intros (_ & _ & _ & H & _). unfold dim.
  destruct (t_dimensions t) as [|? [|? [|? [|? [|]]]]]; done.
Qed.

Lemma bytes_match_spec t e :
  tensor_wf t -> 1 <= e <= 4 -> TensorBytesMatch t e = true ->
  ElementCount t <> 0 /\ t_size t = ElementCount t * e.
Proof.
  intros Hwf He. unfold TensorBytesMatch. intros H. bool_prop.
  destruct H as [[H1 H2] H3]. split; [done |].
  destruct (element_count_spec t Hwf H1) as (_ & _ & _ & Hr).
  rewrite H3, wrap_small; [done |].
  assert (UINT32_MAX / e <= UINT32_MAX) by (apply Z.div_le_upper_bound; lia). nia.
Qed.

Lemma bytes_match_rank2 t :
  tensor_wf t -> t_rank t = 2 -> TensorBytesMatch t 1 = true ->
  1 <= dim t 0 /\ 1 <= dim t 1 /\ t_size t = dim t 0 * dim t 1.
Proof.
  intros Hwf Hr H. apply bytes_match_spec in H as [Hne Hs]; [| done | lia].
  destruct (element_count_spec t Hwf Hne) as (_ & E & Hf & _).
  rewrite Hr in E, Hf. change (Z.to_nat 2) with 2%nat in E, Hf.
  rewrite take_dims_2 in E, Hf by done. rewrite !Forall_cons_iff in Hf.
  unfold prodZ in E. simpl in E. lia.
Qed.

Lemma count_rank4 t :
  tensor_wf t -> t_rank t = 4 -> ElementCount t <> 0 ->
  1 <= dim t 0 /\ 1 <= dim t 1 /\ 1 <= dim t 2 /\ 1 <= dim t 3 /\
  ElementCount t = dim t 0 * dim t 1 * dim t 2 * dim t 3.
Proof.
  intros Hwf Hr Hne.
  destruct (element_count_spec t Hwf Hne) as (_ & E & Hf & _).
  rewrite Hr in E, Hf. change (Z.to_nat 4) with 4%nat in E, Hf.
  rewrite take_dims_4 in E, Hf by done. rewrite !Forall_cons_iff in Hf.
  unfold prodZ in E. simpl in E. nia.
Qed.

(** A tensor inside the external memory, and two that do not overlap. *)
Definition in_mem (base : Z) (b : buf) (t : coral_operator_tensor) : Prop :=
  base <= t_address t /\ t_address t - base + t_size t <= buf_len b.

Definition apart (t u : coral_operator_tensor) : Prop :=
  t_address t + t_size t <= t_address u \/ t_address u + t_size u <= t_address t.

Lemma tensor_off_eq base b t :
  tensor_wf t -> 0 <= base -> in_mem base b t ->
  tensor_off base t = t_address t - base /\ 0 <= tensor_off base t /\
  tensor_off base t + t_size t <= buf_len b.
Proof.
  intros (Ha & _) Hb [H1 H2]. unfold tensor_off, is_u32 in *.
  rewrite wrap_small by lia. lia.
Qed.

Definition int8_zero_point (t : coral_operator_tensor) : Prop :=
  - 128 <= t_zero_point t <= 127.

Lemma i8_byte v : - 128 <= v <= 127 -> i8 (v mod 256) = v.
Proof.
  intros. unfold swrap. change (2 ^ 8) with 256. change (2 ^ (8 - 1)) with 128.
  rewrite Zplus_mod_idemp_l, Z.mod_small; lia.
Qed.

Lemma activation_ok_iff d :
  activation_ok d = true <->
  - 128 <= d_activation_min d /\ d_activation_max d <= 127 /\
  d_activation_min d <= d_activation_max d.
Proof. unfold activation_ok. bool_prop. lia. Qed.

Lemma activated_byte d v :
  activation_ok d = true ->
  i8 (clamp (d_activation_min d) (d_activation_max d) v mod 256) =
    clamp (d_activation_min d) (d_activation_max d) v.
Proof.
  intros H%activation_ok_iff. apply i8_byte.
  pose proof (clamp_range (d_activation_min d) (d_activation_max d) v). lia.
Qed.

(** Position [c] of row [r] in a row-major array. *)
Lemma index_range r c m n : 0 <= r < m -> 0 <= c < n -> 0 <= r * n + c < m * n.
Proof.
  intros Hr Hc. assert (r * n + n <= m * n); [| nia].
  replace (r * n + n) with ((r + 1) * n) by lia. apply Z.mul_le_mono_nonneg_r; lia.
Qed.

Lemma row_range r m n : 0 <= r < m -> 0 <= n -> 0 <= r * n /\ r * n + n <= m * n.
Proof.
  intros Hr Hn. split; [apply Z.mul_nonneg_nonneg; lia |].
  replace (r * n + n) with ((r + 1) * n) by lia. apply Z.mul_le_mono_nonneg_r; lia.
Qed.

Lemma index_div r c n : 0 <= c < n -> (r * n + c) / n = r.
Proof. intros. symmetry. apply Z.div_unique with (r := c); lia. Qed.
Lemma index_mod r c n : 0 <= c < n -> (r * n + c) mod n = c.
Proof. intros. symmetry. apply Z.mod_unique with (q := r); lia. Qed.

(** The bytes of the output hold the clamped values, and nothing else moved. *)
Definition output_is (d : coral_operator_descriptor) (b b' : buf) (off n : Z)
    (value : Z -> Z) : Prop :=
  buf_len b' = buf_len b /\
  (forall i, 0 <= i < n ->
     at8 b' (off + i) = clamp (d_activation_min d) (d_activation_max d) (value i)) /\
  (forall j, ~ (off <= j < off + n) -> buf_at b' j = buf_at b j).

Lemma filled_output d b b' off n value :
  activation_ok d = true ->
  filled b b' off n
    (fun i => clamp (d_activation_min d) (d_activation_max d) (value i) mod 256) ->
  output_is d b b' off n value.
Proof.
  intros Hact (Hl & Hf & Ho). split; [done | split; [| done]].
  intros i Hi. unfold at8. rewrite Hf by done. by apply activated_byte.
Qed.

(** ** Matrix product *)

Section matmul.
Context (d : coral_operator_descriptor) (b0 : buf) (base : Z).
Abbreviation lhs := (tensor_at d 0).
Abbreviation rhs := (tensor_at d 1).
Abbreviation output := (tensor_at d 2).
Abbreviation m := (dim (tensor_at d 0) 0).
Abbreviation k := (dim (tensor_at d 0) 1).
Abbreviation n := (dim (tensor_at d 1) 1).

(** The reference: the product of the zero-point-centred matrices. *)
Definition matmul_value (row col : Z) : Z :=
  sumZ k (fun i => term b0 (tensor_off base lhs + (row * k + i)) (t_zero_point lhs)
                           (tensor_off base rhs + (i * n + col)) (t_zero_point rhs))
  + d_output_zero_point d.

Record matmul_pre : Prop := {
  mm_base : 0 <= base;
  mm_wf : tensor_wf lhs /\ tensor_wf rhs /\ tensor_wf output;
  mm_types : matmul_types_ok d = true;
  mm_shapes : matmul_shapes_ok d = true;
  mm_in : in_mem base b0 lhs /\ in_mem base b0 rhs /\ in_mem base b0 output;
  mm_apart : apart output lhs /\ apart output rhs;
  mm_zero : int8_zero_point lhs /\ int8_zero_point rhs;
  mm_bound : k * 65025 + Z.abs (d_output_zero_point d) < 2 ^ 31 }.

Lemma matmul_facts :
  matmul_pre ->
  1 <= m /\ 1 <= k /\ 1 <= n /\ t_size lhs = m * k /\ t_size rhs = k * n /\
  t_size output = m * n /\ activation_ok d = true.
Proof.
  intros [_ (W0 & W1 & W2) Ht Hs _ _ _ _]. unfold matmul_types_ok, matmul_shapes_ok in *.
  bool_prop. destruct_and!.
  destruct (bytes_match_rank2 _ W0) as (? & ? & ?); [done.. |].
  destruct (bytes_match_rank2 _ W1) as (? & ? & ?); [done.. |].
  destruct (bytes_match_rank2 _ W2) as (? & ? & ?); [done.. |].
  repeat split; try done; congruence.
Qed.

Lemma matmul_element_fills row col :
  matmul_pre -> 0 <= row < m -> 0 <= col < n ->
  fills b0 (tensor_off base output) (t_size output) (matmul_element d base row col)
    (tensor_off base output + row * n + col) 1
    (fun _ => clamp (d_activation_min d) (d_activation_max d) (matmul_value row col) mod 256).
Proof.
  intros Hpre Hr Hc. destruct (matmul_facts Hpre) as (? & ? & ? & Es0 & Es1 & Es2 & Hact).
  destruct Hpre as [Hb (W0 & W1 & W2) _ _ (I0 & I1 & I2) (A0 & A1) (Z0 & Z1) Hbd].
  destruct (tensor_off_eq base b0 _ W0 Hb I0) as (E0 & ? & ?).
  destruct (tensor_off_eq base b0 _ W1 Hb I1) as (E1 & ? & ?).
  destruct (tensor_off_eq base b0 _ W2 Hb I2) as (E2 & ? & ?).
  assert (is_u32 (t_size lhs) /\ is_u32 (t_size rhs) /\ is_u32 (t_size output))
    as (U0 & U1 & U2) by (split; [apply W0 | split; [apply W1 | apply W2]]).
  unfold is_u32, apart in *. pose proof (index_range row col m n Hr Hc).
  apply fills_store; [lia | lia |].
  intros b Ha. unfold matmul_element.
  destruct (accumulate_loop 32 k (fun inner acc =>
    p ← centered_product b (tensor_off base lhs + u32 (row * k + inner)) (t_zero_point lhs)
          (tensor_off base rhs + u32 (inner * n + col)) (t_zero_point rhs);
    signed 32 (acc + p)) 0
    (fun i => term b0 (tensor_off base lhs + (row * k + i)) (t_zero_point lhs)
                      (tensor_off base rhs + (i * n + col)) (t_zero_point rhs)) 65025)
    as [E Hs].
  - lia.
  - lia.
  - intros i acc Hi. pose proof (index_range row i m k Hr Hi).
    pose proof (index_range i col k n Hi Hc).
    rewrite (wrap_small 32 (row * k + i)), (wrap_small 32 (i * n + col)) by lia.
    rewrite (agree_product b0 (tensor_off base output) (t_size output));
      (done || lia).
  - intros i Hi. by apply term_bound.
  - change (32 - 1) with 31. lia.
  - rewrite E. cbn [mbind res_bind]. rewrite Z.add_0_l in Hs |- *.
    rewrite signed_ret by (change (32 - 1) with 31; lia). cbn [mbind res_bind].
    rewrite wrap_small by lia. f_equal. lia.
Qed.

Lemma matmul_fills :
  matmul_pre ->
  fills b0 (tensor_off base output) (t_size output)
    (forZ m (fun row => forZ n (fun col => matmul_element d base row col)))
    (tensor_off base output) (m * n)
    (fun j => clamp (d_activation_min d) (d_activation_max d)
                (matmul_value (j / n) (j mod n)) mod 256).
Proof.
  intros Hpre. destruct (matmul_facts Hpre) as (? & ? & ? & _ & _ & Es & _).
  apply (fills_loop b0 _ _ m n _ _ (fun row col =>
    clamp (d_activation_min d) (d_activation_max d) (matmul_value row col) mod 256));
    [lia.. |].
  intros row Hrow. pose proof (row_range row m n Hrow ltac:(lia)).
  apply fills_row; [lia.. |].
  intros col Hcol. by apply matmul_element_fills.
Qed.

End matmul.

Lemma matmul_run d b base elapsed :
  matmul_pre d b base ->
  exists stats b', RunGem5HybridMatMulInt8 (Some d) b base elapsed = Ret (Some stats, b') /\
    buf_len b' = buf_len b /\
    (forall row col, 0 <= row < dim (tensor_at d 0) 0 -> 0 <= col < dim (tensor_at d 1) 1 ->
       at8 b' (tensor_off base (tensor_at d 2) + (row * dim (tensor_at d 1) 1 + col)) =
         clamp (d_activation_min d) (d_activation_max d) (matmul_value d b base row col)) /\
    (forall j, ~ (tensor_off base (tensor_at d 2) <= j
                  < tensor_off base (tensor_at d 2) + t_size (tensor_at d 2)) ->
       buf_at b' j = buf_at b j).
Proof.
  intros Hpre. pose proof (matmul_facts d b base Hpre) as (? & ? & ? & _ & _ & Es & Hact).
  destruct (matmul_fills d b base Hpre b (agree_refl _ _ _)) as (b' & E & Hf).
  eexists _, b'. unfold RunGem5HybridMatMulInt8.
  rewrite (mm_types _ _ _ Hpre), (mm_shapes _ _ _ Hpre). cbn [negb].
  rewrite E. cbn [mbind res_bind]. split; [done |].
  apply filled_output in Hf as (Hl & Ho & Hs); [| done].
  split; [done | split; [| by rewrite Es]].
  intros row col Hr Hc. rewrite Ho by (by apply index_range).
  by rewrite index_div, index_mod.
Qed.

(** For every descriptor the matrix-product kernel accepts, with tensors
    inside the external memory, an output that overlaps neither factor, int8
    zero points and an inner dimension small enough for the 32-bit
    accumulator, the kernel succeeds, element [(row, col)] of the output is the
    inner product of the zero-point-centred row and column plus the output zero
    point, clamped to the activation range, and no other byte changes. *)
Theorem matmul_correct d b base elapsed :
  matmul_pre d b base ->
  exists stats b', RunGem5HybridMatMulInt8 (Some d) b base elapsed = Ret (Some stats, b') /\
    buf_len b' = buf_len b /\
    (forall row col, 0 <= row < dim (tensor_at d 0) 0 -> 0 <= col < dim (tensor_at d 1) 1 ->
       at8 b' (tensor_off base (tensor_at d 2) + (row * dim (tensor_at d 1) 1 + col)) =
         clamp (d_activation_min d) (d_activation_max d) (matmul_value d b base row col)) /\
    (forall j, ~ (tensor_off base (tensor_at d 2) <= j
                  < tensor_off base (tensor_at d 2) + t_size (tensor_at d 2)) ->
       buf_at b' j = buf_at b j).
Proof. apply matmul_run. Qed.

(** ** Fully connected *)

Section fully_connected.
Context (d : coral_operator_descriptor) (b0 : buf) (base : Z).
Abbreviation input := (tensor_at d 0).
Abbreviation weights := (tensor_at d 1).
Abbreviation output := (fc_output d).
Abbreviation batches := (dim (tensor_at d 0) 0).
Abbreviation depth := (dim (tensor_at d 0) 1).
Abbreviation width := (dim (tensor_at d 1) 0).

Definition fc_bias (out : Z) : Z :=
  if fc_has_bias d then at32 b0 (tensor_off base (tensor_at d 2) + 4 * out) else 0.

Definition fc_value (batch out : Z) : Z :=
  fc_bias out
  + sumZ depth (fun i => term b0 (tensor_off base input + (batch * depth + i)) (t_zero_point input)
                                 (tensor_off base weights + (out * depth + i)) (t_zero_point weights))
  + d_output_zero_point d.

Record fc_pre : Prop := {
  fc_base : 0 <= base;
  fc_wf : tensor_wf input /\ tensor_wf weights /\ tensor_wf output /\ tensor_wf (tensor_at d 2);
  fc_types : fc_types_ok d = true;
  fc_shapes : fc_shapes_ok d = true;
  fc_in : in_mem base b0 input /\ in_mem base b0 weights /\ in_mem base b0 output /\
          (fc_has_bias d = true -> in_mem base b0 (tensor_at d 2));
  fc_apart : apart output input /\ apart output weights /\
             (fc_has_bias d = true -> apart output (tensor_at d 2));
  fc_zero : int8_zero_point input /\ int8_zero_point weights;
  fc_bound : forall out, 0 <= out < width ->
    Z.abs (fc_bias out) + depth * 65025 + Z.abs (d_output_zero_point d) < 2 ^ 31 }.

Lemma fc_facts :
  fc_pre ->
  1 <= batches /\ 1 <= depth /\ 1 <= width /\ t_size input = batches * depth /\
  t_size weights = width * depth /\ t_size output = batches * width /\
  (fc_has_bias d = true -> t_size (tensor_at d 2) = width * 4) /\ activation_ok d = true.
Proof.
  intros [_ (W0 & W1 & W2 & W3) Ht Hs _ _ _ _]. unfold fc_types_ok, fc_shapes_ok in *.
  bool_prop. destruct Ht as [Ht Hbt]. destruct Hs as [Hs Hbs]. destruct_and!.
  destruct (bytes_match_rank2 _ W0) as (? & ? & ?); [done.. |].
  destruct (bytes_match_rank2 _ W1) as (? & ? & ?); [done.. |].
  destruct (bytes_match_rank2 _ W2) as (? & ? & ?); [done.. |].
  repeat split; try done; try congruence.
  intros Hb. rewrite Hb in Hbt, Hbs. bool_prop. destruct Hbt as [[_ Hr] Hm].
  apply bytes_match_spec in Hm as [Hne ->]; [| done | lia].
  destruct (element_count_spec _ W3 Hne) as (_ & E & _ & _).
  rewrite E, Hr. change (Z.to_nat 1) with 1%nat. rewrite take_dims_1 by done.
  unfold prodZ. simpl. lia.
Qed.

Lemma fc_bias_load b out :
  fc_pre -> agree b0 (tensor_off base output) (t_size output) b -> 0 <= out < width ->
  (if fc_has_bias d then load_i32 b (tensor_off base (tensor_at d 2) + 4 * out) else Ret 0)
    = Ret (fc_bias out).
Proof.
  intros Hpre Ha Ho. destruct (fc_facts Hpre) as (_ & _ & _ & _ & _ & _ & Hsz & _).
  destruct Hpre as [Hb (_ & _ & W2 & W3) _ _ (_ & _ & I2 & I3) (_ & _ & A3) _ _].
  unfold fc_bias. destruct (fc_has_bias d); [| done].
  destruct (tensor_off_eq base b0 _ W2 Hb I2) as (E2 & ? & ?).
  destruct (tensor_off_eq base b0 _ W3 Hb (I3 eq_refl)) as (E3 & ? & ?).
  specialize (Hsz eq_refl). specialize (A3 eq_refl). unfold apart in A3.
  apply (agree_load_i32 b0 _ _ b _ Ha); lia.
Qed.

Lemma fc_element_fills batch out :
  fc_pre -> 0 <= batch < batches -> 0 <= out < width ->
  fills b0 (tensor_off base output) (t_size output) (fc_element d base batch out)
    (tensor_off base output + batch * width + out) 1
    (fun _ => clamp (d_activation_min d) (d_activation_max d) (fc_value batch out) mod 256).
Proof.
  intros Hpre Hr Hc. pose proof Hpre as Hpre'.
  destruct (fc_facts Hpre) as (? & ? & ? & Es0 & Es1 & Es2 & _ & Hact).
  destruct Hpre as [Hb (W0 & W1 & W2 & _) _ _ (I0 & I1 & I2 & _) (A0 & A1 & _) (Z0 & Z1) Hbd].
  destruct (tensor_off_eq base b0 _ W0 Hb I0) as (E0 & ? & ?).
  destruct (tensor_off_eq base b0 _ W1 Hb I1) as (E1 & ? & ?).
  destruct (tensor_off_eq base b0 _ W2 Hb I2) as (E2 & ? & ?).
  assert (is_u32 (t_size input) /\ is_u32 (t_size weights) /\ is_u32 (t_size output))
    as (U0 & U1 & U2) by (split; [apply W0 | split; [apply W1 | apply W2]]).
  unfold is_u32, apart in *. specialize (Hbd out Hc).
  pose proof (index_range batch out batches width Hr Hc).
  apply fills_store; [lia | lia |].
  intros b Ha. unfold fc_element. rewrite fc_bias_load by done. cbn [mbind res_bind].
  destruct (accumulate_loop 32 depth (fun i acc =>
    p ← centered_product b (tensor_off base input + u32 (batch * depth + i)) (t_zero_point input)
          (tensor_off base weights + u32 (out * depth + i)) (t_zero_point weights);
    signed 32 (acc + p)) (fc_bias out)
    (fun i => term b0 (tensor_off base input + (batch * depth + i)) (t_zero_point input)
                      (tensor_off base weights + (out * depth + i)) (t_zero_point weights)) 65025)
    as [E Hs].
  - lia.
  - lia.
  - intros i acc Hi. pose proof (index_range batch i batches depth Hr Hi).
    pose proof (index_range out i width depth Hc Hi).
    rewrite (wrap_small 32 (batch * depth + i)), (wrap_small 32 (out * depth + i)) by lia.
    rewrite (agree_product b0 (tensor_off base output) (t_size output));
      (done || lia).
  - intros i Hi. by apply term_bound.
  - change (32 - 1) with 31. lia.
  - rewrite E. cbn [mbind res_bind].
    rewrite signed_ret by (change (32 - 1) with 31; lia). cbn [mbind res_bind].
    rewrite wrap_small by lia. f_equal. lia.
Qed.

Lemma fc_fills :
  fc_pre ->
  fills b0 (tensor_off base output) (t_size output)
    (forZ batches (fun batch => forZ width (fun out => fc_element d base batch out)))
    (tensor_off base output) (batches * width)
    (fun j => clamp (d_activation_min d) (d_activation_max d)
                (fc_value (j / width) (j mod width)) mod 256).
Proof.
  intros Hpre. destruct (fc_facts Hpre) as (? & ? & ? & _ & _ & Es & _).
  apply (fills_loop b0 _ _ batches width _ _ (fun batch out =>
    clamp (d_activation_min d) (d_activation_max d) (fc_value batch out) mod 256));
    [lia.. |].
  intros batch Hbatch. pose proof (row_range batch batches width Hbatch ltac:(lia)).
  apply fills_row; [lia.. |].
  intros out Hout. by apply fc_element_fills.
Qed.

End fully_connected.

(** For every descriptor the fully-connected kernel accepts, with three
    tensors or with a bias as the fourth, under the same conditions on memory,
    zero points and accumulator, the kernel succeeds and element [(batch, out)]
    is the bias plus the inner product of the input row and the weight row plus
    the output zero point, clamped to the activation range; no other byte
    changes. *)
Theorem fully_connected_correct d b base elapsed :
  fc_pre d b base ->
  exists stats b',
    RunGem5HybridFullyConnectedInt8 (Some d) b base elapsed = Ret (Some stats, b') /\
    buf_len b' = buf_len b /\
    (forall batch out, 0 <= batch < dim (tensor_at d 0) 0 -> 0 <= out < dim (tensor_at d 1) 0 ->
       at8 b' (tensor_off base (fc_output d) + (batch * dim (tensor_at d 1) 0 + out)) =
         clamp (d_activation_min d) (d_activation_max d) (fc_value d b base batch out)) /\
    (forall j, ~ (tensor_off base (fc_output d) <= j
                  < tensor_off base (fc_output d) + t_size (fc_output d)) ->
       buf_at b' j = buf_at b j).
Proof.
  intros Hpre. pose proof (fc_facts d b base Hpre) as (? & ? & ? & _ & _ & Es & _ & Hact).
  destruct (fc_fills d b base Hpre b (agree_refl _ _ _)) as (b' & E & Hf).
  eexists _, b'. unfold RunGem5HybridFullyConnectedInt8.
  rewrite (fc_types _ _ _ Hpre), (fc_shapes _ _ _ Hpre). cbn [negb].
  rewrite E. cbn [mbind res_bind]. split; [done |].
  apply filled_output in Hf as (Hl & Ho & Hs); [| done].
  split; [done | split; [| by rewrite Es]].
  intros batch out Hr Hc. rewrite Ho by (by apply index_range).
  by rewrite index_div, index_mod.
Qed.

(** ** Addition *)

Section add.
Context (d : coral_operator_descriptor) (b0 : buf) (base : Z).
Abbreviation lhs := (tensor_at d 0).
Abbreviation rhs := (tensor_at d 1).
Abbreviation output := (tensor_at d 2).

Definition add_value (i : Z) : Z :=
  (at8 b0 (tensor_off base lhs + i) - t_zero_point lhs)
  + (at8 b0 (tensor_off base rhs + i) - t_zero_point rhs) + d_output_zero_point d.

Record add_pre : Prop := {
  add_base : 0 <= base;
  add_wf : tensor_wf lhs /\ tensor_wf rhs /\ tensor_wf output;
  add_valid : add_ok d = true;
  add_in : in_mem base b0 lhs /\ in_mem base b0 rhs /\ in_mem base b0 output;
  add_apart : apart output lhs /\ apart output rhs;
  add_zero : int8_zero_point lhs /\ int8_zero_point rhs /\
             Z.abs (d_output_zero_point d) < 2 ^ 30 }.

Lemma same_shape_count t u :
  tensor_wf t -> tensor_wf u -> SameShape t u = true -> ElementCount t = ElementCount u.
Proof.
  intros (_ & _ & _ & Lt & _) (_ & _ & _ & Lu & _). unfold SameShape, ElementCount.
  intros H. bool_prop. destruct H as [Hr Hd]. rewrite <- Hr.
  destruct (_ || _) eqn:E; [done |]. unfold CORAL_OPERATOR_MAX_DIMS in E. bool_prop.
  rewrite forallb_seqZ in Hd. f_equal.
  apply list_eq_same_length with (n := length (take (Z.to_nat (t_rank t)) (t_dimensions u)));
    [done | by rewrite !length_take, Lt, Lu |].
  intros i x y Hi Hx Hy. rewrite length_take in Hi.
  apply lookup_take_Some in Hx as [Hx _]. apply lookup_take_Some in Hy as [Hy _].
  specialize (Hd (Z.of_nat i) ltac:(lia)). apply Z.eqb_eq in Hd.
  unfold dim in Hd. rewrite Nat2Z.id in Hd.
  by rewrite (nth_lookup_Some _ _ _ _ Hx), (nth_lookup_Some _ _ _ _ Hy) in Hd.
Qed.

Lemma add_facts :
  add_pre ->
  t_size lhs = ElementCount output /\ t_size rhs = ElementCount output /\
  t_size output = ElementCount output /\ 0 < ElementCount output /\ activation_ok d = true.
Proof.
  intros [_ (W0 & W1 & W2) Hv _ _ _]. unfold add_ok in Hv.
  rewrite !andb_true_iff in Hv. destruct_and!.
  pose proof (same_shape_count lhs rhs W0 W1 ltac:(done)) as E01.
  pose proof (same_shape_count lhs output W0 W2 ltac:(done)) as E02.
  destruct (bytes_match_spec lhs 1 W0) as [_ S0]; [lia | done |].
  destruct (bytes_match_spec rhs 1 W1) as [_ S1]; [lia | done |].
  destruct (bytes_match_spec output 1 W2) as [Hne S2]; [lia | done |].
  destruct (element_count_spec output W2 Hne) as (_ & _ & _ & ?).
  repeat split; try done; lia.
Qed.

Lemma add_element_fills i :
  add_pre -> 0 <= i < ElementCount output ->
  fills b0 (tensor_off base output) (t_size output) (add_element d base i)
    (tensor_off base output + i) 1
    (fun _ => clamp (d_activation_min d) (d_activation_max d) (add_value i) mod 256).
Proof.
  intros Hpre Hi. destruct (add_facts Hpre) as (S0 & S1 & S2 & _ & _).
  destruct Hpre as [Hb (W0 & W1 & W2) _ (I0 & I1 & I2) (A0 & A1) (Z0 & Z1 & Zo)].
  destruct (tensor_off_eq base b0 _ W0 Hb I0) as (E0 & ? & ?).
  destruct (tensor_off_eq base b0 _ W1 Hb I1) as (E1 & ? & ?).
  destruct (tensor_off_eq base b0 _ W2 Hb I2) as (E2 & ? & ?).
  unfold apart, int8_zero_point in *.
  apply fills_store; [lia | lia |].
  intros b Ha. unfold add_element.
  rewrite !(agree_load_i8 b0 _ _ b _ Ha) by lia. cbn [mbind res_bind].
  pose proof (at8_range b0 (tensor_off base lhs + i)).
  pose proof (at8_range b0 (tensor_off base rhs + i)).
  repeat (rewrite signed_ret by (change (32 - 1) with 31; lia); cbn [mbind res_bind]).
  done.
Qed.

End add.

(** For every descriptor the addition kernel accepts, with tensors inside
    the external memory and an output that overlaps neither operand, every
    output element is the sum of the centred operands plus the output zero
    point, clamped to the activation range, and no other byte changes. *)
Theorem add_correct d b base elapsed :
  add_pre d b base ->
  exists stats b', RunGem5HybridAddInt8 (Some d) b base elapsed = Ret (Some stats, b') /\
    k_operation_count stats = ElementCount (tensor_at d 2) /\
    output_is d b b' (tensor_off base (tensor_at d 2)) (t_size (tensor_at d 2))
      (add_value d b base).
Proof.
  intros Hpre. pose proof (add_facts d b base Hpre) as (_ & _ & Es & Hp & Hact).
  destruct (fills_row b (tensor_off base (tensor_at d 2)) (t_size (tensor_at d 2))
    (ElementCount (tensor_at d 2)) (add_element d base) (tensor_off base (tensor_at d 2))
    (fun i => clamp (d_activation_min d) (d_activation_max d) (add_value d b base i) mod 256)
    ltac:(lia) ltac:(lia) ltac:(lia)) with (b := b) as (b' & E & Hf).
  - intros c Hc. by apply add_element_fills.
  - apply agree_refl.
  - eexists _, b'. unfold RunGem5HybridAddInt8. rewrite (add_valid _ _ _ Hpre). cbn [negb].
    rewrite E. cbn [mbind res_bind]. split; [done | split; [done |]].
    rewrite Es. by apply filled_output.
Qed.

(** ** Convolutions *)

(** A signed accumulation whose partial sums stay below [M]. *)
Lemma accumulate_gen n (body : Z -> Z -> res Z) init (t : Z -> Z) c M :
  0 <= n -> 0 <= c ->
  (forall i, 0 <= i < n -> Z.abs (t i) <= c) ->
  Z.abs init + n * c <= M ->
  (forall i acc, 0 <= i < n -> Z.abs acc + c <= M -> body i acc = Ret (acc + t i)) ->
  forZ n body init = Ret (init + sumZ n t).
Proof.
  intros Hn Hc Ht HM Hb.
  destruct (forZ_ret (fun i s => s = init + sumZ i t) n body init) as (s & E & ->);
    [done | by rewrite sumZ_0, Z.add_0_r | | done].
  intros i s Hi ->. exists (init + sumZ (i + 1) t). split; [| done].
  rewrite sumZ_succ, Z.add_assoc by lia. apply Hb; [done |].
  pose proof (sumZ_bound i t c ltac:(lia) Hc ltac:(intros; apply Ht; lia)).
  assert (i * c + c <= n * c); [| lia].
  replace (i * c + c) with ((i + 1) * c) by lia. apply Z.mul_le_mono_nonneg_r; lia.
Qed.

Lemma i32_u32 z : is_i32 z -> i32 (u32 z) = z.
Proof. intros Hz. rewrite <- (wrap_wrap 32 z) by lia. by apply sword_u32. Qed.

Lemma tap_eq out stride f pad :
  0 <= out * stride + f < 2 ^ 31 -> 0 <= pad < 2 ^ 31 ->
  tap out stride f pad = out * stride + f - pad.
Proof. intros. unfold tap. apply i32_u32. unfold is_i32. lia. Qed.

Lemma tap_outside_eq i n :
  0 <= n < 2 ^ 31 -> tap_outside i n = negb ((0 <=? i) && (i <? n)).
Proof.
  intros. unfold tap_outside. rewrite i32_id by (unfold is_i32; lia).
  destruct (0 <=? i) eqn:E1, (i <? n) eqn:E2; bool_prop; simpl; lia.
Qed.

Lemma index4_range b y x c B H W C :
  0 <= b < B -> 0 <= y < H -> 0 <= x < W -> 0 <= c < C ->
  0 <= ((b * H + y) * W + x) * C + c < B * H * W * C.
Proof.
  intros Hb Hy Hx Hc.
  pose proof (index_range b y B H Hb Hy) as H1.
  pose proof (index_range (b * H + y) x (B * H) W H1 Hx) as H2.
  exact (index_range _ c (B * H * W) C H2 Hc).
Qed.

(** A factor is at most the product. *)
Lemma factors_le a b c e :
  1 <= a -> 1 <= b -> 1 <= c -> 1 <= e ->
  b <= a * b * c * e /\ c <= a * b * c * e /\ b * c * e <= a * b * c * e.
Proof.
  intros Ha Hb Hc He.
  assert (b <= a * b) by nia. assert (1 <= a * b) by nia.
  assert (c <= a * b * c) by nia. assert (a * b <= a * b * c) by nia.
  assert (a * b * c <= a * b * c * e) by nia.
  assert (b * c * e <= a * (b * c * e)) by nia. lia.
Qed.

Section conv.
Context (d : coral_operator_descriptor) (b0 : buf) (base : Z).
Abbreviation input := (tensor_at d 0).
Abbreviation filter := (tensor_at d 1).
Abbreviation bias := (tensor_at d 2).
Abbreviation output := (tensor_at d 3).
Abbreviation NB := (dim (tensor_at d 0) 0).
Abbreviation IY := (dim (tensor_at d 0) 1).
Abbreviation IX := (dim (tensor_at d 0) 2).
Abbreviation IC := (dim (tensor_at d 0) 3).
Abbreviation OH := (dim (tensor_at d 3) 1).
Abbreviation OW := (dim (tensor_at d 3) 2).
Abbreviation OC := (dim (tensor_at d 3) 3).
Abbreviation FH := (dim (tensor_at d 1) 1).
Abbreviation FW := (dim (tensor_at d 1) 2).
Abbreviation ooff := (tensor_off base (tensor_at d 3)).

(** The four loops fill the output if every element writes its own place. *)
Lemma conv_loops_fill element (V : Z -> Z -> Z -> Z -> Z) :
  0 <= NB -> 0 <= OH -> 0 <= OW -> 0 <= OC -> t_size output = NB * OH * OW * OC ->
  (forall b y x c, 0 <= b < NB -> 0 <= y < OH -> 0 <= x < OW -> 0 <= c < OC ->
     fills b0 ooff (t_size output) (element b y x c)
       (ooff + (((b * OH + y) * OW + x) * OC + c)) 1 (fun _ => V b y x c)) ->
  exists b', conv_loops d element b0 = Ret b' /\ buf_len b' = buf_len b0 /\
    (forall b y x c, 0 <= b < NB -> 0 <= y < OH -> 0 <= x < OW -> 0 <= c < OC ->
       buf_at b' (ooff + (((b * OH + y) * OW + x) * OC + c)) = V b y x c) /\
    (forall j, ~ (ooff <= j < ooff + t_size output) -> buf_at b' j = buf_at b0 j).
Proof.
  intros HB HH HW HC Hsz Hel.
  assert (forall b y x, 0 <= b < NB -> 0 <= y < OH -> 0 <= x < OW ->
    fills b0 ooff (t_size output) (forZ OC (fun c => element b y x c))
      (ooff + ((b * OH + y) * OW + x) * OC) OC (fun c => V b y x c)) as F3.
  { intros b y x Hb Hy Hx.
    pose proof (index_range b y NB OH Hb Hy) as H1.
    pose proof (index_range (b * OH + y) x (NB * OH) OW H1 Hx) as H2.
    pose proof (row_range _ _ OC H2 HC).
    apply fills_row; [lia.. |]. intros c Hc. rewrite <- Z.add_assoc. by apply Hel. }
  assert (forall b y, 0 <= b < NB -> 0 <= y < OH ->
    fills b0 ooff (t_size output) (forZ OW (fun x => forZ OC (fun c => element b y x c)))
      (ooff + (b * OH + y) * (OW * OC)) (OW * OC) (fun j => V b y (j / OC) (j mod OC))) as F2.
  { intros b y Hb Hy.
    pose proof (index_range b y NB OH Hb Hy) as H1.
    pose proof (row_range _ _ (OW * OC) H1 ltac:(apply Z.mul_nonneg_nonneg; lia)).
    apply (fills_loop b0 _ _ OW OC _ _ (fun x c => V b y x c)); [lia.. |].
    intros x Hx. replace (ooff + (b * OH + y) * (OW * OC) + x * OC) with
      (ooff + ((b * OH + y) * OW + x) * OC) by lia. by apply F3. }
  assert (forall b, 0 <= b < NB ->
    fills b0 ooff (t_size output)
      (forZ OH (fun y => forZ OW (fun x => forZ OC (fun c => element b y x c))))
      (ooff + b * (OH * (OW * OC))) (OH * (OW * OC))
      (fun j => V b (j / (OW * OC)) ((j mod (OW * OC)) / OC) ((j mod (OW * OC)) mod OC))) as F1.
  { intros b Hb.
    pose proof (row_range _ _ (OH * (OW * OC)) Hb
      ltac:(repeat apply Z.mul_nonneg_nonneg; lia)).
    apply (fills_loop b0 _ _ OH (OW * OC) _ _
      (fun y j => V b y (j / OC) (j mod OC))); [lia | lia | lia | lia |].
    intros y Hy. replace (ooff + b * (OH * (OW * OC)) + y * (OW * OC)) with
      (ooff + (b * OH + y) * (OW * OC)) by lia. by apply F2. }
  destruct (fills_loop b0 ooff (t_size output) NB (OH * (OW * OC))
    (fun b => forZ OH (fun y => forZ OW (fun x => forZ OC (fun c => element b y x c)))) ooff
    (fun b j => V b (j / (OW * OC)) ((j mod (OW * OC)) / OC) ((j mod (OW * OC)) mod OC)))
    with (b := b0) as (b' & E & Hl & Hf & Ho); [lia | lia | lia | lia | done | done |].
  exists b'. split; [exact E |]. split; [done | split].
  - intros b y x c Hb Hy Hx Hc.
    pose proof (index_range x c OW OC Hx Hc) as H1.
    pose proof (index_range y _ OH (OW * OC) Hy H1) as H2.
    pose proof (index_range b _ NB (OH * (OW * OC)) Hb H2) as H3.
    replace (((b * OH + y) * OW + x) * OC + c) with
      (b * (OH * (OW * OC)) + (y * (OW * OC) + (x * OC + c))) by lia.
    rewrite Hf by done.
    by rewrite (index_div b _ _ H2), (index_mod b _ _ H2), (index_div y _ _ H1),
      (index_mod y _ _ H1), (index_div x _ _ Hc), (index_mod x _ _ Hc).
  - intros j Hj. apply Ho. lia.
Qed.

(** *** What both convolutions assume *)

(** Every row a filter tap can reach is a 31-bit number. *)
Definition geometry_ok (outs stride taps pad : Z) : Prop :=
  outs * stride + taps <= 2 ^ 31 /\ pad < 2 ^ 31.

Definition conv_multiplier (c : Z) : Z := at32 b0 (d_multiplier_address d - base + 4 * c).
Definition conv_shift (c : Z) : Z := at32 b0 (d_shift_address d - base + 4 * c).
Definition conv_bias (c : Z) : Z := at32 b0 (tensor_off base bias + 4 * c).

(** A table of [OC] words in memory, away from the output. *)
Definition table_ok (address : Z) : Prop :=
  base <= address /\ address - base + 4 * OC <= buf_len b0 /\
  (address - base + 4 * OC <= ooff \/ ooff + t_size output <= address - base).

(** The output element of an accumulated sum. *)
Definition conv_result (sum c : Z) : Z :=
  rescale (clamp INT32_MIN INT32_MAX (conv_bias c + sum)) (conv_multiplier c) (conv_shift c)
  + d_output_zero_point d.

Record conv_pre (depthwise : bool) : Prop := {
  cv_base : 0 <= base;
  cv_len : buf_len b0 < 2 ^ 31;
  cv_desc : is_u32 (d_stride_height d) /\ is_u32 (d_stride_width d) /\
            is_u32 (d_padding_height d) /\ is_u32 (d_padding_width d);
  cv_wf : tensor_wf input /\ tensor_wf filter /\ tensor_wf bias /\ tensor_wf output;
  cv_valid : CommonConvValid d depthwise = true;
  cv_sizes : 1 <= t_size input /\ 1 <= t_size filter /\ 1 <= t_size output;
  cv_in : in_mem base b0 input /\ in_mem base b0 filter /\ in_mem base b0 bias /\
          in_mem base b0 output;
  cv_apart : apart output input /\ apart output filter /\ apart output bias;
  cv_tables : table_ok (d_multiplier_address d) /\ table_ok (d_shift_address d);
  cv_shifts : forall c, 0 <= c < OC -> - 31 <= conv_shift c <= 30;
  (** not checked by the code *)
  cv_bias : 4 * OC <= t_size bias;
  cv_zero : int8_zero_point input /\ int8_zero_point filter;
  cv_geometry : geometry_ok OH (d_stride_height d) FH (d_padding_height d) /\
                geometry_ok OW (d_stride_width d) FW (d_padding_width d) }.

Lemma conv_facts dw :
  conv_pre dw ->
  (1 <= NB /\ 1 <= IY /\ 1 <= IX /\ 1 <= IC /\ t_size input = NB * IY * IX * IC) /\
  (1 <= dim filter 0 /\ 1 <= FH /\ 1 <= FW /\ 1 <= dim filter 3 /\
   t_size filter = dim filter 0 * FH * FW * dim filter 3) /\
  (1 <= OH /\ 1 <= OW /\ 1 <= OC /\ t_size output = NB * OH * OW * OC) /\
  (if dw then dim filter 0 = 1 /\ dim filter 3 = OC /\ Z.rem OC IC = 0
   else dim filter 0 = OC /\ dim filter 3 = IC) /\
  activation_ok d = true.
Proof.
  intros Hp. destruct Hp as [_ _ _ (W0 & W1 & W2 & W3) Hv (S0 & S1 & S3) _ _ _ _ _ _ _].
  unfold CommonConvValid in Hv.
  do 3 (case_test_in Hv; [discriminate Hv |]).
  rewrite !orb_false_iff, !negb_false_iff, !Z.eqb_eq, !Z.eqb_neq in *. destruct_and!.
  destruct (count_rank4 input W0) as (? & ? & ? & ? & N0); [done | lia |].
  destruct (count_rank4 filter W1) as (? & ? & ? & ? & N1); [done | lia |].
  destruct (count_rank4 output W3) as (? & ? & ? & ? & N3); [done | lia |].
  repeat split; try lia.
  - destruct dw; bool_prop; destruct_and!; done.
  - done.
Qed.

Lemma table_load dw b address c :
  conv_pre dw -> agree b0 ooff (t_size output) b -> table_ok address -> 0 <= c < OC ->
  load_i32 b (address - base + 4 * c) = Ret (at32 b0 (address - base + 4 * c)).
Proof.
  intros Hp Ha (T1 & T2 & T3) Hc. apply (agree_load_i32 b0 _ _ b _ Ha); lia.
Qed.

Lemma bias_load dw b c :
  conv_pre dw -> agree b0 ooff (t_size output) b -> 0 <= c < OC ->
  load_i32 b (tensor_off base bias + 4 * c) = Ret (conv_bias c).
Proof.
  intros [Hb _ _ (_ & _ & W2 & W3) _ _ (_ & _ & I2 & I3) (_ & _ & A2) _ _ Hbias _ _] Ha Hc.
  destruct (tensor_off_eq base b0 _ W2 Hb I2) as (E2 & ? & ?).
  destruct (tensor_off_eq base b0 _ W3 Hb I3) as (E3 & ? & ?).
  unfold apart in A2. apply (agree_load_i32 b0 _ _ b _ Ha); lia.
Qed.

(** The end of either convolution's element. *)
Lemma conv_finish_eq dw b index c sum :
  conv_pre dw -> agree b0 ooff (t_size output) b -> 0 <= c < OC ->
  0 <= index < t_size output -> is_i32 (conv_result sum c) ->
  conv_finish d base index c (conv_bias c + sum) b =
    store_i8 b (ooff + index) (clamp (d_activation_min d) (d_activation_max d) (conv_result sum c)).
Proof.
  intros Hp Ha Hc Hi Hr. pose proof Hp as [_ Hlen _ (_ & _ & _ & W3) _ _ _ _ (T1 & T2) Hs _ _ _].
  unfold conv_finish.
  rewrite (table_load dw b (d_multiplier_address d)) by done. cbn [mbind res_bind].
  rewrite (table_load dw b (d_shift_address d)) by done. cbn [mbind res_bind].
  fold (conv_multiplier c) (conv_shift c).
  pose proof (clamp_range INT32_MIN INT32_MAX (conv_bias c + sum) ltac:(lia)) as Hcl.
  assert (is_i32 (clamp INT32_MIN INT32_MAX (conv_bias c + sum))) as Hb
    by (unfold is_i32; lia).
  rewrite i32_id by done.
  destruct (rescale_correct (clamp INT32_MIN INT32_MAX (conv_bias c + sum))
    (conv_multiplier c) (conv_shift c) Hb (at32_range _ _) (Hs c Hc)) as [-> _].
  cbn [mbind res_bind]. fold (conv_result sum c).
  rewrite signed_ret by exact Hr. cbn [mbind res_bind].
  rewrite wrap_small; [done |]. destruct W3 as (_ & U & _). unfold is_u32 in U. lia.
Qed.

(** *** The full convolution *)

(** One tap with all its channels; zero where the tap is outside the input. *)
Definition conv_tap (batch y x oc fy fx : Z) : Z :=
  let iy := y * d_stride_height d + fy - d_padding_height d in
  let ix := x * d_stride_width d + fx - d_padding_width d in
  if (0 <=? iy) && (iy <? IY) && ((0 <=? ix) && (ix <? IX)) then
    sumZ IC (fun c =>
      term b0 (tensor_off base input + (((batch * IY + iy) * IX + ix) * IC + c)) (t_zero_point input)
              (tensor_off base filter + (((oc * FH + fy) * FW + fx) * IC + c)) (t_zero_point filter))
  else 0.

Definition conv_sum (batch y x oc : Z) : Z :=
  sumZ FH (fun fy => sumZ FW (fun fx => conv_tap batch y x oc fy fx)).

(** The channels of one tap inside the input. *)
Lemma conv_channels b batch oc iy ix fy fx acc :
  conv_pre false -> agree b0 ooff (t_size output) b ->
  0 <= batch < NB -> 0 <= oc < OC -> 0 <= iy < IY -> 0 <= ix < IX ->
  0 <= fy < FH -> 0 <= fx < FW -> Z.abs acc + IC * 65025 <= 2 ^ 62 ->
  forZ IC (fun in_c acc =>
    p ← centered_product b
      (tensor_off base input + u32 (((batch * IY + iy) * IX + ix) * IC + in_c)) (t_zero_point input)
      (tensor_off base filter + u32 (((oc * FH + fy) * FW + fx) * IC + in_c)) (t_zero_point filter);
    signed 64 (acc + p)) acc =
  Ret (acc + sumZ IC (fun c =>
      term b0 (tensor_off base input + (((batch * IY + iy) * IX + ix) * IC + c)) (t_zero_point input)
              (tensor_off base filter + (((oc * FH + fy) * FW + fx) * IC + c)) (t_zero_point filter))).
Proof.
  intros Hp Ha Hb Hoc Hiy Hix Hfy Hfx Hacc.
  destruct (conv_facts false Hp) as ((? & ? & ? & ? & S0) & (? & ? & ? & ? & S1) & (_ & _ & _ & S3) & (F0 & F3) & _).
  destruct Hp as [Hbase _ _ (W0 & W1 & _ & W3) _ _ (I0 & I1 & _ & I3) (A0 & A1 & _) _ _ _ (Z0 & Z1) _].
  destruct (tensor_off_eq base b0 _ W0 Hbase I0) as (E0 & ? & ?).
  destruct (tensor_off_eq base b0 _ W1 Hbase I1) as (E1 & ? & ?).
  destruct (tensor_off_eq base b0 _ W3 Hbase I3) as (E3 & ? & ?).
  assert (is_u32 (t_size input) /\ is_u32 (t_size filter)) as [U0 U1]
    by (split; [apply W0 | apply W1]).
  unfold is_u32, apart in *. rewrite F0, F3 in S1.
  apply accumulate_gen with (c := 65025) (M := 2 ^ 62); [lia | lia | | lia |].
  { intros i Hi. by apply term_bound. }
  intros c a Hc Hac.
  pose proof (index4_range batch iy ix c NB IY IX IC Hb Hiy Hix Hc).
  pose proof (index4_range oc fy fx c OC FH FW IC Hoc Hfy Hfx Hc).
  rewrite !(wrap_small 32) by lia.
  rewrite (agree_product b0 ooff (t_size output)) by (done || lia).
  cbn [mbind res_bind]. apply signed_ret. change (64 - 1) with 63.
  match goal with |- context [term ?b ?x ?zx ?y ?zy] =>
    pose proof (term_bound b x zx y zy Z0 Z1) end. lia.
Qed.
Lemma sumZ_all_zero n (f : Z -> Z) :
  0 <= n -> (forall i, 0 <= i < n -> f i = 0) -> sumZ n f = 0.
Proof.
  intros Hn Hf. pose proof (sumZ_bound n f 0 Hn ltac:(lia)) as Hb.
  rewrite Z.mul_0_r in Hb.
  assert (Z.abs (sumZ n f) <= 0); [| lia].
  apply Hb. intros i Hi. rewrite Hf by done. lia.
Qed.

Lemma conv_tap_bound dw batch y x oc fy fx :
  conv_pre dw -> Z.abs (conv_tap batch y x oc fy fx) <= IC * 65025.
Proof.
  intros Hp. destruct (conv_facts dw Hp) as ((? & ? & ? & ? & _) & _).
  destruct (cv_zero dw Hp) as [Z0 Z1]. unfold conv_tap.
  destruct (_ && _); [| lia]. apply sumZ_bound; [lia | lia |].
  intros i Hi. by apply term_bound.
Qed.

(** The coordinates of a tap, and whether it is inside. *)
Lemma conv_rows dw y fy :
  conv_pre dw -> 0 <= y < OH -> 0 <= fy < FH ->
  let iy := y * d_stride_height d + fy - d_padding_height d in
  tap y (d_stride_height d) fy (d_padding_height d) = iy /\
  tap_outside iy IY = negb ((0 <=? iy) && (iy <? IY)).
Proof.
  intros Hp Hy Hf. destruct (conv_facts dw Hp) as ((? & ? & ? & ? & S0) & _).
  destruct Hp as [_ Hlen (U1 & _ & U3 & _) (W0 & _) _ _ (I0 & _) _ _ _ _ _ (G & _)].
  unfold is_u32, geometry_ok in *. split.
  - apply tap_eq; [| lia].
    pose proof (row_range y OH (d_stride_height d) Hy ltac:(lia)). lia.
  - apply tap_outside_eq. destruct I0 as [I1 I2]. split; [lia |].
    destruct (factors_le NB IY IX IC) as (? & _ & _); lia.
Qed.

Lemma conv_cols dw x fx :
  conv_pre dw -> 0 <= x < OW -> 0 <= fx < FW ->
  let ix := x * d_stride_width d + fx - d_padding_width d in
  tap x (d_stride_width d) fx (d_padding_width d) = ix /\
  tap_outside ix IX = negb ((0 <=? ix) && (ix <? IX)).
Proof.
  intros Hp Hx Hf. destruct (conv_facts dw Hp) as ((? & ? & ? & ? & S0) & _).
  destruct Hp as [_ Hlen (_ & U2 & _ & U4) (W0 & _) _ _ (I0 & _) _ _ _ _ _ (_ & G)].
  unfold is_u32, geometry_ok in *. split.
  - apply tap_eq; [| lia].
    pose proof (row_range x OW (d_stride_width d) Hx ltac:(lia)). lia.
  - apply tap_outside_eq. destruct I0 as [I1 I2]. split; [lia |].
    destruct (factors_le NB IY IX IC) as (_ & ? & _); lia.
Qed.

(** All products of a filter fit well below [2^62]. *)
Lemma conv_total_bound :
  conv_pre false -> FH * (FW * (IC * 65025)) <= 2 ^ 60.
Proof.
  intros Hp. destruct (conv_facts false Hp) as (_ & (? & ? & ? & ? & S1) & _ & (F0 & F3) & _).
  destruct Hp as [_ _ _ (_ & W1 & _) _ _ _ _ _ _ _ _ _].
  destruct W1 as (_ & U & _). unfold is_u32 in U. rewrite F3 in *.
  destruct (factors_le (dim filter 0) FH FW IC) as (_ & _ & ?); lia.
Qed.

Lemma conv_accumulate_eq b batch y x oc init :
  conv_pre false -> agree b0 ooff (t_size output) b ->
  0 <= batch < NB -> 0 <= y < OH -> 0 <= x < OW -> 0 <= oc < OC -> is_i32 init ->
  conv_accumulate d base batch y x oc b init = Ret (init + conv_sum batch y x oc).
Proof.
  intros Hp Ha Hb Hy Hx Hoc Hinit. unfold conv_accumulate, conv_sum.
  destruct (conv_facts false Hp) as ((? & ? & ? & ? & _) & (? & ? & ? & ? & _) & _).
  pose proof (conv_total_bound Hp) as Htot. unfold is_i32 in Hinit.
  apply accumulate_gen with (c := FW * (IC * 65025)) (M := 2 ^ 62); [lia | lia | | lia |].
  { intros fy Hfy. apply sumZ_bound; [lia | lia |]. intros fx Hfx.
    by apply (conv_tap_bound false). }
  intros fy acc Hfy Hacc.
  destruct (conv_rows false y fy Hp Hy Hfy) as [-> ->]. unfold conv_tap.
  set (iy := y * d_stride_height d + fy - d_padding_height d).
  destruct ((0 <=? iy) && (iy <? IY)) eqn:Ey; cbn [negb andb].
  2: { rewrite sumZ_all_zero, Z.add_0_r; [done | lia | done]. }
  apply accumulate_gen with (c := IC * 65025) (M := 2 ^ 62); [lia | lia | | lia |].
  { intros fx Hfx. pose proof (conv_tap_bound false batch y x oc fy fx Hp) as Hbd.
    unfold conv_tap in Hbd. fold iy in Hbd. rewrite Ey in Hbd. exact Hbd. }
  intros fx acc' Hfx Hacc'.
  destruct (conv_cols false x fx Hp Hx Hfx) as [-> ->].
  set (ix := x * d_stride_width d + fx - d_padding_width d).
  destruct ((0 <=? ix) && (ix <? IX)) eqn:Ex; cbn [negb].
  2: { by rewrite Z.add_0_r. }
  bool_prop. by apply conv_channels.
Qed.

Lemma conv_element_fills batch y x oc :
  conv_pre false ->
  0 <= batch < NB -> 0 <= y < OH -> 0 <= x < OW -> 0 <= oc < OC ->
  is_i32 (conv_result (conv_sum batch y x oc) oc) ->
  fills b0 ooff (t_size output) (conv_element d base batch y x oc)
    (ooff + (((batch * OH + y) * OW + x) * OC + oc)) 1
    (fun _ => clamp (d_activation_min d) (d_activation_max d)
                (conv_result (conv_sum batch y x oc) oc) mod 256).
Proof.
  intros Hp Hb Hy Hx Hoc Hr.
  destruct (conv_facts false Hp) as (_ & _ & (_ & _ & _ & S3) & _).
  destruct (tensor_off_eq base b0 output) as (_ & ? & ?); [apply (cv_wf _ Hp) | apply (cv_base _ Hp) | apply (cv_in _ Hp) |].
  pose proof (index4_range batch y x oc NB OH OW OC Hb Hy Hx Hoc).
  apply fills_store; [lia | lia |].
  intros b Ha. unfold conv_element. rewrite (bias_load false b oc Hp Ha Hoc).
  cbn [mbind res_bind]. rewrite conv_accumulate_eq by (done || apply at32_range).
  cbn [mbind res_bind]. apply (conv_finish_eq false); (done || lia).
Qed.

(** The shift check passes. *)
Lemma shifts_pass dw l :
  conv_pre dw -> Forall (fun c => 0 <= c < OC) l ->
  shifts_ok b0 (d_shift_address d - base) l = Ret true.
Proof.
  intros Hp Hl. induction Hl as [|c l Hc _ IH]; [done |]. simpl.
  rewrite (table_load dw b0 (d_shift_address d) c Hp) by (done || apply agree_refl || apply (cv_tables _ Hp)).
  cbn [mbind res_bind]. fold (conv_shift c). pose proof (cv_shifts dw Hp c Hc).
  rewrite (proj2 (Z.ltb_ge _ _)), (proj2 (Z.ltb_ge 30 _)) by lia. exact IH.
Qed.

(** *** The depthwise convolution *)

Definition depthwise_tap (batch y x oc fy fx : Z) : Z :=
  let iy := y * d_stride_height d + fy - d_padding_height d in
  let ix := x * d_stride_width d + fx - d_padding_width d in
  let ic := oc / (OC / IC) in
  if (0 <=? iy) && (iy <? IY) && ((0 <=? ix) && (ix <? IX)) then
    term b0 (tensor_off base input + (((batch * IY + iy) * IX + ix) * IC + ic)) (t_zero_point input)
            (tensor_off base filter + ((fy * FW + fx) * OC + oc)) (t_zero_point filter)
  else 0.

Definition depthwise_sum (batch y x oc : Z) : Z :=
  sumZ FH (fun fy => sumZ FW (fun fx => depthwise_tap batch y x oc fy fx)).

(** Each output channel reads one input channel. *)
Lemma depthwise_channel oc :
  conv_pre true -> 0 <= oc < OC ->
  Z.quot oc (Z.quot OC IC) = oc / (OC / IC) /\ 0 <= oc / (OC / IC) < IC.
Proof.
  intros Hp Hoc. destruct (conv_facts true Hp) as ((_ & _ & _ & ? & _) & _ & (_ & _ & ? & _) & (_ & _ & Hrem) & _).
  rewrite (Z.quot_div_nonneg OC IC) by lia.
  rewrite Z.rem_mod_nonneg in Hrem by lia.
  apply Z.div_exact in Hrem; [| lia].
  assert (1 <= OC / IC) by nia.
  split; [apply Z.quot_div_nonneg; lia |].
  split; [apply Z.div_pos; lia |]. apply Z.div_lt_upper_bound; lia.
Qed.

Lemma depthwise_tap_bound batch y x oc fy fx :
  conv_pre true -> Z.abs (depthwise_tap batch y x oc fy fx) <= 65025.
Proof.
  intros Hp. destruct (cv_zero true Hp) as [Z0 Z1]. unfold depthwise_tap.
  destruct (_ && _); [by apply term_bound | lia].
Qed.

Lemma depthwise_total_bound : conv_pre true -> FH * (FW * 65025) <= 2 ^ 60.
Proof.
  intros Hp. destruct (conv_facts true Hp) as (_ & (? & ? & ? & ? & S1) & _).
  destruct Hp as [_ _ _ (_ & W1 & _) _ _ _ _ _ _ _ _ _].
  destruct W1 as (_ & U & _). unfold is_u32 in U.
  assert (FH * FW <= FH * FW * dim filter 3) by nia.
  destruct (factors_le (dim filter 0) FH FW (dim filter 3)) as (_ & _ & ?); lia.
Qed.

Lemma depthwise_product b batch oc iy ix fy fx acc :
  conv_pre true -> agree b0 ooff (t_size output) b ->
  0 <= batch < NB -> 0 <= oc < OC -> 0 <= iy < IY -> 0 <= ix < IX ->
  0 <= fy < FH -> 0 <= fx < FW -> Z.abs acc + 65025 <= 2 ^ 62 ->
  (p ← centered_product b
      (tensor_off base input + u32 (((batch * IY + iy) * IX + ix) * IC + oc / (OC / IC)))
      (t_zero_point input)
      (tensor_off base filter + u32 ((fy * FW + fx) * OC + oc)) (t_zero_point filter);
    signed 64 (acc + p)) =
  Ret (acc + term b0
    (tensor_off base input + (((batch * IY + iy) * IX + ix) * IC + oc / (OC / IC)))
    (t_zero_point input)
    (tensor_off base filter + ((fy * FW + fx) * OC + oc)) (t_zero_point filter)).
Proof.
  intros Hp Ha Hb Hoc Hiy Hix Hfy Hfx Hacc.
  destruct (depthwise_channel oc Hp Hoc) as [_ Hic].
  destruct (conv_facts true Hp) as ((? & ? & ? & ? & S0) & (? & ? & ? & ? & S1) & (_ & _ & _ & S3) & (F0 & F3 & _) & _).
  destruct Hp as [Hbase _ _ (W0 & W1 & _ & W3) _ _ (I0 & I1 & _ & I3) (A0 & A1 & _) _ _ _ (Z0 & Z1) _].
  destruct (tensor_off_eq base b0 _ W0 Hbase I0) as (E0 & ? & ?).
  destruct (tensor_off_eq base b0 _ W1 Hbase I1) as (E1 & ? & ?).
  destruct (tensor_off_eq base b0 _ W3 Hbase I3) as (E3 & ? & ?).
  assert (is_u32 (t_size input) /\ is_u32 (t_size filter)) as [U0 U1]
    by (split; [apply W0 | apply W1]).
  unfold is_u32, apart in *. rewrite F0, F3, Z.mul_1_l in S1.
  pose proof (index4_range batch iy ix _ NB IY IX IC Hb Hiy Hix Hic).
  pose proof (index_range fy fx FH FW Hfy Hfx) as Hff.
  pose proof (index_range _ oc (FH * FW) OC Hff Hoc).
  rewrite !(wrap_small 32) by lia.
  rewrite (agree_product b0 ooff (t_size output)) by (done || lia).
  cbn [mbind res_bind]. apply signed_ret. change (64 - 1) with 63.
  match goal with |- context [term ?b ?x ?zx ?y ?zy] =>
    pose proof (term_bound b x zx y zy Z0 Z1) end. lia.
Qed.

Lemma depthwise_accumulate_eq b batch y x oc init :
  conv_pre true -> agree b0 ooff (t_size output) b ->
  0 <= batch < NB -> 0 <= y < OH -> 0 <= x < OW -> 0 <= oc < OC -> is_i32 init ->
  depthwise_accumulate d base batch y x oc b init = Ret (init + depthwise_sum batch y x oc).
Proof.
  intros Hp Ha Hb Hy Hx Hoc Hinit. unfold depthwise_accumulate, depthwise_sum.
  destruct (conv_facts true Hp) as (_ & (? & ? & ? & ? & _) & _).
  pose proof (depthwise_total_bound Hp) as Htot. unfold is_i32 in Hinit.
  destruct (depthwise_channel oc Hp Hoc) as [-> _].
  apply accumulate_gen with (c := FW * 65025) (M := 2 ^ 62); [lia | lia | | lia |].
  { intros fy Hfy. apply sumZ_bound; [lia | lia |]. intros fx Hfx.
    by apply depthwise_tap_bound. }
  intros fy acc Hfy Hacc.
  destruct (conv_rows true y fy Hp Hy Hfy) as [-> ->]. unfold depthwise_tap.
  set (iy := y * d_stride_height d + fy - d_padding_height d).
  destruct ((0 <=? iy) && (iy <? IY)) eqn:Ey; cbn [negb andb].
  2: { rewrite sumZ_all_zero, Z.add_0_r; [done | lia | done]. }
  apply accumulate_gen with (c := 65025) (M := 2 ^ 62); [lia | lia | | lia |].
  { intros fx Hfx. pose proof (depthwise_tap_bound batch y x oc fy fx Hp) as Hbd.
    unfold depthwise_tap in Hbd. fold iy in Hbd. rewrite Ey in Hbd. exact Hbd. }
  intros fx acc' Hfx Hacc'.
  destruct (conv_cols true x fx Hp Hx Hfx) as [-> ->].
  set (ix := x * d_stride_width d + fx - d_padding_width d).
  destruct ((0 <=? ix) && (ix <? IX)) eqn:Ex; cbn [negb].
  2: { by rewrite Z.add_0_r. }
  bool_prop. by apply depthwise_product.
Qed.

Lemma depthwise_element_fills batch y x oc :
  conv_pre true ->
  0 <= batch < NB -> 0 <= y < OH -> 0 <= x < OW -> 0 <= oc < OC ->
  is_i32 (conv_result (depthwise_sum batch y x oc) oc) ->
  fills b0 ooff (t_size output) (depthwise_element d base batch y x oc)
    (ooff + (((batch * OH + y) * OW + x) * OC + oc)) 1
    (fun _ => clamp (d_activation_min d) (d_activation_max d)
                (conv_result (depthwise_sum batch y x oc) oc) mod 256).
Proof.
  intros Hp Hb Hy Hx Hoc Hr.
  destruct (conv_facts true Hp) as (_ & _ & (_ & _ & _ & S3) & _).
  destruct (tensor_off_eq base b0 output) as (_ & ? & ?); [apply (cv_wf _ Hp) | apply (cv_base _ Hp) | apply (cv_in _ Hp) |].
  pose proof (index4_range batch y x oc NB OH OW OC Hb Hy Hx Hoc).
  apply fills_store; [lia | lia |].
  intros b Ha. unfold depthwise_element. rewrite (bias_load true b oc Hp Ha Hoc).
  cbn [mbind res_bind]. rewrite depthwise_accumulate_eq by (done || apply at32_range).
  cbn [mbind res_bind]. apply (conv_finish_eq true); (done || lia).
Qed.

(** What a convolution leaves in memory, given the sum of each element. *)
Definition conv_post (sum : Z -> Z -> Z -> Z -> Z) (b' : buf) : Prop :=
  buf_len b' = buf_len b0 /\
  (forall batch y x oc, 0 <= batch < NB -> 0 <= y < OH -> 0 <= x < OW -> 0 <= oc < OC ->
     at8 b' (ooff + (((batch * OH + y) * OW + x) * OC + oc)) =
       clamp (d_activation_min d) (d_activation_max d) (conv_result (sum batch y x oc) oc)) /\
  (forall j, ~ (ooff <= j < ooff + t_size output) -> buf_at b' j = buf_at b0 j).

Lemma conv_loops_post dw element sum :
  conv_pre dw ->
  (forall batch y x oc, 0 <= batch < NB -> 0 <= y < OH -> 0 <= x < OW -> 0 <= oc < OC ->
    fills b0 ooff (t_size output) (element batch y x oc)
      (ooff + (((batch * OH + y) * OW + x) * OC + oc)) 1
      (fun _ => clamp (d_activation_min d) (d_activation_max d)
                  (conv_result (sum batch y x oc) oc) mod 256)) ->
  exists b', conv_loops d element b0 = Ret b' /\ conv_post sum b'.
Proof.
  intros Hp Hel.
  destruct (conv_facts dw Hp) as ((? & _) & _ & (? & ? & ? & S3) & _ & Hact).
  destruct (conv_loops_fill element (fun batch y x oc =>
    clamp (d_activation_min d) (d_activation_max d)
      (conv_result (sum batch y x oc) oc) mod 256)) as (b' & E & Hl & Hf & Ho); [lia.. | done |].
  exists b'. split; [done |]. split; [done | split; [| done]].
  intros batch y x oc Hb Hy Hx Hoc. unfold at8. rewrite Hf by done.
  by apply activated_byte.
Qed.

End conv.

(** The sum of either convolution. *)
Definition either_sum (dw : bool) (d : coral_operator_descriptor) (b : buf) (base : Z) :=
  if dw then depthwise_sum d b base else conv_sum d b base.

(** What either kernel reports. *)
Definition conv_stats (dw : bool) (d : coral_operator_descriptor) (elapsed : Z) : kernel_stats :=
  let taps := dim (tensor_at d 0) 0 * dim (tensor_at d 3) 1 * dim (tensor_at d 3) 2
              * dim (tensor_at d 3) 3 * dim (tensor_at d 1) 1 * dim (tensor_at d 1) 2 in
  {| k_operation_count := u64 (if dw then taps else taps * dim (tensor_at d 0) 3);
     k_bytes_read := conv_bytes_read d; k_bytes_written := t_size (tensor_at d 3);
     k_host_elapsed_ns := elapsed |}.

Lemma conv_run (dw : bool) d b base elapsed :
  conv_pre d b base dw ->
  (forall batch y x oc,
     0 <= batch < dim (tensor_at d 0) 0 -> 0 <= y < dim (tensor_at d 3) 1 ->
     0 <= x < dim (tensor_at d 3) 2 -> 0 <= oc < dim (tensor_at d 3) 3 ->
     is_i32 (conv_result d b base (either_sum dw d b base batch y x oc) oc)) ->
  exists b',
    (if dw then RunGem5HybridDepthwiseConv2D d b base elapsed
     else RunGem5HybridConv2D d b base elapsed) = Ret (Some (conv_stats dw d elapsed), b') /\
    conv_post d b base (either_sum dw d b base) b'.
Proof.
  intros Hp Hr.
  destruct (conv_loops_post d b base dw
    (if dw then depthwise_element d base else conv_element d base) (either_sum dw d b base) Hp)
    as (b' & E & Hpost).
  { intros batch y x oc Hb Hy Hx Hoc.
    destruct dw; [apply depthwise_element_fills | apply conv_element_fills]; auto. }
  exists b'; (split; [| exact Hpost]); destruct dw;
    unfold RunGem5HybridConv2D, RunGem5HybridDepthwiseConv2D;
    rewrite (cv_valid _ _ _ _ Hp); cbn [negb];
    (rewrite (shifts_pass d b base _ _ Hp) by (by apply Forall_seqZ));
    cbn [mbind res_bind negb]; rewrite E; done.
Qed.

(** C6: for every descriptor the convolution kernel accepts, with tensors and
    quantisation tables inside the external memory and apart from the output,
    a bias tensor that has an entry for every output channel, int8 zero points,
    shifts in range and rescaled values that fit 32 bits with the output zero
    point, the kernel succeeds: every output element is the bias plus the sum
    over the filter taps that fall inside the input of the centred products,
    saturated to 32 bits, rescaled by the channel's multiplier and shift, moved
    by the zero point and clamped; no other byte changes. *)
Theorem conv2d_correct d b base elapsed :
  conv_pre d b base false ->
  (forall batch y x oc,
     0 <= batch < dim (tensor_at d 0) 0 -> 0 <= y < dim (tensor_at d 3) 1 ->
     0 <= x < dim (tensor_at d 3) 2 -> 0 <= oc < dim (tensor_at d 3) 3 ->
     is_i32 (conv_result d b base (conv_sum d b base batch y x oc) oc)) ->
  exists stats b', RunGem5HybridConv2D d b base elapsed = Ret (Some stats, b') /\
    conv_post d b base (conv_sum d b base) b'.
Proof. intros Hp Hr. eexists. exact (conv_run false d b base elapsed Hp Hr). Qed.

(** The depthwise convolution kernel is correct in the same sense: output
    channel [c] convolves input channel [c / (outputs / inputs)] with its own
    filter. *)
Theorem depthwise_correct d b base elapsed :
  conv_pre d b base true ->
  (forall batch y x oc,
     0 <= batch < dim (tensor_at d 0) 0 -> 0 <= y < dim (tensor_at d 3) 1 ->
     0 <= x < dim (tensor_at d 3) 2 -> 0 <= oc < dim (tensor_at d 3) 3 ->
     is_i32 (conv_result d b base (depthwise_sum d b base batch y x oc) oc)) ->
  exists stats b', RunGem5HybridDepthwiseConv2D d b base elapsed = Ret (Some stats, b') /\
    conv_post d b base (depthwise_sum d b base) b'.
Proof. intros Hp Hr. eexists. exact (conv_run true d b base elapsed Hp Hr). Qed.

(** ** Concrete runs *)

Definition mk_tensor (addr size rank : Z) (dims : list Z) (ty zp : Z) : coral_operator_tensor :=
  {| t_address := addr; t_size := size; t_rank := rank; t_dimensions := dims;
     t_element_type := ty; t_zero_point := zp |}.

(** A submitted descriptor over external memory at [0x20000000]. *)
Definition mk_descriptor (opcode count : Z) (ts : list coral_operator_tensor)
    (mult shift quant : Z) : coral_operator_descriptor :=
  {| d_magic := CORAL_OPERATOR_ABI_MAGIC; d_version := CORAL_OPERATOR_ABI_VERSION;
     d_descriptor_size := descriptor_sizeof; d_opcode := opcode;
     d_state := CORAL_OPERATOR_STATE_SUBMITTED; d_error := 0; d_flags := 0;
     d_execution_mode := CORAL_OPERATOR_MODE_HYBRID; d_tensor_count := count;
     d_tensors := ts; d_stride_height := 1; d_stride_width := 1;
     d_padding_height := 0; d_padding_width := 1; d_multiplier_address := mult;
     d_shift_address := shift; d_output_zero_point := 3; d_activation_min := -128;
     d_activation_max := 127; d_quantization_count := quant; d_operation_count := 0;
     d_host_elapsed_ns := 0; d_modeled_cycles := 0; d_bytes_read := 0;
     d_bytes_written := 0; d_reserved := replicate 8 0 |}.

Ltac tensor_wf_tac :=
  unfold tensor_wf, is_u32, is_i32; simpl; repeat split; try lia; repeat constructor; lia.

(** A closed range. *)
Ltac range_tac := vm_compute; split; congruence.

(** The concrete dimensions in a hypothesis. *)
Ltac eval_dims H :=
  repeat match type of H with
  | context [dim ?t ?i] => let v := eval vm_compute in (dim t i) in change (dim t i) with v in H
  end.

Definition sample_matmul : coral_operator_descriptor :=
  mk_descriptor CORAL_OPERATOR_OP_MATMUL_INT8 3
    [mk_tensor 0x20000000 6 2 [2; 3; 0; 0] 1 1; mk_tensor 0x20000010 6 2 [3; 2; 0; 0] 1 (-2);
     mk_tensor 0x20000020 4 2 [2; 2; 0; 0] 1 0; tensor_zero] 0 0 0.
Definition sample_matmul_mem : buf :=
  buf_blit (buf_blit (buf_new 64) 0 [1; 2; 3; 4; 5; 255]) 16 [7; 8; 9; 10; 11; 12].

Lemma sample_matmul_pre : matmul_pre sample_matmul sample_matmul_mem 0x20000000.
Proof.
  split; try reflexivity.
  - lia.
  - split; [| split]; tensor_wf_tac.
  - unfold in_mem; simpl; lia.
  - unfold apart; simpl; lia.
  - unfold int8_zero_point; simpl; lia.
Qed.

Lemma matmul_correct_witness :
  exists stats b',
    RunGem5HybridMatMulInt8 (Some sample_matmul) sample_matmul_mem 0x20000000 0
      = Ret (Some stats, b') /\ at8 b' (32 + 3) = 53.
Proof.
  destruct (matmul_correct sample_matmul sample_matmul_mem 0x20000000 0 sample_matmul_pre)
    as (stats & b' & E & _ & H & _).
  exists stats, b'. split; [exact E |].
  refine (eq_trans (H 1 1 _ _) _); [range_tac | range_tac | vm_compute; reflexivity].
Defined.

Definition sample_fc : coral_operator_descriptor :=
  mk_descriptor CORAL_OPERATOR_OP_FULLY_CONNECTED_INT8 4
    [mk_tensor 0x20000000 6 2 [2; 3; 0; 0] 1 1; mk_tensor 0x20000010 6 2 [2; 3; 0; 0] 1 (-2);
     mk_tensor 0x20000018 8 1 [2; 0; 0; 0] 2 0; mk_tensor 0x20000020 4 2 [2; 2; 0; 0] 1 0]
    0 0 0.
Definition sample_fc_mem : buf := buf_blit sample_matmul_mem 24 [5; 0; 0; 0; 246; 255; 255; 255].

Lemma fully_connected_witness :
  exists stats b',
    RunGem5HybridFullyConnectedInt8 (Some sample_fc) sample_fc_mem 0x20000000 0
      = Ret (Some stats, b') /\ at8 b' (32 + 1) = 34.
Proof.
  destruct (fully_connected_correct sample_fc sample_fc_mem 0x20000000 0)
    as (stats & b' & E & _ & H & _).
  - split; try reflexivity.
    + lia.
    + split; [| split; [| split]]; tensor_wf_tac.
    + unfold in_mem; simpl; lia.
    + unfold apart; simpl; lia.
    + unfold int8_zero_point; simpl; lia.
    + intros out Ho. eval_dims Ho.
      assert (out = 0 \/ out = 1) as [-> | ->] by lia; vm_compute; reflexivity.
  - exists stats, b'. split; [exact E |].
    refine (eq_trans (H 0 1 _ _) _); [range_tac | range_tac | vm_compute; reflexivity].
Defined.

Definition sample_add : coral_operator_descriptor :=
  mk_descriptor CORAL_OPERATOR_OP_ADD_INT8 3
    [mk_tensor 0x20000000 6 2 [2; 3; 0; 0] 1 1; mk_tensor 0x20000010 6 2 [2; 3; 0; 0] 1 (-2);
     mk_tensor 0x20000020 6 2 [2; 3; 0; 0] 1 0; tensor_zero] 0 0 0.

Lemma add_correct_witness :
  exists stats b',
    RunGem5HybridAddInt8 (Some sample_add) sample_matmul_mem 0x20000000 0
      = Ret (Some stats, b') /\ at8 b' (32 + 5) = 15.
Proof.
  destruct (add_correct sample_add sample_matmul_mem 0x20000000 0)
    as (stats & b' & E & _ & _ & H & _).
  - split; try reflexivity.
    + lia.
    + split; [| split]; tensor_wf_tac.
    + unfold in_mem; simpl; lia.
    + unfold apart; simpl; lia.
    + unfold int8_zero_point; simpl; lia.
  - exists stats, b'. split; [exact E |].
    refine (eq_trans (H 5 _) _); [range_tac | vm_compute; reflexivity].
Defined.

(** A 1x2x2x1 input, a 1x1x2x1 filter, width padding one. *)
Definition sample_conv : coral_operator_descriptor :=
  mk_descriptor CORAL_OPERATOR_OP_CONV_2D_INT8 4
    [mk_tensor 0x20000000 4 4 [1; 2; 2; 1] 1 1; mk_tensor 0x20000010 2 4 [1; 1; 2; 1] 1 0;
     mk_tensor 0x20000018 4 1 [1; 0; 0; 0] 2 0; mk_tensor 0x20000030 2 4 [1; 1; 2; 1] 1 0]
    0x20000020 0x20000024 1.
Definition sample_conv_mem : buf :=
  buf_blit (buf_blit sample_fc_mem 32 (le_bytes 4 1073741824)) 36 (le_bytes 4 1).

Lemma sample_conv_pre : conv_pre sample_conv sample_conv_mem 0x20000000 false.
Proof.
  split; try reflexivity.
  - lia.
  - unfold is_u32; simpl; lia.
  - split; [| split; [| split]]; tensor_wf_tac.
  - simpl; lia.
  - unfold in_mem; simpl; lia.
  - unfold apart; simpl; lia.
  - split; (split; [| split; [| left]]); vm_compute; congruence.
  - intros c Hc. eval_dims Hc. assert (c = 0) as -> by lia. vm_compute. split; discriminate.
  - unfold int8_zero_point; simpl; lia.
  - split; split; vm_compute; congruence.
Qed.

Lemma conv2d_correct_witness :
  exists stats b',
    RunGem5HybridConv2D sample_conv sample_conv_mem 0x20000000 0 = Ret (Some stats, b') /\
    at8 b' 48 = 8 /\ at8 b' 49 = 16.
Proof.
  destruct (conv2d_correct sample_conv sample_conv_mem 0x20000000 0 sample_conv_pre)
    as (stats & b' & E & _ & H & _).
  - intros batch y x oc Hb Hy Hx Hc. eval_dims Hb. eval_dims Hy. eval_dims Hx. eval_dims Hc.
    assert (batch = 0) as -> by lia. assert (y = 0) as -> by lia.
    assert (oc = 0) as -> by lia.
    assert (x = 0 \/ x = 1) as [-> | ->] by lia;
      vm_compute; (split; [discriminate | reflexivity]).
  - exists stats, b'. split; [exact E |]. split.
    + refine (eq_trans (H 0 0 0 0 _ _ _ _) _);
        [range_tac | range_tac | range_tac | range_tac | vm_compute; reflexivity].
    + refine (eq_trans (H 0 0 1 0 _ _ _ _) _);
        [range_tac | range_tac | range_tac | range_tac | vm_compute; reflexivity].
Defined.

(** Two channels, each with its own one-tap filter. *)
Definition sample_depthwise : coral_operator_descriptor :=
  mk_descriptor CORAL_OPERATOR_OP_DEPTHWISE_CONV_2D_INT8 4
    [mk_tensor 0x20000000 4 4 [1; 1; 2; 2] 1 1; mk_tensor 0x20000010 2 4 [1; 1; 1; 2] 1 0;
     mk_tensor 0x20000018 8 1 [2; 0; 0; 0] 2 0; mk_tensor 0x20000030 2 4 [1; 1; 1; 2] 1 0]
    0x20000020 0x20000028 2.
Definition sample_depthwise_mem : buf :=
  buf_blit sample_fc_mem 32
    (bytes_of_words [1073741824; 1073741824; 1; 0]).

Lemma sample_depthwise_pre :
  conv_pre sample_depthwise sample_depthwise_mem 0x20000000 true.
Proof.
  split; try reflexivity.
  - lia.
  - unfold is_u32; simpl; lia.
  - split; [| split; [| split]]; tensor_wf_tac.
  - simpl; lia.
  - unfold in_mem; simpl; lia.
  - unfold apart; simpl; lia.
  - split; (split; [| split; [| left]]); vm_compute; congruence.
  - intros c Hc. eval_dims Hc. assert (c = 0 \/ c = 1) as [-> | ->] by lia;
      vm_compute; (split; discriminate).
  - unfold int8_zero_point; simpl; lia.
  - split; split; vm_compute; congruence.
Qed.

Lemma depthwise_correct_witness :
  exists stats b',
    RunGem5HybridDepthwiseConv2D sample_depthwise sample_depthwise_mem 0x20000000 0
      = Ret (Some stats, b') /\ at8 b' 49 = -2.
Proof.
  destruct (depthwise_correct sample_depthwise sample_depthwise_mem 0x20000000 0
    sample_depthwise_pre) as (stats & b' & E & _ & H & _).
  - intros batch y x oc Hb Hy Hx Hc. eval_dims Hb. eval_dims Hy. eval_dims Hx. eval_dims Hc.
    assert (batch = 0) as -> by lia. assert (y = 0) as -> by lia.
    assert (x = 0) as -> by lia.
    assert (oc = 0 \/ oc = 1) as [-> | ->] by lia;
      vm_compute; (split; [discriminate | reflexivity]).
  - exists stats, b'. split; [exact E |].
    refine (eq_trans (H 0 0 0 1 _ _ _ _) _);
      [range_tac | range_tac | range_tac | range_tac | vm_compute; reflexivity].
Defined.
