(* ===== verification/KernelsFloat.v ===== *)
(** * The floating-point kernels

    [RunGem5HybridSoftmax] and [RunGem5HybridLayerNorm] of
    [gem5_hybrid_kernels.cc] over IEEE binary32, computed by the Standard
    Library's [SpecFloat] with 24 bits of precision (every operation rounds to
    nearest even; no contraction).  [std::exp] is the C library's and is a
    parameter.  A NaN is stored with the default quiet pattern. *)

From Stdlib Require Import SpecFloat.
From S2P Require Import Prelude Operator Kernels.

(** ** Binary32 *)

Definition f32_prec : Z := 24.
Definition f32_emax : Z := 128.

Definition f32_add : spec_float -> spec_float -> spec_float := SFadd f32_prec f32_emax.
Definition f32_sub : spec_float -> spec_float -> spec_float := SFsub f32_prec f32_emax.
Definition f32_mul : spec_float -> spec_float -> spec_float := SFmul f32_prec f32_emax.
Definition f32_div : spec_float -> spec_float -> spec_float := SFdiv f32_prec f32_emax.
Definition f32_sqrt : spec_float -> spec_float := SFsqrt f32_prec f32_emax.
(** [static_cast<float>] of an integer. *)
Definition f32_of_Z (z : Z) : spec_float := binary_normalize f32_prec f32_emax z 0 false.
(** [std::max(a, b)]. *)
Definition f32_max (a b : spec_float) : spec_float := if SFltb a b then b else a.

Definition f32_isfinite (x : spec_float) : bool :=
  match x with S754_zero _ | S754_finite _ _ _ => true | _ => false end.

(** The float of a bit pattern. *)
Definition f32_of_bits (bits : Z) : spec_float :=
  let s := Z.testbit bits 31 in
  let e := Z.land (Z.shiftr bits 23) 255 in
  let m := Z.land bits (2 ^ 23 - 1) in
  if e =? 255 then (if m =? 0 then S754_infinity s else S754_nan)
  else if e =? 0 then
    match m with Zpos p => S754_finite s p (-149) | _ => S754_zero s end
  else
    match m + 2 ^ 23 with Zpos p => S754_finite s p (e - 150) | _ => S754_nan end.

(** The bit pattern of a float. *)
Definition bits_of_f32 (x : spec_float) : Z :=
  let sign (s : bool) := if s then 2 ^ 31 else 0 in
  match x with
  | S754_zero s => sign s
  | S754_infinity s => sign s + 0x7f800000
  | S754_nan => 0x7fc00000
  | S754_finite s m e =>
      if Zpos m <? 2 ^ 23 then sign s + Zpos m
      else sign s + (e + 150) * 2 ^ 23 + (Zpos m - 2 ^ 23)
  end.

(** [std::lround]: to the nearest integer, ties away from zero; of an infinity
    or a NaN the result is unspecified. *)
Definition f32_lround (x : spec_float) : option Z :=
  match x with
  | S754_zero _ => Some 0
  | S754_finite s m e =>
      let a := if 0 <=? e then Zpos m * 2 ^ e
               else (Zpos m + 2 ^ (- e - 1)) / 2 ^ (- e) in
      Some (if s then - a else a)
  | _ => None
  end.

Definition load_f32 (b : buf) (off : Z) : res spec_float :=
  w ← load_u32 b off; Ret (f32_of_bits w).
Definition store_f32 (b : buf) (off : Z) (x : spec_float) : res buf :=
  store_u32 b off (bits_of_f32 x).

Definition f32_zero : spec_float := S754_zero false.
Definition f32_one : spec_float := f32_of_Z 1.

(** [FloatBits]: the value, and whether it is finite. *)
Definition FloatBits (bits : Z) : spec_float * bool :=
  let v := f32_of_bits bits in (v, f32_isfinite v).

Definition last_dim (t : coral_operator_tensor) : Z := dim t (Z.to_nat (t_rank t - 1)).

Section float_kernels.
(** [std::exp] on [float]. *)
Context (expf : spec_float -> spec_float).

(** ** Softmax *)

Definition softmax_ok (d : coral_operator_descriptor) : bool :=
  let input := tensor_at d 0 in
  (d_tensor_count d =? 2) && negb (t_rank input =? 0) && SameShape input (tensor_at d 1)
  && negb (last_dim input =? 0) && negb (ElementCount input =? 0)
  && (Z.rem (ElementCount input) (last_dim input) =? 0).

(** One float row; [None] is [return false]. *)
Definition softmax_row_f32 (in_off out_off depth row : Z) (b : buf) : res (bool * buf) :=
  let row_input := in_off + 4 * (row * depth) in
  let row_output := out_off + 4 * (row * depth) in
  x0 ← load_f32 b row_input;
  max_value ← forZ (depth - 1) (fun i m =>
    x ← load_f32 b (row_input + 4 * (i + 1)); Ret (f32_max m x)) x0;
  '(sum, b) ← forZ depth (fun i '(sum, b) =>
    x ← load_f32 b (row_input + 4 * i);
    b ← store_f32 b (row_output + 4 * i) (expf (f32_sub x max_value));
    y ← load_f32 b (row_output + 4 * i);
    Ret (f32_add sum y, b)) (f32_zero, b);
  if SFeqb sum f32_zero || negb (f32_isfinite sum) then Ret (false, b)
  else
    b ← forZ depth (fun i b =>
      y ← load_f32 b (row_output + 4 * i);
      store_f32 b (row_output + 4 * i) (f32_div y sum)) b;
    Ret (true, b).

(** One int8 row. *)
Definition softmax_row_i8 (in_off out_off depth row : Z) (b : buf) : res (bool * buf) :=
  x0 ← load_i8 b (in_off + row * depth);
  max_value ← forZ (depth - 1) (fun i m =>
    x ← load_i8 b (in_off + (row * depth + (i + 1))); Ret (f32_max m (f32_of_Z x)))
    (f32_of_Z x0);
  sum ← forZ depth (fun i sum =>
    x ← load_i8 b (in_off + (row * depth + i));
    Ret (f32_add sum (expf (f32_sub (f32_of_Z x) max_value)))) f32_zero;
  if SFeqb sum f32_zero || negb (f32_isfinite sum) then Ret (false, b)
  else
    b ← forZ depth (fun i b =>
      x ← load_i8 b (in_off + (row * depth + i));
      let probability := f32_div (expf (f32_sub (f32_of_Z x) max_value)) sum in
      match f32_lround (f32_mul probability (f32_of_Z 255)) with
      | None => Undef
      | Some r =>
          quantized ← signed 32 (i32 r - 128);
          store_i8 b (out_off + (row * depth + i)) (clamp INT8_MIN INT8_MAX quantized)
      end) b;
    Ret (true, b).

(** The rows until one fails. *)
Fixpoint softmax_rows (row : Z -> buf -> res (bool * buf)) (l : list Z) (b : buf) :
    res (bool * buf) :=
  match l with
  | [] => Ret (true, b)
  | r :: l =>
      '(ok, b) ← row r b;
      if (ok : bool) then softmax_rows row l b else Ret (false, b)
  end.

Definition RunGem5HybridSoftmax (descriptor : option coral_operator_descriptor)
    (extmem : buf) (base elapsed : Z) : res (option kernel_stats * buf) :=
  match descriptor with
  | None => Ret (None, extmem)
  | Some d =>
      if negb (softmax_ok d) then Ret (None, extmem)
      else
        let input := tensor_at d 0 in
        let output := tensor_at d 1 in
        let depth := last_dim input in
        let total := ElementCount input in
        let rows := seqZ 0 (Z.quot total depth) in
        let both ty size :=
          (t_element_type input =? ty) && (t_element_type output =? ty)
          && TensorBytesMatch input size && TensorBytesMatch output size in
        '(ok, b) ←
          (if both CORAL_OPERATOR_ELEMENT_FLOAT32 4 then
             softmax_rows (softmax_row_f32 (tensor_off base input) (tensor_off base output) depth)
               rows extmem
           else if both CORAL_OPERATOR_ELEMENT_INT8 1 then
             softmax_rows (softmax_row_i8 (tensor_off base input) (tensor_off base output) depth)
               rows extmem
           else Ret (false, extmem));
        if (ok : bool) then
          Ret (Some {| k_operation_count := total; k_bytes_read := t_size input;
                       k_bytes_written := t_size output; k_host_elapsed_ns := elapsed |}, b)
        else Ret (None, b)
  end.

End float_kernels.

(** ** Layer normalisation *)

Definition layer_norm_types_ok (d : coral_operator_descriptor) : bool :=
  let t i := tensor_at d i in
  (d_tensor_count d =? 4)
  && (t_element_type (t 0%nat) =? CORAL_OPERATOR_ELEMENT_FLOAT32)
  && (t_element_type (t 1%nat) =? CORAL_OPERATOR_ELEMENT_FLOAT32)
  && (t_element_type (t 2%nat) =? CORAL_OPERATOR_ELEMENT_FLOAT32)
  && (t_element_type (t 3%nat) =? CORAL_OPERATOR_ELEMENT_FLOAT32)
  && negb (t_rank (t 0%nat) =? 0) && SameShape (t 0%nat) (t 3%nat)
  && (t_rank (t 1%nat) =? 1) && (t_rank (t 2%nat) =? 1)
  && TensorBytesMatch (t 0%nat) 4 && TensorBytesMatch (t 1%nat) 4
  && TensorBytesMatch (t 2%nat) 4 && TensorBytesMatch (t 3%nat) 4.

Definition layer_norm_shapes_ok (d : coral_operator_descriptor) : bool :=
  let input := tensor_at d 0 in
  let depth := last_dim input in
  negb (depth =? 0) && negb (ElementCount input =? 0)
  && (Z.rem (ElementCount input) depth =? 0)
  && (dim (tensor_at d 1) 0 =? depth) && (dim (tensor_at d 2) 0 =? depth).

(** [1.0e-5f]. *)
Definition default_epsilon : spec_float := f32_of_bits 0x3727c5ac.

(** The epsilon of the descriptor, [None] when it is rejected. *)
Definition layer_norm_epsilon (d : coral_operator_descriptor) : option spec_float :=
  let bits := nth 0 (d_reserved d) 0 in
  if bits =? 0 then Some default_epsilon
  else let '(v, finite) := FloatBits bits in
       if negb finite || SFleb v f32_zero then None else Some v.

(** One row: mean, variance, then the scaled and shifted elements. *)
Definition layer_norm_row (d : coral_operator_descriptor) (base : Z) (epsilon : spec_float)
    (row : Z) (b : buf) : res buf :=
  let depth := last_dim (tensor_at d 0) in
  let row_input := tensor_off base (tensor_at d 0) + 4 * (row * depth) in
  let scale := tensor_off base (tensor_at d 1) in
  let bias := tensor_off base (tensor_at d 2) in
  let output := tensor_off base (tensor_at d 3) + 4 * (row * depth) in
  mean ← forZ depth (fun i acc =>
    x ← load_f32 b (row_input + 4 * i); Ret (f32_add acc x)) f32_zero;
  let mean := f32_div mean (f32_of_Z depth) in
  variance ← forZ depth (fun i acc =>
    x ← load_f32 b (row_input + 4 * i);
    let centered := f32_sub x mean in
    Ret (f32_add acc (f32_mul centered centered))) f32_zero;
  let variance := f32_div variance (f32_of_Z depth) in
  let inv_stddev := f32_div f32_one (f32_sqrt (f32_add variance epsilon)) in
  forZ depth (fun i b =>
    x ← load_f32 b (row_input + 4 * i);
    s ← load_f32 b (scale + 4 * i);
    c ← load_f32 b (bias + 4 * i);
    store_f32 b (output + 4 * i)
      (f32_add (f32_mul (f32_mul (f32_sub x mean) inv_stddev) s) c)) b.

Definition RunGem5HybridLayerNorm (descriptor : option coral_operator_descriptor)
    (extmem : buf) (base elapsed : Z) : res (option kernel_stats * buf) :=
  match descriptor with
  | None => Ret (None, extmem)
  | Some d =>
      if negb (layer_norm_types_ok d) then Ret (None, extmem)
      else if negb (layer_norm_shapes_ok d) then Ret (None, extmem)
      else
        match layer_norm_epsilon d with
        | None => Ret (None, extmem)
        | Some epsilon =>
            let input := tensor_at d 0 in
            let total := ElementCount input in
            b ← forZ (Z.quot total (last_dim input)) (layer_norm_row d base epsilon) extmem;
            Ret (Some {| k_operation_count := u64 (total * 5);
                         k_bytes_read := u32 (t_size input + t_size (tensor_at d 1)
                                              + t_size (tensor_at d 2));
                         k_bytes_written := t_size (tensor_at d 3);
                         k_host_elapsed_ns := elapsed |}, b)
        end
  end.
