(* ===== verification/HybridDispatch.v ===== *)
(** * Validation and dispatch of hybrid operators

    [gem5_hybrid_operator.cc].  The descriptor lives in the external memory
    the kernels work on; [sync] stores its fields there, so that a kernel sees
    the descriptor's bytes as the code does. *)

From Stdlib Require Import SpecFloat.
From S2P Require Import Prelude Operator FixedPoint Kernels KernelsFloat KernelSpec.

Definition RangeValid (address size base capacity : Z) : bool :=
  negb (size =? 0) && (size <=? capacity) && (base <=? address)
  && (u32 (address - base) <=? capacity - size).

(** A tensor the validator lets through. *)
Definition tensor_valid (base capacity : Z) (t : coral_operator_tensor) : bool :=
  ((t_element_type t =? CORAL_OPERATOR_ELEMENT_INT8)
   || (t_element_type t =? CORAL_OPERATOR_ELEMENT_INT32)
   || (t_element_type t =? CORAL_OPERATOR_ELEMENT_FLOAT32))
  && negb (t_rank t =? 0) && (t_rank t <=? CORAL_OPERATOR_MAX_DIMS)
  && RangeValid (t_address t) (t_size t) base capacity.

Definition header_ok (d : coral_operator_descriptor) : bool :=
  (d_magic d =? CORAL_OPERATOR_ABI_MAGIC) && (d_version d =? CORAL_OPERATOR_ABI_VERSION)
  && (d_descriptor_size d =? descriptor_sizeof)
  && (d_execution_mode d =? CORAL_OPERATOR_MODE_HYBRID)
  && (d_state d =? CORAL_OPERATOR_STATE_SUBMITTED)
  && (d_tensor_count d <=? CORAL_OPERATOR_MAX_TENSORS).

Definition quantization_ok (d : coral_operator_descriptor) (base capacity : Z) : bool :=
  if d_quantization_count d =? 0 then true
  else
    let bytes := u64 (d_quantization_count d * 4) in
    (bytes <=? UINT32_MAX) && RangeValid (d_multiplier_address d) (u32 bytes) base capacity
    && RangeValid (d_shift_address d) (u32 bytes) base capacity.

(** The verdict and the error stored through the pointer. *)
Definition ValidateGem5HybridDescriptor (d : coral_operator_descriptor)
    (base capacity : Z) : bool * Z :=
  if negb (header_ok d) then (false, CORAL_OPERATOR_ERROR_BAD_DESCRIPTOR)
  else if negb (forallb (tensor_valid base capacity)
                  (take (Z.to_nat (d_tensor_count d)) (d_tensors d)))
  then (false, CORAL_OPERATOR_ERROR_ADDRESS)
  else if negb (eqb (d_multiplier_address d =? 0) (d_shift_address d =? 0))
  then (false, CORAL_OPERATOR_ERROR_BAD_DESCRIPTOR)
  else if negb (quantization_ok d base capacity)
  then (false, CORAL_OPERATOR_ERROR_ADDRESS)
  else (true, CORAL_OPERATOR_ERROR_NONE).

(** The fields a dispatch changes. *)
Definition set_outcome (d : coral_operator_descriptor)
    (state error opcount elapsed cycles read written : Z) : coral_operator_descriptor :=
  {| d_magic := d_magic d; d_version := d_version d;
     d_descriptor_size := d_descriptor_size d; d_opcode := d_opcode d;
     d_state := state; d_error := error; d_flags := d_flags d;
     d_execution_mode := d_execution_mode d; d_tensor_count := d_tensor_count d;
     d_tensors := d_tensors d; d_stride_height := d_stride_height d;
     d_stride_width := d_stride_width d; d_padding_height := d_padding_height d;
     d_padding_width := d_padding_width d;
     d_multiplier_address := d_multiplier_address d;
     d_shift_address := d_shift_address d;
     d_output_zero_point := d_output_zero_point d;
     d_activation_min := d_activation_min d; d_activation_max := d_activation_max d;
     d_quantization_count := d_quantization_count d;
     d_operation_count := opcount; d_host_elapsed_ns := elapsed;
     d_modeled_cycles := cycles; d_bytes_read := read; d_bytes_written := written;
     d_reserved := d_reserved d |}.

Definition set_state_error (d : coral_operator_descriptor) (state error : Z) :
    coral_operator_descriptor :=
  set_outcome d state error (d_operation_count d) (d_host_elapsed_ns d)
    (d_modeled_cycles d) (d_bytes_read d) (d_bytes_written d).

Section dispatch.
Context (expf : spec_float -> spec_float).

(** The kernel of the opcode; [None] where there is none. *)
Definition run_kernel (d : coral_operator_descriptor) (extmem : buf) (base elapsed : Z) :
    option (res (option kernel_stats * buf)) :=
  let op := d_opcode d in
  if op =? CORAL_OPERATOR_OP_PARTIAL_MOBILENET then None
  else if op =? CORAL_OPERATOR_OP_CONV_2D_INT8 then
    Some (RunGem5HybridConv2D d extmem base elapsed)
  else if op =? CORAL_OPERATOR_OP_DEPTHWISE_CONV_2D_INT8 then
    Some (RunGem5HybridDepthwiseConv2D d extmem base elapsed)
  else if op =? CORAL_OPERATOR_OP_MATMUL_INT8 then
    Some (RunGem5HybridMatMulInt8 (Some d) extmem base elapsed)
  else if op =? CORAL_OPERATOR_OP_FULLY_CONNECTED_INT8 then
    Some (RunGem5HybridFullyConnectedInt8 (Some d) extmem base elapsed)
  else if op =? CORAL_OPERATOR_OP_ADD_INT8 then
    Some (RunGem5HybridAddInt8 (Some d) extmem base elapsed)
  else if op =? CORAL_OPERATOR_OP_SOFTMAX then
    Some (RunGem5HybridSoftmax expf (Some d) extmem base elapsed)
  else if op =? CORAL_OPERATOR_OP_LAYER_NORM then
    Some (RunGem5HybridLayerNorm (Some d) extmem base elapsed)
  else None.

(** The descriptor while its kernel runs. *)
Definition running (d : coral_operator_descriptor) : coral_operator_descriptor :=
  set_outcome d CORAL_OPERATOR_STATE_RUNNING CORAL_OPERATOR_ERROR_NONE
    (d_operation_count d) 0 0 0 0.

(** The result, the descriptor and the memory; [sync] stores the descriptor's
    fields at its place in the memory. *)
Definition DispatchGem5HybridOperator
    (sync : coral_operator_descriptor -> buf -> buf)
    (d : coral_operator_descriptor) (extmem : buf) (base elapsed : Z) :
    res (bool * coral_operator_descriptor * buf) :=
  let '(valid, error) := ValidateGem5HybridDescriptor d base (buf_len extmem) in
  if negb valid then
    let d1 := set_state_error d CORAL_OPERATOR_STATE_ERROR error in
    Ret (false, d1, sync d1 extmem)
  else
    let d1 := running d in
    let extmem := sync d1 extmem in
    match run_kernel d1 extmem base elapsed with
    | None =>
        let d2 := set_state_error d1 CORAL_OPERATOR_STATE_ERROR
                    CORAL_OPERATOR_ERROR_UNSUPPORTED in
        Ret (false, d2, sync d2 extmem)
    | Some run =>
        '(stats, extmem) ← run;
        match stats with
        | None =>
            let d2 := set_state_error d1 CORAL_OPERATOR_STATE_ERROR
                        CORAL_OPERATOR_ERROR_EXECUTION in
            Ret (false, d2, sync d2 extmem)
        | Some k =>
            let cycles := if d_modeled_cycles d1 =? 0 then k_operation_count k
                          else d_modeled_cycles d1 in
            let d2 := set_outcome d1 CORAL_OPERATOR_STATE_COMPLETE
                        CORAL_OPERATOR_ERROR_NONE (k_operation_count k)
                        (k_host_elapsed_ns k) cycles (k_bytes_read k)
                        (k_bytes_written k) in
            Ret (true, d2, sync d2 extmem)
        end
    end.

(** ** Validation *)

Lemma range_valid_iff address size base capacity :
  is_u32 address -> is_u32 size -> 0 <= base -> 0 <= capacity ->
  RangeValid address size base capacity = true <->
    1 <= size /\ base <= address /\ address - base + size <= capacity.
Proof.
  intros Ha Hs Hb Hc. unfold RangeValid, is_u32 in *. bool_prop. split.
  - intros [[[H1 H2] H3] H4]. rewrite wrap_small in H4 by lia. lia.
  - intros (H1 & H2 & H3). rewrite wrap_small by lia. lia.
Qed.

Lemma header_ok_iff d :
  header_ok d = true <->
    d_magic d = CORAL_OPERATOR_ABI_MAGIC /\ d_version d = CORAL_OPERATOR_ABI_VERSION /\
    d_descriptor_size d = descriptor_sizeof /\
    d_execution_mode d = CORAL_OPERATOR_MODE_HYBRID /\
    d_state d = CORAL_OPERATOR_STATE_SUBMITTED /\ d_tensor_count d <= 4.
Proof. unfold header_ok, CORAL_OPERATOR_MAX_TENSORS. bool_prop. tauto. Qed.

(** A tensor with a known type and rank, inside the memory. *)
Definition tensor_fits (base capacity : Z) (t : coral_operator_tensor) : Prop :=
  (t_element_type t = 1 \/ t_element_type t = 2 \/ t_element_type t = 3) /\
  1 <= t_rank t <= 4 /\ 1 <= t_size t /\ base <= t_address t /\
  t_address t - base + t_size t <= capacity.

Lemma tensor_valid_iff base capacity t :
  tensor_wf t -> 0 <= base -> 0 <= capacity ->
  tensor_valid base capacity t = true <-> tensor_fits base capacity t.
Proof.
  intros (W1 & W2 & W3 & _) Hb Hc. unfold tensor_valid, tensor_fits.
  rewrite !andb_true_iff, range_valid_iff by done. unfold is_u32 in W3.
  unfold CORAL_OPERATOR_MAX_DIMS, CORAL_OPERATOR_ELEMENT_INT8,
    CORAL_OPERATOR_ELEMENT_INT32, CORAL_OPERATOR_ELEMENT_FLOAT32.
  bool_prop. lia.
Qed.

Lemma tensors_valid_iff d base capacity :
  Forall tensor_wf (d_tensors d) -> 0 <= d_tensor_count d -> 0 <= base -> 0 <= capacity ->
  forallb (tensor_valid base capacity) (take (Z.to_nat (d_tensor_count d)) (d_tensors d)) = true
  <-> forall i t, d_tensors d !! i = Some t -> Z.of_nat i < d_tensor_count d ->
        tensor_fits base capacity t.
Proof.
  intros Hwf Hn Hb Hc. rewrite forallb_forall. split.
  - intros H i t Hi Hlt. apply tensor_valid_iff; [| done | done |].
    + exact (Forall_lookup_1 _ _ _ _ Hwf Hi).
    + apply H, list_elem_of_In. apply list_elem_of_lookup_2 with (i := i).
      apply lookup_take_Some. split; [done | lia].
  - intros H t Ht. apply list_elem_of_In, list_elem_of_lookup_1 in Ht as [i Hi].
    apply lookup_take_Some in Hi as [Hi Hlt].
    apply tensor_valid_iff; [exact (Forall_lookup_1 _ _ _ _ Hwf Hi) | done | done |].
    apply (H i t Hi). lia.
Qed.

(** A table of one word for each channel, inside the memory. *)
Definition table_fits (d : coral_operator_descriptor) (base capacity a : Z) : Prop :=
  base <= a /\ a - base + 4 * d_quantization_count d <= capacity.

Lemma quantization_ok_iff d base capacity :
  descriptor_wf d -> 0 <= base -> 0 <= capacity ->
  quantization_ok d base capacity = true <->
    (d_quantization_count d <> 0 -> 4 * d_quantization_count d < 2 ^ 32 /\
       table_fits d base capacity (d_multiplier_address d) /\
       table_fits d base capacity (d_shift_address d)).
Proof.
  intros [Hu _ _ _ _] Hb Hc. rewrite !Forall_cons_iff in Hu.
  destruct Hu as (_ & _ & _ & _ & _ & _ & _ & _ & _ & _ & _ & _ & _ & Hm & Hs & Hq & _).
  unfold quantization_ok, table_fits, is_u32 in *.
  destruct (Z.eqb_spec (d_quantization_count d) 0) as [E|E]; [tauto |].
  rewrite (wrap_small 64) by lia. rewrite !andb_true_iff, Z.leb_le.
  destruct (decide (4 * d_quantization_count d < 2 ^ 32)).
  - rewrite (wrap_small 32) by lia. rewrite !range_valid_iff by (unfold is_u32; lia). lia.
  - split; [lia |]. intros H. specialize (H E). lia.
Qed.

End dispatch.

(** C29: the validator accepts exactly the submitted hybrid descriptors of the
    right size and version whose tensors have a known element type and a rank
    from one to four and lie, not empty, inside the external memory, whose two
    quantisation tables are given together and, when there are channels, lie
    inside it too; it reports no error exactly when it accepts. *)
Theorem validate_exact d base capacity :
  descriptor_wf d -> 0 <= base -> 0 <= capacity ->
  ((ValidateGem5HybridDescriptor d base capacity).1 = true <->
    (d_magic d = CORAL_OPERATOR_ABI_MAGIC /\ d_version d = CORAL_OPERATOR_ABI_VERSION /\
     d_descriptor_size d = descriptor_sizeof /\
     d_execution_mode d = CORAL_OPERATOR_MODE_HYBRID /\
     d_state d = CORAL_OPERATOR_STATE_SUBMITTED /\ d_tensor_count d <= 4) /\
    (forall i t, d_tensors d !! i = Some t -> Z.of_nat i < d_tensor_count d ->
       tensor_fits base capacity t) /\
    (d_multiplier_address d = 0 <-> d_shift_address d = 0) /\
    (d_quantization_count d <> 0 -> 4 * d_quantization_count d < 2 ^ 32 /\
       table_fits d base capacity (d_multiplier_address d) /\
       table_fits d base capacity (d_shift_address d))) /\
  ((ValidateGem5HybridDescriptor d base capacity).1 = true <->
   (ValidateGem5HybridDescriptor d base capacity).2 = CORAL_OPERATOR_ERROR_NONE).
Proof.
  intros Hwf Hb Hc.
  assert (0 <= d_tensor_count d) as Hn.
  { destruct Hwf as [Hu _ _ _ _]. rewrite !Forall_cons_iff in Hu. unfold is_u32 in Hu. lia. }
  rewrite <- header_ok_iff, <- (tensors_valid_iff d) by (done || apply Hwf).
  rewrite <- quantization_ok_iff by done. unfold ValidateGem5HybridDescriptor.
  destruct (header_ok d), (forallb _ _), (quantization_ok d base capacity);
    destruct (Z.eqb_spec (d_multiplier_address d) 0), (Z.eqb_spec (d_shift_address d) 0);
    cbn; intuition done.
Qed.

Lemma validate_exact_witness :
  (ValidateGem5HybridDescriptor sample_conv 0x20000000 64).1 = true /\
  tensor_fits 0x20000000 64 (tensor_at sample_conv 3).
Proof.
  assert (descriptor_wf sample_conv) as Hwf.
  { split; cbn; unfold is_u32, is_i32, is_u64, tensor_wf;
      repeat (split || constructor); vm_compute; congruence. }
  destruct (validate_exact sample_conv 0x20000000 64 Hwf) as [[H _] _]; [lia | lia |].
  split; [vm_compute; reflexivity |].
  destruct (H eq_refl) as (_ & Ht & _). apply (Ht 3%nat); vm_compute; reflexivity.
Defined.

(** ** Dispatch *)

(** The fields a dispatch leaves alone. *)
Definition same_request (d d' : coral_operator_descriptor) : Prop :=
  d' = set_outcome d (d_state d') (d_error d') (d_operation_count d')
         (d_host_elapsed_ns d') (d_modeled_cycles d') (d_bytes_read d') (d_bytes_written d').

(** The final descriptor, and that it was stored last. *)
Lemma dispatch_final expf sync d extmem base elapsed ok d' extmem' :
  DispatchGem5HybridOperator expf sync d extmem base elapsed = Ret (ok, d', extmem') ->
  same_request d d' /\ (exists m, extmem' = sync d' m) /\
  (if ok then d_state d' = CORAL_OPERATOR_STATE_COMPLETE /\
              d_error d' = CORAL_OPERATOR_ERROR_NONE /\
              d_modeled_cycles d' = d_operation_count d'
   else d_state d' = CORAL_OPERATOR_STATE_ERROR /\
        d_error d' <> CORAL_OPERATOR_ERROR_NONE).
Proof.
  unfold DispatchGem5HybridOperator.
  destruct (ValidateGem5HybridDescriptor d base (buf_len extmem)) as [[] error] eqn:Ev;
    cbn [negb].
  - destruct (run_kernel _ _ _ _ _) as [run|]; 
      [| intros [= <- <- <-]; split; [done | split; [eauto | done]]].
    intros H. apply bind_ret_inv in H as ([[k|] b] & E & H); injection H as <- <- <-;
      (split; [done | split; [eauto | done]]).
  - intros [= <- <- <-]. split; [done |]. split; [eauto |]. split; [done |].
    cbn. intros ->. unfold ValidateGem5HybridDescriptor in Ev. by repeat case_test_in Ev.
Qed.

(** The descriptor behind a kernel that succeeds on a valid one. *)
Definition completed (d : coral_operator_descriptor) (k : kernel_stats) :
    coral_operator_descriptor :=
  set_outcome (running d) CORAL_OPERATOR_STATE_COMPLETE CORAL_OPERATOR_ERROR_NONE
    (k_operation_count k) (k_host_elapsed_ns k) (k_operation_count k) (k_bytes_read k)
    (k_bytes_written k).

Lemma dispatch_completed expf sync d extmem base elapsed k b :
  (ValidateGem5HybridDescriptor d base (buf_len extmem)).1 = true ->
  run_kernel expf (running d) (sync (running d) extmem) base elapsed
    = Some (Ret (Some k, b)) ->
  DispatchGem5HybridOperator expf sync d extmem base elapsed
    = Ret (true, completed d k, sync (completed d k) b).
Proof.
  intros Hv Hk. unfold DispatchGem5HybridOperator.
  destruct (ValidateGem5HybridDescriptor d base (buf_len extmem)) as [valid error].
  cbn in Hv. subst valid. cbn [negb]. rewrite Hk. done.
Qed.

Lemma dispatch_success expf sync d extmem base elapsed k b :
  (ValidateGem5HybridDescriptor d base (buf_len extmem)).1 = true ->
  run_kernel expf (running d) (sync (running d) extmem) base elapsed
    = Some (Ret (Some k, b)) ->
  exists d', DispatchGem5HybridOperator expf sync d extmem base elapsed
      = Ret (true, d', sync d' b) /\ same_request d d'.
Proof.
  intros Hv Hk. exists (completed d k). split; [by apply dispatch_completed | done].
Qed.

(** Every dispatch that returns leaves the descriptor in a final state the
    client can trust: it reports success exactly with state COMPLETE and error
    NONE, failure exactly with state ERROR and an error that is not NONE; a
    rejected descriptor runs no kernel, the modelled cycles of a success are
    its operation count, and the request itself is unchanged. *)
Theorem dispatch_outcome expf sync d extmem base elapsed ok d' extmem' :
  DispatchGem5HybridOperator expf sync d extmem base elapsed = Ret (ok, d', extmem') ->
  same_request d d' /\
  (if ok then d_state d' = CORAL_OPERATOR_STATE_COMPLETE /\
              d_error d' = CORAL_OPERATOR_ERROR_NONE /\
              d_modeled_cycles d' = d_operation_count d'
   else d_state d' = CORAL_OPERATOR_STATE_ERROR /\
        d_error d' <> CORAL_OPERATOR_ERROR_NONE) /\
  ((ValidateGem5HybridDescriptor d base (buf_len extmem)).1 = false ->
   ok = false /\ d_error d' = (ValidateGem5HybridDescriptor d base (buf_len extmem)).2 /\
   extmem' = sync d' extmem).
Proof.
  intros E. pose proof (dispatch_final _ _ _ _ _ _ _ _ _ E) as (Hs & _ & Ho).
  split; [done |]. split; [done |]. intros Ev. unfold DispatchGem5HybridOperator in E.
  destruct (ValidateGem5HybridDescriptor d base (buf_len extmem)) as [valid error].
  cbn in Ev. subst valid. cbn [negb] in E. by injection E as <- <- <-.
Qed.

(** The descriptor's bytes are elsewhere. *)
Definition no_sync (_ : coral_operator_descriptor) (b : buf) : buf := b.
Definition no_exp (x : spec_float) : spec_float := x.

Lemma dispatch_outcome_witness :
  exists d' b', DispatchGem5HybridOperator no_exp no_sync sample_conv sample_conv_mem
      0x20000000 0 = Ret (true, d', b') /\
    d_state d' = CORAL_OPERATOR_STATE_COMPLETE /\ d_modeled_cycles d' = 4.
Proof.
  destruct (DispatchGem5HybridOperator no_exp no_sync sample_conv sample_conv_mem
    0x20000000 0) as [[[ok d'] b']| | |] eqn:E; [| vm_compute in E; discriminate E ..].
  exists d', b'.
  destruct (dispatch_outcome no_exp no_sync sample_conv sample_conv_mem 0x20000000 0
    ok d' b' E) as (_ & H & _).
  assert (ok = true) as -> by (vm_compute in E; by injection E).
  split; [done |]. destruct H as (H1 & _ & H3). split; [exact H1 |].
  rewrite H3. vm_compute in E. injection E as <- _. reflexivity.
Defined.

(** *** Accepted descriptors with no defined result *)

(** Two output channels, but a bias of one, the last word of the memory. *)
Definition short_bias : coral_operator_descriptor :=
  mk_descriptor CORAL_OPERATOR_OP_CONV_2D_INT8 4
    [mk_tensor 0x20000000 4 4 [1; 2; 2; 1] 1 1; mk_tensor 0x20000010 4 4 [2; 1; 2; 1] 1 0;
     mk_tensor 0x2000003c 4 1 [1; 0; 0; 0] 2 0; mk_tensor 0x20000014 4 4 [1; 1; 2; 2] 1 0]
    0x20000020 0x20000028 2.


(** A one-by-one product with the smallest zero point. *)
Definition wide_zero_point : coral_operator_descriptor :=
  mk_descriptor CORAL_OPERATOR_OP_MATMUL_INT8 3
    [mk_tensor 0x20000000 1 2 [1; 1; 0; 0] 1 (- 2 ^ 31); mk_tensor 0x20000010 1 2 [1; 1; 0; 0] 1 0;
     mk_tensor 0x20000020 1 2 [1; 1; 0; 0] 1 0; tensor_zero] 0 0 0.

(** Zero points are never range-checked: an accepted one-by-one matrix
    product overflows its 32-bit subtraction. *)
Theorem zero_point_unchecked :
  descriptor_wf wide_zero_point /\
  (ValidateGem5HybridDescriptor wide_zero_point 0x20000000 64).1 = true /\
  matmul_types_ok wide_zero_point = true /\ matmul_shapes_ok wide_zero_point = true /\
  DispatchGem5HybridOperator no_exp no_sync wide_zero_point (buf_new 64) 0x20000000 0 = Undef.
Proof.
  split; [| vm_compute; repeat split].
  split; cbn; unfold is_u32, is_i32, is_u64, tensor_wf;
    repeat (split || constructor); vm_compute; congruence.
Qed.
