(* ===== verification/KernelFrame.v ===== *)
(** * What the kernels may touch

    Whatever a descriptor says, a kernel of [gem5_hybrid_kernels.cc] that
    returns has changed no byte outside its output tensor, on success and on
    failure.  Nothing is assumed of the tensors' contents, of overlaps or of
    the arithmetic. *)

From Stdlib Require Import SpecFloat.
From S2P Require Import Prelude Operator FixedPoint Kernels KernelSpec KernelsFloat.
From S2P Require Import HybridDispatch.

(** [inv_ret] under the binders of a loop body. *)
Ltac follow := cbv beta in *; inv_ret; cbv beta in *.

(** [b'] differs from [b] in at most the [n] bytes at [lo]. *)
Definition keeps (lo n : Z) (b b' : buf) : Prop :=
  buf_len b' = buf_len b /\ (buf_bytes b -> buf_bytes b') /\
  forall j, ~ (lo <= j < lo + n) -> buf_at b' j = buf_at b j.

#[export] Instance keeps_preorder lo n : PreOrder (keeps lo n).
Proof.
  split.
  - by intros b.
  - intros b1 b2 b3 (L1 & B1 & E1) (L2 & B2 & E2). split; [congruence |].
    split; [auto |]. intros j Hj. by rewrite E2, E1.
Qed.

Lemma keeps_write lo n b off bs b' :
  buf_write b off bs = Ret b' -> Forall is_byte bs ->
  lo <= off -> off + Z.of_nat (length bs) <= lo + n -> keeps lo n b b'.
Proof.
  intros E Hb H1 H2. apply buf_write_inv in E as (_ & _ & ->).
  split; [done | split].
  - intros Hbb. by apply buf_bytes_blit.
  - intros j Hj. rewrite buf_at_blit. case_decide; [lia | done].
Qed.

Lemma keeps_store_i8 lo n b off v b' :
  store_i8 b off v = Ret b' -> lo <= off -> off + 1 <= lo + n -> keeps lo n b b'.
Proof. intros E H1 H2. eapply keeps_write; eauto using le_bytes_byte. Qed.

Lemma keeps_store_f32 lo n b off v b' :
  store_f32 b off v = Ret b' -> lo <= off -> off + 4 <= lo + n -> keeps lo n b b'.
Proof. intros E H1 H2. eapply keeps_write; eauto using le_bytes_byte. Qed.

Lemma keeps_loop lo n m body b b' :
  forZ m body b = Ret b' ->
  (forall i b b', 0 <= i < m -> body i b = Ret b' -> keeps lo n b b') -> keeps lo n b b'.
Proof.
  intros E Hb. destruct (decide (0 <= m)).
  - eapply (forZ_inv (fun _ => keeps lo n b)); [done | exact E | done |].
    intros i b1 b2 Hi H1 E2. etrans; eauto.
  - rewrite forZ_0 in E by lia. by injection E as <-.
Qed.

(** An index the code reduces to 32 bits does not grow. *)
Lemma u32_le z : 0 <= z -> 0 <= u32 z <= z.
Proof.
  intros. pose proof (wrap_range 32 z ltac:(lia)). split; [lia |].
  unfold wrap. apply Z.mod_le; lia.
Qed.

Lemma dim_nonneg t i : tensor_wf t -> 0 <= dim t i.
Proof.
  intros (_ & _ & _ & Hl & Hd & _). unfold dim. destruct (decide (i < 4)%nat) as [H|H].
  - destruct (lookup_lt_is_Some_2 (t_dimensions t) i) as [x Hx]; [lia |].
    rewrite (nth_lookup_Some _ _ _ _ Hx).
    apply (Forall_lookup_1 _ _ _ _ Hd) in Hx. unfold is_u32 in Hx. lia.
  - rewrite nth_overflow by lia. done.
Qed.

Lemma tensor_at_wf d i : descriptor_wf d -> tensor_wf (tensor_at d i).
Proof.
  intros Hd. destruct (wf_tensors _ Hd) as [Hl Ht]. unfold tensor_at.
  destruct (decide (i < 4)%nat) as [H|H].
  - destruct (lookup_lt_is_Some_2 (d_tensors d) i) as [x Hx]; [lia |].
    rewrite (nth_lookup_Some _ _ _ _ Hx). by apply (Forall_lookup_1 _ _ _ _ Ht) in Hx.
  - rewrite nth_overflow by lia. repeat split; simpl; try lia.
    repeat constructor; lia.
Qed.

Section frames.
Context (expf : spec_float -> spec_float).
Context (d : coral_operator_descriptor) (base elapsed : Z) (Hwf : descriptor_wf d).

Abbreviation wf i := (tensor_at_wf d i Hwf).
Abbreviation out_keeps t := (keeps (tensor_off base t) (t_size t)).

Lemma matmul_frame b stats b' :
  RunGem5HybridMatMulInt8 (Some d) b base elapsed = Ret (stats, b') ->
  out_keeps (tensor_at d 2) b b'.
Proof.
  unfold RunGem5HybridMatMulInt8.
  destruct (matmul_types_ok d) eqn:Et; cbn [negb]; [| by intros [= _ <-]].
  destruct (matmul_shapes_ok d) eqn:Es; cbn [negb]; [| by intros [= _ <-]].
  intros H. apply bind_ret_inv in H as (b0 & E & H). injection H as _ <-.
  unfold matmul_types_ok, matmul_shapes_ok in Et, Es.
  rewrite !andb_true_iff, !Z.eqb_eq in Et. rewrite !andb_true_iff, !Z.eqb_eq in Es.
  destruct_and!.
  destruct (bytes_match_rank2 (tensor_at d 2) (wf 2)) as (_ & _ & Hs); [done | done |].
  eapply keeps_loop; [exact E |]. intros row b1 b2 Hr E1.
  eapply keeps_loop; [exact E1 |]. intros col b3 b4 Hc E3.
  unfold matmul_element in E3. follow.
  pose proof (index_range row col _ _ Hr Hc) as Hi.
  pose proof (u32_le (row * dim (tensor_at d 1) 1 + col) ltac:(lia)).
  eapply keeps_store_i8; [eassumption | lia | ].
  replace (dim (tensor_at d 2) 0) with (dim (tensor_at d 0) 0) in Hs by done.
  replace (dim (tensor_at d 2) 1) with (dim (tensor_at d 1) 1) in Hs by done. lia.
Qed.

Lemma fc_frame b stats b' :
  RunGem5HybridFullyConnectedInt8 (Some d) b base elapsed = Ret (stats, b') ->
  out_keeps (fc_output d) b b'.
Proof.
  unfold RunGem5HybridFullyConnectedInt8.
  destruct (fc_types_ok d) eqn:Et; cbn [negb]; [| by intros [= _ <-]].
  destruct (fc_shapes_ok d) eqn:Es; cbn [negb]; [| by intros [= _ <-]].
  intros H. apply bind_ret_inv in H as (b0 & E & H). injection H as _ <-.
  unfold fc_types_ok, fc_shapes_ok in Et, Es.
  rewrite !andb_true_iff, !Z.eqb_eq in Et. rewrite !andb_true_iff, !Z.eqb_eq in Es.
  destruct_and!.
  destruct (bytes_match_rank2 (fc_output d) (wf _)) as (_ & _ & Hs); [done | done |].
  eapply keeps_loop; [exact E |]. intros row b1 b2 Hr E1.
  eapply keeps_loop; [exact E1 |]. intros col b3 b4 Hc E3.
  unfold fc_element in E3. follow.
  pose proof (index_range row col _ _ Hr Hc) as Hi.
  pose proof (u32_le (row * dim (tensor_at d 1) 0 + col) ltac:(lia)).
  eapply keeps_store_i8; [eassumption | lia | ].
  replace (dim (fc_output d) 0) with (dim (tensor_at d 0) 0) in Hs by done.
  replace (dim (fc_output d) 1) with (dim (tensor_at d 1) 0) in Hs by done. lia.
Qed.

Lemma add_frame b stats b' :
  RunGem5HybridAddInt8 (Some d) b base elapsed = Ret (stats, b') ->
  out_keeps (tensor_at d 2) b b'.
Proof.
  unfold RunGem5HybridAddInt8.
  destruct (add_ok d) eqn:Et; cbn [negb]; [| by intros [= _ <-]].
  intros H. apply bind_ret_inv in H as (b0 & E & H). injection H as _ <-.
  unfold add_ok in Et. rewrite !andb_true_iff in Et. destruct_and!.
  destruct (bytes_match_spec (tensor_at d 2) 1 (wf 2)) as [_ Hs]; [lia | done |].
  eapply keeps_loop; [eassumption |]. intros i b1 b2 Hi E1.
  unfold add_element in E1. follow. eapply keeps_store_i8; [eassumption | lia | lia].
Qed.

(** The four loops of a convolution whose element ends in [conv_finish]. *)
Lemma conv_loops_frame dw element b b' :
  (d_tensor_count d = 4 -> 1 <= t_size (tensor_at d 3)) ->
  CommonConvValid d dw = true -> conv_loops d element b = Ret b' ->
  (forall batch y x c b b', element batch y x c b = Ret b' ->
     exists acc, conv_finish d base
       (((batch * dim (tensor_at d 3) 1 + y) * dim (tensor_at d 3) 2 + x)
          * dim (tensor_at d 3) 3 + c) c acc b = Ret b') ->
  out_keeps (tensor_at d 3) b b'.
Proof.
  intros Hpos Hv E Hel. unfold CommonConvValid in Hv.
  do 3 (case_test_in Hv; [discriminate Hv |]).
  rewrite !orb_false_iff, !negb_false_iff, !Z.eqb_eq, !Z.eqb_neq in *. destruct_and!.
  specialize (Hpos ltac:(done)).
  destruct (count_rank4 (tensor_at d 3) (wf 3)) as (_ & _ & _ & _ & N); [done | lia |].
  replace (dim (tensor_at d 3) 0) with (dim (tensor_at d 0) 0) in N by done.
  unfold conv_loops in E.
  eapply keeps_loop; [exact E |]. intros n b1 b2 Hn E1.
  eapply keeps_loop; [exact E1 |]. intros y b3 b4 Hy E3.
  eapply keeps_loop; [exact E3 |]. intros x b5 b6 Hx E5.
  eapply keeps_loop; [exact E5 |]. intros c b7 b8 Hc E7.
  apply Hel in E7 as (acc & E7). unfold conv_finish in E7. follow.
  pose proof (index4_range n y x c _ _ _ _ Hn Hy Hx Hc) as Hi.
  pose proof (u32_le (((n * dim (tensor_at d 3) 1 + y) * dim (tensor_at d 3) 2 + x)
          * dim (tensor_at d 3) 3 + c) ltac:(lia)).
  eapply keeps_store_i8; [eassumption | lia | lia].
Qed.

Lemma conv2d_frame b stats b' :
  (d_tensor_count d = 4 -> 1 <= t_size (tensor_at d 3)) ->
  RunGem5HybridConv2D d b base elapsed = Ret (stats, b') ->
  out_keeps (tensor_at d 3) b b'.
Proof.
  intros Hpos. unfold RunGem5HybridConv2D.
  destruct (CommonConvValid d false) eqn:Ev; cbn [negb]; [| by intros [= _ <-]].
  intros H. apply bind_ret_inv in H as (ok & _ & H).
  destruct ok; cbn [negb] in H; [| by injection H as _ <-].
  apply bind_ret_inv in H as (b0 & E & H). injection H as _ <-.
  eapply conv_loops_frame; [done | eassumption | eassumption |]. intros n y x c b1 b2 E1.
  unfold conv_element in E1. follow. eauto.
Qed.

Lemma depthwise_frame b stats b' :
  (d_tensor_count d = 4 -> 1 <= t_size (tensor_at d 3)) ->
  RunGem5HybridDepthwiseConv2D d b base elapsed = Ret (stats, b') ->
  out_keeps (tensor_at d 3) b b'.
Proof.
  intros Hpos. unfold RunGem5HybridDepthwiseConv2D.
  destruct (CommonConvValid d true) eqn:Ev; cbn [negb]; [| by intros [= _ <-]].
  intros H. apply bind_ret_inv in H as (ok & _ & H).
  destruct ok; cbn [negb] in H; [| by injection H as _ <-].
  apply bind_ret_inv in H as (b0 & E & H). injection H as _ <-.
  eapply conv_loops_frame; [done | eassumption | eassumption |]. intros n y x c b1 b2 E1.
  unfold depthwise_element in E1. follow. eauto.
Qed.

(** Rows of [depth] elements of [e] bytes. *)
Lemma row_in_tensor row i depth total e :
  0 < depth -> 0 <= total -> 0 <= row < Z.quot total depth -> 0 <= i < depth -> 0 <= e ->
  0 <= e * (row * depth) + e * i /\ e * (row * depth) + e * i + e <= total * e.
Proof.
  intros Hd Ht Hr Hi He. rewrite Z.quot_div_nonneg in Hr by lia.
  pose proof (Z.mul_div_le total depth ltac:(lia)).
  pose proof (index_range row i _ depth Hr Hi). nia.
Qed.

Lemma layer_norm_frame b stats b' :
  RunGem5HybridLayerNorm (Some d) b base elapsed = Ret (stats, b') ->
  out_keeps (tensor_at d 3) b b'.
Proof.
  unfold RunGem5HybridLayerNorm.
  destruct (layer_norm_types_ok d) eqn:Et; cbn [negb]; [| by intros [= _ <-]].
  destruct (layer_norm_shapes_ok d) eqn:Es; cbn [negb]; [| by intros [= _ <-]].
  destruct (layer_norm_epsilon d) as [eps|]; [| by intros [= _ <-]].
  intros H. apply bind_ret_inv in H as (b0 & E & H). injection H as _ <-.
  unfold layer_norm_types_ok, layer_norm_shapes_ok in Et, Es.
  rewrite !andb_true_iff in Et. rewrite !andb_true_iff, !negb_true_iff, !Z.eqb_neq in Es.
  destruct_and!.
  pose proof (same_shape_count _ _ (wf 0) (wf 3) ltac:(done)) as Ec.
  destruct (bytes_match_spec (tensor_at d 3) 4 (wf 3)) as [Hne Hs]; [lia | done |].
  destruct (element_count_spec _ (wf 3) Hne) as (_ & _ & _ & Hp).
  pose proof (dim_nonneg (tensor_at d 0) (Z.to_nat (t_rank (tensor_at d 0) - 1)) (wf 0)).
  fold (last_dim (tensor_at d 0)) in *.
  eapply keeps_loop; [exact E |]. intros row b1 b2 Hr E1.
  unfold layer_norm_row in E1. follow.
  eapply keeps_loop; [eassumption |]. intros i b3 b4 Hi E4. follow.
  pose proof (row_in_tensor row i (last_dim (tensor_at d 0)) (ElementCount (tensor_at d 0)) 4
    ltac:(lia) ltac:(lia) Hr Hi ltac:(lia)) as [? ?].
  eapply keeps_store_f32; [eassumption | lia | lia].
Qed.

Lemma softmax_rows_frame lo n row l b ok b' :
  softmax_rows row l b = Ret (ok, b') ->
  (forall r b ok b', r ∈ l -> row r b = Ret (ok, b') -> keeps lo n b b') -> keeps lo n b b'.
Proof.
  revert b. induction l as [|r l IH]; intros b E Hrow; simpl in E.
  { by injection E as _ <-. }
  apply bind_ret_inv in E as ([ok1 b1] & E1 & E).
  apply Hrow in E1; [| left]. destruct ok1; [| by injection E as _ <-].
  etrans; [exact E1 |]. apply IH; [done |]. intros. eapply Hrow; [by right | done].
Qed.

Lemma softmax_row_f32_frame in_off out_off depth row b ok b' n :
  0 <= row * depth -> 4 * (row * depth) + 4 * depth <= n ->
  softmax_row_f32 expf in_off out_off depth row b = Ret (ok, b') -> keeps out_off n b b'.
Proof.
  intros H0 Hn E. unfold softmax_row_f32 in E.
  apply bind_ret_inv in E as (x0 & _ & E). apply bind_ret_inv in E as (mx & _ & E).
  apply bind_ret_inv in E as ([sum b1] & E1 & E).
  assert (keeps out_off n b b1) as K1.
  { destruct (decide (0 <= depth)) as [Hd|Hd];
      [| rewrite forZ_0 in E1 by lia; by injection E1 as _ <-].
    apply (forZ_inv (fun _ s => keeps out_off n b s.2) depth _ _ _ Hd E1); [done |].
    intros i [s1 b2] [s2 b3] Hi K E2. simpl in *.
    apply bind_ret_inv in E2 as (x & _ & E2). apply bind_ret_inv in E2 as (b4 & E4 & E2).
    apply bind_ret_inv in E2 as (y & _ & E2). injection E2 as _ <-.
    etrans; [exact K |]. eapply keeps_store_f32; [exact E4 | lia | lia]. }
  destruct (_ || _); [by injection E as _ <- |].
  apply bind_ret_inv in E as (b2 & E2 & E). injection E as _ <-.
  etrans; [exact K1 |]. eapply keeps_loop; [eassumption |]. intros i b3 b4 Hi E3. follow.
  eapply keeps_store_f32; [eassumption | lia | lia].
Qed.

Lemma softmax_row_i8_frame in_off out_off depth row b ok b' n :
  0 <= row * depth -> row * depth + depth <= n ->
  softmax_row_i8 expf in_off out_off depth row b = Ret (ok, b') -> keeps out_off n b b'.
Proof.
  intros H0 Hn E. unfold softmax_row_i8 in E.
  apply bind_ret_inv in E as (x0 & _ & E). apply bind_ret_inv in E as (mx & _ & E).
  apply bind_ret_inv in E as (sum & _ & E).
  destruct (_ || _); [by injection E as _ <- |].
  apply bind_ret_inv in E as (b2 & E2 & E). injection E as _ <-.
  eapply keeps_loop; [eassumption |]. intros i b3 b4 Hi E3.
  apply bind_ret_inv in E3 as (x & _ & E3). destruct (f32_lround _); [| done].
  apply bind_ret_inv in E3 as (q & _ & E3).
  eapply keeps_store_i8; [eassumption | lia | lia].
Qed.

Lemma softmax_frame b stats b' :
  RunGem5HybridSoftmax expf (Some d) b base elapsed = Ret (stats, b') ->
  out_keeps (tensor_at d 1) b b'.
Proof.
  unfold RunGem5HybridSoftmax.
  destruct (softmax_ok d) eqn:Et; cbn [negb]; [| by intros [= _ <-]].
  unfold softmax_ok in Et. rewrite !andb_true_iff, !negb_true_iff, !Z.eqb_neq in Et.
  destruct_and!.
  pose proof (same_shape_count _ _ (wf 0) (wf 1) ltac:(done)) as Ec.
  pose proof (dim_nonneg (tensor_at d 0) (Z.to_nat (t_rank (tensor_at d 0) - 1)) (wf 0)).
  fold (last_dim (tensor_at d 0)) in *.
  destruct (element_count_spec (tensor_at d 0) (wf 0)) as (_ & _ & _ & Hp); [done |].
  assert (forall e r, 0 <= e -> r ∈ seqZ 0 (Z.quot (ElementCount (tensor_at d 0))
      (last_dim (tensor_at d 0))) -> 0 <= r * last_dim (tensor_at d 0) /\
      e * (r * last_dim (tensor_at d 0)) + e * last_dim (tensor_at d 0) <=
        ElementCount (tensor_at d 1) * e) as Hrow.
  { intros e r He Hr. apply elem_of_seqZ in Hr.
    pose proof (row_in_tensor r (last_dim (tensor_at d 0) - 1) (last_dim (tensor_at d 0))
      (ElementCount (tensor_at d 0)) e). split; [apply Z.mul_nonneg_nonneg; lia | lia]. }
  intros Hrun. apply bind_ret_inv in Hrun as ([ok b1] & E & Hrun).
  assert (b1 = b') as -> by (destruct ok; by injection Hrun).
  clear Hrun. repeat case_test_in E.
  - rewrite !andb_true_iff in E0. destruct_and!.
    destruct (bytes_match_spec (tensor_at d 1) 4 (wf 1)) as [_ Hs]; [lia | done |].
    eapply softmax_rows_frame; [exact E |]. intros r b1 ok1 b2 Hr E1.
    destruct (Hrow 4 r ltac:(lia) Hr). eapply softmax_row_f32_frame; [| | exact E1]; lia.
  - rewrite !andb_true_iff in E1. destruct_and!.
    destruct (bytes_match_spec (tensor_at d 1) 1 (wf 1)) as [_ Hs]; [lia | done |].
    eapply softmax_rows_frame; [exact E |]. intros r b1 ok1 b2 Hr E2.
    destruct (Hrow 1 r ltac:(lia) Hr). eapply softmax_row_i8_frame; [| | exact E2]; lia.
  - by injection E as _ <-.
Qed.

(** The output tensor of an opcode. *)
Definition output_tensor : coral_operator_tensor :=
  let op := d_opcode d in
  if (op =? CORAL_OPERATOR_OP_MATMUL_INT8) || (op =? CORAL_OPERATOR_OP_ADD_INT8)
  then tensor_at d 2
  else if op =? CORAL_OPERATOR_OP_FULLY_CONNECTED_INT8 then fc_output d
  else if op =? CORAL_OPERATOR_OP_SOFTMAX then tensor_at d 1
  else tensor_at d 3.

(** A kernel the validator let through: its last tensor is not empty. *)
Lemma run_kernel_frame b stats b' :
  (d_tensor_count d = 4 -> 1 <= t_size (tensor_at d 3)) ->
  run_kernel expf d b base elapsed = Some (Ret (stats, b')) ->
  out_keeps output_tensor b b'.
Proof.
  intros Hpos. unfold run_kernel, output_tensor.
  destruct (Z.eqb_spec (d_opcode d) CORAL_OPERATOR_OP_PARTIAL_MOBILENET) as [|_]; [done |].
  destruct (Z.eqb_spec (d_opcode d) CORAL_OPERATOR_OP_CONV_2D_INT8) as [->|_];
    [intros [= E]; by apply conv2d_frame in E |].
  destruct (Z.eqb_spec (d_opcode d) CORAL_OPERATOR_OP_DEPTHWISE_CONV_2D_INT8) as [->|_];
    [intros [= E]; by apply depthwise_frame in E |].
  destruct (Z.eqb_spec (d_opcode d) CORAL_OPERATOR_OP_MATMUL_INT8) as [->|_];
    [intros [= E]; by apply matmul_frame in E |].
  destruct (Z.eqb_spec (d_opcode d) CORAL_OPERATOR_OP_FULLY_CONNECTED_INT8) as [->|_];
    [intros [= E]; by apply fc_frame in E |].
  destruct (Z.eqb_spec (d_opcode d) CORAL_OPERATOR_OP_ADD_INT8) as [->|_];
    [intros [= E]; by apply add_frame in E |].
  destruct (Z.eqb_spec (d_opcode d) CORAL_OPERATOR_OP_SOFTMAX) as [_|_];
    [intros [= E]; by apply softmax_frame in E |].
  destruct (Z.eqb_spec (d_opcode d) CORAL_OPERATOR_OP_LAYER_NORM) as [_|_]; [| done].
  intros [= E]. by apply layer_norm_frame in E.
Qed.

End frames.

Lemma running_wf d : descriptor_wf d -> descriptor_wf (running d).
Proof.
  intros [Hu Hi H64 Ht Hr]. split; try done; cbn in *.
  - assert (is_u32 CORAL_OPERATOR_STATE_RUNNING) by (split; reflexivity || discriminate).
    assert (is_u32 CORAL_OPERATOR_ERROR_NONE) by (split; reflexivity || discriminate).
    rewrite !Forall_cons_iff in Hu. rewrite !Forall_cons_iff. tauto.
  - assert (is_u64 0) by (split; reflexivity || discriminate).
    rewrite !Forall_cons_iff in H64. rewrite !Forall_cons_iff. tauto.
Qed.

Lemma validated_size d base capacity :
  (ValidateGem5HybridDescriptor d base capacity).1 = true ->
  d_tensor_count d = 4 -> length (d_tensors d) = 4%nat -> 1 <= t_size (tensor_at d 3) \/
  t_size (tensor_at d 3) < 0.
Proof.
  unfold ValidateGem5HybridDescriptor. intros H E4 Hl.
  destruct (header_ok d); [| done]. destruct (forallb _ _) eqn:Ef; [| done].
  rewrite forallb_forall in Ef. specialize (Ef (tensor_at d 3)).
  rewrite E4, take_ge in Ef by (rewrite Hl; done).
  unfold tensor_valid, RangeValid in Ef. rewrite !andb_true_iff, !negb_true_iff in Ef.
  rewrite !Z.eqb_neq in Ef. destruct Ef as [_ [[[? _] _] _]]; [| lia].
  apply nth_In. lia.
Qed.

(** Storing a descriptor changes its own bytes. *)
Lemma store_descriptor_keeps b off d :
  length (d_tensors d) = 4%nat -> Forall tensor_wf (d_tensors d) ->
  length (d_reserved d) = 8%nat -> keeps off descriptor_sizeof b (store_descriptor b off d).
Proof.
  intros Ht4 Ht Hr. pose proof (length_head_words d Ht4 Ht) as Hh.
  assert (length (tail_words d) = 18%nat) as Htl.
  { unfold tail_words. rewrite !length_app, Hr. done. }
  assert (forall ws, Forall is_byte (bytes_of_words ws)) as Hbytes.
  { intros ws. apply Forall_join, Forall_fmap, Forall_true. intros w. apply le_bytes_byte. }
  unfold store_descriptor, descriptor_sizeof. split; [done | split].
  - intros Hb. by repeat apply buf_bytes_blit.
  - intros j Hj. rewrite !buf_at_blit, !length_bytes_of_words, Hh, Htl.
    repeat case_decide; (done || lia).
Qed.

(** Two successive changes to two places. *)
Lemma keeps_two lo1 n1 lo2 n2 b1 b2 b3 b4 j :
  keeps lo1 n1 b1 b2 -> keeps lo2 n2 b2 b3 -> keeps lo1 n1 b3 b4 ->
  ~ (lo1 <= j < lo1 + n1) -> ~ (lo2 <= j < lo2 + n2) -> buf_at b4 j = buf_at b1 j.
Proof. intros (_ & _ & H1) (_ & _ & H2) (_ & _ & H3) Hj1 Hj2. by rewrite H3, H2, H1. Qed.

Lemma dispatch_changes expf d off extmem base elapsed ok d' extmem' :
  descriptor_wf d -> 0 <= off -> off + descriptor_sizeof <= buf_len extmem ->
  DispatchGem5HybridOperator expf (fun d b => store_descriptor b off d) d extmem base elapsed
    = Ret (ok, d', extmem') ->
  buf_len extmem' = buf_len extmem /\ (buf_bytes extmem -> buf_bytes extmem') /\
  forall j, ~ (off <= j < off + descriptor_sizeof) ->
    ~ ((ValidateGem5HybridDescriptor d base (buf_len extmem)).1 = true /\
       tensor_off base (output_tensor d) <= j
         < tensor_off base (output_tensor d) + t_size (output_tensor d)) ->
    buf_at extmem' j = buf_at extmem j.
Proof.
  intros Hwf Hoff Hfit. unfold DispatchGem5HybridOperator.
  assert (forall b d1, same_request d d1 ->
    keeps off descriptor_sizeof b (store_descriptor b off d1)) as Hst.
  { intros b d1 ->. apply store_descriptor_keeps; apply Hwf. }
  destruct (ValidateGem5HybridDescriptor d base (buf_len extmem)) as [valid error] eqn:Ev.
  destruct valid; cbn [negb fst].
  - assert (d_tensor_count (running d) = 4 -> 1 <= t_size (tensor_at (running d) 3)) as Hpos.
    { intros E4. destruct (validated_size d base (buf_len extmem)) as [H|H];
        [by rewrite Ev | done | apply Hwf | done |].
      destruct (tensor_at_wf d 3 Hwf) as (_ & H2 & _). unfold is_u32 in H2. lia. }
    set (m1 := store_descriptor extmem off (running d)).
    assert (keeps off descriptor_sizeof extmem m1) as K1 by by apply Hst.
    destruct (run_kernel expf (running d) m1 base elapsed) as [run|] eqn:Ek.
    + intros H. apply bind_ret_inv in H as ([stats m2] & -> & H).
      pose proof (run_kernel_frame expf (running d) base elapsed (running_wf d Hwf)
        m1 stats m2 Hpos Ek) as K2.
      assert (exists m3, extmem' = m3 /\ keeps off descriptor_sizeof m2 m3) as (m3 & -> & K3).
      { destruct stats; injection H as <- <- <-; eexists; (split; [done | by apply Hst]). }
      split; [| split].
      * etrans; [apply K3 |]. etrans; [apply K2 | apply K1].
      * intros Hb. by apply K3, K2, K1.
      * intros j Hj1 Hj2. eapply keeps_two; [exact K1 | exact K2 | exact K3 | done |].
        intros Hj. by apply Hj2.
    + intros [= _ _ <-].
      assert (keeps off descriptor_sizeof extmem (store_descriptor m1 off
        (set_state_error (running d) CORAL_OPERATOR_STATE_ERROR
           CORAL_OPERATOR_ERROR_UNSUPPORTED))) as (K & Kb & Kj)
        by (etrans; [exact K1 | by apply Hst]).
      split; [done | split; [done |]]. intros j Hj _. by apply Kj.
  - intros [= _ _ <-].
    destruct (Hst extmem (set_state_error d CORAL_OPERATOR_STATE_ERROR error))
      as (K & Kb & Kj); [done |].
    split; [done | split; [done |]]. intros j Hj _. by apply Kj.
Qed.

(** C11: whatever the firmware put into a descriptor, a dispatch that returns
    has changed nothing in the external memory but the descriptor itself and,
    when the descriptor was valid, the bytes of its output tensor: the size of
    the memory and every other byte are as before. *)
Theorem dispatch_frame expf d off extmem base elapsed ok d' extmem' :
  descriptor_wf d -> 0 <= off -> off + descriptor_sizeof <= buf_len extmem ->
  DispatchGem5HybridOperator expf (fun d b => store_descriptor b off d) d extmem base elapsed
    = Ret (ok, d', extmem') ->
  buf_len extmem' = buf_len extmem /\ (buf_bytes extmem -> buf_bytes extmem') /\
  forall j, ~ (off <= j < off + descriptor_sizeof) ->
    ~ ((ValidateGem5HybridDescriptor d base (buf_len extmem)).1 = true /\
       tensor_off base (output_tensor d) <= j
         < tensor_off base (output_tensor d) + t_size (output_tensor d)) ->
    buf_at extmem' j = buf_at extmem j.
Proof. apply dispatch_changes. Qed.

Lemma dispatch_frame_witness :
  exists d' m', DispatchGem5HybridOperator no_exp (fun d b => store_descriptor b 64 d)
      sample_conv (buf_blit (buf_new 512) 0 (buf_slice sample_conv_mem 0 64))
      0x20000000 0 = Ret (true, d', m') /\ buf_len m' = 512.
Proof.
  destruct (DispatchGem5HybridOperator no_exp (fun d b => store_descriptor b 64 d)
      sample_conv (buf_blit (buf_new 512) 0 (buf_slice sample_conv_mem 0 64))
      0x20000000 0) as [[[ok d'] m']| | |] eqn:E; [| vm_compute in E; discriminate E ..].
  exists d', m'.
  assert (ok = true) as ->.
  { apply (f_equal (fun r => match r with Ret (ok, _, _) => ok | _ => false end)) in E.
    vm_compute in E. by symmetry. }
  split; [done |].
  refine (proj1 (dispatch_frame no_exp sample_conv 64
    (buf_blit (buf_new 512) 0 (buf_slice sample_conv_mem 0 64)) 0x20000000 0 true d' m'
    _ _ _ E)).
  - split; cbn; unfold is_u32, is_i32, is_u64, tensor_wf;
      repeat (split || constructor); vm_compute; congruence.
  - lia.
  - vm_compute. discriminate.
Defined.
