(* ===== verification/EnvParse.v ===== *)
(** * The environment settings of the bridge

    [ReadEnvU64], [TokenEquals], [ParseSampledRtlMask] and their helpers of
    [coralnpu_gem5_abi.cc].  A C string is the list of its bytes without the
    terminator; [getenv] is the argument ([None] when the variable is unset).
    [strtoull] with base 0 follows the C standard. *)

From S2P Require Import Prelude Operator.

(** ** The C library *)

Definition isspace (c : Z) : bool := (c =? 32) || ((9 <=? c) && (c <=? 13)).

(** The value of a digit character, [None] for any other. *)
Definition digit_value (c : Z) : option Z :=
  if (48 <=? c) && (c <=? 57) then Some (c - 48)
  else if (97 <=? c) && (c <=? 122) then Some (c - 87)
  else if (65 <=? c) && (c <=? 90) then Some (c - 55)
  else None.

Fixpoint skip_spaces (s : list Z) : list Z :=
  match s with
  | c :: r => if isspace c then skip_spaces r else s
  | [] => []
  end.

(** The digits of [s] in the base, from the value so far; the flag says
    whether a digit was read. *)
Fixpoint scan_digits (base : Z) (s : list Z) (v : Z) (any : bool) : Z * list Z * bool :=
  match s with
  | c :: r =>
      match digit_value c with
      | Some d => if d <? base then scan_digits base r (v * base + d) true else (v, s, any)
      | None => (v, s, any)
      end
  | [] => (v, [], any)
  end.

(** The base of the subject sequence and the sequence behind its prefix. *)
Definition scan_prefix (s : list Z) : Z * list Z :=
  match s with
  | 48 :: x :: c :: r =>
      if ((x =? 120) || (x =? 88)) &&
         (match digit_value c with Some d => d <? 16 | None => false end)
      then (16, c :: r) else (8, s)
  | 48 :: _ => (8, s)
  | _ => (10, s)
  end.

(** [strtoull(s, &end, 0)]: the value and what [end] points to. *)
Definition strtoull (s : list Z) : Z * list Z :=
  let s1 := skip_spaces s in
  let '(neg, s2) :=
    match s1 with
    | c :: r => if c =? 45 then (true, r) else if c =? 43 then (false, r) else (false, s1)
    | [] => (false, [])
    end in
  let '(base, s3) := scan_prefix s2 in
  let '(v, rest, any) := scan_digits base s3 0 false in
  if any then
    ((if UINT64_MAX <? v then UINT64_MAX else if (neg : bool) then u64 (- v) else v), rest)
  else (0, s).

(** ** The bridge's settings *)

Definition ReadEnvU64 (text : option (list Z)) (default_value : Z) : Z :=
  match text with
  | None | Some [] => default_value
  | Some s =>
      let '(value, end_) := strtoull s in
      if negb (Nat.eqb (length end_) (length s)) && (Nat.eqb (length end_) 0)
         && negb (value =? 0)
      then value else default_value
  end.

Definition DivCeil (value divisor : Z) : Z :=
  if value =? 0 then 0 else 1 + (value - 1) / divisor.

Definition IsHexMaskText (text : list Z) : bool :=
  match text with
  | 48 :: c :: _ => (c =? 120) || (c =? 88)
  | _ => false
  end.

Definition OperatorMaskBit (opcode : Z) : Z :=
  if opcode <? 32 then u32 (Z.shiftl 1 opcode) else 0.

(** The token without the blanks at its ends is the name. *)
Definition TokenEquals (token name : list Z) : bool :=
  let trimmed := rev (skip_spaces (rev (skip_spaces token))) in
  bool_decide (trimmed = name).

(** The names of the operators, as bytes. *)
Definition n_none : list Z := [110; 111; 110; 101].
Definition n_all : list Z := [97; 108; 108].
Definition n_conv : list Z := [99; 111; 110; 118].
Definition n_depthwise : list Z := [100; 101; 112; 116; 104; 119; 105; 115; 101].
Definition n_matmul : list Z := [109; 97; 116; 109; 117; 108].
Definition n_fc : list Z := [102; 99].
Definition n_fully_connected : list Z :=
  [102; 117; 108; 108; 121; 95; 99; 111; 110; 110; 101; 99; 116; 101; 100].
Definition n_add : list Z := [97; 100; 100].
Definition n_softmax : list Z := [115; 111; 102; 116; 109; 97; 120].
Definition n_layernorm : list Z := [108; 97; 121; 101; 114; 110; 111; 114; 109].
Definition n_layer_norm : list Z := [108; 97; 121; 101; 114; 95; 110; 111; 114; 109].

(** The bit one token adds. *)
Definition token_mask (token : list Z) : Z :=
  if TokenEquals token n_conv then OperatorMaskBit CORAL_OPERATOR_OP_CONV_2D_INT8
  else if TokenEquals token n_depthwise then
    OperatorMaskBit CORAL_OPERATOR_OP_DEPTHWISE_CONV_2D_INT8
  else if TokenEquals token n_matmul then OperatorMaskBit CORAL_OPERATOR_OP_MATMUL_INT8
  else if TokenEquals token n_fc || TokenEquals token n_fully_connected then
    OperatorMaskBit CORAL_OPERATOR_OP_FULLY_CONNECTED_INT8
  else if TokenEquals token n_add then OperatorMaskBit CORAL_OPERATOR_OP_ADD_INT8
  else if TokenEquals token n_softmax then OperatorMaskBit CORAL_OPERATOR_OP_SOFTMAX
  else if TokenEquals token n_layernorm || TokenEquals token n_layer_norm then
    OperatorMaskBit CORAL_OPERATOR_OP_LAYER_NORM
  else 0.

(** The loop over the text: [token] is what lies between [token_begin] and
    [p]; a comma or the end closes it. *)
Fixpoint parse_tokens (token s : list Z) (mask : Z) : Z :=
  match s with
  | [] => Z.lor mask (token_mask token)
  | c :: r =>
      if c =? 44 then parse_tokens [] r (Z.lor mask (token_mask token))
      else parse_tokens (token ++ [c]) r mask
  end.

Definition all_mask : Z :=
  foldr Z.lor 0 (OperatorMaskBit <$>
    [CORAL_OPERATOR_OP_CONV_2D_INT8; CORAL_OPERATOR_OP_DEPTHWISE_CONV_2D_INT8;
     CORAL_OPERATOR_OP_MATMUL_INT8; CORAL_OPERATOR_OP_FULLY_CONNECTED_INT8;
     CORAL_OPERATOR_OP_ADD_INT8; CORAL_OPERATOR_OP_SOFTMAX; CORAL_OPERATOR_OP_LAYER_NORM]).

Definition ParseSampledRtlMask (text : option (list Z)) : Z :=
  match text with
  | None | Some [] => 0
  | Some s =>
      if bool_decide (s = n_none) then 0
      else if bool_decide (s = n_all) then all_mask
      else if IsHexMaskText s then u32 (strtoull s).1
      else parse_tokens [] s 0
  end.

(** ** Decimal settings *)

(** The decimal digits of a positive number, most significant first. *)
Fixpoint decimal_fuel (fuel : nat) (n : Z) (acc : list Z) : list Z :=
  match fuel with
  | O => acc
  | S fuel =>
      let acc := (48 + n mod 10) :: acc in
      if n <? 10 then acc else decimal_fuel fuel (n / 10) acc
  end.
Definition decimal (n : Z) : list Z := decimal_fuel 20 n [].

Lemma digit_value_decimal d : 0 <= d < 10 -> digit_value (48 + d) = Some d.
Proof.
  intros Hd. unfold digit_value.
  rewrite (proj2 (Z.leb_le 48 _)), (proj2 (Z.leb_le _ 57)) by lia. cbn [andb]. f_equal. lia.
Qed.

(** Scanning the digits of [n] in front of [r]. *)
Lemma scan_decimal fuel : forall n acc v any,
  1 <= n < 10 ^ Z.of_nat fuel ->
  exists k m, 0 <= k /\ 0 <= n < 10 ^ (k + 1) /\ m = true /\
    scan_digits 10 (decimal_fuel fuel n acc) v any =
      scan_digits 10 acc (v * 10 ^ (k + 1) + n) m.
Proof.
  induction fuel as [|fuel IH]; intros n acc v any Hn.
  { simpl in Hn. lia. }
  simpl. pose proof (Z.mod_pos_bound n 10 ltac:(lia)).
  destruct (Z.ltb_spec n 10).
  - exists 0, true. split; [lia | split; [lia | split; [done |]]]. simpl.
    rewrite digit_value_decimal by done. rewrite (proj2 (Z.ltb_lt _ 10)) by lia.
    rewrite Z.mod_small by lia. done.
  - replace (Z.of_nat (S fuel)) with (Z.of_nat fuel + 1) in Hn by lia.
    rewrite Z.pow_add_r in Hn by lia.
    destruct (IH (n / 10) ((48 + n mod 10) :: acc) v any) as (k & m & Hk & Hb & -> & ->).
    { split; [apply Z.div_le_lower_bound; lia | apply Z.div_lt_upper_bound; lia]. }
    exists (k + 1), true. split; [lia |]. rewrite (Z.pow_add_r 10 (k + 1) 1) by lia.
    pose proof (Z.div_mod n 10 ltac:(lia)). split; [lia | split; [done |]]. simpl.
    rewrite digit_value_decimal by done. rewrite (proj2 (Z.ltb_lt _ 10)) by lia.
    f_equal. lia.
Qed.

(** The first character of a decimal number. *)
Lemma decimal_head fuel : forall n acc,
  1 <= n < 10 ^ Z.of_nat fuel ->
  exists d r, decimal_fuel fuel n acc = (48 + d) :: r /\ 1 <= d < 10.
Proof.
  induction fuel as [|fuel IH]; intros n acc Hn.
  { simpl in Hn. lia. }
  simpl. destruct (Z.ltb_spec n 10).
  - eexists (n mod 10), acc. split; [done |]. rewrite Z.mod_small; lia.
  - replace (Z.of_nat (S fuel)) with (Z.of_nat fuel + 1) in Hn by lia.
    rewrite Z.pow_add_r in Hn by lia. apply IH.
    split; [apply Z.div_le_lower_bound; lia | apply Z.div_lt_upper_bound; lia].
Qed.

Lemma strtoull_decimal n : 1 <= n <= UINT64_MAX -> strtoull (decimal n) = (n, []).
Proof.
  intros Hn. unfold strtoull, decimal.
  destruct (decimal_head 20 n []) as (d & r & E & Hd); [simpl; lia |].
  destruct (scan_decimal 20 n [] 0 false) as (k & m & _ & _ & -> & Es); [simpl; lia |].
  rewrite E in *. cbn [skip_spaces]. unfold isspace.
  replace (48 + d =? 32) with false by lia. replace (48 + d <=? 13) with false by lia.
  rewrite andb_false_r. cbn [orb].
  replace (48 + d =? 45) with false by lia. replace (48 + d =? 43) with false by lia.
  assert (scan_prefix ((48 + d) :: r) = (10, (48 + d) :: r)) as ->.
  { assert (d = 1 \/ d = 2 \/ d = 3 \/ d = 4 \/ d = 5 \/ d = 6 \/ d = 7 \/ d = 8 \/ d = 9)
      as Hcase by lia.
    by destruct Hcase as [-> | [-> | [-> | [-> | [-> | [-> | [-> | [-> | ->]]]]]]]]. }
  rewrite Es. cbn [scan_digits]. rewrite Z.mul_0_l, Z.add_0_l.
  by rewrite (proj2 (Z.ltb_ge UINT64_MAX n)) by lia.
Qed.

(** ** Tokens *)

(** The comma-separated pieces of a text. *)
Fixpoint split_commas (token s : list Z) : list (list Z) :=
  match s with
  | [] => [token]
  | c :: r => if c =? 44 then token :: split_commas [] r else split_commas (token ++ [c]) r
  end.

Lemma parse_tokens_split token s mask :
  parse_tokens token s mask = foldl (fun m t => Z.lor m (token_mask t)) mask (split_commas token s).
Proof.
  revert token mask. induction s as [|c s IH]; intros token mask; simpl; [done |].
  destruct (c =? 44); simpl; apply IH.
Qed.

Lemma testbit_fold_tokens l mask k :
  Z.testbit (foldl (fun m t => Z.lor m (token_mask t)) mask l) k =
    Z.testbit mask k || existsb (fun t => Z.testbit (token_mask t) k) l.
Proof.
  revert mask. induction l as [|t l IH]; intros mask; simpl; [by rewrite orb_false_r |].
  rewrite IH, Z.lor_spec. by rewrite orb_assoc.
Qed.

Lemma digit_value_range c d : digit_value c = Some d -> 0 <= d.
Proof.
  unfold digit_value.
  repeat (case_test; [bool_prop; intros [= <-]; lia |]). discriminate.
Qed.

Lemma scan_digits_nonneg base s : forall v any,
  0 <= base -> 0 <= v -> 0 <= (scan_digits base s v any).1.1.
Proof.
  induction s as [|c s IH]; intros v any Hb Hv; simpl; [done |].
  destruct (digit_value c) as [d|] eqn:E; [| done].
  destruct (d <? base); [| done]. apply IH; [done |].
  pose proof (digit_value_range c d E). nia.
Qed.

Lemma strtoull_range s : 0 <= (strtoull s).1 <= UINT64_MAX.
Proof.
  unfold strtoull.
  destruct (match skip_spaces s with [] => _ | _ => _ end) as [neg s2].
  destruct (scan_prefix s2) as [base s3] eqn:Ep.
  assert (0 <= base) as Hb.
  { unfold scan_prefix in Ep. repeat case_match; injection Ep as <- <-; lia. }
  pose proof (scan_digits_nonneg base s3 0 false Hb ltac:(lia)) as Hv.
  destruct (scan_digits base s3 0 false) as [[v rest] any]. simpl in Hv.
  destruct any; simpl; [| lia].
  destruct (Z.ltb_spec UINT64_MAX v); [lia |].
  destruct neg; [| lia]. pose proof (wrap_range 64 (- v) ltac:(lia)). lia.
Qed.

Lemma read_env_positive text default_value :
  0 < default_value -> 0 < ReadEnvU64 text default_value <= Z.max default_value UINT64_MAX.
Proof.
  intros Hd. unfold ReadEnvU64. destruct text as [[|c s]|]; [lia | | lia].
  pose proof (strtoull_range (c :: s)) as Hr.
  destruct (strtoull (c :: s)) as [value end_]. simpl in Hr.
  destruct (_ && _ && _) eqn:Eb; [| lia].
  rewrite !andb_true_iff, !negb_true_iff, Z.eqb_neq in Eb. lia.
Qed.

(** ** Properties *)

(** A setting written as a decimal number from 1 to [2^64 - 1] is read
    back exactly; and whatever the environment says, a setting whose default
    is positive is positive and fits 64 bits, so that the latency model never
    divides by zero. *)
Theorem env_setting_exact n default_value text :
  1 <= n <= UINT64_MAX -> 0 < default_value <= UINT64_MAX ->
  ReadEnvU64 (Some (decimal n)) default_value = n /\
  0 < ReadEnvU64 text default_value <= UINT64_MAX.
Proof.
  intros Hn Hd. split.
  - unfold ReadEnvU64. rewrite (strtoull_decimal n Hn). unfold decimal.
    destruct (decimal_head 20 n []) as (d & r & E & _); [simpl; lia |]. rewrite E. simpl.
    by rewrite (proj2 (Z.eqb_neq n 0)) by lia.
  - pose proof (read_env_positive text default_value ltac:(lia)). lia.
Qed.

Lemma env_setting_witness :
  ReadEnvU64 (Some [52; 48; 57; 54]) 16 = 4096 /\ 0 < ReadEnvU64 (Some [48]) 16.
Proof.
  destruct (env_setting_exact 4096 16 (Some [48])) as [H1 H2]; [lia | lia |].
  split; [exact H1 | lia].
Defined.

(** The sampled-RTL mask of a comma-separated list has exactly the bits of
    the operators its tokens name, in any order, with blanks around them and
    with unknown tokens ignored; only bits of operators that exist can come
    from such a list. *)
Theorem sampled_mask_bits s k :
  s <> [] -> s <> n_none -> s <> n_all -> IsHexMaskText s = false -> 0 <= k ->
  (Z.testbit (ParseSampledRtlMask (Some s)) k = true <->
   exists t, t ∈ split_commas [] s /\ Z.testbit (token_mask t) k = true) /\
  (Z.testbit (ParseSampledRtlMask (Some s)) k = true -> 2 <= k <= 8).
Proof.
  intros Hne Hnone Hall Hhex Hk. unfold ParseSampledRtlMask.
  destruct s as [|c s']; [done |]. rewrite !bool_decide_eq_false_2, Hhex by done.
  rewrite parse_tokens_split, testbit_fold_tokens, Z.bits_0. cbn [orb].
  rewrite existsb_exists. split.
  - split; intros (t & Ht & Hb); exists t; (split; [| done]); by apply list_elem_of_In.
  - intros (t & _ & Hb). unfold token_mask in Hb.
    repeat case_test_in Hb;
      try (by rewrite Z.bits_0 in Hb);
      match type of Hb with Z.testbit ?m k = true =>
        let v := eval vm_compute in m in change m with v in Hb;
        let j := eval vm_compute in (Z.log2 v) in
        change v with (2 ^ j) in Hb; rewrite Z.pow2_bits_eqb in Hb by lia;
        apply Z.eqb_eq in Hb; lia end.
Qed.

Lemma sampled_mask_witness :
  Z.testbit (ParseSampledRtlMask (Some (n_add ++ [44; 32] ++ n_fc ++ [32]))) 5 = true.
Proof.
  apply (sampled_mask_bits (n_add ++ [44; 32] ++ n_fc ++ [32]) 5); try discriminate;
    [reflexivity |].
  exists ([32] ++ n_fc ++ [32]). split; [| vm_compute; reflexivity].
  apply list_elem_of_lookup_2 with (i := 1%nat). reflexivity.
Defined.
