(* ===== verification/Bridge.v ===== *)
(** * The bridge between the RTL core and gem5

    [coral_gem5_handle] of [coralnpu_gem5_abi.cc]: the callbacks that answer
    the core's AXI master port, and the C interface gem5's back end calls.
    The core and its AXI drivers ([Gem5CoreMiniAxiWrapper]) are a class: a
    clock step may hand the handle any reads and writes of the core.  The wall
    clock is an input ([now] and [elapsed], in nanoseconds); [highmem] is the
    build switch CORAL_GEM5_RVV_HIGHMEM.  A descriptor may lie at any byte
    offset, as on the simulator's hosts. *)

From Stdlib Require Import SpecFloat.
From S2P Require Import Prelude Axi CustomMac Operator Kernels KernelSpec HybridDispatch.
From S2P Require Import EnvParse.

Definition kExtmemBase : Z := 0x20000000.
Definition kExtmemSize : Z := 8 * 1024 * 1024.
Definition kShellCsrBase : Z := 0x00030000.
Definition kCsrSize : Z := 0x00001000.
Definition kRtlCsrBase : Z := 0x00200000.
Definition PROGRESS_ADDR : Z := 0x30000020.
Definition PROGRESS_CONV_BEGIN : Z := 0x4d4e0600.
Definition PROGRESS_CONV_END : Z := 0x4d4e0601.
Definition PROGRESS_DEPTHWISE_BEGIN : Z := 0x4d4e0700.
Definition PROGRESS_DEPTHWISE_END : Z := 0x4d4e0701.
Definition kFirmwareProgressAddr : Z := PROGRESS_ADDR.

Definition TranslateSlaveAddress (highmem : bool) (addr : Z) : Z :=
  if highmem && (kShellCsrBase <=? addr) && (addr <? u32 (kShellCsrBase + kCsrSize))
  then u32 (kRtlCsrBase + u32 (addr - kShellCsrBase)) else addr.

Definition IsCustomWordAccess (a : AxiAddr) : bool :=
  (addr_bits_len a =? 0) && (addr_bits_size a =? 2) && (addr_bits_burst a =? 1)
  && (Z.land (addr_bits_addr a) 3 =? 0).

Definition IsHybridWordAccess (a : AxiAddr) : bool :=
  (addr_bits_len a =? 0) && (addr_bits_size a =? 2) && (addr_bits_burst a =? 1)
  && (Z.land (addr_bits_addr a) 3 =? 0)
  && (CORAL_OPERATOR_MMIO_BASE <=? addr_bits_addr a)
  && (addr_bits_addr a <? CORAL_OPERATOR_MMIO_BASE + 0x100).

Definition AccessWidthBucket (size : Z) : nat :=
  if size =? 1 then 0%nat else if size =? 2 then 1%nat else if size =? 4 then 2%nat
  else if size =? 8 then 3%nat else if size =? 16 then 4%nat else 5%nat.

(** ** State *)

Record HybridOperatorStats := {
  hs_count : Z; hs_host_ns : Z; hs_operations : Z; hs_modeled_cycles : Z; hs_bytes : Z }.

Definition hybrid_stats_zero : HybridOperatorStats :=
  {| hs_count := 0; hs_host_ns := 0; hs_operations := 0; hs_modeled_cycles := 0;
     hs_bytes := 0 |}.

Record OperatorPhaseStats := {
  ps_count : Z; ps_rtl_cycles : Z; ps_wall_ms : Z; ps_extmem_accesses : Z;
  ps_extmem_bytes : Z; ps_active : bool; ps_begin_cycles : Z; ps_begin_accesses : Z;
  ps_begin_bytes : Z; ps_begin_wall_time : Z }.

Definition phase_stats_zero : OperatorPhaseStats :=
  {| ps_count := 0; ps_rtl_cycles := 0; ps_wall_ms := 0; ps_extmem_accesses := 0;
     ps_extmem_bytes := 0; ps_active := false; ps_begin_cycles := 0;
     ps_begin_accesses := 0; ps_begin_bytes := 0; ps_begin_wall_time := 0 |}.

(** The counters of the local external memory. *)
Record extmem_counters := {
  local_extmem_reads : Z; local_extmem_writes : Z; local_extmem_bytes : Z;
  local_extmem_widths : list Z }.

Definition counters_zero : extmem_counters :=
  {| local_extmem_reads := 0; local_extmem_writes := 0; local_extmem_bytes := 0;
     local_extmem_widths := replicate 6 0 |}.

Record latency_model := {
  hybrid_ops_per_cycle : Z; hybrid_bytes_per_cycle : Z; hybrid_fixed_cycles : Z }.

Record progress_marks := {
  progress_cycles : Z; progress_accesses : Z; progress_bytes : Z;
  progress_wall_time : Z }.

Record dma_slot := {
  pending_dma : coral_gem5_dma_request; dma_pending : bool;
  dma_beat_size : Z; dma_beat_count : Z }.

(** The handle, without the wrapper. *)
Record coral_gem5_handle := {
  custom_mac : Gem5CustomMac;
  firmware_progress : Z;
  operator_mode : Z;
  sampled_rtl_mask : Z;
  hybrid_status : Z;
  local_extmem_enabled : bool;
  local_extmem : buf;
  counters : extmem_counters;
  rtl_cycles : Z;
  latency : latency_model;
  marks : progress_marks;
  hybrid_operator_stats : list HybridOperatorStats;
  operator_phase_stats : list OperatorPhaseStats;
  dma : dma_slot }.

(** Assignments to members of the handle. *)
Definition with_mac (m : Gem5CustomMac) (h : coral_gem5_handle) : coral_gem5_handle :=
  {| custom_mac := m; firmware_progress := firmware_progress h;
     operator_mode := operator_mode h; sampled_rtl_mask := sampled_rtl_mask h;
     hybrid_status := hybrid_status h; local_extmem_enabled := local_extmem_enabled h;
     local_extmem := local_extmem h; counters := counters h; rtl_cycles := rtl_cycles h;
     latency := latency h; marks := marks h;
     hybrid_operator_stats := hybrid_operator_stats h;
     operator_phase_stats := operator_phase_stats h; dma := dma h |}.

Definition with_dma (d : dma_slot) (h : coral_gem5_handle) : coral_gem5_handle :=
  {| custom_mac := custom_mac h; firmware_progress := firmware_progress h;
     operator_mode := operator_mode h; sampled_rtl_mask := sampled_rtl_mask h;
     hybrid_status := hybrid_status h; local_extmem_enabled := local_extmem_enabled h;
     local_extmem := local_extmem h; counters := counters h; rtl_cycles := rtl_cycles h;
     latency := latency h; marks := marks h;
     hybrid_operator_stats := hybrid_operator_stats h;
     operator_phase_stats := operator_phase_stats h; dma := d |}.

Definition with_extmem (enabled : bool) (m : buf) (c : extmem_counters)
    (h : coral_gem5_handle) : coral_gem5_handle :=
  {| custom_mac := custom_mac h; firmware_progress := firmware_progress h;
     operator_mode := operator_mode h; sampled_rtl_mask := sampled_rtl_mask h;
     hybrid_status := hybrid_status h; local_extmem_enabled := enabled;
     local_extmem := m; counters := c; rtl_cycles := rtl_cycles h;
     latency := latency h; marks := marks h;
     hybrid_operator_stats := hybrid_operator_stats h;
     operator_phase_stats := operator_phase_stats h; dma := dma h |}.

(** The outcome of a doorbell. *)
Definition with_hybrid (status : Z) (m : buf) (stats : list HybridOperatorStats)
    (h : coral_gem5_handle) : coral_gem5_handle :=
  {| custom_mac := custom_mac h; firmware_progress := firmware_progress h;
     operator_mode := operator_mode h; sampled_rtl_mask := sampled_rtl_mask h;
     hybrid_status := status; local_extmem_enabled := local_extmem_enabled h;
     local_extmem := m; counters := counters h; rtl_cycles := rtl_cycles h;
     latency := latency h; marks := marks h; hybrid_operator_stats := stats;
     operator_phase_stats := operator_phase_stats h; dma := dma h |}.

(** The outcome of a progress write. *)
Definition with_progress (value : Z) (k : progress_marks) (ps : list OperatorPhaseStats)
    (h : coral_gem5_handle) : coral_gem5_handle :=
  {| custom_mac := custom_mac h; firmware_progress := value;
     operator_mode := operator_mode h; sampled_rtl_mask := sampled_rtl_mask h;
     hybrid_status := hybrid_status h; local_extmem_enabled := local_extmem_enabled h;
     local_extmem := local_extmem h; counters := counters h; rtl_cycles := rtl_cycles h;
     latency := latency h; marks := k; hybrid_operator_stats := hybrid_operator_stats h;
     operator_phase_stats := ps; dma := dma h |}.

Definition with_cycles (n : Z) (h : coral_gem5_handle) : coral_gem5_handle :=
  {| custom_mac := custom_mac h; firmware_progress := firmware_progress h;
     operator_mode := operator_mode h; sampled_rtl_mask := sampled_rtl_mask h;
     hybrid_status := hybrid_status h; local_extmem_enabled := local_extmem_enabled h;
     local_extmem := local_extmem h; counters := counters h; rtl_cycles := n;
     latency := latency h; marks := marks h;
     hybrid_operator_stats := hybrid_operator_stats h;
     operator_phase_stats := operator_phase_stats h; dma := dma h |}.

(** The environment variables the constructor reads. *)
Record bridge_env := {
  env_sampled_rtl_ops : option (list Z); env_ops_per_cycle : option (list Z);
  env_bytes_per_cycle : option (list Z); env_fixed_cycles : option (list Z) }.

(** The constructor. *)
Definition coral_gem5_handle_init (env : bridge_env) (powerup : mac_regs) (now : Z) :
    coral_gem5_handle :=
  {| custom_mac := custom_mac_init powerup; firmware_progress := 0; operator_mode := 0;
     sampled_rtl_mask := ParseSampledRtlMask (env_sampled_rtl_ops env);
     hybrid_status := 0; local_extmem_enabled := false;
     local_extmem := buf_new kExtmemSize; counters := counters_zero; rtl_cycles := 0;
     latency := {| hybrid_ops_per_cycle := ReadEnvU64 (env_ops_per_cycle env) 1;
                   hybrid_bytes_per_cycle := ReadEnvU64 (env_bytes_per_cycle env) 16;
                   hybrid_fixed_cycles := ReadEnvU64 (env_fixed_cycles env) 0 |};
     marks := {| progress_cycles := 0; progress_accesses := 0; progress_bytes := 0;
                 progress_wall_time := now |};
     hybrid_operator_stats := replicate 32 hybrid_stats_zero;
     operator_phase_stats := replicate 32 phase_stats_zero;
     dma := {| pending_dma := dma_request_zero; dma_pending := false;
               dma_beat_size := 0; dma_beat_count := 0 |} |}.

(** ** Operator phases *)

(** The opcode and the direction of a progress marker. *)
Definition phase_marker (marker : Z) : option (Z * bool) :=
  if marker =? PROGRESS_CONV_BEGIN then Some (CORAL_OPERATOR_OP_CONV_2D_INT8, true)
  else if marker =? PROGRESS_CONV_END then Some (CORAL_OPERATOR_OP_CONV_2D_INT8, false)
  else if marker =? PROGRESS_DEPTHWISE_BEGIN then
    Some (CORAL_OPERATOR_OP_DEPTHWISE_CONV_2D_INT8, true)
  else if marker =? PROGRESS_DEPTHWISE_END then
    Some (CORAL_OPERATOR_OP_DEPTHWISE_CONV_2D_INT8, false)
  else None.

Definition phase_begin (cycles accesses bytes now : Z) (s : OperatorPhaseStats) :
    OperatorPhaseStats :=
  {| ps_count := ps_count s; ps_rtl_cycles := ps_rtl_cycles s;
     ps_wall_ms := ps_wall_ms s; ps_extmem_accesses := ps_extmem_accesses s;
     ps_extmem_bytes := ps_extmem_bytes s; ps_active := true;
     ps_begin_cycles := cycles; ps_begin_accesses := accesses;
     ps_begin_bytes := bytes; ps_begin_wall_time := now |}.

Definition phase_end (cycles accesses bytes now : Z) (s : OperatorPhaseStats) :
    OperatorPhaseStats :=
  if negb (ps_active s) || (cycles <? ps_begin_cycles s)
     || (accesses <? ps_begin_accesses s) || (bytes <? ps_begin_bytes s)
  then s
  else
    {| ps_count := u64 (ps_count s + 1);
       ps_rtl_cycles := u64 (ps_rtl_cycles s + (cycles - ps_begin_cycles s));
       ps_wall_ms := u64 (ps_wall_ms s + u64 (Z.quot (now - ps_begin_wall_time s) 1000000));
       ps_extmem_accesses := u64 (ps_extmem_accesses s + (accesses - ps_begin_accesses s));
       ps_extmem_bytes := u64 (ps_extmem_bytes s + (bytes - ps_begin_bytes s));
       ps_active := false; ps_begin_cycles := ps_begin_cycles s;
       ps_begin_accesses := ps_begin_accesses s; ps_begin_bytes := ps_begin_bytes s;
       ps_begin_wall_time := ps_begin_wall_time s |}.

(** The phase statistics after the marker. *)
Definition TrackOperatorPhase (marker now accesses : Z) (h : coral_gem5_handle) :
    list OperatorPhaseStats :=
  match phase_marker marker with
  | None => operator_phase_stats h
  | Some (opcode, begin) =>
      let bytes := local_extmem_bytes (counters h) in
      alter (fun s => if begin then phase_begin (rtl_cycles h) accesses bytes now s
                      else phase_end (rtl_cycles h) accesses bytes now s)
        (Z.to_nat opcode) (operator_phase_stats h)
  end.

(** ** The read callback *)

Definition capabilities (highmem : bool) : Z :=
  if highmem then
    Z.lor (Z.shiftl 1 CORAL_OPERATOR_OP_CONV_2D_INT8)
   (Z.lor (Z.shiftl 1 CORAL_OPERATOR_OP_DEPTHWISE_CONV_2D_INT8)
   (Z.lor (Z.shiftl 1 CORAL_OPERATOR_OP_MATMUL_INT8)
   (Z.lor (Z.shiftl 1 CORAL_OPERATOR_OP_FULLY_CONNECTED_INT8)
   (Z.lor (Z.shiftl 1 CORAL_OPERATOR_OP_ADD_INT8)
   (Z.lor (Z.shiftl 1 CORAL_OPERATOR_OP_SOFTMAX)
          (Z.shiftl 1 CORAL_OPERATOR_OP_LAYER_NORM))))))
  else 0.

(** The operator registers. *)
Definition operator_register (highmem : bool) (h : coral_gem5_handle) (addr : Z) : Z :=
  if addr =? CORAL_OPERATOR_MODE_REG then operator_mode h
  else if addr =? CORAL_OPERATOR_STATUS_REG then hybrid_status h
  else if addr =? CORAL_OPERATOR_SAMPLED_RTL_MASK_REG then sampled_rtl_mask h
  else if addr =? CORAL_OPERATOR_CAPABILITIES_REG then capabilities highmem
  else 0.

(** A one-beat answer with a 32-bit value on the address's lanes. *)
Definition word_answer (a : AxiAddr) (value : Z) : AxiRData :=
  {| read_data_bits_data := lane_data (Z.land (addr_bits_addr a) 15) (le_bytes 4 value);
     read_data_bits_id := addr_bits_id a; read_data_bits_resp := 0;
     read_data_bits_last := 1 |}.

(** The request falls in the local external memory. *)
Definition is_local (h : coral_gem5_handle) (r : coral_gem5_dma_request) : bool :=
  local_extmem_enabled h && (kExtmemBase <=? req_addr r)
  && (u32 (req_addr r - kExtmemBase) <=? u64 (buf_len (local_extmem h) - req_size r)).

Definition count_widths (c : extmem_counters) (size : Z) : list Z :=
  alter (fun n => u64 (n + 1)) (AccessWidthBucket size) (local_extmem_widths c).

Definition count_read (c : extmem_counters) (size : Z) : extmem_counters :=
  {| local_extmem_reads := u64 (local_extmem_reads c + 1);
     local_extmem_writes := local_extmem_writes c;
     local_extmem_bytes := u64 (local_extmem_bytes c + size);
     local_extmem_widths := count_widths c size |}.

Definition count_write (c : extmem_counters) (size : Z) : extmem_counters :=
  {| local_extmem_reads := local_extmem_reads c;
     local_extmem_writes := u64 (local_extmem_writes c + 1);
     local_extmem_bytes := u64 (local_extmem_bytes c + size);
     local_extmem_widths := count_widths c size |}.

Section callbacks.
Context (highmem : bool) (expf : spec_float -> spec_float).

(** The handle and the answers queued at the read driver. *)
Definition read_callback (a : AxiAddr) (h : coral_gem5_handle) :
    res (coral_gem5_handle * list AxiRData) :=
  if IsHybridWordAccess a then
    Ret (h, [word_answer a (operator_register highmem h (addr_bits_addr a))])
  else if Contains (addr_bits_addr a) 4 then
    if negb (IsCustomWordAccess a) then Ret (h, [read_error (addr_bits_id a)])
    else if addr_bits_addr a =? kFirmwareProgressAddr
    then Ret (h, [word_answer a (firmware_progress h)])
    else
      let '(value, m) := Read32 (addr_bits_addr a) (custom_mac h) in
      Ret (with_mac m h, [word_answer a value])
  else
    let s := dma h in
    match BuildGem5DmaReadRequest a (Some (pending_dma s)) (Some (dma_beat_size s))
            (Some (dma_beat_count s)) with
    | None => Ret (h, [read_error (addr_bits_id a)])
    | Some (r, bs, bc) =>
        if is_local h r then
          source ← buf_read (local_extmem h) (u32 (req_addr r - kExtmemBase)) (req_size r);
          let h1 := with_extmem (local_extmem_enabled h) (local_extmem h)
                      (count_read (counters h) (req_size r)) h in
          Ret (with_dma {| pending_dma := dma_request_zero; dma_pending := dma_pending s;
                           dma_beat_size := bs; dma_beat_count := bc |} h1,
               read_beats (req_addr r) bs bc (req_id r) source)
        else
          Ret (with_dma {| pending_dma := r; dma_pending := true;
                           dma_beat_size := bs; dma_beat_count := bc |} h, [])
    end.

(** ** The write callback *)

(** The single complete word of the beats, on the address's lanes. *)
Definition written_word (a : AxiAddr) (data : list AxiWData) : option Z :=
  let lane := Z.land (addr_bits_addr a) 15 in
  match data with
  | [d] =>
      if (write_data_bits_last d =? 0)
         || negb (Z.land (Z.shiftr (write_data_bits_strb d) lane) 15 =? 15)
      then None
      else Some (le_val (take 4 (drop (Z.to_nat lane) (write_data_bits_data d))))
  | _ => None
  end.

(** No tensor or table of the descriptor shares a byte with the descriptor at
    [off]: otherwise a kernel would change the structure it is reading. *)
Definition range_clear (off address size : Z) : bool :=
  (address - kExtmemBase + size <=? off)
  || (off + descriptor_sizeof <=? address - kExtmemBase).

Definition descriptor_clear (off : Z) (d : coral_operator_descriptor) : bool :=
  forallb (fun t => range_clear off (t_address t) (t_size t))
    (take (Z.to_nat (d_tensor_count d)) (d_tensors d))
  && range_clear off (d_multiplier_address d) (4 * d_quantization_count d)
  && range_clear off (d_shift_address d) (4 * d_quantization_count d).

Definition traffic_bytes (d : coral_operator_descriptor) : Z :=
  u64 (d_bytes_read d + d_bytes_written d).

Definition hybrid_cycles (l : latency_model) (d : coral_operator_descriptor) : Z :=
  u64 (hybrid_fixed_cycles l + DivCeil (d_operation_count d) (hybrid_ops_per_cycle l)
       + DivCeil (traffic_bytes d) (hybrid_bytes_per_cycle l)).

Definition set_cycles (d : coral_operator_descriptor) (cycles : Z) :
    coral_operator_descriptor :=
  set_outcome d (d_state d) (d_error d) (d_operation_count d) (d_host_elapsed_ns d)
    cycles (d_bytes_read d) (d_bytes_written d).

Definition count_hybrid (d : coral_operator_descriptor) (s : HybridOperatorStats) :
    HybridOperatorStats :=
  {| hs_count := u64 (hs_count s + 1);
     hs_host_ns := u64 (hs_host_ns s + d_host_elapsed_ns d);
     hs_operations := u64 (hs_operations s + d_operation_count d);
     hs_modeled_cycles := u64 (hs_modeled_cycles s + d_modeled_cycles d);
     hs_bytes := u64 (hs_bytes s + traffic_bytes d) |}.

(** The doorbell, for a descriptor at offset [off] of the external memory. *)
Definition ring_doorbell (off elapsed : Z) (h : coral_gem5_handle) : res coral_gem5_handle :=
  let mem := local_extmem h in
  let d := load_descriptor mem off in
  let stats := hybrid_operator_stats h in
  if negb highmem then
    let d1 := set_state_error d CORAL_OPERATOR_STATE_ERROR CORAL_OPERATOR_ERROR_UNSUPPORTED in
    Ret (with_hybrid CORAL_OPERATOR_STATE_ERROR (store_descriptor mem off d1) stats h)
  else if negb (local_extmem_enabled h) then
    let d1 := set_state_error d CORAL_OPERATOR_STATE_ERROR CORAL_OPERATOR_ERROR_ADDRESS in
    Ret (with_hybrid (d_state d1) (store_descriptor mem off d1) stats h)
  else
    undef_unless (negb (ValidateGem5HybridDescriptor d kExtmemBase (buf_len mem)).1
                  || descriptor_clear off d);;
    '(ok, d1, mem1) ← DispatchGem5HybridOperator expf
        (fun d b => store_descriptor b off d) d mem kExtmemBase elapsed;
    if (ok : bool) then
      let d2 := set_cycles d1 (hybrid_cycles (latency h) d1) in
      Ret (with_hybrid (d_state d1) (store_descriptor mem1 off d2)
             (alter (count_hybrid d2) (Z.to_nat (d_opcode d2)) stats) h)
    else Ret (with_hybrid (d_state d1) mem1 stats h).

(** A command the doorbell register accepts. *)
Definition doorbell_ok (h : coral_gem5_handle) (a : AxiAddr) (command : Z) : bool :=
  (addr_bits_addr a =? CORAL_OPERATOR_DOORBELL_REG)
  && ((operator_mode h =? CORAL_OPERATOR_MODE_HYBRID)
      || (operator_mode h =? CORAL_OPERATOR_MODE_SAMPLED))
  && (kExtmemBase <=? command)
  && (u32 (command - kExtmemBase) <=? u64 (buf_len (local_extmem h) - descriptor_sizeof)).

Definition write_progress (value now : Z) (h : coral_gem5_handle) : coral_gem5_handle :=
  let accesses := u64 (local_extmem_reads (counters h) + local_extmem_writes (counters h)) in
  with_progress value
    {| progress_cycles := rtl_cycles h; progress_accesses := accesses;
       progress_bytes := local_extmem_bytes (counters h); progress_wall_time := now |}
    (TrackOperatorPhase value now accesses h) h.

Definition write_answer (id resp : Z) : AxiWResp :=
  {| write_resp_bits_id := id; write_resp_bits_resp := resp |}.

(** A write that is neither a register nor a doorbell: local memory or DMA. *)
Definition write_dma (a : AxiAddr) (data : list AxiWData) (h : coral_gem5_handle) :
    res (coral_gem5_handle * list AxiWResp) :=
  let s := dma h in
  let slot r pending := {| pending_dma := r; dma_pending := pending;
    dma_beat_size := dma_beat_size s; dma_beat_count := dma_beat_count s |} in
  match BuildGem5DmaWriteRequest a data (Some (pending_dma s)) with
  | (false, r) =>
      Ret (with_dma (slot (default (pending_dma s) r) (dma_pending s)) h,
           [write_answer (addr_bits_id a) kAxiSlvErr])
  | (true, r0) =>
      let r := default (pending_dma s) r0 in
      if is_local h r then
        mem ← buf_write (local_extmem h) (u32 (req_addr r - kExtmemBase))
                (take (Z.to_nat (req_size r)) (req_data r));
        let h1 := with_extmem (local_extmem_enabled h) mem
                    (count_write (counters h) (req_size r)) h in
        Ret (with_dma (slot dma_request_zero (dma_pending s)) h1,
             [write_answer (u8 (req_id r)) 0])
      else Ret (with_dma (slot r true) h, [])
  end.

(** A write to the registers of the multiply-accumulate unit or to the
    progress register. *)
Definition write_custom (a : AxiAddr) (data : list AxiWData) (now : Z)
    (h : coral_gem5_handle) : coral_gem5_handle * list AxiWResp :=
  let id := addr_bits_id a in
  if negb (IsCustomWordAccess a) then (h, [write_answer id kAxiSlvErr])
  else
    match written_word a data with
    | Some value =>
        (if addr_bits_addr a =? kFirmwareProgressAddr then write_progress value now h
         else with_mac (Write32 (addr_bits_addr a) value (custom_mac h)) h,
         [write_answer id 0])
    | None => (h, [write_answer id kAxiSlvErr])
    end.

(** The handle and the answers queued at the write driver. *)
Definition write_callback (a : AxiAddr) (data : list AxiWData) (now elapsed : Z)
    (h : coral_gem5_handle) : res (coral_gem5_handle * list AxiWResp) :=
  let id := addr_bits_id a in
  if IsHybridWordAccess a then
    match written_word a data with
    | Some command =>
        if doorbell_ok h a command then
          h1 ← ring_doorbell (u32 (command - kExtmemBase)) elapsed h;
          Ret (h1, [write_answer id 0])
        else Ret (h, [write_answer id kAxiSlvErr])
    | None => Ret (h, [write_answer id kAxiSlvErr])
    end
  else if Contains (addr_bits_addr a) 4 then Ret (write_custom a data now h)
  else write_dma a data h.

End callbacks.

(** ** The core and its drivers *)

(** A transaction of the core, with the clock readings of its callback. *)
Inductive axi_event :=
| EvRead (a : AxiAddr)
| EvWrite (a : AxiAddr) (data : list AxiWData) (now elapsed : Z).

(** What the handle uses of [Gem5CoreMiniAxiWrapper]. *)
Class Wrapper (W : Type) := {
  w_reset : W -> W;
  w_step : W -> W * list axi_event;
  w_queue_read : W -> list AxiRData -> W;
  w_queue_write : W -> list AxiWResp -> W;
  w_fault : W -> bool;
  w_halted : W -> bool;
  w_wfi : W -> bool;
  w_write_start : W -> Z -> list Z -> W;
  w_write_done : W -> bool;
  w_read_start : W -> Z -> Z -> W;
  w_read_done : W -> bool;
  w_read_data : W -> list Z }.

Record bridge (W : Type) := { br_wrapper : W; br_handle : coral_gem5_handle }.
Arguments br_wrapper {W} _.
Arguments br_handle {W} _.
Arguments Build_bridge {W} _ _.

Section interface.
Context {W : Type} {HW : Wrapper W}.
Context (highmem : bool) (expf : spec_float -> spec_float).

Definition with_handle (f : coral_gem5_handle -> coral_gem5_handle) (b : bridge W) :
    bridge W :=
  {| br_wrapper := br_wrapper b; br_handle := f (br_handle b) |}.

Definition handle_event (e : axi_event) (b : bridge W) : res (bridge W) :=
  match e with
  | EvRead a =>
      '(h, rs) ← read_callback highmem a (br_handle b);
      Ret {| br_wrapper := w_queue_read (br_wrapper b) rs; br_handle := h |}
  | EvWrite a data now elapsed =>
      '(h, rs) ← write_callback highmem expf a data now elapsed (br_handle b);
      Ret {| br_wrapper := w_queue_write (br_wrapper b) rs; br_handle := h |}
  end.

(** [wrapper.Step()], with the callbacks it runs. *)
Definition wrapper_step (b : bridge W) : res (bridge W) :=
  let '(w, evs) := w_step (br_wrapper b) in
  foldM handle_event evs {| br_wrapper := w; br_handle := br_handle b |}.

(** [while (!done) Step();]; [None] when [fuel] steps do not finish it. *)
Fixpoint step_until (fuel : nat) (finished : W -> bool) (b : bridge W) :
    res (option (bridge W)) :=
  if finished (br_wrapper b) then Ret (Some b)
  else match fuel with
       | O => Ret None
       | S fuel => b1 ← wrapper_step b; step_until fuel finished b1
       end.

(** The pieces of at most a page a transfer is split into. *)
Definition chunk_size (addr len : Z) : Z := Z.min (u32 len) (4096 - addr mod 4096).

(** [Gem5CoreMiniAxiWrapper::Write]; [n] bounds the number of pieces. *)
Fixpoint wrapper_write (n fuel : nat) (addr : Z) (data : list Z) (b : bridge W) :
    res (option (bridge W)) :=
  match data, n with
  | [], _ => Ret (Some b)
  | _, O => Ret None
  | _, S n =>
      let bytes := chunk_size addr (Z.of_nat (length data)) in
      let w := w_write_start (br_wrapper b) addr (take (Z.to_nat bytes) data) in
      done ← step_until fuel w_write_done {| br_wrapper := w; br_handle := br_handle b |};
      match done with
      | Some b1 => wrapper_write n fuel (u32 (addr + bytes)) (drop (Z.to_nat bytes) data) b1
      | None => Ret None
      end
  end.

(** [Gem5CoreMiniAxiWrapper::Read]. *)
Fixpoint wrapper_read (n fuel : nat) (addr len : Z) (result : list Z) (b : bridge W) :
    res (option (list Z * bridge W)) :=
  if len <=? Z.of_nat (length result) then Ret (Some (result, b))
  else match n with
  | O => Ret None
  | S n =>
      let bytes := chunk_size addr (len - Z.of_nat (length result)) in
      let w := w_read_start (br_wrapper b) addr bytes in
      done ← step_until fuel w_read_done {| br_wrapper := w; br_handle := br_handle b |};
      match done with
      | Some b1 => wrapper_read n fuel (u32 (addr + bytes)) len
                     (result ++ w_read_data (br_wrapper b1)) b1
      | None => Ret None
      end
  end.

(** ** The C interface *)

Definition coral_gem5_abi_version : Z := CORAL_GEM5_ABI_VERSION.

Definition coral_gem5_create (env : bridge_env) (powerup : mac_regs) (now : Z) (core : W) :
    bridge W :=
  {| br_wrapper := w_reset core; br_handle := coral_gem5_handle_init env powerup now |}.

Definition reset_handle (now : Z) (h : coral_gem5_handle) : coral_gem5_handle :=
  {| custom_mac := Reset (custom_mac h); firmware_progress := 0;
     operator_mode := operator_mode h; sampled_rtl_mask := sampled_rtl_mask h;
     hybrid_status := 0; local_extmem_enabled := local_extmem_enabled h;
     local_extmem := local_extmem h; counters := counters h; rtl_cycles := 0;
     latency := latency h;
     marks := {| progress_cycles := 0; progress_accesses := 0; progress_bytes := 0;
                 progress_wall_time := now |};
     hybrid_operator_stats := hybrid_operator_stats h;
     operator_phase_stats := operator_phase_stats h; dma := dma h |}.

Definition coral_gem5_reset (now : Z) (handle : option (bridge W)) :
    Z * option (bridge W) :=
  match handle with
  | None => (-1, None)
  | Some b => (0, Some {| br_wrapper := w_reset (br_wrapper b);
                          br_handle := reset_handle now (br_handle b) |})
  end.

(** [data] is [None] for a null pointer; the value read is returned. *)
Definition coral_gem5_mmio_read (n fuel : nat) (handle : option (bridge W)) (addr : Z)
    (data : option unit) (size : Z) : res (option (Z * list Z * option (bridge W))) :=
  match handle, data with
  | Some b, Some _ =>
      if size =? 0 then Ret (Some (-1, [], handle))
      else
        r ← wrapper_read n fuel (TranslateSlaveAddress highmem addr) (u32 size) [] b;
        match r with
        | None => Ret None
        | Some (value, b1) =>
            if Z.of_nat (length value) =? size then Ret (Some (0, value, Some b1))
            else Ret (Some (-1, [], Some b1))
        end
  | _, _ => Ret (Some (-1, [], handle))
  end.

Definition coral_gem5_mmio_write (n fuel : nat) (handle : option (bridge W)) (addr : Z)
    (data : option (list Z)) (size : Z) : res (option (Z * option (bridge W))) :=
  match handle, data with
  | Some b, Some bytes =>
      if size =? 0 then Ret (Some (-1, handle))
      else
        r ← wrapper_write n fuel (TranslateSlaveAddress highmem addr)
              (take (Z.to_nat (u32 size)) bytes) b;
        Ret (match r with Some b1 => Some (0, Some b1) | None => None end)
  | _, _ => Ret (Some (-1, handle))
  end.

(** One iteration of the loop up to the first test after the step. *)
Definition step_cycle (b : bridge W) : res (bridge W) :=
  let b0 := with_handle (fun h => with_cycles (u64 (rtl_cycles h + 1)) h) b in
  b1 ← wrapper_step b0;
  Ret (with_handle (fun h => with_mac (StepIfActive (custom_mac h)) h) b1).

Fixpoint step_loop (n : nat) (b : bridge W) : res (Z * bridge W) :=
  match n with
  | O => Ret (if w_wfi (br_wrapper b) then 3 else 0, b)
  | S n =>
      if w_fault (br_wrapper b) then Ret (4, b)
      else if w_halted (br_wrapper b) then Ret (1, b)
      else
        b1 ← step_cycle b;
        if dma_pending (dma (br_handle b1)) then Ret (2, b1)
        else if w_fault (br_wrapper b1) then Ret (4, b1)
        else if w_halted (br_wrapper b1) then Ret (1, b1)
        else step_loop n b1
  end.

Definition coral_gem5_step (handle : option (bridge W)) (cycles : Z) :
    res (Z * option (bridge W)) :=
  match handle with
  | None => Ret (-1, None)
  | Some b =>
      if cycles =? 0 then Ret (-1, handle)
      else if dma_pending (dma (br_handle b)) then Ret (2, handle)
      else '(status, b1) ← step_loop (Z.to_nat cycles) b; Ret (status, Some b1)
  end.

Definition coral_gem5_cycle_count (handle : option (bridge W)) : Z :=
  match handle with None => 0 | Some b => rtl_cycles (br_handle b) end.

(** The result and the request, if one is stored through the pointer. *)
Definition coral_gem5_dma_request_get (handle : option (bridge W)) (request : option unit) :
    Z * option coral_gem5_dma_request :=
  match handle, request with
  | Some b, Some _ =>
      if dma_pending (dma (br_handle b)) then (1, Some (pending_dma (dma (br_handle b))))
      else (0, None)
  | _, _ => (-1, None)
  end.

Definition dma_clear (h : coral_gem5_handle) : coral_gem5_handle :=
  with_dma {| pending_dma := dma_request_zero; dma_pending := false;
              dma_beat_size := dma_beat_size (dma h);
              dma_beat_count := dma_beat_count (dma h) |} h.

Definition coral_gem5_dma_complete (handle : option (bridge W)) (data : option (list Z))
    (size : Z) (error : bool) : Z * option (bridge W) :=
  match handle with
  | None => (-1, None)
  | Some b =>
      let h := br_handle b in
      let s := dma h in
      let r := pending_dma s in
      if negb (dma_pending s) then (-1, handle)
      else if req_type r =? CORAL_GEM5_DMA_READ then
        if error then
          (0, Some {| br_wrapper := w_queue_read (br_wrapper b) [read_error (u8 (req_id r))];
                      br_handle := dma_clear h |})
        else
          match data with
          | None => (-1, handle)
          | Some source =>
              if negb (size =? req_size r) then (-1, handle)
              else
                (0, Some {| br_wrapper := w_queue_read (br_wrapper b)
                              (read_beats (req_addr r) (dma_beat_size s)
                                 (dma_beat_count s) (req_id r) source);
                            br_handle := dma_clear h |})
          end
      else if req_type r =? CORAL_GEM5_DMA_WRITE then
        (0, Some {| br_wrapper := w_queue_write (br_wrapper b)
                      [write_answer (u8 (req_id r)) (if error then 2 else 0)];
                    br_handle := dma_clear h |})
      else (-1, handle)
  end.

Definition coral_gem5_extmem_enable (handle : option (bridge W)) (enable : bool) :
    Z * option (bridge W) :=
  match handle with
  | None => (-1, None)
  | Some b =>
      if dma_pending (dma (br_handle b)) then (-1, handle)
      else if enable then
        (0, Some (with_handle (with_extmem true (buf_new kExtmemSize) counters_zero) b))
      else
        (0, Some (with_handle
               (fun h => with_extmem false (local_extmem h) (counters h) h) b))
  end.

(** The tests of the two functions below. *)
Definition extmem_range_ok (h : coral_gem5_handle) (addr size : Z) : bool :=
  local_extmem_enabled h && (size <=? kExtmemSize) && (kExtmemBase <=? addr)
  && (u32 (addr - kExtmemBase) <=? kExtmemSize - size).

(** The bytes read are returned. *)
Definition coral_gem5_extmem_read (handle : option (bridge W)) (addr : Z)
    (data : option unit) (size : Z) : res (Z * list Z) :=
  match handle, data with
  | Some b, Some _ =>
      let h := br_handle b in
      if extmem_range_ok h addr size then
        bytes ← buf_read (local_extmem h) (u32 (addr - kExtmemBase)) size;
        Ret (0, bytes)
      else Ret (-1, [])
  | _, _ => Ret (-1, [])
  end.

(** [data] holds at least [size] bytes. *)
Definition coral_gem5_extmem_write (handle : option (bridge W)) (addr : Z)
    (data : option (list Z)) (size : Z) : res (Z * option (bridge W)) :=
  match handle, data with
  | Some b, Some bytes =>
      let h := br_handle b in
      if extmem_range_ok h addr size then
        mem ← buf_write (local_extmem h) (u32 (addr - kExtmemBase))
                (take (Z.to_nat size) bytes);
        Ret (0, Some (with_handle
               (with_extmem (local_extmem_enabled h) mem (counters h)) b))
      else Ret (-1, handle)
  | _, _ => Ret (-1, handle)
  end.

Definition set_mode (mode : Z) (h : coral_gem5_handle) : coral_gem5_handle :=
  {| custom_mac := custom_mac h; firmware_progress := firmware_progress h;
     operator_mode := mode; sampled_rtl_mask := sampled_rtl_mask h;
     hybrid_status := hybrid_status h; local_extmem_enabled := local_extmem_enabled h;
     local_extmem := local_extmem h; counters := counters h; rtl_cycles := rtl_cycles h;
     latency := latency h; marks := marks h;
     hybrid_operator_stats := hybrid_operator_stats h;
     operator_phase_stats := operator_phase_stats h; dma := dma h |}.

Definition coral_gem5_operator_mode (handle : option (bridge W)) (mode : Z) :
    Z * option (bridge W) :=
  match handle with
  | None => (-1, None)
  | Some b =>
      if CORAL_OPERATOR_MODE_SAMPLED <? mode then (-1, handle)
      else (0, Some (with_handle (set_mode mode) b))
  end.

End interface.
