(* ===== verification/BridgeSpec.v ===== *)
(** * What the bridge guarantees

    The invariant of [coral_gem5_handle], that every callback and every
    function of the C interface preserves it, and what follows for the DMA
    requests gem5 sees, for the local external memory and for the operators
    the firmware submits. *)

From Stdlib Require Import SpecFloat.
From S2P Require Import Prelude Axi CustomMac Operator Kernels KernelSpec HybridDispatch.
From S2P Require Import KernelFrame EnvParse Bridge.

(** ** The invariant *)

(** A request gem5 can carry out: one or more bytes inside one page, with the
    full data array; the beats of a read cover it exactly. *)
Definition request_ok (s : dma_slot) : Prop :=
  let r := pending_dma s in
  1 <= req_size r <= CORAL_GEM5_DMA_DATA_BYTES /\ 0 <= req_addr r /\
  req_addr r / 4096 = (req_addr r + req_size r - 1) / 4096 /\
  req_addr r + req_size r <= 2 ^ 32 /\
  length (req_data r) = 4096%nat /\ Forall is_byte (req_data r) /\
  (req_type r = CORAL_GEM5_DMA_WRITE \/
   req_type r = CORAL_GEM5_DMA_READ /\ exists a, axi_addr_wf a /\ burst_ok a /\
     req_addr r = addr_bits_addr a /\ req_id r = addr_bits_id a /\
     dma_beat_size s = 2 ^ addr_bits_size a /\ dma_beat_count s = addr_bits_len a + 1 /\
     req_size r = 2 ^ addr_bits_size a * (addr_bits_len a + 1)).

Record handle_inv (h : coral_gem5_handle) : Prop := {
  hi_len : buf_len (local_extmem h) = kExtmemSize;
  hi_bytes : buf_bytes (local_extmem h);
  hi_mac : mac_inv (custom_mac h);
  hi_widths : length (local_extmem_widths (counters h)) = 6%nat;
  hi_stats : length (hybrid_operator_stats h) = 32%nat /\
             length (operator_phase_stats h) = 32%nat;
  hi_latency : 0 < hybrid_ops_per_cycle (latency h) /\
               0 < hybrid_bytes_per_cycle (latency h);
  hi_dma : dma_pending (dma h) = true -> request_ok (dma h) }.

Lemma handle_inv_init env powerup now : handle_inv (coral_gem5_handle_init env powerup now).
Proof.
  split; simpl; try done. split; apply read_env_positive; lia.
Qed.

Lemma zero_data_bytes : Forall is_byte zero_data.
Proof. apply Forall_replicate. unfold is_byte. lia. Qed.

Lemma read_request_ok a r0 bs0 bc0 r bs bc :
  axi_addr_wf a ->
  BuildGem5DmaReadRequest a (Some r0) (Some bs0) (Some bc0) = Some (r, bs, bc) ->
  request_ok {| pending_dma := r; dma_pending := true; dma_beat_size := bs;
                dma_beat_count := bc |}.
Proof.
  intros Hwf E. apply read_request_iff in E as (Hok & -> & -> & ->); [| done].
  destruct (burst_size_eq a Hwf) as [Es Hs]; [apply Hok |].
  destruct (burst_in_page a Hwf Hok) as [Hp Hw].
  unfold request_ok; simpl. rewrite <- Es.
  split; [exact Hs |]. split; [apply Hwf |]. split; [exact Hp |]. split; [exact Hw |].
  split; [by vm_compute |]. split; [apply zero_data_bytes |].
  right. split; [done |]. exists a. rewrite Es. done.
Qed.

Lemma payload_bytes a data n : Forall axi_wdata_wf data -> Forall is_byte (payload a data n).
Proof.
  intros Hd. apply Forall_join, Forall_fmap, Forall_true. intros beat.
  unfold compose, beat_bytes. destruct (data !! Z.to_nat beat) as [d|] eqn:E; [| done].
  apply (Forall_lookup_1 _ _ _ _ Hd) in E as (_ & Hb & _). by apply Forall_take, Forall_drop.
Qed.

Lemma pad_bytes bs : Forall is_byte bs -> Forall is_byte (pad bs).
Proof.
  intros. apply Forall_app. split; [done |]. apply Forall_replicate. unfold is_byte. lia.
Qed.

Lemma write_request_ok a data r0 r bs bc :
  axi_addr_wf a -> Forall axi_wdata_wf data ->
  BuildGem5DmaWriteRequest a data (Some r0) = (true, Some r) ->
  request_ok {| pending_dma := r; dma_pending := true; dma_beat_size := bs;
                dma_beat_count := bc |} /\
  req_addr r = addr_bits_addr a /\ req_id r = addr_bits_id a /\
  req_size r = burst_size a /\ Z.of_nat (length (payload a data (addr_bits_len a + 1))) =
    req_size r /\ req_data r = pad (payload a data (addr_bits_len a + 1)).
Proof.
  intros Hwf Hd E. apply write_request_iff in E as (Hok & Hlen & _ & ->); [| done | done].
  destruct (burst_size_eq a Hwf) as [Es Hs]; [apply Hok |].
  destruct (burst_in_page a Hwf Hok) as [Hp Hw].
  assert (0 <= addr_bits_len a) as Hl by apply Hwf.
  pose proof (length_payload a data (addr_bits_len a + 1) Hwf Hok Hd Hlen ltac:(lia)) as Hpl.
  unfold request_ok; simpl. rewrite <- Es. split; [| repeat split; lia].
  split; [exact Hs |]. split; [apply Hwf |]. split; [exact Hp |]. split; [exact Hw |].
  split; [apply length_pad; lia |]. split; [| by left].
  by apply pad_bytes, payload_bytes.
Qed.

(** ** Local accesses *)

(** The test for a local request is exact: inside the eight megabytes. *)
Lemma is_local_iff h r :
  buf_len (local_extmem h) = kExtmemSize ->
  1 <= req_size r <= 4096 -> 0 <= req_addr r < 2 ^ 32 ->
  is_local h r = true <->
  local_extmem_enabled h = true /\ kExtmemBase <= req_addr r /\
  req_addr r - kExtmemBase + req_size r <= kExtmemSize.
Proof.
  intros El Hs Ha. unfold is_local. rewrite El. unfold kExtmemBase, kExtmemSize.
  rewrite (wrap_small 64) by lia. rewrite !andb_true_iff, !Z.leb_le.
  split.
  - intros [[H1 H2] H3]. rewrite wrap_small in H3 by lia. repeat split; [done | lia | lia].
  - intros (H1 & H2 & H3). rewrite wrap_small by lia. repeat split; [done | lia | lia].
Qed.

(** ** The read callback *)

Lemma handle_inv_same_dma h h' :
  handle_inv h -> local_extmem h' = local_extmem h -> mac_inv (custom_mac h') ->
  length (local_extmem_widths (counters h')) = 6%nat ->
  hybrid_operator_stats h' = hybrid_operator_stats h ->
  length (operator_phase_stats h') = 32%nat -> latency h' = latency h ->
  (dma_pending (dma h') = true -> request_ok (dma h')) -> handle_inv h'.
Proof.
  intros [L B M Wd [S1 S2] La D] El Em Ew Es Ep Et Hd.
  split; [by rewrite El | by rewrite El | done | done | by rewrite Es | by rewrite Et | done].
Qed.

Lemma mac_inv_read addr m : mac_inv m -> mac_inv (Read32 addr m).2.
Proof. intros (? & ? & ? & ?). by split. Qed.

(** A read that meets no pending request never leaves the memory, keeps the
    invariant, and either is answered at once or becomes the pending request. *)
Lemma read_callback_spec highmem a h :
  handle_inv h -> axi_addr_wf a -> dma_pending (dma h) = false ->
  exists h' rs, read_callback highmem a h = Ret (h', rs) /\ handle_inv h' /\
    local_extmem h' = local_extmem h /\
    (rs = [] <-> dma_pending (dma h') = true).
Proof.
  intros Hi Ha Hp. unfold read_callback.
  destruct (IsHybridWordAccess a); [eexists _, _; split; [done |]; by rewrite Hp |].
  destruct (Contains _ 4).
  { destruct (IsCustomWordAccess a); cbn [negb];
      [| eexists _, _; split; [done |]; by rewrite Hp].
    destruct (_ =? _); [eexists _, _; split; [done |]; by rewrite Hp |].
    destruct (Read32 (addr_bits_addr a) (custom_mac h)) as [v m] eqn:Er.
    eexists _, _. split; [done |]. simpl. rewrite Hp. split; [| done].
    eapply handle_inv_same_dma; simpl; try done; try apply Hi.
    change m with (v, m).2. rewrite <- Er. apply mac_inv_read, Hi. }
  destruct (BuildGem5DmaReadRequest _ _ _ _) as [[[r bs] bc]|] eqn:Eb;
    [| eexists _, _; split; [done |]; by rewrite Hp].
  pose proof (read_request_ok _ _ _ _ _ _ _ Ha Eb) as Hok.
  destruct (is_local h r) eqn:El.
  - pose proof Hok as (Hs & H0 & _ & Hw & _). simpl in Hs, H0, Hw.
    apply is_local_iff in El as (_ & H1 & H2); [| apply Hi | done | lia].
    unfold kExtmemBase in *.
    rewrite wrap_small by lia. rewrite buf_read_ret by (rewrite ?(hi_len _ Hi); lia).
    eexists _, _. split; [done |]. simpl. rewrite Hp. split; [| split; [done |]].
    + eapply handle_inv_same_dma; simpl; try done; try apply Hi; try (by rewrite Hp).
      unfold count_widths. rewrite length_alter. apply Hi.
    + split; [| done]. intros E. exfalso.
      apply read_request_iff in Eb as (_ & _ & -> & _); [| done].
      apply fmap_nil_inv in E. destruct Ha as (_ & _ & Hl & _).
      apply (f_equal length) in E. rewrite length_seqZ in E. simpl in E. lia.
  - eexists _, _. split; [done |]. simpl. split; [| done].
    eapply handle_inv_same_dma; simpl; try done; try apply Hi.
Qed.

(** ** The write callback *)

Lemma word_range b off i : buf_bytes b -> is_u32 (word b off i).
Proof.
  intros Hb. unfold word, is_u32.
  pose proof (le_val_range _ (buf_slice_bytes b (off + 4 * i) 4 Hb)) as H.
  by rewrite length_buf_slice in H.
Qed.

Lemma sword_range b off i : is_i32 (sword b off i).
Proof. unfold is_i32. apply (swrap_range 32). lia. Qed.

Lemma word64_range b off i : buf_bytes b -> is_u64 (word64 b off i).
Proof.
  intros Hb. pose proof (word_range b off i Hb). pose proof (word_range b off (i + 1) Hb).
  unfold word64, is_u32, is_u64 in *. lia.
Qed.

(** The elements of a [Forall] over a literal list. *)
Ltac each_field := repeat (apply List.Forall_cons || apply List.Forall_nil).

(** Whatever bytes the firmware wrote, they are a well-formed descriptor. *)
Lemma load_descriptor_wf b off : buf_bytes b -> descriptor_wf (load_descriptor b off).
Proof.
  intros Hb.
  assert (forall i, tensor_wf (load_tensor b off i)) as Ht.
  { intros i. unfold tensor_wf, load_tensor; cbn [t_address t_size t_rank t_dimensions
      t_element_type t_zero_point].
    repeat match goal with |- _ /\ _ => split end;
      eauto using word_range, sword_range.
    each_field; by apply word_range. }
  split; cbn [load_descriptor d_magic d_version d_descriptor_size d_opcode d_state d_error
      d_flags d_execution_mode d_tensor_count d_tensors d_stride_height d_stride_width
      d_padding_height d_padding_width d_multiplier_address d_shift_address
      d_output_zero_point d_activation_min d_activation_max d_quantization_count
      d_operation_count d_host_elapsed_ns d_modeled_cycles d_bytes_read d_bytes_written
      d_reserved].
  - each_field; by apply word_range.
  - each_field; apply sword_range.
  - each_field; by apply word64_range.
  - split; [done |]. each_field; apply Ht.
  - split; [done |]. apply Forall_fmap, Forall_true. intros i. by apply word_range.
Qed.

Lemma ring_doorbell_inv highmem expf off elapsed h h' :
  handle_inv h -> 0 <= off -> off + descriptor_sizeof <= kExtmemSize ->
  ring_doorbell highmem expf off elapsed h = Ret h' -> handle_inv h' /\ dma h' = dma h.
Proof.
  intros Hi Hoff Hfit. unfold ring_doorbell.
  set (mem := local_extmem h). set (d := load_descriptor mem off).
  assert (descriptor_wf d) as Hd by apply load_descriptor_wf, Hi.
  assert (forall b d1, same_request d d1 ->
    keeps off descriptor_sizeof b (store_descriptor b off d1)) as Hst.
  { intros b d1 ->. apply store_descriptor_keeps; apply Hd. }
  assert (forall status m stats, buf_len m = buf_len mem -> buf_bytes m ->
    length stats = 32%nat ->
    handle_inv (with_hybrid status m stats h) /\ dma (with_hybrid status m stats h) = dma h)
    as Hnew.
  { intros status m stats El Hb Hs. split; [| done].
    destruct Hi as [L B M Wd [S1 S2] La D]. split; simpl; try done. by rewrite El. }
  assert (length (hybrid_operator_stats h) = 32%nat) as H32 by apply Hi.
  destruct highmem; cbn [negb]; cycle 1.
  { intros [= <-]. apply Hnew; [done | | done]. apply Hst; [done | apply Hi]. }
  destruct (local_extmem_enabled h); cbn [negb]; cycle 1.
  { intros [= <-]. apply Hnew; [done | | done]. apply Hst; [done | apply Hi]. }
  intros H. apply bind_ret_inv in H as (_ & _ & H).
  apply bind_ret_inv in H as ([[ok d1] m1] & E & H).
  pose proof (dispatch_changes _ _ _ _ _ _ _ _ _ Hd Hoff
    ltac:(rewrite (hi_len _ Hi); done) E) as (El & Hb & _).
  destruct ok; injection H as <-.
  - apply Hnew; [done | | by rewrite length_alter].
    apply dispatch_final in E as (E & _). apply Hst; [| apply Hb, Hi].
    by rewrite E.
  - apply Hnew; [done | apply Hb, Hi | done].
Qed.

Lemma doorbell_range h a command :
  buf_len (local_extmem h) = kExtmemSize -> doorbell_ok h a command = true ->
  0 <= u32 (command - kExtmemBase) /\
  u32 (command - kExtmemBase) + descriptor_sizeof <= kExtmemSize.
Proof.
  intros El. unfold doorbell_ok. rewrite El, !andb_true_iff, !Z.leb_le.
  intros [_ H]. pose proof (wrap_range 32 (command - kExtmemBase) ltac:(lia)).
  unfold kExtmemSize, descriptor_sizeof in *. rewrite (wrap_small 64) in H by lia. lia.
Qed.

Lemma track_length value now accesses h :
  length (TrackOperatorPhase value now accesses h) = length (operator_phase_stats h).
Proof.
  unfold TrackOperatorPhase. destruct (phase_marker value) as [[op b]|]; [| done].
  apply length_alter.
Qed.

Lemma write_request_some a data r0 :
  BuildGem5DmaWriteRequest a data (Some r0) = (true, None) -> False.
Proof.
  unfold BuildGem5DmaWriteRequest. repeat case_test; try done.
  destruct (for_while _ _ _). congruence.
Qed.

(** A write that meets no pending request and returns keeps the invariant, and
    either is answered at once or becomes the pending request. *)
Lemma write_callback_spec highmem expf a data now elapsed h h' rs :
  handle_inv h -> axi_addr_wf a -> Forall axi_wdata_wf data -> dma_pending (dma h) = false ->
  write_callback highmem expf a data now elapsed h = Ret (h', rs) ->
  handle_inv h' /\ (rs = [] <-> dma_pending (dma h') = true).
Proof.
  intros Hi Ha Hd Hp. unfold write_callback, write_custom, write_dma.
  assert (forall r : AxiWResp, handle_inv h /\ ([r] = [] <-> dma_pending (dma h) = true)) as Hsame
    by (intros r; by rewrite Hp).
  destruct (IsHybridWordAccess a).
  { destruct (written_word a data) as [c|]; [| intros [= <- <-]; apply Hsame].
    destruct (doorbell_ok h a c) eqn:Eok; [| intros [= <- <-]; apply Hsame].
    intros H. apply bind_ret_inv in H as (h1 & E & H). injection H as <- <-.
    destruct (doorbell_range h a c (hi_len _ Hi) Eok).
    apply ring_doorbell_inv in E as [H1 ->]; [| done | done | done]. by rewrite Hp. }
  destruct (Contains _ 4) eqn:Ec.
  { destruct (IsCustomWordAccess a); cbn [negb]; [| intros [= <- <-]; apply Hsame].
    destruct (written_word a data) as [v|]; [| intros [= <- <-]; apply Hsame].
    intros [= <- <-]. destruct (_ =? _); simpl; rewrite Hp; (split; [| done]).
    - eapply handle_inv_same_dma; simpl; try done; try apply Hi.
      rewrite track_length. apply Hi.
    - eapply handle_inv_same_dma; simpl; try done; try apply Hi.
      apply mac_inv_write; [apply Ha | done | apply Hi]. }
  destruct (BuildGem5DmaWriteRequest a data _) as [ok r] eqn:Eb. destruct ok; cycle 1.
  { intros [= <- <-]. simpl. rewrite Hp. split; [| done].
    eapply handle_inv_same_dma; simpl; try done; try apply Hi; by rewrite ?Hp. }
  destruct r as [r|]; [| by apply write_request_some in Eb].
  destruct (write_request_ok _ _ _ _ (dma_beat_size (dma h)) (dma_beat_count (dma h))
    Ha Hd Eb) as (Hok & _). simpl.
  destruct (is_local h r); cycle 1.
  { intros [= <- <-]. simpl. split; [| done].
    eapply handle_inv_same_dma; simpl; try done; try apply Hi. }
  intros H. apply bind_ret_inv in H as (mem & E & H). injection H as <- <-.
  apply buf_write_inv in E as (_ & _ & ->). simpl. rewrite Hp. split; [| done].
  destruct Hi as [L B M Wd [S1 S2] La D]. split; simpl; try done.
  - apply buf_bytes_blit; [done |]. apply Forall_take. apply Hok.
  - unfold count_widths. by rewrite length_alter.
Qed.

(** ** The interface *)

Definition event_wf (e : axi_event) : Prop :=
  match e with
  | EvRead a => axi_addr_wf a
  | EvWrite a data _ _ => axi_addr_wf a /\ Forall axi_wdata_wf data
  end.

(** What the bridge relies on of the core: its pins hold values of their
    width, and one clock step starts at most one transaction. *)
Class SingleIssue (W : Type) {HW : Wrapper W} : Prop := {
  step_events_wf : forall w, Forall event_wf (w_step w).2;
  step_single : forall w, (length (w_step w).2 <= 1)%nat }.

Section interface.
Context {W : Type} {HW : Wrapper W} {HS : SingleIssue W}.
Context (highmem : bool) (expf : spec_float -> spec_float).

(** The states gem5 can bring the bridge to: it calls the interface, and it
    accesses the core's registers (which also clocks the core) only while no
    request is pending. *)
Inductive bridge_reach : bridge W -> Prop :=
| br_create env powerup now core : bridge_reach (coral_gem5_create env powerup now core)
| br_reset b now b' : bridge_reach b ->
    coral_gem5_reset now (Some b) = (0, Some b') -> bridge_reach b'
| br_step b cycles status b' : bridge_reach b ->
    coral_gem5_step highmem expf (Some b) cycles = Ret (status, Some b') -> bridge_reach b'
| br_access b w b' : bridge_reach b -> dma_pending (dma (br_handle b)) = false ->
    wrapper_step highmem expf {| br_wrapper := w; br_handle := br_handle b |} = Ret b' ->
    bridge_reach b'
| br_complete b data size error b' : bridge_reach b ->
    coral_gem5_dma_complete (Some b) data size error = (0, Some b') -> bridge_reach b'
| br_extmem_enable b enable b' : bridge_reach b ->
    coral_gem5_extmem_enable (Some b) enable = (0, Some b') -> bridge_reach b'
| br_extmem_write b addr bytes size b' : bridge_reach b -> Forall is_byte bytes ->
    coral_gem5_extmem_write (Some b) addr (Some bytes) size = Ret (0, Some b') ->
    bridge_reach b'
| br_mode b mode b' : bridge_reach b ->
    coral_gem5_operator_mode (Some b) mode = (0, Some b') -> bridge_reach b'.

Lemma handle_event_inv e b b' :
  event_wf e -> handle_inv (br_handle b) -> dma_pending (dma (br_handle b)) = false ->
  handle_event highmem expf e b = Ret b' -> handle_inv (br_handle b').
Proof.
  intros He Hi Hp. destruct e as [a|a data now elapsed]; simpl in He |- *; intros H.
  - apply bind_ret_inv in H as ([h rs] & E & H). injection H as <-.
    destruct (read_callback_spec highmem a _ Hi He Hp) as (h' & rs' & E' & H' & _).
    rewrite E in E'. by injection E' as -> ->.
  - apply bind_ret_inv in H as ([h rs] & E & H). injection H as <-.
    destruct He as [Ha Hd]. by apply write_callback_spec in E as [? _].
Qed.

Lemma wrapper_step_inv b b' :
  handle_inv (br_handle b) -> dma_pending (dma (br_handle b)) = false ->
  wrapper_step highmem expf b = Ret b' -> handle_inv (br_handle b').
Proof.
  intros Hi Hp. unfold wrapper_step.
  pose proof (step_events_wf (br_wrapper b)) as Hw.
  pose proof (step_single (br_wrapper b)) as Hl.
  destruct (w_step (br_wrapper b)) as [w evs]. simpl in Hw, Hl.
  destruct evs as [|e [|]]; simpl in Hl; [by intros [= <-] | | lia].
  simpl. intros H. apply bind_ret_inv in H as (b1 & E & H). injection H as <-.
  apply Forall_cons_1 in Hw as [He _]. by apply handle_event_inv in E.
Qed.

Lemma step_cycle_inv b b' :
  handle_inv (br_handle b) -> dma_pending (dma (br_handle b)) = false ->
  step_cycle highmem expf b = Ret b' -> handle_inv (br_handle b').
Proof.
  intros Hi Hp H. apply bind_ret_inv in H as (b1 & E & H). injection H as <-.
  apply wrapper_step_inv in E; [| | done].
  - simpl. eapply handle_inv_same_dma; simpl; try done; try apply E.
    apply mac_inv_step, E.
  - simpl. eapply handle_inv_same_dma; simpl; try done; apply Hi.
Qed.

Lemma step_loop_inv n b status b' :
  handle_inv (br_handle b) -> dma_pending (dma (br_handle b)) = false ->
  step_loop highmem expf n b = Ret (status, b') -> handle_inv (br_handle b').
Proof.
  revert b. induction n as [|n IH]; intros b Hi Hp; simpl; [by intros [= _ <-] |].
  destruct (w_fault _); [by intros [= _ <-] |]. destruct (w_halted _); [by intros [= _ <-] |].
  intros H. apply bind_ret_inv in H as (b1 & E & H).
  apply step_cycle_inv in E; [| done | done].
  destruct (dma_pending (dma (br_handle b1))) eqn:Ep; [by injection H as _ <- |].
  destruct (w_fault _); [by injection H as _ <- |].
  destruct (w_halted _); [by injection H as _ <- |]. by apply (IH b1).
Qed.

Lemma bridge_reach_inv b : bridge_reach b -> handle_inv (br_handle b).
Proof.
  induction 1 as [env p now core | b now b' _ IH E | b cycles status b' _ IH E
    | b w b' _ IH Hp E | b data size error b' _ IH E | b enable b' _ IH E
    | b addr bytes size b' _ IH Hb E | b mode b' _ IH E].
  - apply handle_inv_init.
  - injection E as <-. eapply handle_inv_same_dma; simpl; try done; try apply IH.
    apply mac_inv_reset. apply (hi_mac _ IH).
  - unfold coral_gem5_step in E. destruct (cycles =? 0); [by injection E as _ <- |].
    destruct (dma_pending _) eqn:Ep; [by injection E as _ <- |].
    apply bind_ret_inv in E as ([st b1] & E & H). injection H as _ <-.
    by apply step_loop_inv in E.
  - by apply wrapper_step_inv in E.
  - assert (forall w, handle_inv (br_handle {| br_wrapper := w : W;
      br_handle := dma_clear (br_handle b) |})) as Hc.
    { intros w. eapply handle_inv_same_dma; simpl; try done; apply IH. }
    unfold coral_gem5_dma_complete in E. destruct error, data; repeat case_test_in E;
      try done; injection E as <-; apply Hc.
  - unfold coral_gem5_extmem_enable in E. destruct (dma_pending _); [done |].
    destruct IH as [L B M Wd S La D].
    destruct enable; injection E as <-; split; simpl; try done; apply buf_bytes_new.
  - unfold coral_gem5_extmem_write in E. case_test_in E; [| done].
    apply bind_ret_inv in E as (m & E & H). injection H as <-.
    apply buf_write_inv in E as (_ & _ & ->).
    destruct IH as [L B M Wd S La D]. split; simpl; try done.
    apply buf_bytes_blit; [done | by apply Forall_take].
  - unfold coral_gem5_operator_mode in E. destruct (_ <? _); [done |]. injection E as <-.
    eapply handle_inv_same_dma; simpl; try done; apply IH.
Qed.

End interface.

(** ** The request gem5 is given *)


(** A core that starts one read on its first clock and keeps the answers. *)
Record one_read := { or_started : bool; or_reads : list AxiRData; or_writes : list AxiWResp }.

#[export] Instance one_read_wrapper : Wrapper one_read := {|
  w_reset w := {| or_started := false; or_reads := []; or_writes := [] |};
  w_step w := if or_started w then (w, [])
              else ({| or_started := true; or_reads := or_reads w; or_writes := or_writes w |},
                    [EvRead sample_addr]);
  w_queue_read w rs := {| or_started := or_started w; or_reads := or_reads w ++ rs;
                          or_writes := or_writes w |};
  w_queue_write w rs := {| or_started := or_started w; or_reads := or_reads w;
                           or_writes := or_writes w ++ rs |};
  w_fault _ := false; w_halted _ := false; w_wfi _ := false;
  w_write_start w _ _ := w; w_write_done _ := true;
  w_read_start w _ _ := w; w_read_done _ := true; w_read_data _ := [] |}.

#[export] Instance one_read_single : SingleIssue one_read.
Proof.
  split; intros [started rs ws]; simpl; destruct started; simpl; try lia; repeat constructor;
    simpl; lia.
Qed.

Definition no_env : bridge_env :=
  {| env_sampled_rtl_ops := None; env_ops_per_cycle := None; env_bytes_per_cycle := None;
     env_fixed_cycles := None |}.

Definition fresh_bridge : bridge one_read :=
  coral_gem5_create no_env mac_reset 0
    {| or_started := true; or_reads := []; or_writes := [] |}.

(** The bridge after a step that met the core's read. *)
Definition waiting_bridge : bridge one_read :=
  match coral_gem5_step true no_exp (Some fresh_bridge) 5 with
  | Ret (_, Some b) => b
  | _ => fresh_bridge
  end.

Lemma waiting_reach : bridge_reach true no_exp waiting_bridge.
Proof.
  apply (br_step true no_exp fresh_bridge 5 2); [apply br_create |]. reflexivity.
Qed.


(** ** The local external memory *)

Section local.
Context (highmem : bool) (expf : spec_float -> spec_float).
Context (h : coral_gem5_handle) (a : AxiAddr).
Context (Hi_len : buf_len (local_extmem h) = kExtmemSize).
Context (Hen : local_extmem_enabled h = true).
Context (Ha : axi_addr_wf a) (Hok : burst_ok a).
Context (Hlo : kExtmemBase <= addr_bits_addr a).
Context (Hhi : addr_bits_addr a - kExtmemBase + burst_size a <= kExtmemSize).

Abbreviation off := (addr_bits_addr a - kExtmemBase).

(** The registers lie elsewhere. *)
Lemma local_not_register :
  IsHybridWordAccess a = false /\ Contains (addr_bits_addr a) 4 = false /\ 0 <= off < 2 ^ 32.
Proof.
  destruct (burst_size_eq a Ha) as [_ Hs]; [apply Hok |].
  unfold kExtmemBase, kExtmemSize in *. repeat split; try lia.
  - unfold IsHybridWordAccess, CORAL_OPERATOR_MMIO_BASE. bool_prop. lia.
  - apply not_true_is_false. rewrite contains_iff by lia. unfold kBase, kSize. lia.
Qed.

Lemma local_request_local r :
  req_addr r = addr_bits_addr a -> req_size r = burst_size a -> is_local h r = true.
Proof.
  intros Er Es. destruct (burst_size_eq a Ha) as [_ Hs]; [apply Hok |].
  apply is_local_iff; rewrite ?Er, ?Es; try done. apply Ha.
Qed.

(** A legal write burst stores its payload. *)
Lemma local_write_eq data now elapsed :
  Forall axi_wdata_wf data -> Z.of_nat (length data) = addr_bits_len a + 1 ->
  (forall beat, 0 <= beat < addr_bits_len a + 1 -> beat_ok a data beat) ->
  exists h', write_callback highmem expf a data now elapsed h =
      Ret (h', [write_answer (u8 (addr_bits_id a)) 0]) /\
    local_extmem h' =
      buf_blit (local_extmem h) off (payload a data (addr_bits_len a + 1)) /\
    local_extmem_enabled h' = true /\
    dma_pending (dma h') = dma_pending (dma h) /\ pending_dma (dma h') = dma_request_zero /\
    (exists s, h' = with_dma s (with_extmem true (local_extmem h')
                      (count_write (counters h) (burst_size a)) h)).
Proof.
  intros Hd Hl Hb. destruct local_not_register as (N1 & N2 & N3).
  unfold write_callback, write_custom, write_dma. rewrite N1, N2.
  rewrite (proj2 (write_request_iff a data (pending_dma (dma h)) _ Ha Hd)
    (conj Hok (conj Hl (conj Hb eq_refl)))). cbn [default].
  destruct (burst_size_eq a Ha) as [Es Hs]; [apply Hok |].
  rewrite local_request_local by done. cbn [req_addr req_size req_data req_id default from_option id].
  assert (0 <= addr_bits_len a) by apply Ha.
  pose proof (length_payload a data (addr_bits_len a + 1) Ha Hok Hd Hl ltac:(lia)) as Hpl.
  rewrite (wrap_small 32) by lia. unfold pad.
  rewrite take_app_length' by lia.
  rewrite buf_write_ret by (unfold kExtmemBase in *; rewrite ?Hi_len; lia).
  eexists. split; [done |]. cbn. rewrite Hen, Es. eauto 10.
Qed.

(** A legal read burst delivers the bytes at its address. *)
Lemma local_read_eq :
  buf_bytes (local_extmem h) ->
  exists h' rs, read_callback highmem a h = Ret (h', rs) /\
    local_extmem h' = local_extmem h /\
    rs = read_beats (addr_bits_addr a) (2 ^ addr_bits_size a) (addr_bits_len a + 1)
           (addr_bits_id a) (buf_slice (local_extmem h) off (burst_size a)) /\
    payload a (as_wdata <$> rs) (addr_bits_len a + 1) =
      buf_slice (local_extmem h) off (burst_size a).
Proof.
  intros Hb. destruct local_not_register as (N1 & N2 & N3).
  unfold read_callback. rewrite N1, N2.
  rewrite (proj2 (read_request_iff a _ _ _ _ _ _ Ha)
    (conj Hok (conj eq_refl (conj eq_refl eq_refl)))).
  destruct (burst_size_eq a Ha) as [Es Hs]; [apply Hok |].
  rewrite local_request_local by done. cbn [req_addr req_size req_id].
  rewrite (wrap_small 32) by lia. rewrite <- Es.
  rewrite buf_read_ret by (unfold kExtmemBase in *; rewrite ?Hi_len; lia).
  eexists _, _. split; [done |]. split; [done |].
  assert (0 <= addr_bits_len a) by apply Ha.
  split; [done |].
  rewrite payload_read_beats; try done.
  - apply take_ge. rewrite length_buf_slice. lia.
  - rewrite length_buf_slice. lia.
  - lia.
Qed.

End local.

(** What the firmware's bursts have to satisfy. *)
Definition local_burst (a : AxiAddr) : Prop :=
  axi_addr_wf a /\ burst_ok a /\ kExtmemBase <= addr_bits_addr a /\
  addr_bits_addr a - kExtmemBase + burst_size a <= kExtmemSize.

Definition complete_beats (a : AxiAddr) (data : list AxiWData) : Prop :=
  Forall axi_wdata_wf data /\ Z.of_nat (length data) = addr_bits_len a + 1 /\
  forall beat, 0 <= beat < addr_bits_len a + 1 -> beat_ok a data beat.

(** C23: with the local external memory enabled, a complete write burst inside
    it is answered at once and changes exactly the bytes it covers, and a
    later read burst of any shape inside the memory delivers, lane by lane,
    the bytes the memory holds: for the same burst, the payload just written. *)
Theorem local_write_read highmem expf h a data a' now elapsed :
  handle_inv h -> local_extmem_enabled h = true ->
  local_burst a -> complete_beats a data -> local_burst a' ->
  exists h1 h2 rs,
    write_callback highmem expf a data now elapsed h =
      Ret (h1, [write_answer (u8 (addr_bits_id a)) 0]) /\
    local_extmem h1 = buf_blit (local_extmem h) (addr_bits_addr a - kExtmemBase)
                        (payload a data (addr_bits_len a + 1)) /\
    read_callback highmem a' h1 = Ret (h2, rs) /\ local_extmem h2 = local_extmem h1 /\
    payload a' (as_wdata <$> rs) (addr_bits_len a' + 1) =
      buf_slice (local_extmem h1) (addr_bits_addr a' - kExtmemBase) (burst_size a') /\
    (a' = a -> payload a' (as_wdata <$> rs) (addr_bits_len a' + 1) =
               payload a data (addr_bits_len a + 1)).
Proof.
  intros Hi Hen (Ha & Hok & Hlo & Hhi) (Hd & Hl & Hb) (Ha' & Hok' & Hlo' & Hhi').
  destruct (local_write_eq highmem expf h a (hi_len _ Hi) Hen Ha Hok Hlo Hhi data now elapsed
    Hd Hl Hb) as (h1 & E1 & Em & Een & _).
  destruct (local_read_eq highmem h1 a') as (h2 & rs & E2 & Em2 & _ & Ep); try done.
  - rewrite Em. apply Hi.
  - rewrite Em. apply buf_bytes_blit; [apply Hi | by apply payload_bytes].
  - exists h1, h2, rs. do 5 (split; [done |]). intros ->. rewrite Ep, Em.
    destruct (burst_size_eq a Ha) as [Es _]; [apply Hok |].
    assert (0 <= addr_bits_len a) by apply Ha.
    etrans; [| apply (buf_slice_blit_same (local_extmem h) (addr_bits_addr a - kExtmemBase))].
    f_equal. pose proof (length_payload a data (addr_bits_len a + 1) Ha Hok Hd Hl ltac:(lia)). lia.
Qed.

Definition enabled_handle : coral_gem5_handle :=
  with_extmem true (buf_new kExtmemSize) counters_zero
    (coral_gem5_handle_init no_env mac_reset 0).

Lemma enabled_inv : handle_inv enabled_handle.
Proof.
  destruct (handle_inv_init no_env mac_reset 0) as [L B M Wd S La D]. by split.
Qed.

Lemma sample_local_burst : local_burst sample_addr.
Proof.
  split; [exact sample_addr_wf |]. split; [exact sample_burst_ok |].
  split; vm_compute; discriminate.
Qed.

Lemma sample_complete_beats : complete_beats sample_addr [sample_beat 0; sample_beat 1].
Proof.
  split; [| split; [done |]].
  - repeat (apply List.Forall_cons || apply List.Forall_nil); apply sample_beat_wf; lia.
  - intros beat Hb. apply beat_test_iff.
    assert (beat = 0 \/ beat = 1) as [-> | ->] by (simpl in Hb; lia); reflexivity.
Qed.

Lemma local_write_read_witness :
  exists h1 h2 rs,
    write_callback true no_exp sample_addr [sample_beat 0; sample_beat 1] 0 0 enabled_handle =
      Ret (h1, [write_answer 3 0]) /\
    read_callback true sample_addr h1 = Ret (h2, rs) /\
    payload sample_addr (as_wdata <$> rs) 2 =
      payload sample_addr [sample_beat 0; sample_beat 1] 2.
Proof.
  destruct (local_write_read true no_exp enabled_handle sample_addr
    [sample_beat 0; sample_beat 1] sample_addr 0 0 enabled_inv eq_refl sample_local_burst
    sample_complete_beats sample_local_burst) as (h1 & h2 & rs & E1 & _ & E2 & _ & _ & H).
  exists h1, h2, rs. split; [exact E1 |]. split; [exact E2 | exact (H eq_refl)].
Defined.

(** C33: the bridge has one slot for a pending request: a complete local write
    that arrives while a DMA request is pending is carried out but erases that
    request and leaves it marked pending, with size zero, so that gem5 is
    handed a request it refuses. *)
Theorem local_write_erases_request highmem expf h a data now elapsed :
  handle_inv h -> local_extmem_enabled h = true -> dma_pending (dma h) = true ->
  local_burst a -> complete_beats a data ->
  exists h', write_callback highmem expf a data now elapsed h =
      Ret (h', [write_answer (u8 (addr_bits_id a)) 0]) /\
    dma_pending (dma h') = true /\ req_size (pending_dma (dma h')) = 0 /\
    req_size (pending_dma (dma h)) <> 0.
Proof.
  intros Hi Hen Hp (Ha & Hok & Hlo & Hhi) (Hd & Hl & Hb).
  destruct (local_write_eq highmem expf h a (hi_len _ Hi) Hen Ha Hok Hlo Hhi data now elapsed
    Hd Hl Hb) as (h1 & E1 & _ & _ & Ep & Er & _).
  exists h1. split; [done |]. rewrite Ep, Er. split; [done |]. split; [done |].
  destruct (hi_dma _ Hi Hp) as ([? _] & _). lia.
Qed.

(** A read outside the local memory. *)
Definition far_addr : AxiAddr :=
  {| addr_bits_addr := 0x80000000; addr_bits_prot := 0; addr_bits_id := 1;
     addr_bits_len := 0; addr_bits_size := 4; addr_bits_burst := 1; addr_bits_lock := 0;
     addr_bits_cache := 0; addr_bits_qos := 0; addr_bits_region := 0 |}.

Definition busy_handle : coral_gem5_handle :=
  match read_callback true far_addr enabled_handle with
  | Ret (h, _) => h
  | _ => enabled_handle
  end.

Lemma busy_inv : handle_inv busy_handle.
Proof.
  destruct (read_callback_spec true far_addr enabled_handle) as (h & rs & E & H & _).
  - exact enabled_inv.
  - unfold axi_addr_wf. simpl. lia.
  - reflexivity.
  - unfold busy_handle. by rewrite E.
Qed.

Lemma local_write_erases_request_witness :
  exists h', write_callback true no_exp sample_addr [sample_beat 0; sample_beat 1] 0 0
      busy_handle = Ret (h', [write_answer 3 0]) /\
    dma_pending (dma h') = true /\ req_size (pending_dma (dma h')) = 0.
Proof.
  destruct (local_write_erases_request true no_exp busy_handle sample_addr
    [sample_beat 0; sample_beat 1] 0 0 busy_inv eq_refl eq_refl sample_local_burst
    sample_complete_beats) as (h' & E & H1 & H2 & _).
  exists h'. split; [exact E |]. split; [exact H1 | exact H2].
Defined.

(** ** Clocking the core *)

Lemma ring_doorbell_cycles highmem expf off elapsed h h' :
  ring_doorbell highmem expf off elapsed h = Ret h' -> rtl_cycles h' = rtl_cycles h.
Proof.
  unfold ring_doorbell. destruct highmem, (local_extmem_enabled h); cbn [negb];
    try (by intros [= <-]).
  intros H. apply bind_ret_inv in H as (_ & _ & H).
  apply bind_ret_inv in H as ([[[] d1] m1] & _ & H); by injection H as <-.
Qed.

Lemma read_callback_cycles highmem a h h' rs :
  read_callback highmem a h = Ret (h', rs) -> rtl_cycles h' = rtl_cycles h.
Proof.
  unfold read_callback. repeat case_test; try (by intros [= <- _]).
  destruct (BuildGem5DmaReadRequest _ _ _ _) as [[[r bs] bc]|]; [| by intros [= <- _]].
  destruct (is_local h r); [| by intros [= <- _]].
  intros H. apply bind_ret_inv in H as (src & _ & H). by injection H as <- _.
Qed.

Lemma write_callback_cycles highmem expf a data now elapsed h h' rs :
  write_callback highmem expf a data now elapsed h = Ret (h', rs) ->
  rtl_cycles h' = rtl_cycles h.
Proof.
  unfold write_callback, write_custom, write_dma. destruct (IsHybridWordAccess a); [| destruct (Contains _ 4)].
  - destruct (written_word a data) as [c|]; [| by intros [= <- _]].
    destruct (doorbell_ok h a c); [| by intros [= <- _]].
    intros H. apply bind_ret_inv in H as (h1 & E & H). injection H as <- _.
    by apply ring_doorbell_cycles in E.
  - destruct (negb _); [by intros [= <- _] |].
    destruct (written_word a data); [| by intros [= <- _]].
    intros [= <- _]. by destruct (_ =? _).
  - destruct (BuildGem5DmaWriteRequest a data _) as [[] r]; [| by intros [= <- _]].
    destruct (is_local h _); [| by intros [= <- _]].
    intros H. apply bind_ret_inv in H as (m & _ & H). by injection H as <- _.
Qed.

Section stepping.
Context {W : Type} {HW : Wrapper W} (highmem : bool) (expf : spec_float -> spec_float).

Lemma wrapper_step_cycles (b b' : bridge W) :
  wrapper_step highmem expf b = Ret b' ->
  rtl_cycles (br_handle b') = rtl_cycles (br_handle b).
Proof.
  unfold wrapper_step. destruct (w_step (br_wrapper b)) as [w evs].
  change (br_handle b) with
    (br_handle {| br_wrapper := w; br_handle := br_handle b |}) at 2.
  generalize {| br_wrapper := w; br_handle := br_handle b |}. clear b w.
  induction evs as [|e evs IH]; intros b H; simpl in H; [by injection H as <- |].
  apply bind_ret_inv in H as (b1 & E & H). apply IH in H as ->. clear IH.
  destruct e; simpl in E; apply bind_ret_inv in E as ([h rs] & E & H); injection H as <-;
    simpl; eauto using read_callback_cycles, write_callback_cycles.
Qed.

Lemma step_cycle_cycles (b b' : bridge W) :
  step_cycle highmem expf b = Ret b' ->
  rtl_cycles (br_handle b') = u64 (rtl_cycles (br_handle b) + 1).
Proof.
  intros H. apply bind_ret_inv in H as (b1 & E & H). injection H as <-.
  by apply wrapper_step_cycles in E.
Qed.

(** What each status says of the bridge it leaves. *)
Definition status_spec (n : Z) (b : bridge W) (status : Z) (b' : bridge W) : Prop :=
  exists k, 0 <= k <= n /\
  rtl_cycles (br_handle b') = u64 (rtl_cycles (br_handle b) + k) /\
  ((status = 2 /\ dma_pending (dma (br_handle b')) = true /\ 1 <= k) \/
   (status = 4 /\ dma_pending (dma (br_handle b')) = false /\ w_fault (br_wrapper b') = true) \/
   (status = 1 /\ dma_pending (dma (br_handle b')) = false /\
    w_fault (br_wrapper b') = false /\ w_halted (br_wrapper b') = true) \/
   (status = (if w_wfi (br_wrapper b') then 3 else 0) /\ k = n /\
    dma_pending (dma (br_handle b')) = false /\
    w_fault (br_wrapper b') = false /\ w_halted (br_wrapper b') = false)).

Lemma step_loop_spec n (b b' : bridge W) status :
  is_u64 (rtl_cycles (br_handle b)) -> dma_pending (dma (br_handle b)) = false ->
  (n = O -> w_fault (br_wrapper b) = false /\ w_halted (br_wrapper b) = false) ->
  step_loop highmem expf n b = Ret (status, b') -> status_spec (Z.of_nat n) b status b'.
Proof.
  revert b. induction n as [|n IH]; intros b Hc Hp Hz; simpl.
  { intros [= <- <-]. exists 0. rewrite Z.add_0_r, wrap_small by done.
    destruct (Hz eq_refl). repeat split; [lia | lia |]. right. right. by right. }
  destruct (w_fault (br_wrapper b)) eqn:Ef.
  { intros [= <- <-]. exists 0. rewrite Z.add_0_r, wrap_small by done.
    repeat split; [lia | lia |]. right. by left. }
  destruct (w_halted (br_wrapper b)) eqn:Eh.
  { intros [= <- <-]. exists 0. rewrite Z.add_0_r, wrap_small by done.
    repeat split; [lia | lia |]. right. right. by left. }
  intros H. apply bind_ret_inv in H as (b1 & E & H). apply step_cycle_cycles in E.
  destruct (dma_pending (dma (br_handle b1))) eqn:Ep.
  { injection H as <- <-. exists 1. repeat split; [lia | lia | done |]. left. done. }
  destruct (w_fault (br_wrapper b1)) eqn:Ef1.
  { injection H as <- <-. exists 1. repeat split; [lia | lia | done |]. right. by left. }
  destruct (w_halted (br_wrapper b1)) eqn:Eh1.
  { injection H as <- <-. exists 1. repeat split; [lia | lia | done |]. right. right. by left. }
  apply IH in H as (k & Hk & Er & Hs); [| rewrite E; apply wrap_range; lia | done | done].
  exists (k + 1). rewrite E in Er. split; [lia |]. split.
  - rewrite Er. unfold wrap. rewrite Zplus_mod_idemp_l. f_equal. lia.
  - destruct Hs as [(? & ? & ?)|[?|[?|(? & ? & ?)]]]; [left | tauto | tauto |].
    + repeat split; try done; lia.
    + right. right. right. split; [done |]. split; [lia | done].
Qed.

End stepping.

(** A step that finds a request pending returns 2 and does nothing; any
    other step runs at most the given number of clock cycles and counts each
    of them, and its status is exact: 2 when a request is now pending, 4 when
    the core has faulted, 1 when it has halted, and 3 or 0, as the core waits
    for an interrupt or not, only after all the cycles. *)
Theorem step_status {W} {HW : Wrapper W} highmem expf (b b' : bridge W) cycles status :
  1 <= cycles < 2 ^ 32 -> is_u64 (rtl_cycles (br_handle b)) ->
  coral_gem5_step highmem expf (Some b) cycles = Ret (status, Some b') ->
  if dma_pending (dma (br_handle b)) then status = 2 /\ b' = b
  else status_spec cycles b status b'.
Proof.
  intros Hc Hr. unfold coral_gem5_step. destruct (Z.eqb_spec cycles 0); [lia |].
  destruct (dma_pending (dma (br_handle b))) eqn:Ep; [by intros [= <- <-] |].
  intros H. apply bind_ret_inv in H as ([st b1] & E & H). injection H as <- <-.
  apply step_loop_spec in E; [by rewrite Z2Nat.id in E by lia | done | done | intros; lia].
Qed.

Lemma step_status_witness : status_spec 5 fresh_bridge 2 waiting_bridge.
Proof.
  apply (step_status true no_exp fresh_bridge waiting_bridge 5 2); [lia | | reflexivity].
  vm_compute. split; [discriminate | reflexivity].
Defined.
