(* ===== verification/HybridSubmit.v ===== *)
(** * Submitting an operator, from the firmware to the kernel

    The firmware's side of [coral_operator_client.h] run against the bridge:
    a volatile 32-bit access of the core is one single-beat AXI transaction,
    and [SubmitHybridOperator] is the sequence of accesses the function makes.
    The theorems follow a descriptor from the firmware's store through the
    doorbell, the validation and the kernel back to the firmware's result. *)

From Stdlib Require Import SpecFloat.
From S2P Require Import Prelude Axi CustomMac Operator FixedPoint Kernels KernelSpec.
From S2P Require Import KernelsFloat HybridDispatch KernelFrame EnvParse Bridge BridgeSpec.

(** ** Word accesses *)

Definition word_access (addr : Z) : AxiAddr :=
  {| addr_bits_addr := addr; addr_bits_prot := 0; addr_bits_id := 0; addr_bits_len := 0;
     addr_bits_size := 2; addr_bits_burst := 1; addr_bits_lock := 0; addr_bits_cache := 0;
     addr_bits_qos := 0; addr_bits_region := 0 |}.

Definition word_beat (addr value : Z) : AxiWData :=
  {| write_data_bits_data := lane_data (Z.land addr 15) (le_bytes 4 value);
     write_data_bits_strb := Z.shiftl 15 (Z.land addr 15);
     write_data_bits_last := 1 |}.

Section firmware.
Context (highmem : bool) (expf : spec_float -> spec_float) (now elapsed : Z).

(** [None]: the access is not answered at once, or with an error. *)
Definition firmware_store (addr value : Z) (h : coral_gem5_handle) :
    res (option coral_gem5_handle) :=
  '(h1, rs) ← write_callback highmem expf (word_access addr) [word_beat addr value]
                now elapsed h;
  Ret (match rs with
       | [r] => if write_resp_bits_resp r =? 0 then Some h1 else None
       | _ => None
       end).

Definition firmware_load (addr : Z) (h : coral_gem5_handle) :
    res (option (Z * coral_gem5_handle)) :=
  '(h1, rs) ← read_callback highmem (word_access addr) h;
  Ret (match rs with
       | [r] => if read_data_bits_resp r =? 0
                then Some (le_val (take 4 (drop (Z.to_nat (Z.land addr 15))
                                             (read_data_bits_data r))), h1)
                else None
       | _ => None
       end).

(** The offsets of [state] and [error] in the descriptor. *)
Definition state_offset : Z := 16.
Definition error_offset : Z := 20.

(** The result and the bridge afterwards; [None] when an access failed. *)
Definition SubmitHybridOperator (address : Z) (h : coral_gem5_handle) :
    res (option (bool * coral_gem5_handle)) :=
  o1 ← firmware_store (u32 (address + state_offset)) CORAL_OPERATOR_STATE_SUBMITTED h;
  match o1 with
  | None => Ret None
  | Some h1 =>
      o2 ← firmware_store CORAL_OPERATOR_DOORBELL_REG address h1;
      match o2 with
      | None => Ret None
      | Some h2 =>
          o3 ← firmware_load CORAL_OPERATOR_STATUS_REG h2;
          match o3 with
          | None => Ret None
          | Some (status, h3) =>
              if negb (status =? CORAL_OPERATOR_STATE_COMPLETE) then Ret (Some (false, h3))
              else
                o4 ← firmware_load (u32 (address + state_offset)) h3;
                match o4 with
                | None => Ret None
                | Some (state, h4) =>
                    if negb (state =? CORAL_OPERATOR_STATE_COMPLETE)
                    then Ret (Some (false, h4))
                    else
                      o5 ← firmware_load (u32 (address + error_offset)) h4;
                      match o5 with
                      | None => Ret None
                      | Some (error, h5) =>
                          Ret (Some (error =? CORAL_OPERATOR_ERROR_NONE, h5))
                      end
                end
          end
      end
  end.

(** ** Accesses to the local memory *)

Lemma word_access_wf addr : 0 <= addr < 2 ^ 32 -> axi_addr_wf (word_access addr).
Proof. intros. unfold axi_addr_wf. simpl. lia. Qed.

Lemma word_access_ok addr : addr mod 4 = 0 -> burst_ok (word_access addr).
Proof.
  intros H. unfold burst_ok. cbn. split; [lia |]. split; [done |].
  assert (forall m, (4 | m) -> 4 <= m -> addr mod m + 4 <= m) as Hm.
  { intros m [q ->] Hm. pose proof (Z.mod_pos_bound addr (q * 4) ltac:(lia)).
    assert ((addr mod (q * 4)) mod 4 = 0) as E.
    { rewrite Z.mod_mod_divide by (by exists q). done. }
    apply Z.mod_divide in E as [k E]; lia. }
  split.
  - change (addr mod 4096 + 4 <= 4096). apply Hm; [by exists 1024 | lia].
  - intros beat Hb. replace beat with 0 by lia.
    change ((addr + 0) mod 16 + 4 <= 16). rewrite Z.add_0_r. apply Hm; [by exists 4 | lia].
Qed.

Lemma land_15 addr : Z.land addr 15 = addr mod 16.
Proof. change 15 with (Z.ones 4). by rewrite Z.land_ones by lia. Qed.

Lemma word_lane addr : addr mod 4 = 0 -> 0 <= addr mod 16 <= 12.
Proof.
  intros H. destruct (word_access_ok addr H) as (_ & _ & _ & Hl).
  specialize (Hl 0 ltac:(simpl; lia)). cbn in Hl. rewrite Z.add_0_r in Hl.
  pose proof (Z.mod_pos_bound addr 16 ltac:(lia)). change (2 ^ 2) with 4 in Hl. lia.
Qed.

Lemma word_beat_payload addr value :
  addr mod 4 = 0 -> payload (word_access addr) [word_beat addr value] 1 = le_bytes 4 value.
Proof.
  intros H. pose proof (word_lane addr H).
  change (payload (word_access addr) [word_beat addr value] 1) with
    (take 4 (drop (Z.to_nat ((addr + 0) mod 16))
       (lane_data (Z.land addr 15) (le_bytes 4 value))) ++ []).
  by rewrite Z.add_0_r, land_15, drop_lane_data, app_nil_r by lia.
Qed.

Lemma word_beat_complete addr value :
  addr mod 4 = 0 -> complete_beats (word_access addr) [word_beat addr value].
Proof.
  intros H. pose proof (word_lane addr H) as Hl.
  split; [| split; [done |]].
  - apply List.Forall_cons; [| done]. unfold axi_wdata_wf, word_beat. cbn [write_data_bits_data
      write_data_bits_strb write_data_bits_last]. rewrite land_15.
    split; [apply length_lane_data; cbn; lia |].
    split; [apply lane_data_bytes, le_bytes_byte |]. split; [| lia].
    rewrite Z.shiftl_mul_pow2 by lia.
    assert (2 ^ (addr mod 16) <= 2 ^ 12) by (apply Z.pow_le_mono_r; lia).
    pose proof (Z.pow_pos_nonneg 2 (addr mod 16)). lia.
  - intros beat Hb. cbn in Hb. replace beat with 0 by lia. exists (word_beat addr value).
    split; [done |]. split; [done |]. cbn. rewrite Z.add_0_r, land_15. intros i Hi.
    rewrite Z.shiftl_spec by lia. replace (addr mod 16 + i - addr mod 16) with i by lia.
    change 15 with (Z.ones 4). apply Z.ones_spec_low. change (2 ^ 2) with 4 in Hi. lia.
Qed.

(** What the submission looks at. *)
Definition view (h : coral_gem5_handle) :=
  (local_extmem h, (local_extmem_enabled h, operator_mode h, sampled_rtl_mask h, latency h)).

Lemma read_callback_view a h h' rs :
  read_callback highmem a h = Ret (h', rs) -> view h' = view h.
Proof.
  unfold read_callback. repeat case_test; try (by intros [= <- _]).
  destruct (BuildGem5DmaReadRequest _ _ _ _) as [[[r bs] bc]|]; [| by intros [= <- _]].
  destruct (is_local h r); [| by intros [= <- _]].
  intros H. apply bind_ret_inv in H as (src & _ & H). by injection H as <- _.
Qed.

(** An aligned word of the local memory. *)
Definition local_word (addr : Z) : Prop :=
  addr mod 4 = 0 /\ kExtmemBase <= addr /\ addr - kExtmemBase + 4 <= kExtmemSize.

Lemma local_word_burst addr : local_word addr -> local_burst (word_access addr).
Proof.
  intros (H1 & H2 & H3). unfold kExtmemBase, kExtmemSize in *.
  split; [apply word_access_wf; lia |]. split; [by apply word_access_ok |].
  split; [done |]. change (burst_size (word_access addr)) with 4. simpl.
  unfold kExtmemBase, kExtmemSize. lia.
Qed.

Lemma firmware_store_local addr value h :
  buf_len (local_extmem h) = kExtmemSize -> local_extmem_enabled h = true ->
  local_word addr ->
  exists s, firmware_store addr value h =
    Ret (Some (with_dma s (with_extmem true
      (buf_blit (local_extmem h) (addr - kExtmemBase) (le_bytes 4 value))
      (count_write (counters h) 4) h))).
Proof.
  intros Hl He Hw. destruct (local_word_burst addr Hw) as (Ha & Hok & Hlo & Hhi).
  destruct (word_beat_complete addr value) as (Hd & Hn & Hb); [apply Hw |].
  destruct (local_write_eq highmem expf h (word_access addr) Hl He Ha Hok Hlo Hhi
    [word_beat addr value] now elapsed Hd Hn Hb) as (h' & E & Em & _ & _ & _ & s & Es).
  exists s. unfold firmware_store. rewrite E. cbn [mbind res_bind write_answer
    write_resp_bits_resp]. rewrite Es, Em. cbn [addr_bits_len word_access].
  change (0 + 1) with 1. rewrite word_beat_payload by apply Hw. done.
Qed.

Lemma firmware_load_local addr h :
  buf_len (local_extmem h) = kExtmemSize -> buf_bytes (local_extmem h) ->
  local_extmem_enabled h = true -> local_word addr ->
  exists h', firmware_load addr h =
      Ret (Some (le_val (buf_slice (local_extmem h) (addr - kExtmemBase) 4), h')) /\
    view h' = view h.
Proof.
  intros Hl Hby He Hw. destruct (local_word_burst addr Hw) as (Ha & Hok & Hlo & Hhi).
  destruct (local_read_eq highmem h (word_access addr) Hl He Ha Hok Hlo Hhi Hby)
    as (h' & rs & E & _ & Ers & _).
  exists h'. pose proof (read_callback_view _ _ _ _ E) as Hv. split; [| done].
  unfold firmware_load. rewrite E. cbn [mbind res_bind].
  subst rs. destruct Hw as (Hm & Hr). pose proof (word_lane addr Hm).
  change (read_beats _ _ _ _ _) with
    [read_beat addr 4 1 0 (buf_slice (local_extmem h) (addr - kExtmemBase) 4) 0].
  cbn [read_beat read_data_bits_resp read_data_bits_data]. rewrite Z.eqb_refl.
  rewrite beat_lane_eq, Z.add_0_r, land_15, drop_lane_data by lia.
  change (drop (Z.to_nat (0 * 4)) ?l) with l. do 4 f_equal.
Qed.

(** The status register. *)
Lemma firmware_load_status h :
  0 <= hybrid_status h < 2 ^ 32 ->
  firmware_load CORAL_OPERATOR_STATUS_REG h = Ret (Some (hybrid_status h, h)).
Proof.
  intros Hs. unfold firmware_load.
  change (read_callback highmem (word_access CORAL_OPERATOR_STATUS_REG) h) with
    (Ret (h, [word_answer (word_access CORAL_OPERATOR_STATUS_REG) (hybrid_status h)])).
  cbn [mbind res_bind word_answer read_data_bits_resp read_data_bits_data Z.eqb].
  rewrite land_15, drop_lane_data by (vm_compute; discriminate).
  rewrite take_app_length' by done. rewrite le_val_bytes, Z.mod_small by done. done.
Qed.

(** The doorbell. *)
Lemma firmware_store_doorbell address h :
  buf_len (local_extmem h) = kExtmemSize ->
  (operator_mode h = CORAL_OPERATOR_MODE_HYBRID \/
   operator_mode h = CORAL_OPERATOR_MODE_SAMPLED) ->
  kExtmemBase <= address -> address - kExtmemBase + descriptor_sizeof <= kExtmemSize ->
  firmware_store CORAL_OPERATOR_DOORBELL_REG address h =
    h1 ← ring_doorbell highmem expf (address - kExtmemBase) elapsed h; Ret (Some h1).
Proof.
  intros Hl Hm Hlo Hhi. unfold kExtmemBase, kExtmemSize, descriptor_sizeof in *.
  unfold firmware_store, write_callback.
  change (IsHybridWordAccess _) with true. cbv iota.
  change (written_word _ _) with
    (Some (le_val (take 4 (drop (Z.to_nat (Z.land CORAL_OPERATOR_DOORBELL_REG 15))
       (lane_data (Z.land CORAL_OPERATOR_DOORBELL_REG 15) (le_bytes 4 address)))))).
  rewrite drop_lane_data by (vm_compute; discriminate).
  rewrite take_app_length' by done. rewrite le_val_bytes, Z.mod_small by (simpl; lia).
  cbv iota beta. unfold doorbell_ok. rewrite Hl.
  unfold kExtmemBase, kExtmemSize, descriptor_sizeof.
  rewrite (wrap_small 32), (wrap_small 64) by lia.
  replace (_ && _ && _ && _) with true.
  - destruct (ring_doorbell _ _ _ _ _); done.
  - symmetry. bool_prop. repeat split; (done || lia).
Qed.

End firmware.

(** ** The submission *)

(** The descriptor the doorbell finds: the firmware's, marked submitted. *)
Definition submitted (d : coral_operator_descriptor) : coral_operator_descriptor :=
  set_state_error d CORAL_OPERATOR_STATE_SUBMITTED (d_error d).

Definition submitted_mem (mem : buf) (off : Z) : buf :=
  buf_blit mem (off + state_offset) (le_bytes 4 CORAL_OPERATOR_STATE_SUBMITTED).

Lemma clear_submitted off d : descriptor_clear off (submitted d) = descriptor_clear off d.
Proof. done. Qed.

Lemma same_request_submitted d d' : same_request (submitted d) d' -> same_request d d'.
Proof. intros ->. done. Qed.

Lemma same_request_cycles d d' n : same_request d d' -> same_request d (set_cycles d' n).
Proof. intros ->. done. Qed.

(** Writing word [k] of a structure changes that word alone. *)
Lemma word_blit_word b off k v i :
  word (buf_blit b (off + 4 * k) (le_bytes 4 v)) off i = if i =? k then u32 v else word b off i.
Proof.
  unfold word. destruct (Z.eqb_spec i k) as [->|Hne].
  - change 4 with (Z.of_nat (length (le_bytes 4 v))) at 3.
    by rewrite buf_slice_blit_same, le_val_bytes.
  - rewrite buf_slice_blit_disjoint; [done |]. rewrite length_le_bytes. lia.
Qed.

Lemma load_submitted mem off :
  load_descriptor (submitted_mem mem off) off = submitted (load_descriptor mem off).
Proof.
  unfold submitted_mem, state_offset. change 16 with (4 * 4).
  unfold load_descriptor, load_tensor, sword, word64, submitted, set_state_error, set_outcome.
  change (seqZ 0 8) with [0; 1; 2; 3; 4; 5; 6; 7]. cbn [fmap list_fmap].
  rewrite !word_blit_word. reflexivity.
Qed.

Lemma stored_state_error b off d :
  length (d_tensors d) = 4%nat -> Forall tensor_wf (d_tensors d) ->
  is_u32 (d_state d) -> is_u32 (d_error d) ->
  le_val (buf_slice (store_descriptor b off d) (off + state_offset) 4) = d_state d /\
  le_val (buf_slice (store_descriptor b off d) (off + error_offset) 4) = d_error d.
Proof.
  intros H4 Ht Hs He. pose proof (length_head_words d H4 Ht) as Hh. split.
  - exact (load_early b off d 4 (d_state d) Hh ltac:(lia) Hs eq_refl).
  - exact (load_early b off d 5 (d_error d) Hh ltac:(lia) He eq_refl).
Qed.

(** The local memory holds bytes and has its size. *)
Definition memory_ok (h : coral_gem5_handle) : Prop :=
  buf_len (local_extmem h) = kExtmemSize /\ buf_bytes (local_extmem h).

(** What gem5 sets up and the program does not change. *)
Definition settings (h : coral_gem5_handle) :=
  (local_extmem_enabled h, operator_mode h, sampled_rtl_mask h, latency h).

(** What the firmware and gem5 have set up before the call. *)
Record submit_pre (h : coral_gem5_handle) (address : Z) : Prop := {
  sp_inv : memory_ok h;
  sp_enabled : local_extmem_enabled h = true;
  sp_mode : operator_mode h = CORAL_OPERATOR_MODE_HYBRID \/
            operator_mode h = CORAL_OPERATOR_MODE_SAMPLED;
  sp_aligned : address mod 4 = 0;
  sp_low : kExtmemBase <= address;
  sp_high : address - kExtmemBase + descriptor_sizeof <= kExtmemSize }.

Section submit.
Context (expf : spec_float -> spec_float) (now elapsed : Z).
Context (h : coral_gem5_handle) (address : Z) (Hpre : submit_pre h address).
Abbreviation off := (address - kExtmemBase).
Abbreviation mem := (local_extmem h).

Lemma state_word : local_word (address + state_offset) /\ local_word (address + error_offset) /\
  u32 (address + state_offset) = address + state_offset /\
  u32 (address + error_offset) = address + error_offset.
Proof.
  destruct Hpre as [_ _ _ Hal Hlo Hhi].
  unfold local_word, state_offset, error_offset, kExtmemBase, kExtmemSize, descriptor_sizeof in *.
  rewrite !wrap_small by lia.
  assert ((address + 16) mod 4 = 0) by (rewrite Z.add_mod, Hal by lia; done).
  assert ((address + 20) mod 4 = 0) by (rewrite Z.add_mod, Hal by lia; done).
  repeat split; (done || lia).
Qed.

(** The bridge after the doorbell. *)
Definition final_mem (ok : bool) (d' : coral_operator_descriptor) (m' : buf) : buf :=
  if ok then store_descriptor m' off (set_cycles d' (hybrid_cycles (latency h) d')) else m'.

Lemma ring_result h1 ok d' m' :
  local_extmem h1 = submitted_mem mem off -> local_extmem_enabled h1 = true ->
  latency h1 = latency h ->
  descriptor_clear off (submitted (load_descriptor mem off)) = true ->
  DispatchGem5HybridOperator expf (fun d b => store_descriptor b off d)
    (submitted (load_descriptor mem off)) (submitted_mem mem off) kExtmemBase elapsed
    = Ret (ok, d', m') ->
  exists stats, ring_doorbell true expf off elapsed h1 =
    Ret (with_hybrid (d_state d') (final_mem ok d' m') stats h1).
Proof.
  intros Em Een El Hc Hd. unfold ring_doorbell. rewrite Em, Een, load_submitted, Hc, Hd.
  cbn [negb]. rewrite orb_true_r. cbn [undef_unless mbind res_bind].
  destruct ok; [rewrite El |]; eexists; done.
Qed.

(** The memory after a dispatch: its size, and the two words the firmware
    looks at. *)
Lemma final_facts ok d' m' :
  descriptor_wf (submitted (load_descriptor mem off)) ->
  DispatchGem5HybridOperator expf (fun d b => store_descriptor b off d)
    (submitted (load_descriptor mem off)) (submitted_mem mem off) kExtmemBase elapsed
    = Ret (ok, d', m') ->
  buf_len (final_mem ok d' m') = kExtmemSize /\ buf_bytes (final_mem ok d' m') /\
  (if ok then le_val (buf_slice (final_mem ok d' m') (off + state_offset) 4) = d_state d' /\
              le_val (buf_slice (final_mem ok d' m') (off + error_offset) 4) = d_error d'
   else True).
Proof.
  intros Hwf Hd. destruct Hpre as [Hi Hen Hmode Hal Hlo Hhi].
  destruct (dispatch_final _ _ _ _ _ _ _ _ _ Hd) as (Hsame & _ & Hst).
  assert (off + descriptor_sizeof <= buf_len (submitted_mem mem off)) as Hfit
    by (cbn; by rewrite (proj1 Hi)).
  destruct (dispatch_changes _ _ off _ _ _ _ _ _ Hwf ltac:(lia) Hfit Hd) as (El & Hb & _).
  assert (buf_bytes (submitted_mem mem off)) as Hsb.
  { apply buf_bytes_blit; [apply Hi | apply le_bytes_byte]. }
  assert (d_tensors d' = d_tensors (submitted (load_descriptor mem off)) /\
          d_reserved d' = d_reserved (submitted (load_descriptor mem off))) as [Et Er]
    by (rewrite Hsame; done).
  unfold final_mem. destruct ok.
  - destruct Hst as (Es & Ee & _).
    destruct (store_descriptor_keeps m' off (set_cycles d' (hybrid_cycles (latency h) d')))
      as (Kl & Kb & _);
      [cbn; rewrite Et; apply Hwf | cbn; rewrite Et; apply Hwf | cbn; rewrite Er; apply Hwf |].
    split; [rewrite Kl, El; apply Hi |]. split; [auto |].
    refine (stored_state_error m' off (set_cycles d' (hybrid_cycles (latency h) d')) _ _ _ _);
      cbn; rewrite ?Et, ?Es, ?Ee; try apply Hwf; (split; vm_compute; congruence).
  - split; [rewrite El; apply Hi |]. auto.
Qed.

Lemma submit_result ok d' m' :
  descriptor_clear off (submitted (load_descriptor mem off)) = true ->
  DispatchGem5HybridOperator expf (fun d b => store_descriptor b off d)
    (submitted (load_descriptor mem off)) (submitted_mem mem off) kExtmemBase elapsed
    = Ret (ok, d', m') ->
  exists h', SubmitHybridOperator true expf now elapsed address h = Ret (Some (ok, h')) /\
    local_extmem h' = final_mem ok d' m' /\ settings h' = settings h.
Proof.
  intros Hclear Hdisp. destruct state_word as (Hws & Hwe & Es & Ee).
  destruct Hpre as [Hi Hen Hmode Hal Hlo Hhi].
  unfold SubmitHybridOperator. rewrite Es, Ee.
  destruct (firmware_store_local true expf now elapsed (address + state_offset)
    CORAL_OPERATOR_STATE_SUBMITTED h (proj1 Hi) Hen Hws) as (s & ->).
  cbn [mbind res_bind].
  replace (address + state_offset - kExtmemBase) with (off + state_offset) by lia.
  fold (submitted_mem mem off). set (h1 := with_dma s _).
  rewrite firmware_store_doorbell; [| apply Hi | done | done | done].
  destruct (ring_result h1 ok d' m') as (stats & ->); try done. cbn [mbind res_bind].
  set (h2 := with_hybrid _ _ _ h1).
  destruct (dispatch_final _ _ _ _ _ _ _ _ _ Hdisp) as (Hsame & (m & Em) & Hst).
  assert (descriptor_wf (submitted (load_descriptor mem off))) as Hwf.
  { rewrite <- load_submitted. apply load_descriptor_wf, buf_bytes_blit; [apply Hi |].
    apply le_bytes_byte. }
  pose proof (final_facts ok d' m' Hwf Hdisp) as (Hlen & Hbytes & Hwords).
  rewrite firmware_load_status by (cbn; destruct ok; destruct Hst as [-> _]; vm_compute;
    split; congruence).
  cbn [mbind res_bind]. change (hybrid_status h2) with (d_state d').
  destruct ok; destruct Hst as [Est Herr]; rewrite Est; cbn [negb Z.eqb];
    [| exists h2; split; [done | split; [done |]]; unfold settings; cbn; by rewrite Hen].
  destruct Hwords as [Hstate Herror]. rewrite Z.eqb_refl. cbn [negb].
  destruct (firmware_load_local true (address + state_offset) h2)
    as (h3 & -> & V3); try done.
  cbn [mbind res_bind]. change (local_extmem h2) with (final_mem true d' m').
  replace (address + state_offset - kExtmemBase) with (off + state_offset) by lia.
  rewrite Hstate, Est, Z.eqb_refl. cbn [negb].
  injection V3 as V3 E3 M3 S3 L3. fold (final_mem true d' m') in V3.
  destruct (firmware_load_local true (address + error_offset) h3)
    as (h4 & -> & V4); try (rewrite ?V3, ?E3; done).
  cbn [mbind res_bind]. rewrite V3.
  replace (address + error_offset - kExtmemBase) with (off + error_offset) by lia.
  rewrite Herror. destruct Herr as [-> _]. rewrite Z.eqb_refl.
  exists h4. split; [done |]. injection V4 as V4 E4 M4 S4 L4.
  split; [by rewrite V4, V3 |]. unfold settings.
  rewrite E4, M4, S4, L4, E3, M3, S3, L3. cbn. by rewrite Hen.
Qed.

End submit.

(** C10: the firmware's verdict is the host's: when gem5 runs the highmem bridge
    with the local memory enabled and in hybrid or sampled mode, submitting an
    aligned descriptor whose tensors do not overlap it returns [true] exactly
    when the dispatch of the submitted descriptor succeeded, and the memory it
    leaves is the dispatch's, with the modelled cycles of the latency model
    stored into a successful descriptor. *)
Theorem submit_refines_dispatch expf now elapsed h address ok d' m' :
  submit_pre h address ->
  descriptor_clear (address - kExtmemBase)
    (submitted (load_descriptor (local_extmem h) (address - kExtmemBase))) = true ->
  DispatchGem5HybridOperator expf (fun d b => store_descriptor b (address - kExtmemBase) d)
    (submitted (load_descriptor (local_extmem h) (address - kExtmemBase)))
    (submitted_mem (local_extmem h) (address - kExtmemBase)) kExtmemBase elapsed
    = Ret (ok, d', m') ->
  exists h', SubmitHybridOperator true expf now elapsed address h = Ret (Some (ok, h')) /\
    local_extmem h' =
      (if ok then store_descriptor m' (address - kExtmemBase)
                    (set_cycles d' (hybrid_cycles (latency h) d'))
       else m').
Proof.
  intros Hp Hc Hd.
  destruct (submit_result expf now elapsed h address Hp ok d' m' Hc Hd) as (h' & E & Em & _).
  by exists h'.
Qed.

(** ** A matrix product, from the firmware's call to the bytes *)

Section matmul_end_to_end.
Context (expf : spec_float -> spec_float) (now elapsed : Z).
Context (h : coral_gem5_handle) (address : Z) (Hsub : submit_pre h address).
Abbreviation off := (address - kExtmemBase).
Abbreviation mem := (local_extmem h).
Abbreviation d := (load_descriptor mem off).
Context (Hop : d_opcode d = CORAL_OPERATOR_OP_MATMUL_INT8).
Context (Hclear : descriptor_clear off d = true).
Context (Hvalid : (ValidateGem5HybridDescriptor (submitted d) kExtmemBase kExtmemSize).1 = true).
Context (Hmm : matmul_pre d mem kExtmemBase).

(** The tensors as the kernel sees them are the firmware's. *)
Lemma matmul_pre_running b :
  buf_len b = buf_len mem -> matmul_pre (running (submitted d)) b kExtmemBase.
Proof.
  intros El. destruct Hmm as [H1 H2 H3 H4 H5 H6 H7 H8]. split; try done.
  unfold in_mem in *. cbn. by rewrite El.
Qed.

(** An operand's bytes are outside the descriptor. *)
Lemma operand_untouched i t j :
  (i < 3)%nat -> t = tensor_at d i -> in_mem kExtmemBase mem t -> 0 <= j < t_size t ->
  ~ (off <= tensor_off kExtmemBase t + j < off + descriptor_sizeof).
Proof.
  intros Hi -> Hin Hj.
  assert (tensor_wf (tensor_at d i)) as Hwf.
  { destruct (mm_wf _ _ _ Hmm) as (W0 & W1 & W2).
    destruct i as [|[|[|]]]; [done | done | done | lia]. }
  destruct (tensor_off_eq kExtmemBase mem _ Hwf ltac:(done) Hin) as (-> & _ & _).
  pose proof Hclear as Hc. unfold descriptor_clear in Hc. rewrite !andb_true_iff in Hc.
  destruct Hc as [[Hc _] _]. rewrite forallb_forall in Hc.
  specialize (Hc (tensor_at d i)). unfold range_clear in Hc. bool_prop.
  assert (d_tensor_count d = 3) as E3.
  { pose proof (mm_types _ _ _ Hmm) as Ht. unfold matmul_types_ok in Ht.
    rewrite !andb_true_iff, !Z.eqb_eq in Ht. tauto. }
  destruct Hc; [| lia | lia].
  rewrite E3. apply list_elem_of_In, list_elem_of_lookup_2 with (i := i).
  apply lookup_take_Some. split; [| lia].
  destruct i as [|[|[|]]]; [done | done | done | lia].
Qed.

Lemma matmul_value_same b row col :
  keeps off descriptor_sizeof mem b ->
  0 <= row < dim (tensor_at d 0) 0 -> 0 <= col < dim (tensor_at d 1) 1 ->
  matmul_value d b kExtmemBase row col = matmul_value d mem kExtmemBase row col.
Proof.
  intros (_ & _ & Hk) Hr Hc. unfold matmul_value. f_equal.
  destruct (matmul_facts d mem kExtmemBase Hmm) as (_ & _ & _ & S0 & S1 & _ & _).
  destruct (mm_in _ _ _ Hmm) as (I0 & I1 & _).
  apply sumZ_ext. intros i Hi. unfold term, at8.
  rewrite !Hk; [done | |].
  - apply (operand_untouched 1); [lia | done | done |]. rewrite S1.
    by apply index_range.
  - apply (operand_untouched 0); [lia | done | done |]. rewrite S0.
    by apply index_range.
Qed.

(** The memory the kernel starts from. *)
Definition running_mem : buf :=
  store_descriptor (submitted_mem mem off) off (running (submitted d)).

Lemma descriptor_stored : descriptor_wf d.
Proof. apply load_descriptor_wf, (sp_inv _ _ Hsub). Qed.

Lemma store_keeps b d1 :
  same_request d d1 -> keeps off descriptor_sizeof b (store_descriptor b off d1).
Proof. intros ->. apply store_descriptor_keeps; apply descriptor_stored. Qed.

Lemma running_keeps : keeps off descriptor_sizeof mem running_mem.
Proof.
  etrans; [| by apply store_keeps]. unfold submitted_mem.
  eapply (keeps_write off descriptor_sizeof mem); [| apply le_bytes_byte | |].
  - destruct Hsub as [Hi _ _ _ Hlo Hhi]. unfold descriptor_sizeof, state_offset in *.
    apply buf_write_ret; rewrite ?(proj1 Hi), ?length_le_bytes; lia.
  - unfold state_offset. lia.
  - unfold descriptor_sizeof, state_offset. rewrite length_le_bytes. lia.
Qed.

Lemma matmul_dispatch :
  exists d' b m', DispatchGem5HybridOperator expf (fun d b => store_descriptor b off d)
      (submitted d) (submitted_mem mem off) kExtmemBase elapsed = Ret (true, d', m') /\
    m' = store_descriptor b off d' /\ same_request (submitted d) d' /\
    (forall row col, 0 <= row < dim (tensor_at d 0) 0 -> 0 <= col < dim (tensor_at d 1) 1 ->
       at8 b (tensor_off kExtmemBase (tensor_at d 2) + (row * dim (tensor_at d 1) 1 + col)) =
         clamp (d_activation_min d) (d_activation_max d)
           (matmul_value d mem kExtmemBase row col)).
Proof.
  destruct running_keeps as (Kl & _ & _).
  destruct (matmul_run (running (submitted d)) running_mem kExtmemBase elapsed
    (matmul_pre_running running_mem Kl)) as (stats & b & E & _ & Hv & _).
  destruct (dispatch_success expf (fun d b => store_descriptor b off d) (submitted d)
    (submitted_mem mem off) kExtmemBase elapsed stats b) as (d' & Ed & Hs).
  - replace (buf_len (submitted_mem mem off)) with kExtmemSize; [done |].
    symmetry. apply (proj1 (sp_inv _ _ Hsub)).
  - unfold run_kernel. change (d_opcode (running (submitted d))) with (d_opcode d).
    rewrite Hop. etrans; [| by rewrite <- E]. reflexivity.
  - exists d', b. eexists. split; [exact Ed |]. split; [done |]. split; [done |].
    intros row col Hr Hc. rewrite <- (matmul_value_same running_mem) by
      (done || apply running_keeps). exact (Hv row col Hr Hc).
Qed.

(** The output lies outside the descriptor, so that the stores behind the
    kernel leave it alone. *)
Lemma output_kept b d1 d2 row col :
  same_request d d1 -> same_request d d2 ->
  0 <= row < dim (tensor_at d 0) 0 -> 0 <= col < dim (tensor_at d 1) 1 ->
  let j := tensor_off kExtmemBase (tensor_at d 2) + (row * dim (tensor_at d 1) 1 + col) in
  at8 (store_descriptor (store_descriptor b off d1) off d2) j = at8 b j.
Proof.
  intros H1 H2 Hr Hc j. unfold at8. f_equal.
  destruct (store_keeps b d1 H1) as (_ & _ & K1).
  destruct (store_keeps (store_descriptor b off d1) d2 H2) as (_ & _ & K2).
  assert (~ (off <= j < off + descriptor_sizeof)) as Hj.
  { apply (operand_untouched 2); [lia | done | apply (mm_in _ _ _ Hmm) |].
    destruct (matmul_facts d mem kExtmemBase Hmm) as (_ & _ & _ & _ & _ & -> & _).
    by apply index_range. }
  by rewrite K2, K1.
Qed.

End matmul_end_to_end.

(** C3: a matrix product submitted by the firmware comes out right: with the
    bridge set up for hybrid execution, a valid descriptor that overlaps none
    of its tensors, disjoint output, int8 zero points and an inner dimension
    that fits the accumulator, [SubmitHybridOperator] returns [true] and the
    external memory then holds, at every place of the output tensor, the
    clamped inner product of the operands the firmware had put there. *)
Theorem submit_matmul expf now elapsed h address :
  let off := address - kExtmemBase in
  let mem := local_extmem h in
  let d := load_descriptor mem off in
  submit_pre h address -> d_opcode d = CORAL_OPERATOR_OP_MATMUL_INT8 ->
  descriptor_clear off d = true ->
  (ValidateGem5HybridDescriptor (submitted d) kExtmemBase kExtmemSize).1 = true ->
  matmul_pre d mem kExtmemBase ->
  exists h', SubmitHybridOperator true expf now elapsed address h = Ret (Some (true, h')) /\
    forall row col, 0 <= row < dim (tensor_at d 0) 0 -> 0 <= col < dim (tensor_at d 1) 1 ->
      at8 (local_extmem h')
        (tensor_off kExtmemBase (tensor_at d 2) + (row * dim (tensor_at d 1) 1 + col)) =
      clamp (d_activation_min d) (d_activation_max d) (matmul_value d mem kExtmemBase row col).
Proof.
  cbv zeta. intros Hsub Hop Hclear Hvalid Hmm.
  destruct (matmul_dispatch expf elapsed h address Hsub Hop Hclear Hvalid Hmm)
    as (d' & b & m' & Ed & -> & Hs & Hv).
  pose proof Hclear as Hclear'. rewrite <- clear_submitted in Hclear'.
  destruct (submit_result expf now elapsed h address Hsub true _ _ Hclear' Ed)
    as (h' & E & Em & _).
  apply same_request_submitted in Hs.
  exists h'. split; [exact E |]. intros row col Hr Hc. rewrite Em. unfold final_mem.
  rewrite (output_kept h address Hsub Hclear Hmm b d' _ row col Hs
    (same_request_cycles _ _ _ Hs) Hr Hc). exact (Hv row col Hr Hc).
Qed.

(** ** Concrete submissions *)

Definition submit_mem : buf :=
  store_descriptor
    (buf_blit (buf_blit (buf_new kExtmemSize) 0 [1; 2; 3; 4; 5; 255]) 16 [7; 8; 9; 10; 11; 12])
    4096 sample_matmul.

Definition submit_handle : coral_gem5_handle :=
  set_mode CORAL_OPERATOR_MODE_HYBRID
    (with_extmem true submit_mem counters_zero (coral_gem5_handle_init no_env mac_reset 0)).

Lemma submit_mem_bytes : buf_bytes submit_mem.
Proof.
  apply store_descriptor_keeps; [done | | done |].
  - repeat (apply List.Forall_cons || apply List.Forall_nil); tensor_wf_tac.
  - repeat apply buf_bytes_blit; [apply buf_bytes_new | |];
      repeat (apply List.Forall_cons || apply List.Forall_nil); unfold is_byte; lia.
Qed.

Lemma submit_handle_pre : submit_pre submit_handle 0x20001000.
Proof.
  split; try reflexivity.
  - split; [done | exact submit_mem_bytes].
  - by left.
  - vm_compute. discriminate.
  - vm_compute. discriminate.
Qed.

Lemma submit_descriptor :
  load_descriptor (local_extmem submit_handle) (0x20001000 - kExtmemBase) = sample_matmul.
Proof. vm_compute. reflexivity. Qed.

Lemma submit_matmul_witness :
  exists h', SubmitHybridOperator true no_exp 0 0 0x20001000 submit_handle
      = Ret (Some (true, h')) /\
    at8 (local_extmem h') 33 =
      clamp (-128) 127 (matmul_value sample_matmul submit_mem kExtmemBase 0 1).
Proof.
  pose proof (submit_matmul no_exp 0 0 submit_handle 0x20001000) as H. cbv zeta in H.
  rewrite submit_descriptor in H.
  destruct H as (h' & E & Hv).
  - exact submit_handle_pre.
  - reflexivity.
  - reflexivity.
  - vm_compute. reflexivity.
  - destruct sample_matmul_pre as [H1 H2 H3 H4 H5 H6 H7 H8]. by split.
  - exists h'. split; [exact E |]. apply (Hv 0 1); vm_compute; split; congruence.
Defined.

Lemma submit_refines_dispatch_witness :
  exists ok h', SubmitHybridOperator true no_exp 0 0 0x20001000 submit_handle
    = Ret (Some (ok, h')) /\ ok = true.
Proof.
  destruct (DispatchGem5HybridOperator no_exp (fun d b => store_descriptor b 4096 d)
    (submitted sample_matmul) (submitted_mem submit_mem 4096) kExtmemBase 0)
    as [[[ok d'] m']| | |] eqn:E; [| vm_compute in E; discriminate E ..].
  pose proof (submit_refines_dispatch no_exp 0 0 submit_handle 0x20001000 ok d' m'
    submit_handle_pre) as H.
  rewrite submit_descriptor in H. destruct (H eq_refl E) as (h' & E' & _).
  exists ok, h'. split; [exact E' |].
  apply (f_equal (fun r => match r with Ret (ok, _, _) => ok | _ => false end)) in E.
  vm_compute in E. by symmetry.
Defined.

(** ** Choosing between RTL and hybrid execution *)

(** The registers as the firmware reads them from the bridge. *)
Definition bridge_regs (highmem : bool) (h : coral_gem5_handle) : operator_regs :=
  {| reg_mode := operator_register highmem h CORAL_OPERATOR_MODE_REG;
     reg_capabilities := operator_register highmem h CORAL_OPERATOR_CAPABILITIES_REG;
     reg_sampled_rtl_mask := operator_register highmem h CORAL_OPERATOR_SAMPLED_RTL_MASK_REG |}.

Lemma capability_bits opcode :
  0 <= opcode < 32 ->
  negb (Z.land (capabilities true) (u32 (Z.shiftl 1 opcode)) =? 0) =
  (2 <=? opcode) && (opcode <=? 8).
Proof.
  intros H.
  assert (opcode ∈ seqZ 0 32) as Hin by (apply elem_of_seqZ; lia).
  apply list_elem_of_In in Hin.
  assert (forallb (fun k => eqb (negb (Z.land (capabilities true) (u32 (Z.shiftl 1 k)) =? 0))
    ((2 <=? k) && (k <=? 8))) (seqZ 0 32) = true) as Hall by (vm_compute; reflexivity).
  rewrite forallb_forall in Hall. by apply Hall, eqb_prop in Hin.
Qed.

(** The firmware never submits what the host cannot run: whatever the mode
    and the sampling mask, it chooses hybrid execution only on the highmem
    build, only in hybrid or sampled mode, and only for an opcode for which
    the dispatcher has a kernel; in hybrid mode it chooses it for all of them. *)
Theorem hybrid_choice_supported highmem expf h opcode d extmem base elapsed :
  0 <= opcode -> d_opcode d = opcode ->
  (OperatorUsesHybrid (bridge_regs highmem h) opcode = true ->
     highmem = true /\
     (operator_mode h = CORAL_OPERATOR_MODE_HYBRID \/
      operator_mode h = CORAL_OPERATOR_MODE_SAMPLED) /\
     run_kernel expf d extmem base elapsed <> None) /\
  (highmem = true -> operator_mode h = CORAL_OPERATOR_MODE_HYBRID ->
     run_kernel expf d extmem base elapsed <> None ->
     OperatorUsesHybrid (bridge_regs highmem h) opcode = true).
Proof.
  intros H0 Hd.
  assert (run_kernel expf d extmem base elapsed <> None <-> 2 <= opcode <= 8) as Hk.
  { unfold run_kernel. rewrite Hd. split.
    - intros Hne. repeat case_test_in Hne; bool_prop; try done;
        match goal with E : _ = ?c |- _ => unfold c in E; lia end.
    - intros Hr. assert (opcode = 2 \/ opcode = 3 \/ opcode = 4 \/ opcode = 5 \/ opcode = 6
        \/ opcode = 7 \/ opcode = 8) as Ho by lia.
      destruct Ho as [->|[->|[->|[->|[->|[->| ->]]]]]]; discriminate. }
  assert (HybridOperatorSupported (bridge_regs highmem h) opcode = true <->
    highmem = true /\ 2 <= opcode <= 8) as Hs.
  { unfold HybridOperatorSupported. cbn. destruct highmem;
      [| rewrite andb_false_r; split; [done | by intros []]].
    destruct (Z.ltb_spec opcode 32); [| cbn; intuition lia].
    rewrite capability_bits by lia. bool_prop. intuition lia. }
  rewrite Hk. unfold OperatorUsesHybrid.
  change (reg_mode (bridge_regs highmem h)) with (operator_mode h).
  destruct (Z.eqb_spec (operator_mode h) CORAL_OPERATOR_MODE_HYBRID) as [E|E];
    [rewrite Hs; intuition |].
  destruct (Z.eqb_spec (operator_mode h) CORAL_OPERATOR_MODE_SAMPLED) as [E2|E2].
  - rewrite andb_true_iff, Hs. intuition.
  - intuition done.
Qed.

Lemma hybrid_choice_witness :
  OperatorUsesHybrid (bridge_regs true submit_handle) CORAL_OPERATOR_OP_MATMUL_INT8 = true /\
  run_kernel no_exp sample_matmul submit_mem kExtmemBase 0 <> None.
Proof.
  destruct (hybrid_choice_supported true no_exp submit_handle CORAL_OPERATOR_OP_MATMUL_INT8
    sample_matmul submit_mem kExtmemBase 0) as [H _]; [vm_compute; discriminate | reflexivity |].
  split; [vm_compute; reflexivity |]. apply H. vm_compute. reflexivity.
Defined.
