(* ===== verification/Drain.v ===== *)
(** * Draining the simulator ([sim/drain.cc], [sim/drain.hh])

    The manager asks every registered object to drain, counts those that need
    more time, and ends the simulation loop when the last of them reports.  The
    objects' own [drain] and [drainResume] are a class. *)

From S2P Require Import Prelude.

(** ** State *)

Inductive DrainState := Running | Draining | Drained | Resuming.

#[export] Instance DrainState_eq_dec : EqDecision DrainState.
Proof. solve_decision. Defined.

(** The virtual methods of the objects, over the rest of the simulator [W].
    Each also gives the objects it constructs. *)
Class Drainables (W : Type) := {
  obj_drain : Z -> W -> DrainState * list Z * W;
  obj_drainResume : Z -> W -> list Z * W }.

(** [DrainManager]; [_drainState] holds the member of each object, and
    [exits] counts the calls of [exitSimLoop]. *)
Record DrainManager (W : Type) := {
  _allDrainable : list Z;
  _count : Z;
  _state : DrainState;
  _drainState : gmap Z DrainState;
  exits : nat;
  rest : W }.
Arguments _allDrainable {W} _.
Arguments _count {W} _.
Arguments _state {W} _.
Arguments _drainState {W} _.
Arguments exits {W} _.
Arguments rest {W} _.

Section manager.
Context {W : Type} {HD : Drainables W}.
Implicit Types (m : DrainManager W) (obj : Z).

Definition set_registered (l : list Z) m : DrainManager W :=
  {| _allDrainable := l; _count := _count m; _state := _state m; _drainState := _drainState m;
     exits := exits m; rest := rest m |}.
Definition set_count (c : Z) m : DrainManager W :=
  {| _allDrainable := _allDrainable m; _count := c; _state := _state m;
     _drainState := _drainState m; exits := exits m; rest := rest m |}.
Definition set_state (s : DrainState) m : DrainManager W :=
  {| _allDrainable := _allDrainable m; _count := _count m; _state := s;
     _drainState := _drainState m; exits := exits m; rest := rest m |}.
Definition set_drainState obj (s : DrainState) m : DrainManager W :=
  {| _allDrainable := _allDrainable m; _count := _count m; _state := _state m;
     _drainState := <[obj := s]> (_drainState m); exits := exits m; rest := rest m |}.
Definition set_rest (w : W) m : DrainManager W :=
  {| _allDrainable := _allDrainable m; _count := _count m; _state := _state m;
     _drainState := _drainState m; exits := exits m; rest := w |}.
Definition exitSimLoop m : DrainManager W :=
  {| _allDrainable := _allDrainable m; _count := _count m; _state := _state m;
     _drainState := _drainState m; exits := S (exits m); rest := rest m |}.

Definition DrainManager_make (w : W) : DrainManager W :=
  {| _allDrainable := []; _count := 0; _state := Running; _drainState := ∅; exits := 0; rest := w |}.

(** [drainState()] of a live object. *)
Definition drainState obj m : res DrainState :=
  match _drainState m !! obj with Some s => Ret s | None => Undef end.

(** ** Registration *)

Definition registerDrainable obj m : res (DrainManager W) :=
  fatal_if (bool_decide (obj ∈ _allDrainable m));;      (* assert *)
  Ret (set_registered (_allDrainable m ++ [obj]) m).

Fixpoint erase_first obj (l : list Z) : list Z :=
  match l with [] => [] | x :: l => if decide (x = obj) then l else x :: erase_first obj l end.

Definition unregisterDrainable obj m : res (DrainManager W) :=
  fatal_if (negb (bool_decide (obj ∈ _allDrainable m)));;      (* assert *)
  Ret (set_registered (erase_first obj (_allDrainable m)) m).

(** [Drainable::Drainable]: the state is the manager's. *)
Definition construct obj m : res (DrainManager W) :=
  registerDrainable obj (set_drainState obj (_state m) m).

(** [Drainable::~Drainable]. *)
Definition destroy obj m : res (DrainManager W) :=
  m' ← unregisterDrainable obj m;
  Ret {| _allDrainable := _allDrainable m'; _count := _count m'; _state := _state m';
         _drainState := delete obj (_drainState m'); exits := exits m'; rest := rest m' |}.

Fixpoint construct_all (l : list Z) m : res (DrainManager W) :=
  match l with [] => Ret m | obj :: l => m' ← construct obj m; construct_all l m' end.

(** ** Draining *)

(** [Drainable::dmDrain]; growing the vector the caller iterates over makes
    its iterators invalid. *)
Definition dmDrain obj m : res (DrainState * DrainManager W) :=
  let m := set_drainState obj Draining m in
  let '(s, new, w) := obj_drain obj (rest m) in
  m ← construct_all new (set_rest w m);
  let m := set_drainState obj s m in
  fatal_if (negb (bool_decide (s = Draining \/ s = Drained)));;      (* assert *)
  undef_unless (bool_decide (new = []));;
  Ret (s, m).

Fixpoint drain_each (l : list Z) m : res (DrainManager W) :=
  match l with
  | [] => Ret m
  | obj :: l =>
      '(status, m) ← dmDrain obj m;
      drain_each l (set_count (u32 (_count m + if decide (status = Drained) then 0 else 1)) m)
  end.

Definition tryDrain m : res (bool * DrainManager W) :=
  fatal_if (bool_decide (_state m = Drained));;
  fatal_if (negb (_count m =? 0));;
  m ← drain_each (_allDrainable m) (set_state Draining m);
  if _count m =? 0 then Ret (true, set_state Drained m) else Ret (false, m).

(** [DrainManager::signalDrainDone]. *)
Definition manager_signalDrainDone m : res (DrainManager W) :=
  fatal_if (_count m <=? 0);;      (* assert *)
  let m := set_count (u32 (_count m - 1)) m in
  Ret (if _count m =? 0 then exitSimLoop m else m).

(** [Drainable::signalDrainDone]. *)
Definition signalDrainDone obj m : res (DrainManager W) :=
  s ← drainState obj m;
  match s with
  | Running | Drained | Resuming => Ret m
  | Draining => manager_signalDrainDone (set_drainState obj Drained m)
  end.

(** ** Resuming *)

(** [Drainable::dmDrainResume]. *)
Definition dmDrainResume obj m : res (DrainManager W) :=
  s ← drainState obj m;
  fatal_if (negb (bool_decide (s = Drained)) && negb (bool_decide (s = Resuming)));;
  let m := set_drainState obj Running m in
  let '(new, w) := obj_drainResume obj (rest m) in
  m ← construct_all new (set_rest w m);
  undef_unless (bool_decide (new = []));;
  Ret m.

Fixpoint resume_each (l : list Z) m : res (DrainManager W) :=
  match l with
  | [] => Ret m
  | obj :: l =>
      s ← drainState obj m;
      m ← (if decide (s = Running) then Ret m
           else fatal_if (negb (bool_decide (s = Drained \/ s = Resuming)));; dmDrainResume obj m);
      resume_each l m
  end.

Fixpoint all_in_state (s : DrainState) (l : list Z) m : res bool :=
  match l with
  | [] => Ret true
  | obj :: l => s' ← drainState obj m; if decide (s' = s) then all_in_state s l m else Ret false
  end.
Definition allInState (s : DrainState) m : res bool := all_in_state s (_allDrainable m) m.

(** The do-while loop; [turns] bounds its turns. *)
Fixpoint resume_loop (turns : nat) m : res (DrainManager W) :=
  match turns with
  | O => Hang
  | S turns =>
      m ← resume_each (_allDrainable m) m;
      done ← allInState Running m;
      if (done : bool) then Ret m else resume_loop turns m
  end.

Definition resume (turns : nat) m : res (DrainManager W) :=
  fatal_if (bool_decide (_state m = Running));;
  fatal_if (bool_decide (_state m = Resuming));;
  fatal_if (negb (_count m =? 0));;
  m ← resume_loop turns (set_state Resuming m);
  Ret (set_state Running m).

Definition preCheckpointRestore m : res (DrainManager W) :=
  fatal_if (negb (bool_decide (_state m = Running)));;
  Ret (foldr (fun obj m => set_drainState obj Drained m) (set_state Drained m) (_allDrainable m)).

End manager.
