(* ===== verification/DrainSpec.v ===== *)
(** * What the drain manager guarantees

    The count is the number of objects that are still draining, so the loop is
    left exactly when the last of them reports. *)

From stdpp Require Import relations.
From S2P Require Import Prelude Drain.

Section spec.
Context {W : Type} {HD : Drainables W}.
Implicit Types (m : DrainManager W) (obj : Z).

(** ** The invariant *)

Definition is_draining m obj : bool := bool_decide (_drainState m !! obj = Some Draining).
(** The registered objects that are still draining. *)
Definition draining m : list Z := List.filter (is_draining m) (_allDrainable m).

(** The states the objects may have in a state of the manager. *)
Definition allowed (s o : DrainState) : Prop :=
  match s with
  | Running => o = Running
  | Draining => o = Draining \/ o = Drained
  | Drained => o = Drained
  | Resuming => False
  end.

Record dm_inv m : Prop := {
  di_nodup : NoDup (_allDrainable m);
  di_small : Z.of_nat (length (_allDrainable m)) < 2 ^ 32;
  di_count : _count m = Z.of_nat (length (draining m));
  di_states : forall obj, obj ∈ _allDrainable m ->
    exists o, _drainState m !! obj = Some o /\ allowed (_state m) o;
  di_dead : forall obj, obj ∉ _allDrainable m -> _drainState m !! obj = None;
  di_stable : _state m <> Resuming }.

(** What may happen between two calls of the manager: objects are created, not
    while draining, and destroyed, unless they are draining themselves. *)
Inductive dm_step m : DrainManager W -> Prop :=
| step_construct obj m' :
    _state m <> Draining -> Z.of_nat (S (length (_allDrainable m))) < 2 ^ 32 ->
    construct obj m = Ret m' -> dm_step m m'
| step_destroy obj m' :
    _drainState m !! obj <> Some Draining -> destroy obj m = Ret m' -> dm_step m m'
| step_tryDrain b m' : tryDrain m = Ret (b, m') -> dm_step m m'
| step_signal obj m' : signalDrainDone obj m = Ret m' -> dm_step m m'
| step_resume turns m' : resume turns m = Ret m' -> dm_step m m'
| step_restore m' : preCheckpointRestore m = Ret m' -> dm_step m m'
| step_run w : dm_step m (set_rest w m).

(** ** Counting *)

Lemma draining_ext m m' :
  _allDrainable m' = _allDrainable m ->
  (forall obj, obj ∈ _allDrainable m -> _drainState m' !! obj = _drainState m !! obj) ->
  draining m' = draining m.
Proof.
  intros E H. unfold draining. rewrite E. apply List.filter_ext_in. intros obj Hin.
  unfold is_draining. by rewrite H by (by apply list_elem_of_In).
Qed.

Lemma draining_none m :
  (forall obj, obj ∈ _allDrainable m -> _drainState m !! obj <> Some Draining) -> draining m = [].
Proof.
  unfold draining. induction (_allDrainable m) as [|x l IH]; intros H; [done |]. simpl.
  unfold is_draining at 1. rewrite bool_decide_eq_false_2 by (apply H; by left).
  apply IH. intros obj Hobj. apply H. by right.
Qed.

Lemma elem_draining m obj :
  obj ∈ draining m <-> obj ∈ _allDrainable m /\ _drainState m !! obj = Some Draining.
Proof.
  unfold draining. rewrite list_elem_of_In, List.filter_In, <- list_elem_of_In.
  unfold is_draining. by rewrite bool_decide_eq_true.
Qed.

(** One object stops draining. *)
Lemma draining_remove m obj :
  NoDup (_allDrainable m) -> obj ∈ draining m ->
  length (draining m) = S (length (draining (set_drainState obj Drained m))).
Proof.
  intros Hnd Hin. apply elem_draining in Hin as [Hin Hst].
  unfold draining. cbn [_allDrainable set_drainState].
  induction (_allDrainable m) as [|x l IH]; [by apply elem_of_nil in Hin |].
  apply list.NoDup_cons in Hnd as [Hx Hnd]. apply elem_of_cons in Hin as [<-|Hin]; simpl.
  - unfold is_draining at 1. rewrite Hst, bool_decide_eq_true_2 by done.
    unfold is_draining at 2. cbn [_drainState set_drainState].
    rewrite lookup_insert_eq, bool_decide_eq_false_2 by done. simpl. f_equal. f_equal.
    apply List.filter_ext_in. intros y Hy. unfold is_draining. cbn [_drainState set_drainState].
    rewrite lookup_insert_ne; [done |]. intros ->. apply Hx. by apply list_elem_of_In.
  - assert (x <> obj) by (by intros ->). specialize (IH Hnd Hin).
    assert (is_draining (set_drainState obj Drained m) x = is_draining m x) as ->.
    { unfold is_draining. cbn [_drainState set_drainState]. by rewrite lookup_insert_ne. }
    destruct (is_draining m x); simpl; by rewrite IH.
Qed.

(** ** Signals *)

Lemma inv_alive m obj o : dm_inv m -> _drainState m !! obj = Some o ->
  obj ∈ _allDrainable m /\ allowed (_state m) o.
Proof.
  intros H E. destruct (decide (obj ∈ _allDrainable m)) as [Hin|Hnin].
  - split; [done |]. destruct (di_states m H obj Hin) as (o' & E' & Ha). congruence.
  - by rewrite (di_dead m H obj Hnin) in E.
Qed.

(** A registered object can report at any time.  If it was draining it is not
    any more, and the loop is left exactly if it was the last. *)
Lemma signal_spec m obj :
  dm_inv m -> obj ∈ _allDrainable m ->
  exists m', signalDrainDone obj m = Ret m' /\ dm_inv m' /\ _state m' = _state m /\
    _allDrainable m' = _allDrainable m /\
    (forall x, x ∈ draining m' <-> x ∈ draining m /\ x <> obj) /\
    exits m' = (exits m + if decide (draining m = [obj]) then 1 else 0)%nat.
Proof.
  intros H Hin. destruct (di_states m H obj Hin) as (o & Ho & Ha).
  unfold signalDrainDone, drainState. rewrite Ho. cbn [mbind res_bind].
  destruct (decide (o = Draining)) as [->|Hno].
  2: { exists m. assert (obj ∉ draining m) as Hnd.
       { intros Hd. apply elem_draining in Hd as [_ Hd]. congruence. }
       split; [by destruct o |]. do 3 (split; [done |]). split.
       - intros x. split; [| by intros [? _]]. intros Hx. split; [done |]. by intros ->.
       - rewrite decide_False; [lia |]. intros E. apply Hnd. rewrite E. by left. }
  assert (obj ∈ draining m) as Hd by (by apply elem_draining).
  pose proof (draining_remove m obj (di_nodup m H) Hd) as Hlen.
  set (m1 := set_drainState obj Drained m) in *.
  unfold manager_signalDrainDone. change (_count m1) with (_count m).
  rewrite (di_count m H), Hlen. destruct (Z.leb_spec (Z.of_nat (S (length (draining m1)))) 0); [lia |].
  cbn [fatal_if mbind res_bind].
  assert (Z.of_nat (length (draining m)) < 2 ^ 32) as Hsm.
  { pose proof (di_small m H). unfold draining.
    pose proof (List.filter_length_le (is_draining m) (_allDrainable m)). lia. }
  rewrite wrap_small by lia.
  set (m2 := set_count _ m1).
  assert (forall x, x ∈ draining m2 <-> x ∈ draining m /\ x <> obj) as Hel.
  { intros x. rewrite !elem_draining. cbn [_allDrainable _drainState m2 m1 set_count set_drainState].
    destruct (decide (x = obj)) as [->|Hne]; [rewrite lookup_insert_eq | rewrite lookup_insert_ne by done];
      intuition congruence. }
  assert (dm_inv m2) as H2.
  { destruct H as [N S C St De Sb]. split; try done.
    - cbn [_count m2 set_count]. change (draining m2) with (draining m1). lia.
    - intros x Hx. cbn [_drainState m2 m1 set_count set_drainState].
      destruct (decide (x = obj)) as [->|Hne].
      + rewrite lookup_insert_eq. exists Drained. split; [done |]. simpl in Ha |- *.
        destruct (_state m); simpl in *; try done; auto.
      + rewrite lookup_insert_ne by done. apply St. done.
    - intros x Hx. cbn [_drainState m2 m1 set_count set_drainState].
      rewrite lookup_insert_ne; [by apply De |]. by intros ->. }
  assert (draining m = [obj] <-> _count m2 = 0) as Hone.
  { cbn [_count m2 set_count]. split.
    - intros E. rewrite E in Hlen. simpl in Hlen. lia.
    - intros E. destruct (draining m) as [|y [|z l]]; simpl in Hlen; [lia | | lia].
      apply list_elem_of_singleton in Hd as ->. done. }
  destruct (Z.eqb_spec (_count m2) 0) as [E0|E0].
  - exists (exitSimLoop m2). split; [done |]. split; [by destruct H2 |]. split; [done |].
    split; [done |]. split; [exact Hel |]. rewrite decide_True by (by apply Hone). simpl. lia.
  - exists m2. split; [done |]. split; [done |]. split; [done |]. split; [done |]. split; [done |].
    rewrite decide_False; [simpl; lia |]. rewrite Hone. done.
Qed.

(** ** A drain *)

(** The loop over the objects, when they answer as they should. *)
Definition answers : Prop :=
  (forall obj w, ((obj_drain obj w).1.1 = Draining \/ (obj_drain obj w).1.1 = Drained) /\
     (obj_drain obj w).1.2 = []) /\
  forall obj w, (obj_drainResume obj w).1 = [].

Lemma dmDrain_answers obj m :
  answers -> exists o w, (o = Draining \/ o = Drained) /\
    dmDrain obj m = Ret (o, set_drainState obj o (set_rest w (set_drainState obj Draining m))).
Proof.
  intros [Ha _]. unfold dmDrain. cbn [rest set_drainState].
  destruct (Ha obj (rest m)) as [Ho Hn]. destruct (obj_drain obj (rest m)) as [[o new] w].
  simpl in Ho, Hn. subst new. exists o, w. split; [done |]. cbn [construct_all mbind res_bind].
  rewrite (bool_decide_eq_true_2 (o = Draining \/ o = Drained)) by done. done.
Qed.

Lemma dmDrain_ret obj m o m1 :
  dmDrain obj m = Ret (o, m1) -> (o = Draining \/ o = Drained) /\
    exists w, m1 = set_drainState obj o (set_rest w (set_drainState obj Draining m)).
Proof.
  unfold dmDrain. cbn [rest set_drainState]. destruct (obj_drain obj (rest m)) as [[o' new] w].
  intros H. apply bind_ret_inv in H as (m2 & E & H). apply bind_ret_inv in H as ([] & E1 & H).
  apply bind_ret_inv in H as ([] & E2 & [= <- <-]). unfold fatal_if in E1. unfold undef_unless in E2.
  case_bool_decide; [| done]. case_bool_decide; [| done]. subst new. injection E as <-.
  split; [done |]. by exists w.
Qed.

(** The loop has asked the objects [p] and will ask [l]. *)
Record asking (p l : list Z) m : Prop := {
  as_all : _allDrainable m = p ++ l;
  as_nodup : NoDup (p ++ l);
  as_small : Z.of_nat (length (p ++ l)) < 2 ^ 32;
  as_state : _state m = Draining;
  as_count : _count m = Z.of_nat (length (List.filter (is_draining m) p));
  as_states : forall obj, obj ∈ p -> exists o, _drainState m !! obj = Some o /\ allowed Draining o;
  as_dead : forall obj, obj ∉ p ++ l -> _drainState m !! obj = None }.

Lemma drain_each_exits l m m' : drain_each l m = Ret m' -> exits m' = exits m.
Proof.
  revert m. induction l as [|obj l IH]; intros m E; [by injection E as <- |].
  simpl in E. apply bind_ret_inv in E as ([o m1] & E1 & E). apply IH in E. rewrite E.
  apply dmDrain_ret in E1 as [_ [w ->]]. done.
Qed.

Lemma ask_one p obj l m o w m1 :
  asking p (obj :: l) m -> (o = Draining \/ o = Drained) ->
  m1 = set_drainState obj o (set_rest w (set_drainState obj Draining m)) ->
  asking (p ++ [obj]) l (set_count (u32 (_count m1 + if decide (o = Drained) then 0 else 1)) m1).
Proof.
  intros [A N S St C Ss De] Ho ->.
  assert (forall x, x <> obj -> _drainState (set_drainState obj o (set_rest w
    (set_drainState obj Draining m))) !! x = _drainState m !! x) as Hother.
  { intros x Hx. simpl. by rewrite !lookup_insert_ne. }
  assert (obj ∉ p) as Hp.
  { intros Hin. apply list.NoDup_app in N as (_ & N & _). apply (N obj Hin). by left. }
  assert (List.filter (is_draining (set_drainState obj o (set_rest w (set_drainState obj Draining m)))) p
    = List.filter (is_draining m) p) as Hf.
  { apply List.filter_ext_in. intros x Hx. unfold is_draining. rewrite Hother; [done |].
    intros ->. apply Hp. by apply list_elem_of_In. }
  split; rewrite <- ?app_assoc; try done.
  - cbn [_count set_count].
    change (_count (set_drainState _ _ _)) with (_count m). rewrite C.
    assert (Z.of_nat (length (List.filter (is_draining m) p)) + 1 < 2 ^ 32) as Hs.
    { pose proof (List.filter_length_le (is_draining m) p). rewrite length_app in S. simpl in S. lia. }
    rewrite wrap_small by (case_decide; lia). rewrite List.filter_app, length_app.
    cbn [List.filter].
    assert (is_draining (set_drainState obj o (set_rest w (set_drainState obj Draining m))) obj
      = bool_decide (o = Draining)) as Hobj.
    { unfold is_draining. cbn [_drainState set_drainState]. rewrite lookup_insert_eq.
      apply bool_decide_ext. split; congruence. }
    unfold is_draining in Hf, Hobj |- *. cbn [_drainState set_count].
    rewrite Hf, Hobj. destruct Ho as [->| ->]; simpl; lia.
  - intros x Hx. cbn [_drainState set_count]. destruct (decide (x = obj)) as [->|Hne].
    + exists o. cbn [_drainState set_drainState]. by rewrite lookup_insert_eq.
    + rewrite Hother by done. apply elem_of_app in Hx as [Hx|Hx]; [by apply Ss |].
      by apply list_elem_of_singleton in Hx.
  - intros x Hx. cbn [_drainState set_count]. rewrite Hother; [by apply De |].
    intros ->. apply Hx. apply elem_of_app. right. by left.
Qed.

Lemma ask_all p l m m' : asking p l m -> drain_each l m = Ret m' -> asking (p ++ l) [] m'.
Proof.
  revert p m. induction l as [|obj l IH]; intros p m H E; simpl in E.
  { injection E as <-. by rewrite app_nil_r. }
  apply bind_ret_inv in E as ([o m1] & E1 & E). apply dmDrain_ret in E1 as [Ho (w & E1)].
  rewrite (cons_middle obj p l), app_assoc. eapply IH; [| exact E]. by eapply ask_one.
Qed.

Lemma ask_returns p l m :
  answers -> asking p l m -> exists m', drain_each l m = Ret m'.
Proof.
  intros Ha. revert p m. induction l as [|obj l IH]; intros p m H; simpl; [by eexists |].
  destruct (dmDrain_answers obj m Ha) as (o & w & Ho & E). rewrite E. cbn [mbind res_bind].
  eapply IH. by eapply ask_one.
Qed.

Lemma asking_start m : dm_inv m -> _count m = 0 -> asking [] (_allDrainable m) (set_state Draining m).
Proof.
  intros [N S C St De _] H0. split; try done. intros obj Hobj. by apply elem_of_nil in Hobj.
Qed.

Lemma asking_inv l m : asking l [] m -> dm_inv m.
Proof.
  intros [A N S St C Ss De]. rewrite !app_nil_r in *. split; rewrite ?A, ?St; try done.
  rewrite C. unfold draining. by rewrite A.
Qed.

Lemma all_drained m : dm_inv m -> _count m = 0 -> _state m = Draining -> dm_inv (set_state Drained m).
Proof.
  intros [N S C St De _] H0 Hst. split; try done. intros obj Hobj.
  destruct (St obj Hobj) as (o & Ho & Ha). rewrite Hst in Ha. exists o. split; [done |].
  destruct Ha as [->|Ha]; [| done]. assert (obj ∈ draining m) as Hd by (by apply elem_draining).
  rewrite H0 in C. destruct (draining m); [by apply elem_of_nil in Hd | done].
Qed.

Lemma tryDrain_inv m b m' :
  dm_inv m -> tryDrain m = Ret (b, m') ->
  dm_inv m' /\ _allDrainable m' = _allDrainable m /\
  (if b then _state m' = Drained else _state m' = Draining /\ _count m' <> 0).
Proof.
  intros H E. unfold tryDrain in E. apply bind_ret_inv in E as ([] & _ & E).
  apply bind_ret_inv in E as ([] & E2 & E). unfold fatal_if in E2.
  destruct (Z.eqb_spec (_count m) 0) as [H0|]; [| done].
  apply bind_ret_inv in E as (m1 & E1 & E).
  pose proof (ask_all [] _ _ m1 (asking_start m H H0) E1) as Has. simpl in Has.
  pose proof (asking_inv _ _ Has) as H1. destruct Has as [A _ _ St _ _ _]. rewrite app_nil_r in A.
  destruct (Z.eqb_spec (_count m1) 0) as [Hc|Hc]; injection E as <- <-; [| done].
  split; [by apply all_drained | done].
Qed.

(** ** Resuming *)

(** The loop has resumed the objects [p]; [l] are left. *)
Record waking (p l : list Z) m : Prop := {
  wk_all : _allDrainable m = p ++ l;
  wk_nodup : NoDup (p ++ l);
  wk_small : Z.of_nat (length (p ++ l)) < 2 ^ 32;
  wk_count : _count m = 0;
  wk_up : forall obj, obj ∈ p -> _drainState m !! obj = Some Running;
  wk_down : forall obj, obj ∈ l -> _drainState m !! obj = Some Drained;
  wk_dead : forall obj, obj ∉ p ++ l -> _drainState m !! obj = None }.

Lemma wake_one p obj l m w :
  waking p (obj :: l) m -> waking (p ++ [obj]) l (set_rest w (set_drainState obj Running m)).
Proof.
  intros [A N S C U D De].
  assert (forall x, x <> obj ->
    _drainState (set_rest w (set_drainState obj Running m)) !! x = _drainState m !! x) as Hother.
  { intros x Hx. simpl. by rewrite lookup_insert_ne. }
  split; rewrite <- ?app_assoc; try done.
  - intros x Hx. destruct (decide (x = obj)) as [->|Hne]; [simpl; by rewrite lookup_insert_eq |].
    rewrite Hother by done. apply elem_of_app in Hx as [Hx|Hx]; [by apply U |].
    by apply list_elem_of_singleton in Hx.
  - intros x Hx. rewrite Hother; [apply D; by right |]. intros ->.
    apply list.NoDup_app in N as (_ & _ & N). by apply list.NoDup_cons in N as [N _].
  - intros x Hx. rewrite Hother; [by apply De |]. intros ->. apply Hx. apply elem_of_app. right. by left.
Qed.

(** One turn of the inner loop, on an object that is drained. *)
Lemma resume_step obj l m :
  _drainState m !! obj = Some Drained ->
  resume_each (obj :: l) m = dmDrainResume obj m ≫= resume_each l.
Proof.
  intros E. cbn [resume_each]. unfold drainState. rewrite E. cbn [mbind res_bind].
  rewrite decide_False by done. by rewrite bool_decide_eq_true_2 by auto.
Qed.

Lemma dmDrainResume_ret obj m m1 :
  dmDrainResume obj m = Ret m1 -> exists w, m1 = set_rest w (set_drainState obj Running m).
Proof.
  unfold dmDrainResume. intros H. apply bind_ret_inv in H as (o & _ & H).
  apply bind_ret_inv in H as ([] & _ & H). cbn [rest set_drainState] in H.
  destruct (obj_drainResume obj (rest m)) as [new w]. apply bind_ret_inv in H as (m2 & E & H).
  apply bind_ret_inv in H as ([] & En & [= <-]). unfold undef_unless in En.
  case_bool_decide; [| done]. subst new. injection E as <-. by exists w.
Qed.

Lemma dmDrainResume_answers obj m :
  answers -> _drainState m !! obj = Some Drained -> exists m1, dmDrainResume obj m = Ret m1.
Proof.
  intros [_ Ha] E. unfold dmDrainResume, drainState. rewrite E. cbn [mbind res_bind].
  rewrite (bool_decide_eq_true_2 (Drained = Drained)) by done. cbn [negb andb fatal_if mbind res_bind].
  cbn [rest set_drainState]. specialize (Ha obj (rest m)).
  destruct (obj_drainResume obj (rest m)) as [new w]. simpl in Ha. subst new. by eexists.
Qed.

Lemma wake_all p l m m' : waking p l m -> resume_each l m = Ret m' -> waking (p ++ l) [] m'.
Proof.
  revert p m. induction l as [|obj l IH]; intros p m H E.
  { injection E as <-. by rewrite app_nil_r. }
  rewrite resume_step in E by (apply (wk_down _ _ _ H); by left).
  apply bind_ret_inv in E as (m1 & E1 & E). apply dmDrainResume_ret in E1 as [w ->].
  rewrite (cons_middle obj p l), app_assoc. eapply IH; [| exact E]. by apply wake_one.
Qed.

Lemma wake_returns p l m : answers -> waking p l m -> exists m', resume_each l m = Ret m'.
Proof.
  intros Ha. revert p m. induction l as [|obj l IH]; intros p m H; [by eexists |].
  assert (_drainState m !! obj = Some Drained) as Ed by (apply (wk_down _ _ _ H); by left).
  rewrite resume_step by done. destruct (dmDrainResume_answers obj m Ha Ed) as [m1 E1]. rewrite E1.
  apply dmDrainResume_ret in E1 as [w ->]. cbn [mbind res_bind]. eapply IH. by apply wake_one.
Qed.

Lemma all_running l m :
  (forall obj, obj ∈ l -> _drainState m !! obj = Some Running) -> all_in_state Running l m = Ret true.
Proof.
  induction l as [|obj l IH]; intros H; [done |]. simpl. unfold drainState.
  rewrite (H obj) by left. cbn [mbind res_bind]. rewrite decide_True by done.
  apply IH. intros x Hx. apply H. by right.
Qed.

Lemma waking_start m :
  dm_inv m -> _count m = 0 -> _state m <> Running -> waking [] (_allDrainable m) (set_state Resuming m).
Proof.
  intros H H0 Hs. assert (dm_inv (set_state Drained m)) as [N S C St De _].
  { destruct (_state m) eqn:E; try done; [by apply all_drained | by destruct H; split; rewrite <- ?E |].
    by destruct (di_stable m H). }
  split; try done; [intros obj Hobj; by apply elem_of_nil in Hobj |].
  intros obj Hobj. destruct (St obj Hobj) as (o & Ho & Ha). simpl in *. congruence.
Qed.

Lemma waking_end l m : waking l [] m -> dm_inv (set_state Running m) /\ allInState Running m = Ret true.
Proof.
  intros [A N S C U _ De]. rewrite app_nil_r in *.
  assert (forall obj, obj ∈ _allDrainable m -> _drainState m !! obj = Some Running) as Hr.
  { intros obj. rewrite A. apply U. }
  split; [| by apply all_running].
  split; simpl; rewrite ?A; try done.
  - rewrite C, draining_none; [done |]. intros obj Hobj. simpl in *. by rewrite Hr.
  - intros obj Hobj. exists Running. split; [by apply U | done].
Qed.

(** The loop ends in its first turn. *)
Lemma resume_woken turns m m' :
  dm_inv m -> resume turns m = Ret m' ->
  exists m1, waking (_allDrainable m) [] m1 /\ dm_inv (set_state Running m1) /\ m' = set_state Running m1.
Proof.
  intros H E. unfold resume in E. apply bind_ret_inv in E as ([] & E1 & E).
  apply bind_ret_inv in E as ([] & _ & E). apply bind_ret_inv in E as ([] & E2 & E).
  assert (_state m <> Running) as Hs by (intros Hs; by rewrite Hs in E1).
  unfold fatal_if in E2. destruct (Z.eqb_spec (_count m) 0) as [H0|]; [| done].
  apply bind_ret_inv in E as (m1 & E3 & [= <-]). pose proof (waking_start m H H0 Hs) as Hw.
  destruct turns as [|turns]; [done |]. cbn [resume_loop] in E3. apply bind_ret_inv in E3 as (m2 & E4 & E3).
  pose proof (wake_all _ _ _ _ Hw E4) as Hw2. destruct (waking_end _ _ Hw2) as [Hi Hall].
  rewrite Hall in E3. injection E3 as <-. by exists m2.
Qed.

Lemma resume_inv turns m m' :
  dm_inv m -> resume turns m = Ret m' -> dm_inv m' /\ _state m' = Running.
Proof. intros H E. by destruct (resume_woken turns m m' H E) as (m1 & _ & Hi & ->). Qed.

Lemma resume_registered turns m m' :
  dm_inv m -> resume turns m = Ret m' -> _allDrainable m' = _allDrainable m.
Proof. intros H E. by destruct (resume_woken turns m m' H E) as (m1 & [A _ _ _ _ _ _] & _ & ->); rewrite app_nil_r in A. Qed.

Lemma resume_returns m :
  answers -> dm_inv m -> _count m = 0 -> _state m <> Running -> exists m', resume 1 m = Ret m'.
Proof.
  intros Ha H H0 Hs. unfold resume. rewrite (bool_decide_eq_false_2 (_ = Running)) by done.
  rewrite (bool_decide_eq_false_2 (_ = Resuming)) by (by apply di_stable). rewrite H0. cbn [fatal_if mbind res_bind Z.eqb negb].
  pose proof (waking_start m H H0 Hs) as Hw. destruct (wake_returns _ _ _ Ha Hw) as [m2 E2].
  cbn [resume_loop]. change (_allDrainable (set_state Resuming m)) with (_allDrainable m).
  rewrite E2. cbn [mbind res_bind]. pose proof (wake_all _ _ _ _ Hw E2) as Hw2.
  apply waking_end in Hw2 as [_ ->]. by eexists.
Qed.

(** ** The other operations *)

Lemma construct_inv obj m m' :
  _state m <> Draining -> Z.of_nat (S (length (_allDrainable m))) < 2 ^ 32 ->
  dm_inv m -> construct obj m = Ret m' -> dm_inv m'.
Proof.
  intros Hs Hlen H E. unfold construct, registerDrainable in E. cbn [_allDrainable set_drainState] in E.
  apply bind_ret_inv in E as ([] & E1 & [= <-]). unfold fatal_if in E1.
  case_bool_decide as Hin; [done |]. clear E1. destruct H as [N S C St De Sb].
  assert (forall x, x ∈ _allDrainable m ->
    _drainState (set_drainState obj (_state m) m) !! x = _drainState m !! x) as Hold.
  { intros x Hx. simpl. rewrite lookup_insert_ne; [done |]. by intros ->. }
  split; cbn [_allDrainable set_registered]; try done.
  - apply list.NoDup_app. split; [done |]. split; [| apply NoDup_singleton].
    intros x Hx Hx'. by apply list_elem_of_singleton in Hx' as ->.
  - rewrite length_app. simpl. lia.
  - cbn [_count set_registered set_drainState]. rewrite C. f_equal. unfold draining.
    cbn [_allDrainable set_registered set_drainState]. rewrite List.filter_app, length_app.
    simpl. unfold is_draining at 3. cbn [_drainState set_registered set_drainState].
    rewrite lookup_insert_eq, bool_decide_eq_false_2 by congruence. simpl.
    rewrite Nat.add_0_r. f_equal. apply List.filter_ext_in. intros x Hx. unfold is_draining.
    by rewrite <- Hold by (by apply list_elem_of_In).
  - intros x Hx. apply elem_of_app in Hx as [Hx|Hx].
    + destruct (St x Hx) as (o & Ho & Ha). exists o. split; [| done]. etrans; [exact (Hold x Hx) | done].
    + apply list_elem_of_singleton in Hx as ->. exists (_state m). simpl. rewrite lookup_insert_eq.
      split; [done |]. by destruct (_state m).
  - intros x Hx. simpl. rewrite lookup_insert_ne; [apply De |]; intros Hx'; apply Hx, elem_of_app; [by left |].
    right. subst. apply list_elem_of_singleton. done.
Qed.

Lemma erase_first_spec obj l :
  NoDup l -> NoDup (erase_first obj l) /\ (forall x, x ∈ erase_first obj l <-> x ∈ l /\ x <> obj).
Proof.
  induction l as [|y l IH]; intros N; simpl.
  { split; [done |]. intros x. rewrite elem_of_nil. by intuition. }
  apply list.NoDup_cons in N as [Hy N]. destruct (IH N) as [N' E']. case_decide as Hd.
  - subst y. split; [done |]. intros x. rewrite elem_of_cons.
    split; [| by intros [[?|?] ?]]. intros Hx. split; [by right |]. by intros ->.
  - split.
    + apply list.NoDup_cons. split; [| done]. rewrite E'. by intros [? _].
    + intros x. rewrite !elem_of_cons, E'. intuition congruence.
Qed.

Lemma erase_first_length obj l : (length (erase_first obj l) <= length l)%nat.
Proof. induction l as [|y l IH]; simpl; [lia |]. case_decide; simpl; lia. Qed.

Lemma erase_first_filter obj (f : Z -> bool) l :
  f obj = false -> List.filter f (erase_first obj l) = List.filter f l.
Proof.
  intros Hf. induction l as [|y l IH]; simpl; [done |]. case_decide as Hd; [by rewrite Hd, Hf |].
  simpl. by rewrite IH.
Qed.

Lemma destroy_inv obj m m' :
  _drainState m !! obj <> Some Draining -> dm_inv m -> destroy obj m = Ret m' -> dm_inv m'.
Proof.
  intros Hs H E. unfold destroy, unregisterDrainable in E. apply bind_ret_inv in E as (m1 & E & [= <-]).
  apply bind_ret_inv in E as ([] & _ & [= <-]). destruct H as [N S C St De Sb].
  destruct (erase_first_spec obj (_allDrainable m) N) as [N' E'].
  pose proof (erase_first_length obj (_allDrainable m)).
  split; simpl; try done.
  - lia.
  - rewrite C. f_equal. f_equal. unfold draining. simpl.
    rewrite <- (erase_first_filter obj (is_draining m)) by (by apply bool_decide_eq_false_2).
    apply List.filter_ext_in. intros x Hx. apply list_elem_of_In, E' in Hx as [_ Hx].
    unfold is_draining. simpl. by rewrite lookup_delete_ne.
  - intros x Hx. apply E' in Hx as [Hx Hne]. rewrite lookup_delete_ne by done. by apply St.
  - intros x Hx. destruct (decide (x = obj)) as [->|Hne]; [by rewrite lookup_delete_eq |].
    rewrite lookup_delete_ne by done. apply De. intros Hx'. apply Hx, E'. done.
Qed.

Lemma drained_all l m :
  let m' := foldr (fun obj m => set_drainState obj Drained m) m l in
  _allDrainable m' = _allDrainable m /\ _count m' = _count m /\ _state m' = _state m /\
  (forall obj, _drainState m' !! obj = if decide (obj ∈ l) then Some Drained else _drainState m !! obj).
Proof.
  induction l as [|y l IH]; simpl.
  { split_and!; try done. }
  destruct IH as (? & ? & ? & IH). split_and!; try done. intros x.
  destruct (decide (x = y)) as [->|Hne].
  - rewrite lookup_insert_eq, decide_True by left. done.
  - rewrite lookup_insert_ne by done. rewrite IH.
    destruct (decide (x ∈ l)); [rewrite decide_True by (by right) | rewrite decide_False]; try done.
    rewrite elem_of_cons. by intros [?|?].
Qed.

Lemma preCheckpointRestore_inv m m' :
  dm_inv m -> preCheckpointRestore m = Ret m' -> dm_inv m' /\ _state m' = Drained.
Proof.
  intros [N S C St De Sb] E. unfold preCheckpointRestore in E. apply bind_ret_inv in E as ([] & E1 & [= <-]).
  unfold fatal_if in E1. case_bool_decide as Hr; [| done]. clear E1.
  destruct (drained_all (_allDrainable m) (set_state Drained m)) as (Ea & Ec & Es & Ed).
  cbn [_allDrainable _count _state _drainState set_state] in *. split; [| done].
  split; rewrite ?Ea, ?Es; try done.
  - rewrite Ec, C, !draining_none; [done | |].
    + intros x. rewrite Ea. intros Hx. rewrite Ed, decide_True by done. done.
    + intros x Hx. destruct (St x Hx) as (o & -> & Ha). rewrite Hr in Ha. simpl in Ha. by subst o.
  - intros x Hx. exists Drained. by rewrite Ed, decide_True.
  - intros x Hx. rewrite Ed, decide_False by done. by apply De.
Qed.

Lemma dm_step_inv m m' : dm_step m m' -> dm_inv m -> dm_inv m'.
Proof.
  intros Hst H. destruct Hst as [| | |obj m1 E| | |].
  - by eapply construct_inv.
  - by eapply destroy_inv.
  - by eapply tryDrain_inv.
  - destruct (_drainState m !! obj) as [o|] eqn:Ho.
    + destruct (inv_alive m obj o H Ho) as [Hin _].
      destruct (signal_spec m obj H Hin) as (m2 & E1 & H1 & _). congruence.
    + unfold signalDrainDone, drainState in E. by rewrite Ho in E.
  - by eapply resume_inv.
  - by eapply preCheckpointRestore_inv.
  - by destruct H.
Qed.

(** The states the manager goes through from its construction on. *)
Definition reachable m : Prop := exists w, rtc dm_step (DrainManager_make w) m.

Lemma make_inv w : dm_inv (DrainManager_make w).
Proof. split; try done; [constructor | intros obj Hobj; by apply elem_of_nil in Hobj]. Qed.

Lemma reachable_inv m : reachable m -> dm_inv m.
Proof.
  intros [w H]. pose proof (make_inv w) as Hi. revert Hi.
  induction H as [|m1 m2 m3 H12 _ IH]; intros Hi; [done |]. by eapply IH, dm_step_inv.
Qed.

Lemma signal_rest m obj m' : signalDrainDone obj m = Ret m' -> rest m' = rest m.
Proof.
  unfold signalDrainDone. intros E. apply bind_ret_inv in E as (o & _ & E).
  destruct o; try by injection E as <-. unfold manager_signalDrainDone in E.
  apply bind_ret_inv in E as ([] & _ & [= <-]). by case_match.
Qed.

(** ** Whole drain cycles *)

(** The objects report in the order of [order]. *)
Fixpoint signal_all (order : list Z) m : res (DrainManager W) :=
  match order with [] => Ret m | obj :: order => m' ← signalDrainDone obj m; signal_all order m' end.

Lemma draining_nodup m : dm_inv m -> NoDup (draining m).
Proof. intros H. apply NoDup_ListNoDup, List.NoDup_filter, NoDup_ListNoDup. by apply di_nodup. Qed.

Lemma removed_nil (l l' : list Z) obj :
  NoDup l -> (forall x, x ∈ l' <-> x ∈ l /\ x <> obj) -> l' = [] <-> l = [] \/ l = [obj].
Proof.
  intros N H. split.
  - intros ->. assert (forall y, y ∈ l -> y = obj) as Hall.
    { intros y Hy. destruct (decide (y = obj)) as [|Hne]; [done |].
      destruct (elem_of_nil y) as [Hn _]. destruct Hn. by apply H. }
    destruct l as [|x [|z l]]; [by left | right; by rewrite (Hall x) by left |].
    apply list.NoDup_cons in N as [N _]. destruct N.
    rewrite (Hall x), (Hall z) by (rewrite ?elem_of_cons; auto). left.
  - intros Hl. destruct l' as [|x l']; [done |]. destruct (proj1 (H x) ltac:(left)) as [Hx Hne].
    destruct Hl as [->| ->]; [by apply elem_of_nil in Hx | by apply list_elem_of_singleton in Hx].
Qed.

Lemma signal_all_spec order m :
  dm_inv m -> (forall obj, obj ∈ order -> obj ∈ _allDrainable m) ->
  (forall obj, obj ∈ draining m -> obj ∈ order) ->
  exists m', signal_all order m = Ret m' /\ dm_inv m' /\ draining m' = [] /\
    _state m' = _state m /\ _allDrainable m' = _allDrainable m /\
    exits m' = (exits m + if decide (draining m = []) then 0 else 1)%nat.
Proof.
  revert m. induction order as [|obj order IH]; intros m H Hr Hd.
  { assert (draining m = []) as E.
    { destruct (draining m) as [|x l]; [done |]. exfalso. specialize (Hd x ltac:(by left)).
      by apply elem_of_nil in Hd. }
    exists m. split; [done |]. rewrite decide_True by done. split_and!; done || lia. }
  destruct (signal_spec m obj H) as (m1 & E1 & H1 & S1 & A1 & D1 & X1); [apply Hr; by left |].
  destruct (IH m1 H1) as (m2 & E2 & H2 & D2 & S2 & A2 & X2).
  { intros x Hx. rewrite A1. apply Hr. by right. }
  { intros x Hx. apply D1 in Hx as [Hx Hne]. specialize (Hd x Hx). by apply elem_of_cons in Hd as [?|?]. }
  exists m2. simpl. rewrite E1. cbn [mbind res_bind]. split; [done |].
  split_and!; try done; [congruence | congruence |]. rewrite X2, X1.
  pose proof (removed_nil _ _ obj (draining_nodup m H) D1) as Hnil.
  destruct (decide (draining m1 = [])) as [E|E]; destruct (decide (draining m = [])) as [E0|E0];
    destruct (decide (draining m = [obj])) as [E3|E3]; try lia; try (exfalso; by intuition congruence).
Qed.

Lemma tryDrain_exits m b m' : tryDrain m = Ret (b, m') -> exits m' = exits m.
Proof.
  intros E. unfold tryDrain in E. do 2 (apply bind_ret_inv in E as ([] & _ & E)).
  apply bind_ret_inv in E as (m1 & E1 & E). apply drain_each_exits in E1.
  destruct (_count m1 =? 0); by injection E as _ <-.
Qed.

Lemma tryDrain_returns m :
  answers -> dm_inv m -> _count m = 0 -> _state m <> Drained -> exists b m', tryDrain m = Ret (b, m').
Proof.
  intros Ha H H0 Hs. unfold tryDrain. rewrite bool_decide_eq_false_2, H0 by done.
  cbn [fatal_if mbind res_bind Z.eqb negb].
  destruct (ask_returns [] _ _ Ha (asking_start m H H0)) as [m1 E]. rewrite E. cbn [mbind res_bind].
  destruct (_count m1 =? 0); by do 2 eexists.
Qed.

Lemma count_draining m : dm_inv m -> _count m = 0 <-> draining m = [].
Proof. intros H. rewrite (di_count m H). destruct (draining m); simpl; split; done || lia. Qed.

(** C20: at every point of a run in which objects are not created while the system drains and not
    destroyed while they drain, the drain counter is the number of registered objects that still
    drain; a registered object may report at any time without tripping the manager's assertion,
    and the simulation loop is left exactly when the one that reports was the last one draining. *)
Theorem drain_counts m obj :
  reachable m -> obj ∈ _allDrainable m ->
  _count m = Z.of_nat (length (draining m)) /\
  (forall x, x ∈ _allDrainable m -> exists o, _drainState m !! x = Some o /\ allowed (_state m) o) /\
  exists m', signalDrainDone obj m = Ret m' /\ (forall x, x ∈ draining m' <-> x ∈ draining m /\ x <> obj) /\
    exits m' = (exits m + if decide (draining m = [obj]) then 1 else 0)%nat.
Proof.
  intros Hr Hobj. pose proof (reachable_inv m Hr) as H. split; [by apply di_count |].
  split; [by apply di_states |]. destruct (signal_spec m obj H Hobj) as (m' & ? & _ & _ & _ & ? & ?).
  by exists m'.
Qed.


(** C34: an object created while the system drains takes over the draining state but is not counted.
    If it reports while one older object is still draining, the loop is left although that object
    has not drained, and the older object's own report then trips the assertion on the counter. *)
Theorem created_while_draining m old new :
  reachable m -> _state m = Draining -> draining m = [old] -> new ∉ _allDrainable m ->
  exists m1 m2, construct new m = Ret m1 /\ signalDrainDone new m1 = Ret m2 /\
    exits m2 = S (exits m) /\ _drainState m2 !! old = Some Draining /\ signalDrainDone old m2 = Fatal.
Proof.
  intros Hr Hs Hd Hn. pose proof (reachable_inv m Hr) as H.
  assert (_count m = 1) as Hc by (by rewrite (di_count m H), Hd).
  assert (old ∈ draining m) as Ho by (rewrite Hd; by left). apply elem_draining in Ho as [Ho Hst].
  assert (old <> new) as Hne by (by intros ->).
  unfold construct, registerDrainable. cbn [_allDrainable set_drainState].
  rewrite bool_decide_eq_false_2 by done. cbn [fatal_if mbind res_bind]. eexists _, _. split; [done |].
  unfold signalDrainDone at 1, drainState at 1. cbn [_drainState set_registered set_drainState].
  rewrite Hs, lookup_insert_eq. cbn [mbind res_bind]. unfold manager_signalDrainDone at 1.
  cbn [_count set_registered set_drainState]. rewrite Hc. split; [done |]. simpl. split; [done |].
  split; [by rewrite !lookup_insert_ne by done |].
  unfold signalDrainDone, drainState. simpl. rewrite !lookup_insert_ne, Hst by done. done.
Qed.

End spec.

(** ** A concrete system

    Object 1 drains at once, every other object needs time. *)

Definition two_kinds : Drainables unit :=
  {| obj_drain obj w := (if obj =? 1 then Drained else Draining, [], w);
     obj_drainResume _ w := ([], w) |}.

Lemma two_kinds_answers : @answers unit two_kinds.
Proof. split; [| done]. intros obj w. simpl. split; [destruct (obj =? 1); auto | done]. Qed.

(** The manager after the objects of [l] have been created. *)
Definition created (l : list Z) : DrainManager unit :=
  {| _allDrainable := l; _count := 0; _state := Running;
     _drainState := list_to_map ((fun obj => (obj, Running)) <$> reverse l); exits := 0; rest := tt |}.

Lemma created_reachable : @reachable unit two_kinds (created [1; 2]).
Proof.
  exists tt. eapply rtc_l with (created [1]).
  { apply (step_construct (HD := two_kinds) _ 1); done. }
  eapply rtc_l; [| apply rtc_refl]. by apply (step_construct (HD := two_kinds) _ 2).
Qed.

(** The manager while object 2 drains. *)
Definition waiting : DrainManager unit :=
  {| _allDrainable := [1; 2]; _count := 1; _state := Draining;
     _drainState := list_to_map [(1, Drained); (2, Draining)]; exits := 0; rest := tt |}.

Lemma waiting_reachable : @reachable unit two_kinds waiting.
Proof.
  destruct created_reachable as [w H]. exists w. eapply rtc_r; [exact H |].
  by apply (step_tryDrain (HD := two_kinds) _ false).
Qed.

Lemma drain_counts_witness :
  exists m', signalDrainDone 2 waiting = Ret m' /\ exits m' = 1%nat /\ draining m' = [].
Proof.
  destruct (drain_counts (HD := two_kinds) waiting 2 waiting_reachable) as (_ & _ & m' & E & _ & X).
  { by right; left. }
  exists m'. split; [exact E |]. split; [exact X |]. vm_compute in E. injection E as <-. reflexivity.
Defined.


Lemma created_while_draining_witness :
  exists m1 m2, construct 3 waiting = Ret m1 /\ signalDrainDone 3 m1 = Ret m2 /\ exits m2 = 1%nat /\
    signalDrainDone 2 m2 = Fatal.
Proof.
  destruct (created_while_draining (HD := two_kinds) waiting 2 3 waiting_reachable eq_refl)
    as (m1 & m2 & E1 & E2 & X & _ & F).
  - vm_compute. reflexivity.
  - simpl. rewrite !elem_of_cons. intros [|[|Hn]]; [done | done | by apply elem_of_nil in Hn].
  - by exists m1, m2.
Defined.
