(* ===== verification/Gem5.v ===== *)
(** * What the NPU device uses of the simulator

    gem5's packets, event queue and memory ports are not part of this tree: they
    are classes, with the documented behaviour the device relies on as laws, and
    one plain instance of each.  The class also has the device's view of the
    drain manager; [NpuDrain.v] derives its law from the manager of [Drain.v].
    The back-end interface [CoralBackend] of [coral_backend.hh] is a class too;
    its instances are the two back ends. *)

From S2P Require Import Prelude Drain.

(** ** Packets *)

Class Packet (P : Type) := {
  getAddr : P -> Z;
  getSize : P -> Z;
  getLE : P -> Z;                 (** [getLE<uint32_t>()] *)
  setLE : Z -> P -> P;            (** [setLE<uint32_t>(v)] *)
  setData : list Z -> P -> P;     (** copies [getSize()] bytes in *)
  writeData : P -> list Z;        (** the bytes [writeData] copies out *)
  makeAtomicResponse : P -> P;
  setBadAddress : P -> P;
  isError : P -> bool }.

(** What [mem/packet.hh] and [mem/packet_access.hh] document, of a packet
    that carries data ([wf]). *)
Class PacketLaws (P : Type) {HP : Packet P} (wf : P -> Prop) : Prop := {
  pk_length : forall p, wf p -> Z.of_nat (length (writeData p)) = getSize p;
  pk_bytes : forall p, wf p -> Forall is_byte (writeData p);
  pk_getLE : forall p, wf p -> getSize p = 4 -> getLE p = le_val (writeData p);
  pk_setLE : forall v p, wf p -> getSize p = 4 ->
    wf (setLE v p) /\ writeData (setLE v p) = le_bytes 4 v /\
    getSize (setLE v p) = 4 /\ isError (setLE v p) = isError p;
  pk_setData : forall bs p, wf p -> Z.of_nat (length bs) = getSize p -> Forall is_byte bs ->
    wf (setData bs p) /\ writeData (setData bs p) = bs /\
    getSize (setData bs p) = getSize p /\ isError (setData bs p) = isError p;
  pk_response : forall p, wf p ->
    wf (makeAtomicResponse p) /\ writeData (makeAtomicResponse p) = writeData p /\
    getSize (makeAtomicResponse p) = getSize p /\ isError (makeAtomicResponse p) = isError p;
  pk_bad : forall p, wf p ->
    wf (setBadAddress p) /\ writeData (setBadAddress p) = writeData p /\
    getSize (setBadAddress p) = getSize p /\ isError (setBadAddress p) = true }.

(** ** The event queue, draining, memory *)

Inductive MemCmd := ReadReq | WriteReq.

(** The simulator as the device sees it.  The event operations are those of
    the device's one event.  [sendFunctional] is given the bytes of the
    packet and returns whether the packet came back as an error, its bytes,
    and the simulator. *)
Class Gem5 (G : Type) := {
  curTick : G -> Z;
  scheduled : G -> bool;
  event_when : G -> Z;
  schedule : Z -> G -> res G;
  deschedule : G -> res G;
  drainState : G -> DrainState;
  signalDrainDone : G -> G;
  cacheBlockSize : G -> Z;
  sendFunctional : MemCmd -> Z -> list Z -> G -> bool * list Z * G;
  dmaReadVirt : Z -> Z -> list Z -> G -> G;
  dmaWriteVirt : Z -> Z -> list Z -> G -> G }.

(** Everything of the simulator but the event and the drain state. *)
Definition same_memory {G} {HG : Gem5 G} (host : G -> Z -> Z) (g g' : G) : Prop :=
  (forall i, host g' i = host g i) /\ cacheBlockSize g' = cacheBlockSize g /\ curTick g' = curTick g.

(** The documented behaviour: an event that is not scheduled can be scheduled
    at a tick that is not in the past; a scheduled one can be descheduled; a
    functional access that stays within a cache block reads or writes the
    bytes of the memory [host] and takes no time. *)
Class Gem5Laws (G : Type) {HG : Gem5 G} (host : G -> Z -> Z) : Prop := {
  g_schedule : forall t g, curTick g <= t -> scheduled g = false ->
    exists g', schedule t g = Ret g' /\ scheduled g' = true /\ event_when g' = t /\
      drainState g' = drainState g /\ same_memory host g g';
  g_deschedule : forall g, scheduled g = true ->
    exists g', deschedule g = Ret g' /\ scheduled g' = false /\
      drainState g' = drainState g /\ same_memory host g g';
  g_signal : forall g, drainState g = Draining -> drainState (signalDrainDone g) = Drained /\
    scheduled (signalDrainDone g) = scheduled g /\
    event_when (signalDrainDone g) = event_when g /\ same_memory host g (signalDrainDone g);
  g_block : forall g, 0 < cacheBlockSize g;
  g_bytes : forall g i, is_byte (host g i);
  g_read : forall a bs g,
    a / cacheBlockSize g = (a + Z.of_nat (length bs) - 1) / cacheBlockSize g ->
    exists g', sendFunctional ReadReq a bs g =
        (false, host g <$> seqZ a (Z.of_nat (length bs)), g') /\
      scheduled g' = scheduled g /\ event_when g' = event_when g /\
      drainState g' = drainState g /\ same_memory host g g';
  g_write : forall a bs g,
    a / cacheBlockSize g = (a + Z.of_nat (length bs) - 1) / cacheBlockSize g ->
    Forall is_byte bs ->
    exists g', sendFunctional WriteReq a bs g = (false, bs, g') /\
      (forall i, host g' i = if decide (a <= i < a + Z.of_nat (length bs))
                             then bs !!! Z.to_nat (i - a) else host g i) /\
      cacheBlockSize g' = cacheBlockSize g /\ curTick g' = curTick g /\
      scheduled g' = scheduled g /\ event_when g' = event_when g /\
      drainState g' = drainState g;
  g_time : forall cmd a bs g error bs' g', sendFunctional cmd a bs g = (error, bs', g') ->
    curTick g' = curTick g;
  g_dma : forall a n bs g,
    (scheduled (dmaReadVirt a n bs g) = scheduled g /\
     event_when (dmaReadVirt a n bs g) = event_when g /\
     drainState (dmaReadVirt a n bs g) = drainState g /\
     curTick (dmaReadVirt a n bs g) = curTick g) /\
    (scheduled (dmaWriteVirt a n bs g) = scheduled g /\
     event_when (dmaWriteVirt a n bs g) = event_when g /\
     drainState (dmaWriteVirt a n bs g) = drainState g /\
     curTick (dmaWriteVirt a n bs g) = curTick g) }.

(** ** The back-end interface *)

Definition CORAL_DMA_DATA_BYTES : Z := 4096.

Inductive CoralDmaType := Read | Write.

#[export] Instance CoralDmaType_eq_dec : EqDecision CoralDmaType.
Proof. solve_decision. Defined.

Record CoralDmaRequest := {
  dma_type : CoralDmaType; dma_addr : Z; dma_size : Z; dma_data : list Z }.

(** [CoralBackend]: the state of a back end is [B]; an operation that reads
    [curTick()] is given the tick. *)
Class CoralBackend (P B : Type) := {
  be_read : P -> Z -> B -> res (bool * P * B);
  be_write : Z -> P -> Z -> B -> res (bool * P * B);
  be_translate : Z -> B -> Z;
  hasPendingEvent : B -> bool;
  nextEventTick : B -> Z;
  processEvent : Z -> B -> res B;
  hasDmaRequest : B -> bool;
  dmaRequest : B -> res CoralDmaRequest;
  completeDma : Z -> option (list Z) -> Z -> bool -> B -> res B;
  hasLocalExtmem : B -> bool;
  readLocalExtmem : Z -> Z -> B -> res (list Z);
  writeLocalExtmem : Z -> list Z -> B -> res B }.
#[export] Hint Mode CoralBackend - ! : typeclass_instances.

(** The virtual functions [CoralBackend] itself defines; the panics of
    [coral_backend.cc]. *)
Definition backend_hasDmaRequest {B} (_ : B) : bool := false.
Definition backend_dmaRequest {B} (_ : B) : res CoralDmaRequest := Fatal.
Definition backend_completeDma {B} (_ : Z) (_ : option (list Z)) (_ : Z) (_ : bool) (_ : B) :
    res B := Fatal.
Definition backend_hasLocalExtmem {B} (_ : B) : bool := false.
Definition backend_readLocalExtmem {B} (_ _ : Z) (_ : B) : res (list Z) := Fatal.
Definition backend_writeLocalExtmem {B} (_ : Z) (_ : list Z) (_ : B) : res B := Fatal.

(** A pending request is still the same one. *)
Definition keeps_request {P B} {HB : CoralBackend P B} (b b' : B) : Prop :=
  hasDmaRequest b = true -> hasDmaRequest b' = true /\ dmaRequest b' = dmaRequest b.

(** A request the device can carry out. *)
Definition request_fits (r : CoralDmaRequest) : Prop :=
  1 <= dma_size r <= CORAL_DMA_DATA_BYTES /\ 0 <= dma_addr r < 2 ^ 32 /\
  dma_addr r / 4096 = (dma_addr r + dma_size r - 1) / 4096 /\
  Z.of_nat (length (dma_data r)) = CORAL_DMA_DATA_BYTES /\ Forall is_byte (dma_data r).

(** The contract between the device and a back end that is in good order at a
    tick before the [horizon], the tick up to which delays do not overflow. *)
Class BackendLaws (P B : Type) {HP : Packet P} {HB : CoralBackend P B} (pkwf : P -> Prop)
    (horizon : Z) (ok : Z -> B -> Prop) : Prop := {
  bl_tick : forall t b, ok t b -> hasPendingEvent b = true -> t <= nextEventTick b;
  bl_later : forall t t' b, ok t b -> t <= t' ->
    (hasPendingEvent b = true -> t' <= nextEventTick b) -> ok t' b;
  bl_read : forall t b p pio handled p' b', t < horizon -> ok t b -> pkwf p ->
    be_read p pio b = Ret (handled, p', b') -> ok t b' /\ keeps_request b b';
  bl_write : forall t b p pio handled p' b', t < horizon -> ok t b -> pkwf p ->
    be_write t p pio b = Ret (handled, p', b') -> ok t b' /\ keeps_request b b';
  bl_process : forall t b b', t < horizon -> ok t b ->
    processEvent t b = Ret b' -> ok t b' /\ keeps_request b b';
  bl_request : forall t b, ok t b -> hasDmaRequest b = true ->
    exists r, dmaRequest b = Ret r /\ request_fits r;
  bl_complete : forall t b r bs, t < horizon -> ok t b -> hasDmaRequest b = true ->
    dmaRequest b = Ret r ->
    exists b', completeDma t (Some bs) (dma_size r) false b = Ret b' /\ ok t b' /\
      hasDmaRequest b' = false;
  bl_error : forall t b, t < horizon -> ok t b -> hasDmaRequest b = true ->
    exists b', completeDma t None 0 true b = Ret b' /\ ok t b' /\ hasDmaRequest b' = false;
  bl_local_write : forall t b a bs b', ok t b -> Forall is_byte bs ->
    writeLocalExtmem a bs b = Ret b' -> ok t b' /\ keeps_request b b';
  bl_local_read : forall t b a n bs, ok t b -> 0 <= n -> readLocalExtmem a n b = Ret bs ->
    Forall is_byte bs /\ Z.of_nat (length bs) = n }.

(** ** Plain instances *)

Record packet := {
  pkt_addr : Z; pkt_size : Z; pkt_data : list Z; pkt_responded : bool; pkt_error : bool }.

#[export] Instance packet_packet : Packet packet := {|
  getAddr := pkt_addr;
  getSize := pkt_size;
  getLE p := le_val (take 4 (pkt_data p));
  setLE v p := {| pkt_addr := pkt_addr p; pkt_size := pkt_size p;
                  pkt_data := le_bytes 4 v ++ drop 4 (pkt_data p);
                  pkt_responded := pkt_responded p; pkt_error := pkt_error p |};
  setData bs p := {| pkt_addr := pkt_addr p; pkt_size := pkt_size p;
                     pkt_data := take (Z.to_nat (pkt_size p)) bs;
                     pkt_responded := pkt_responded p; pkt_error := pkt_error p |};
  writeData := pkt_data;
  makeAtomicResponse p := {| pkt_addr := pkt_addr p; pkt_size := pkt_size p;
                             pkt_data := pkt_data p; pkt_responded := true;
                             pkt_error := pkt_error p |};
  setBadAddress p := {| pkt_addr := pkt_addr p; pkt_size := pkt_size p;
                        pkt_data := pkt_data p; pkt_responded := pkt_responded p;
                        pkt_error := true |};
  isError := pkt_error |}.

Definition packet_wf (p : packet) : Prop :=
  0 <= pkt_addr p /\ Z.of_nat (length (pkt_data p)) = pkt_size p /\ Forall is_byte (pkt_data p).

#[export] Instance packet_laws : PacketLaws packet packet_wf.
Proof.
  split; unfold packet_wf; simpl.
  - tauto.
  - tauto.
  - intros p (_ & L & _) E. f_equal. rewrite take_ge; [done | lia].
  - intros v p (A & L & F) E. rewrite drop_ge by lia.
    split; [| done]. split; [done |]. split; [by rewrite E | apply (le_bytes_byte 4)].
  - intros bs p (A & L & F) E Fb. rewrite take_ge by lia. done.
  - done.
  - done.
Qed.

(** A simulator with a flat memory. *)
Record sim := {
  sim_tick : Z; sim_event : option Z; sim_drain : DrainState; sim_block : positive;
  sim_mem : gmap Z Z; sim_dma : list (MemCmd * Z * Z * list Z) }.

Definition sim_host (g : sim) (i : Z) : Z := default 0 (sim_mem g !! i) mod 256.

Definition with_event (e : option Z) (g : sim) : sim :=
  {| sim_tick := sim_tick g; sim_event := e; sim_drain := sim_drain g;
     sim_block := sim_block g; sim_mem := sim_mem g; sim_dma := sim_dma g |}.

Definition with_port (m : gmap Z Z) (l : list (MemCmd * Z * Z * list Z)) (g : sim) : sim :=
  {| sim_tick := sim_tick g; sim_event := sim_event g; sim_drain := sim_drain g;
     sim_block := sim_block g; sim_mem := m; sim_dma := l |}.

#[export] Instance sim_gem5 : Gem5 sim := {|
  curTick := sim_tick;
  scheduled g := bool_decide (is_Some (sim_event g));
  event_when g := default 0 (sim_event g);
  schedule t g := if (sim_tick g <=? t) && bool_decide (sim_event g = None)
                  then Ret (with_event (Some t) g) else Fatal;
  deschedule g := if bool_decide (is_Some (sim_event g)) then Ret (with_event None g)
                  else Fatal;
  drainState := sim_drain;
  signalDrainDone g :=
    {| sim_tick := sim_tick g; sim_event := sim_event g; sim_drain := Drained;
       sim_block := sim_block g; sim_mem := sim_mem g; sim_dma := sim_dma g |};
  cacheBlockSize g := Zpos (sim_block g);
  sendFunctional cmd a bs g :=
    match cmd with
    | ReadReq => (false, sim_host g <$> seqZ a (Z.of_nat (length bs)), g)
    | WriteReq => (false, bs, with_port (blit (sim_mem g) a bs) (sim_dma g) g)
    end;
  dmaReadVirt a n bs g := with_port (sim_mem g) (sim_dma g ++ [(ReadReq, a, n, bs)]) g;
  dmaWriteVirt a n bs g := with_port (sim_mem g) (sim_dma g ++ [(WriteReq, a, n, bs)]) g |}.

#[export] Instance sim_laws : Gem5Laws sim sim_host.
Proof.
  split; unfold same_memory; simpl.
  - intros t g Ht Hs. apply bool_decide_eq_false in Hs.
    destruct (sim_event g) eqn:E; [by contradict Hs |].
    rewrite (proj2 (Z.leb_le _ _) Ht). simpl. eauto 10.
  - intros g Hs. rewrite Hs. eauto 10.
  - done.
  - done.
  - intros g i. apply Z.mod_pos_bound. lia.
  - intros a bs g _. eauto 10.
  - intros a bs g _ F. eexists. split; [done |]. split; [| done].
    intros i. unfold sim_host. simpl. rewrite lookup_blit. case_decide; [| done].
    rewrite (list_lookup_lookup_total_lt bs) by lia. simpl.
    apply Z.mod_small. apply (Forall_lookup_1 _ _ (Z.to_nat (i - a)) _ F).
    apply list_lookup_lookup_total_lt. lia.
  - intros [] a bs g e bs' g' [= _ _ <-]; done.
  - done.
Qed.
