(* ===== verification/StageA.v ===== *)
(** * The stage-A back end

    [CoralStageABackend] of [coral_stagea_backend.cc]: two tightly coupled
    memories, three control registers and a run that halts after a fixed
    latency. *)

From S2P Require Import Prelude Drain Gem5.

Module StageA.

Definition kDtcmOffset : Z := 0x10000.
Definition kCsrOffset : Z := 0x30000.
Definition kCsrSize : Z := 0x1000.
Definition kResetBit : Z := 1.
Definition kClockGateBit : Z := 2.

Record CoralStageABackend := {
  pioAddr : Z; pioSize : Z; itcmSize : Z; dtcmSize : Z; executionLatency : Z;
  autoHalt : bool; resetControl : Z; pcStart : Z; halted : bool; fault : bool;
  pendingEventTick : Z; itcm : buf; dtcm : buf }.

Definition make (pio_addr pio_size itcm_size dtcm_size execution_latency : Z)
    (auto_halt : bool) : res CoralStageABackend :=
  _ ← fatal_if (pio_size <? kCsrOffset + kCsrSize);
  Ret {| pioAddr := pio_addr; pioSize := pio_size; itcmSize := itcm_size;
         dtcmSize := dtcm_size; executionLatency := execution_latency;
         autoHalt := auto_halt; resetControl := Z.lor kResetBit kClockGateBit;
         pcStart := 0; halted := false; fault := false; pendingEventTick := 0;
         itcm := buf_new itcm_size; dtcm := buf_new dtcm_size |}.

Definition with_tcm (i d : buf) (b : CoralStageABackend) : CoralStageABackend :=
  {| pioAddr := pioAddr b; pioSize := pioSize b; itcmSize := itcmSize b;
     dtcmSize := dtcmSize b; executionLatency := executionLatency b;
     autoHalt := autoHalt b; resetControl := resetControl b; pcStart := pcStart b;
     halted := halted b; fault := fault b; pendingEventTick := pendingEventTick b;
     itcm := i; dtcm := d |}.

Definition with_csr (control pc : Z) (b : CoralStageABackend) : CoralStageABackend :=
  {| pioAddr := pioAddr b; pioSize := pioSize b; itcmSize := itcmSize b;
     dtcmSize := dtcmSize b; executionLatency := executionLatency b;
     autoHalt := autoHalt b; resetControl := control; pcStart := pc;
     halted := halted b; fault := fault b; pendingEventTick := pendingEventTick b;
     itcm := itcm b; dtcm := dtcm b |}.

Definition with_run (h f : bool) (tick : Z) (b : CoralStageABackend) : CoralStageABackend :=
  {| pioAddr := pioAddr b; pioSize := pioSize b; itcmSize := itcmSize b;
     dtcmSize := dtcmSize b; executionLatency := executionLatency b;
     autoHalt := autoHalt b; resetControl := resetControl b; pcStart := pcStart b;
     halted := h; fault := f; pendingEventTick := tick;
     itcm := itcm b; dtcm := dtcm b |}.

(** ** The windows of the aperture; addresses and sizes are 64 bits wide *)

Definition inItcm (b : CoralStageABackend) (offset size : Z) : bool :=
  (offset <? itcmSize b) && (size <=? u64 (itcmSize b - offset)).

Definition inDtcm (b : CoralStageABackend) (offset size : Z) : bool :=
  (kDtcmOffset <=? offset) && (u64 (offset - kDtcmOffset) <? dtcmSize b)
  && (size <=? u64 (dtcmSize b - u64 (offset - kDtcmOffset))).

Definition inCsr (offset size : Z) : bool :=
  (kCsrOffset <=? offset) && (u64 (offset - kCsrOffset) <? kCsrSize)
  && (size <=? u64 (kCsrSize - u64 (offset - kCsrOffset))).

Definition startExecution (tick : Z) (b : CoralStageABackend) : CoralStageABackend :=
  with_run false false
    (if autoHalt b then u64 (tick + executionLatency b) else pendingEventTick b) b.

Definition stopExecution (setHalted : bool) (b : CoralStageABackend) : CoralStageABackend :=
  with_run setHalted (fault b) 0 b.

Definition completeExecution (b : CoralStageABackend) : CoralStageABackend :=
  with_run true (fault b) 0 b.

Section packets.
Context {P : Type} {HP : Packet P}.

Definition readMemoryWindow (pkt : P) (window : buf) (windowBase : Z)
    (b : CoralStageABackend) : res (bool * P) :=
  let offset := u64 (getAddr pkt - pioAddr b - windowBase) in
  if buf_len window <? u64 (offset + getSize pkt) then Ret (false, pkt)
  else bs ← buf_read window offset (getSize pkt);
       Ret (true, makeAtomicResponse (setData bs pkt)).

Definition writeMemoryWindow (pkt : P) (window : buf) (windowBase : Z)
    (b : CoralStageABackend) : res (bool * P * buf) :=
  let offset := u64 (getAddr pkt - pioAddr b - windowBase) in
  if buf_len window <? u64 (offset + getSize pkt) then Ret (false, pkt, window)
  else window' ← buf_write window offset (writeData pkt);
       Ret (true, makeAtomicResponse pkt, window').

Definition csr_value (b : CoralStageABackend) (reg : Z) : option Z :=
  if reg =? 0x0 then Some (resetControl b)
  else if reg =? 0x4 then Some (pcStart b)
  else if reg =? 0x8 then
    Some (Z.lor (if halted b then 1 else 0) (if fault b then 2 else 0))
  else None.

Definition readCsr (pkt : P) (offset : Z) (b : CoralStageABackend) : bool * P :=
  if negb (getSize pkt =? 4) || negb (Z.land offset 3 =? 0) then (false, pkt)
  else match csr_value b (u64 (offset - kCsrOffset)) with
       | Some value => (true, makeAtomicResponse (setLE value pkt))
       | None => (false, pkt)
       end.

Definition writeControl (tick value : Z) (b : CoralStageABackend) : CoralStageABackend :=
  let oldControl := resetControl b in
  let control := Z.land value (Z.lor kResetBit kClockGateBit) in
  let b1 := with_csr control (pcStart b) b in
  if negb (Z.land control kResetBit =? 0) then stopExecution false b1
  else if negb (Z.land oldControl kResetBit =? 0) && (Z.land control kClockGateBit =? 0)
  then startExecution tick b1
  else b1.

Definition writeCsr (tick : Z) (pkt : P) (offset : Z) (b : CoralStageABackend) :
    bool * P * CoralStageABackend :=
  if negb (getSize pkt =? 4) || negb (Z.land offset 3 =? 0) then (false, pkt, b)
  else if u64 (offset - kCsrOffset) =? 0x0 then
    (true, makeAtomicResponse pkt, writeControl tick (getLE pkt) b)
  else if u64 (offset - kCsrOffset) =? 0x4 then
    (true, makeAtomicResponse pkt, with_csr (resetControl b) (getLE pkt) b)
  else (false, pkt, b).

Definition read (pkt : P) (pio_addr : Z) (b : CoralStageABackend) :
    res (bool * P * CoralStageABackend) :=
  let offset := u64 (getAddr pkt - pio_addr) in
  if inItcm b offset (getSize pkt) then
    '(handled, pkt) ← readMemoryWindow pkt (itcm b) 0 b; Ret (handled, pkt, b)
  else if inDtcm b offset (getSize pkt) then
    '(handled, pkt) ← readMemoryWindow pkt (dtcm b) kDtcmOffset b; Ret (handled, pkt, b)
  else if inCsr offset (getSize pkt) then
    let '(handled, pkt) := readCsr pkt offset b in Ret (handled, pkt, b)
  else Ret (false, pkt, b).

Definition write (tick : Z) (pkt : P) (pio_addr : Z) (b : CoralStageABackend) :
    res (bool * P * CoralStageABackend) :=
  let offset := u64 (getAddr pkt - pio_addr) in
  if inItcm b offset (getSize pkt) then
    '(handled, pkt, w) ← writeMemoryWindow pkt (itcm b) 0 b;
    Ret (handled, pkt, with_tcm w (dtcm b) b)
  else if inDtcm b offset (getSize pkt) then
    '(handled, pkt, w) ← writeMemoryWindow pkt (dtcm b) kDtcmOffset b;
    Ret (handled, pkt, with_tcm (itcm b) w b)
  else if inCsr offset (getSize pkt) then Ret (writeCsr tick pkt offset b)
  else Ret (false, pkt, b).

(** [IdentityTranslationGen]: every range is at its own address. *)
Definition translate (vaddr : Z) (_ : CoralStageABackend) : Z := vaddr.

Definition hasPendingEvent (b : CoralStageABackend) : bool := negb (pendingEventTick b =? 0).
Definition nextEventTick (b : CoralStageABackend) : Z := pendingEventTick b.
Definition processEvent (_ : Z) (b : CoralStageABackend) : res CoralStageABackend :=
  Ret (completeExecution b).

#[export] Instance backend : CoralBackend P CoralStageABackend := {|
  be_read := read;
  be_write := write;
  be_translate := translate;
  Gem5.hasPendingEvent := hasPendingEvent;
  Gem5.nextEventTick := nextEventTick;
  Gem5.processEvent := processEvent;
  hasDmaRequest := backend_hasDmaRequest;
  dmaRequest := backend_dmaRequest;
  completeDma := backend_completeDma;
  hasLocalExtmem := backend_hasLocalExtmem;
  readLocalExtmem := backend_readLocalExtmem;
  writeLocalExtmem := backend_writeLocalExtmem |}.

End packets.

(** ** The invariant *)

(** The memories fit between the windows, as with the default sizes. *)
Record wf (b : CoralStageABackend) : Prop := {
  wf_pio : 0 <= pioAddr b /\ pioAddr b + pioSize b <= 2 ^ 64 /\
           kCsrOffset + kCsrSize <= pioSize b;
  wf_itcm : buf_len (itcm b) = itcmSize b /\ 0 <= itcmSize b <= kDtcmOffset /\
            buf_bytes (itcm b);
  wf_dtcm : buf_len (dtcm b) = dtcmSize b /\ 0 <= dtcmSize b <= kCsrOffset - kDtcmOffset /\
            buf_bytes (dtcm b);
  wf_control : 0 <= resetControl b < 4;
  wf_pc : 0 <= pcStart b < 2 ^ 32;
  wf_tick : 0 <= pendingEventTick b;
  wf_run : pendingEventTick b <> 0 -> Z.land (resetControl b) kResetBit = 0 /\ halted b = false }.

Lemma make_wf pio size isz dsz lat auto b :
  make pio size isz dsz lat auto = Ret b ->
  0 <= pio -> pio + size <= 2 ^ 64 -> 0 <= isz <= kDtcmOffset ->
  0 <= dsz <= kCsrOffset - kDtcmOffset -> wf b.
Proof.
  unfold make, fatal_if. destruct (Z.ltb_spec size (kCsrOffset + kCsrSize)); [done |].
  intros [= <-] **. split; simpl; done || lia.
Qed.

Lemma land3_range v : 0 <= Z.land v (Z.lor kResetBit kClockGateBit) < 4.
Proof.
  change (Z.lor _ _) with (Z.ones 2). rewrite Z.land_ones by lia.
  apply Z.mod_pos_bound. lia.
Qed.

Lemma writeControl_wf tick v b : wf b -> wf (writeControl tick v b).
Proof.
  intros [Hp Hi Hd Hc Hpc Ht Hr]. unfold writeControl.
  pose proof (land3_range v) as Hv.
  set (c := Z.land v _) in *. destruct (Z.eqb_spec (Z.land c kResetBit) 0) as [E|E]; simpl.
  - destruct (_ && _) eqn:Es; split; simpl; try done.
    + destruct (autoHalt b); [apply wrap_range; lia | done].
    + intros H. by destruct (Hr H).
  - split; simpl; done.
Qed.

(** ** The memories as one address space *)

(** A range of the aperture inside one of the memories. *)
Definition in_tcm (b : CoralStageABackend) (off n : Z) : Prop :=
  0 <= off /\ 1 <= n /\
  (off + n <= itcmSize b \/
   kDtcmOffset <= off /\ off + n <= kDtcmOffset + dtcmSize b).

(** The byte at an offset of the aperture. *)
Definition tcm_at (b : CoralStageABackend) (off : Z) : Z :=
  if off <? kDtcmOffset then buf_at (itcm b) off else buf_at (dtcm b) (off - kDtcmOffset).

Definition same_registers (b b' : CoralStageABackend) : Prop :=
  b' = with_tcm (itcm b') (dtcm b') b.

Lemma inItcm_iff b off n :
  wf b -> 0 <= off -> 1 <= n -> inItcm b off n = true <-> off + n <= itcmSize b.
Proof.
  intros Hw Ho Hn. unfold inItcm. bool_prop.
  pose proof (wf_itcm b Hw) as (_ & Hi & _). unfold kDtcmOffset in *. split.
  - intros [Hlt Hle]. rewrite wrap_small in Hle by lia. lia.
  - intros H. rewrite wrap_small; lia.
Qed.

Lemma inDtcm_iff b off n :
  wf b -> 0 <= off < 2 ^ 64 -> 1 <= n ->
  inDtcm b off n = true <-> kDtcmOffset <= off /\ off + n <= kDtcmOffset + dtcmSize b.
Proof.
  intros Hw Ho Hn. unfold inDtcm. bool_prop.
  pose proof (wf_dtcm b Hw) as (_ & Hd & _). unfold kDtcmOffset, kCsrOffset in *. split.
  - intros [[H1 H2] H3]. rewrite (wrap_small 64 (off - _)) in H2, H3 by lia.
    rewrite wrap_small in H3; lia.
  - intros [H1 H2]. rewrite !(wrap_small 64 (off - _)) by lia. rewrite wrap_small; lia.
Qed.

Lemma inCsr_iff off n :
  0 <= off < 2 ^ 64 -> 1 <= n ->
  inCsr off n = true <-> kCsrOffset <= off /\ off + n <= kCsrOffset + kCsrSize.
Proof.
  intros Ho Hn. unfold inCsr, kCsrOffset, kCsrSize. bool_prop. split.
  - intros [[H1 H2] H3]. rewrite (wrap_small 64 (off - _)) in H2, H3 by lia.
    rewrite wrap_small in H3; lia.
  - intros [H1 H2]. rewrite !(wrap_small 64 (off - _)) by lia. rewrite wrap_small; lia.
Qed.

(** The window a range of [tcm] lies in, and the offset of the aperture it
    starts at. *)
Lemma in_tcm_window b off n :
  wf b -> in_tcm b off n ->
  (inItcm b off n = true /\ off + n <= itcmSize b /\ off + n <= kDtcmOffset) \/
  (inItcm b off n = false /\ inDtcm b off n = true /\ kDtcmOffset <= off /\
   off + n <= kDtcmOffset + dtcmSize b).
Proof.
  intros Hw (Ho & Hn & H).
  pose proof (wf_itcm b Hw) as (_ & Hi & _). pose proof (wf_dtcm b Hw) as (_ & Hd & _).
  destruct (inItcm b off n) eqn:E.
  - apply inItcm_iff in E; try done. left. split; [done |]. lia.
  - destruct H as [H|H].
    { apply (inItcm_iff b off n) in H; congruence. }
    right. split; [done |]. split; [| lia].
    apply inDtcm_iff; try done. unfold kDtcmOffset, kCsrOffset in *. lia.
Qed.

Section laws.
Context {P : Type} {HP : Packet P} {pkwf : P -> Prop} {HL : PacketLaws P pkwf}.

(** A packet of [n] bytes at an offset of the aperture. *)
Definition packet_at (b : CoralStageABackend) (p : P) (off : Z) : Prop :=
  pkwf p /\ getAddr p = pioAddr b + off /\ 0 <= off /\ off + getSize p <= pioSize b.

Lemma packet_offset b p off :
  wf b -> packet_at b p off -> 1 <= getSize p -> u64 (getAddr p - pioAddr b) = off.
Proof.
  intros Hw (_ & E & Ho & Hs) Hn. rewrite E, Z.add_simpl_l.
  apply wrap_small. pose proof (wf_pio b Hw). lia.
Qed.

(** A write inside a memory is answered and changes exactly its bytes. *)
Lemma write_tcm b p off tick :
  wf b -> packet_at b p off -> in_tcm b off (getSize p) ->
  exists b', write tick p (pioAddr b) b = Ret (true, makeAtomicResponse p, b') /\
    wf b' /\ same_registers b b' /\
    forall i, tcm_at b' i =
      if decide (off <= i < off + getSize p) then writeData p !!! Z.to_nat (i - off)
      else tcm_at b i.
Proof.
  intros Hw Hp Hin. pose proof (packet_offset b p off Hw Hp) as Eo.
  destruct Hp as (Hpk & Ea & Ho & Hs).
  pose proof (pk_length p Hpk) as Hl. pose proof (pk_bytes p Hpk) as Hb.
  pose proof Hw as [Hpio (Li & Hi & Bi) (Ld & Hd & Bd) Hc Hpc Ht Hr].
  unfold write, writeMemoryWindow. rewrite Eo by (apply Hin).
  destruct (in_tcm_window b off _ Hw Hin) as [(-> & H1 & H2)|(-> & -> & H1 & H2)];
    unfold kDtcmOffset, kCsrOffset, kCsrSize in *.
  - rewrite Ea, Z.add_simpl_l, Z.sub_0_r, (wrap_small 64 off), wrap_small by lia.
    destruct (Z.ltb_spec (buf_len (itcm b)) (off + getSize p)); [lia |].
    rewrite buf_write_ret by lia. eexists. split; [done |]. split; [| split; [done |]].
    { split; simpl; try done. split; [done |]. split; [exact Hi | auto with npu]. }
    intros i. unfold tcm_at. simpl. rewrite buf_at_blit, Hl.
    unfold kDtcmOffset. destruct (Z.ltb_spec i 0x10000); [done |]. case_decide; [lia | done].
  - rewrite Ea, Z.add_simpl_l, (wrap_small 64 (off - _)), wrap_small by lia.
    destruct (Z.ltb_spec (buf_len (dtcm b)) (off - 0x10000 + getSize p)); [lia |].
    rewrite buf_write_ret by lia. eexists. split; [done |]. split; [| split; [done |]].
    { split; simpl; try done. split; [done |]. split; [exact Hd | auto with npu]. }
    intros i. unfold tcm_at. simpl. rewrite buf_at_blit, Hl.
    unfold kDtcmOffset. destruct (Z.ltb_spec i 0x10000).
    + case_decide; [lia | done].
    + replace (i - 0x10000 - (off - 0x10000)) with (i - off) by lia.
      repeat case_decide; lia || done.
Qed.

(** A read inside a memory delivers its bytes and changes nothing. *)
Lemma read_tcm b p off :
  wf b -> packet_at b p off -> in_tcm b off (getSize p) ->
  exists p', read p (pioAddr b) b = Ret (true, p', b) /\ pkwf p' /\
    writeData p' = tcm_at b <$> seqZ off (getSize p) /\ isError p' = isError p.
Proof.
  intros Hw Hp Hin. pose proof (packet_offset b p off Hw Hp) as Eo.
  destruct Hp as (Hpk & Ea & Ho & Hs).
  pose proof Hw as [Hpio (Li & Hi & Bi) (Ld & Hd & Bd) Hc Hpc Ht Hr].
  unfold read, readMemoryWindow. rewrite Eo by (apply Hin).
  destruct (in_tcm_window b off _ Hw Hin) as [(-> & H1 & H2)|(-> & -> & H1 & H2)];
    destruct Hin as (_ & Hn & _); unfold kDtcmOffset, kCsrOffset, kCsrSize in *.
  - rewrite Ea, Z.add_simpl_l, Z.sub_0_r, (wrap_small 64 off), wrap_small by lia.
    destruct (Z.ltb_spec (buf_len (itcm b)) (off + getSize p)); [lia |].
    rewrite buf_read_ret by lia. cbn [mbind res_bind].
    destruct (pk_setData (buf_slice (itcm b) off (getSize p)) p Hpk) as (W1 & D1 & _ & E1);
      [rewrite length_buf_slice; lia | auto with npu |].
    destruct (pk_response _ W1) as (W2 & D2 & _ & E2).
    eexists. split; [done |]. split; [done |]. split; [| congruence].
    rewrite D2, D1. apply list_fmap_ext. intros k i Hk. apply lookup_seqZ in Hk.
    unfold tcm_at, kDtcmOffset. destruct (Z.ltb_spec i 0x10000); [done | lia].
  - rewrite Ea, Z.add_simpl_l, (wrap_small 64 (off - _)), wrap_small by lia.
    destruct (Z.ltb_spec (buf_len (dtcm b)) (off - 0x10000 + getSize p)); [lia |].
    rewrite buf_read_ret by lia. cbn [mbind res_bind].
    destruct (pk_setData (buf_slice (dtcm b) (off - 0x10000) (getSize p)) p Hpk)
      as (W1 & D1 & _ & E1); [rewrite length_buf_slice; lia | auto with npu |].
    destruct (pk_response _ W1) as (W2 & D2 & _ & E2).
    eexists. split; [done |]. split; [done |]. split; [| congruence].
    rewrite D2, D1. apply list_eq_same_length with (n := Z.to_nat (getSize p)).
    + by rewrite length_fmap, length_seqZ.
    + by rewrite length_buf_slice.
    + intros k x y Hk Hx Hy. rewrite lookup_buf_slice in Hx by lia. injection Hx as <-.
      rewrite list_lookup_fmap, lookup_seqZ_lt in Hy by lia. injection Hy as <-.
      unfold tcm_at, kDtcmOffset. destruct (Z.ltb_spec (off + Z.of_nat k) 0x10000); [lia |].
      f_equal. lia.
Qed.

End laws.

(** ** The contract of a back end *)

Lemma with_tcm_wf i d b :
  wf b -> buf_len i = itcmSize b -> buf_len d = dtcmSize b -> buf_bytes i -> buf_bytes d ->
  wf (with_tcm i d b).
Proof.
  intros [Hp (Li & Hi & Bi) (Ld & Hd & Bd) Hc Hpc Ht Hr] ? ? ? ?. by split.
Qed.

Section contract.
Context {P : Type} {HP : Packet P} {pkwf : P -> Prop} {HL : PacketLaws P pkwf}.

Lemma writeMemoryWindow_inv (p : P) window base b handled p' window' :
  pkwf p -> buf_bytes window ->
  writeMemoryWindow p window base b = Ret (handled, p', window') ->
  buf_len window' = buf_len window /\ buf_bytes window'.
Proof.
  intros Hp Hb. unfold writeMemoryWindow. case_test; [by intros [= _ _ <-] |].
  intros H. inv_ret. apply buf_write_inv in E0 as (_ & _ & ->).
  split; [done |]. apply buf_bytes_blit; [done | by apply pk_bytes].
Qed.

(** A write changes a memory or a control register; the windows stay. *)
Lemma write_cases tick (p : P) pio b handled p' b' :
  wf b -> pkwf p -> write tick p pio b = Ret (handled, p', b') ->
  (exists i d, b' = with_tcm i d b /\ wf b') \/
  (exists v, b' = writeControl tick v b) \/ (exists pc, b' = with_csr (resetControl b) pc b /\ wf b').
Proof.
  intros Hw Hp. pose proof Hw as [Hpio (Li & Hi & Bi) (Ld & Hd & Bd) Hc Hpc Ht Hr].
  unfold write. destruct (inItcm _ _ _); [| destruct (inDtcm _ _ _); [| destruct (inCsr _ _)]].
  - intros H. apply bind_ret_inv in H as ([[h q] w] & E & H). injection H as _ _ <-.
    apply writeMemoryWindow_inv in E as [L B]; [| done | done]. left.
    eexists _, _. split; [done |]. apply with_tcm_wf; congruence || done.
  - intros H. apply bind_ret_inv in H as ([[h q] w] & E & H). injection H as _ _ <-.
    apply writeMemoryWindow_inv in E as [L B]; [| done | done]. left.
    eexists _, _. split; [done |]. apply with_tcm_wf; congruence || done.
  - unfold writeCsr. case_test; [intros [= _ _ <-]; left; exists (itcm b), (dtcm b);
      by destruct b |].
    case_test; [intros [= _ _ <-]; eauto |].
    case_test; [intros [= _ _ <-]; right; right; exists (getLE p); split; [done |]
               | intros [= _ _ <-]; left; exists (itcm b), (dtcm b); by destruct b].
    split; try done. simpl. bool_prop. rewrite pk_getLE by tauto.
    pose proof (le_val_range _ (pk_bytes p Hp)) as Hv.
    pose proof (pk_length p Hp) as Hl. destruct E as [E _]. rewrite Hl, E in Hv. done.
  - intros [= _ _ <-]. left. exists (itcm b), (dtcm b). by destruct b.
Qed.

(** In good order at [t]: the run that is under way ends at [t] or later. *)
Definition in_order (horizon t : Z) (b : CoralStageABackend) : Prop :=
  wf b /\ 0 <= t /\ 0 <= executionLatency b <= 2 ^ 64 - horizon /\
  (pendingEventTick b <> 0 -> t <= pendingEventTick b).

#[export] Instance stagea_laws horizon :
  BackendLaws P CoralStageABackend pkwf horizon (in_order horizon).
Proof.
  split; simpl; try done.
  - intros t b (_ & _ & _ & H) Hp. apply negb_true_iff, Z.eqb_neq in Hp. by apply H.
  - intros t t' b (Hw & H0 & Hl & Hp) Ht Hn. split; [done |]. split; [lia |]. split; [done |].
    intros Hne. apply Hn. by apply negb_true_iff, Z.eqb_neq.
  - intros t b p pio h p' b' _ Hok _ H. split; [| done].
    unfold read in H. repeat case_test_in H; try (by injection H as _ _ <-).
    + apply bind_ret_inv in H as ([h1 p1] & _ & H). by injection H as _ _ <-.
    + apply bind_ret_inv in H as ([h1 p1] & _ & H). by injection H as _ _ <-.
    + destruct (readCsr p _ b). by injection H as _ _ <-.
  - intros t b p pio h p' b' Ht (Hw & H0 & Hl & Hp) Hpk H. split; [| done].
    apply write_cases in H as [(i & d & -> & Hw')|[(v & ->)|(pc & -> & Hw')]]; try done.
    pose proof (writeControl_wf t v b Hw) as Hw'. unfold in_order.
    split; [done |]. split; [done |]. unfold writeControl in *.
    destruct (Z.land _ kResetBit =? 0); simpl; [| done].
    destruct (_ && _); simpl; [| done]. split; [done |].
    destruct (autoHalt b); [rewrite wrap_small; lia | done].
  - intros t b b' _ (Hw & H0 & Hl & Hp) [= <-]. split; [| done].
    split; [| done]. destruct Hw. by split.
Qed.

End contract.

(** ** What the host sees *)

(** Within the aperture of a back end whose memories do not overlap the
    other windows, a packet written to a memory is answered, and a packet read
    afterwards anywhere in the memories delivers, byte by byte, what was
    written where the two overlap and the old contents elsewhere; no register
    changes. *)
Theorem tcm_roundtrip {P} {HP : Packet P} {pkwf : P -> Prop} {HL : PacketLaws P pkwf}
    b (p q : P) off off' tick :
  wf b -> packet_at (pkwf := pkwf) b p off -> in_tcm b off (getSize p) ->
  packet_at (pkwf := pkwf) b q off' -> in_tcm b off' (getSize q) ->
  exists b' q',
    write tick p (pioAddr b) b = Ret (true, makeAtomicResponse p, b') /\
    wf b' /\ same_registers b b' /\
    read q (pioAddr b) b' = Ret (true, q', b') /\ isError q' = isError q /\
    Z.of_nat (length (writeData q')) = getSize q /\
    forall i, 0 <= i < getSize q ->
      writeData q' !! Z.to_nat i =
        Some (if decide (off <= off' + i < off + getSize p)
              then writeData p !!! Z.to_nat (off' + i - off) else tcm_at b (off' + i)).
Proof.
  intros Hw Hp Hin Hq Hin'.
  destruct (write_tcm b p off tick Hw Hp Hin) as (b' & E & Hw' & Hs & Ht).
  assert (pioAddr b' = pioAddr b /\ pioSize b' = pioSize b /\
    itcmSize b' = itcmSize b /\ dtcmSize b' = dtcmSize b) as (E1 & E2 & E3 & E4)
    by (rewrite Hs; done).
  destruct (read_tcm (pkwf := pkwf) b' q off') as (q' & Er & Hk & Ed & Ee); [done | | |].
  { unfold packet_at. by rewrite E1, E2. }
  { unfold in_tcm. by rewrite E3, E4. }
  rewrite E1 in Er. exists b', q'. do 5 (split; [done |]). rewrite Ed.
  destruct Hin' as (_ & Hn & _).
  split; [rewrite length_fmap, length_seqZ; lia |]. intros i Hi.
  rewrite list_lookup_fmap, lookup_seqZ_lt by lia. simpl. f_equal.
  rewrite Z2Nat.id by lia. apply Ht.
Qed.

(** The default sizes, at a sample address. *)
Definition sample_backend : CoralStageABackend :=
  match make 0x2d000000 0x31000 0x2000 0x8000 1000000 true with
  | Ret b => b
  | _ => {| pioAddr := 0; pioSize := 0; itcmSize := 0; dtcmSize := 0;
            executionLatency := 0; autoHalt := true; resetControl := 0; pcStart := 0;
            halted := false; fault := false; pendingEventTick := 0; itcm := buf_new 0;
            dtcm := buf_new 0 |}
  end.

Definition sample_packet (off : Z) (data : list Z) : packet :=
  {| pkt_addr := 0x2d000000 + off; pkt_size := Z.of_nat (length data); pkt_data := data;
     pkt_responded := false; pkt_error := false |}.

Lemma sample_wf : wf sample_backend.
Proof.
  apply (make_wf 0x2d000000 0x31000 0x2000 0x8000 1000000 true); try done;
    unfold kDtcmOffset, kCsrOffset; lia.
Qed.

Lemma sample_packet_at off data :
  0 <= off -> off + Z.of_nat (length data) <= 0x31000 -> Forall is_byte data ->
  packet_at (pkwf := packet_wf) sample_backend (sample_packet off data) off.
Proof.
  intros. split; [| split; [done |]]; [| simpl; lia]. split; [simpl; lia |]. by split.
Qed.

Lemma tcm_roundtrip_witness :
  exists b' q',
    write 5 (sample_packet 0x10004 [1; 2; 3; 4]) 0x2d000000 sample_backend =
      Ret (true, makeAtomicResponse (sample_packet 0x10004 [1; 2; 3; 4]), b') /\
    read (sample_packet 0x10002 [0; 0; 0; 0]) 0x2d000000 b' = Ret (true, q', b') /\
    writeData q' !! 2%nat = Some 1.
Proof.
  destruct (tcm_roundtrip (pkwf := packet_wf) sample_backend
    (sample_packet 0x10004 [1; 2; 3; 4]) (sample_packet 0x10002 [0; 0; 0; 0])
    0x10004 0x10002 5 sample_wf) as (b' & q' & E & _ & _ & Er & _ & _ & Hd).
  - apply sample_packet_at; [lia | simpl; lia |].
    repeat (apply List.Forall_cons || apply List.Forall_nil); unfold is_byte; lia.
  - vm_compute. split; [discriminate |]. split; [discriminate |]. right. split; discriminate.
  - apply sample_packet_at; [lia | simpl; lia |].
    repeat (apply List.Forall_cons || apply List.Forall_nil); unfold is_byte; lia.
  - vm_compute. split; [discriminate |]. split; [discriminate |]. right. split; discriminate.
  - exists b', q'. split; [exact E |]. split; [exact Er |].
    exact (Hd 2 ltac:(simpl; lia)).
Defined.

End StageA.
