(* ===== verification/Verilated.v ===== *)
(** * The Verilated back end

    [CoralVerilatedBackend] of [coral_verilated_backend.cc], over the bridge
    of [Bridge.v]: the firmware loader, register accesses, the event that
    clocks the core, and the hand-over of DMA requests.  The core behind the
    bridge stays a class.  [pieces] and [fuel] bound the register accesses,
    which wait for the core: an access that does not end is [Hang].  A packed
    ELF structure may lie at any byte offset of the image. *)

From Stdlib Require Import SpecFloat String.
From S2P Require Import Prelude Axi CustomMac EnvParse Bridge Drain Gem5.

Module Verilated.

Definition kResetControlOffset : Z := 0x30000.
Definition kMepcOffset : Z := 0x30104.
Definition kMtvalOffset : Z := 0x30108.
Definition kMcauseOffset : Z := 0x3010c.
Definition kCoralExtmemBase : Z := 0x20000000.
Definition kResetBit : Z := 1.
Definition kClockGateBit : Z := 2.
(** The largest 64-bit tick. *)
Definition MaxTick : Z := UINT64_MAX.

Record CoralVerilatedBackend (W : Type) := {
  rtlTickPeriod : Z; rtlCyclesPerEvent : Z; modelHandle : option (bridge W);
  localExtmemEnabled : bool; running : bool; pendingEventTick : Z; resetControl : Z;
  firmwareEntry : Z; dmaRequestPending : bool; wfiObserved : bool; rtlEventCount : Z;
  rtlDmaRequestCount : Z; pendingDmaRequest : CoralDmaRequest }.
Arguments rtlTickPeriod {W} _.
Arguments rtlCyclesPerEvent {W} _.
Arguments modelHandle {W} _.
Arguments localExtmemEnabled {W} _.
Arguments running {W} _.
Arguments pendingEventTick {W} _.
Arguments resetControl {W} _.
Arguments firmwareEntry {W} _.
Arguments dmaRequestPending {W} _.
Arguments wfiObserved {W} _.
Arguments rtlEventCount {W} _.
Arguments rtlDmaRequestCount {W} _.
Arguments pendingDmaRequest {W} _.

(** [pendingDmaRequest()] and [pendingDmaRequest = {}]. *)
Definition no_request : CoralDmaRequest :=
  {| dma_type := Read; dma_addr := 0; dma_size := 0; dma_data := zero_data |}.

(** A wait that did not end within its steps. *)
Definition finish {A} (m : res (option A)) : res A :=
  o ← m; match o with Some a => Ret a | None => Hang end.

Section backend.
Context {W : Type} {HW : Wrapper W} (highmem : bool) (expf : spec_float -> spec_float).
Context (pieces fuel : nat).

Abbreviation backend := (CoralVerilatedBackend W).

Definition with_model (h : option (bridge W)) (v : backend) : backend :=
  {| rtlTickPeriod := rtlTickPeriod v; rtlCyclesPerEvent := rtlCyclesPerEvent v;
     modelHandle := h; localExtmemEnabled := localExtmemEnabled v; running := running v;
     pendingEventTick := pendingEventTick v; resetControl := resetControl v;
     firmwareEntry := firmwareEntry v; dmaRequestPending := dmaRequestPending v;
     wfiObserved := wfiObserved v; rtlEventCount := rtlEventCount v;
     rtlDmaRequestCount := rtlDmaRequestCount v; pendingDmaRequest := pendingDmaRequest v |}.

Definition with_run (run : bool) (tick : Z) (wfi : bool) (v : backend) : backend :=
  {| rtlTickPeriod := rtlTickPeriod v; rtlCyclesPerEvent := rtlCyclesPerEvent v;
     modelHandle := modelHandle v; localExtmemEnabled := localExtmemEnabled v;
     running := run; pendingEventTick := tick; resetControl := resetControl v;
     firmwareEntry := firmwareEntry v; dmaRequestPending := dmaRequestPending v;
     wfiObserved := wfi; rtlEventCount := rtlEventCount v;
     rtlDmaRequestCount := rtlDmaRequestCount v; pendingDmaRequest := pendingDmaRequest v |}.

Definition with_counts (control events requests : Z) (v : backend) : backend :=
  {| rtlTickPeriod := rtlTickPeriod v; rtlCyclesPerEvent := rtlCyclesPerEvent v;
     modelHandle := modelHandle v; localExtmemEnabled := localExtmemEnabled v;
     running := running v; pendingEventTick := pendingEventTick v; resetControl := control;
     firmwareEntry := firmwareEntry v; dmaRequestPending := dmaRequestPending v;
     wfiObserved := wfiObserved v; rtlEventCount := events;
     rtlDmaRequestCount := requests; pendingDmaRequest := pendingDmaRequest v |}.

Definition with_request (pending : bool) (r : CoralDmaRequest) (v : backend) : backend :=
  {| rtlTickPeriod := rtlTickPeriod v; rtlCyclesPerEvent := rtlCyclesPerEvent v;
     modelHandle := modelHandle v; localExtmemEnabled := localExtmemEnabled v;
     running := running v; pendingEventTick := pendingEventTick v;
     resetControl := resetControl v; firmwareEntry := firmwareEntry v;
     dmaRequestPending := pending; wfiObserved := wfiObserved v;
     rtlEventCount := rtlEventCount v; rtlDmaRequestCount := rtlDmaRequestCount v;
     pendingDmaRequest := r |}.

(** ** The functions of the library, on the back end's handle *)

Definition mmioRead (addr size : Z) (v : backend) : res (Z * list Z * backend) :=
  '(status, value, h) ← finish
      (coral_gem5_mmio_read highmem expf pieces fuel (modelHandle v) addr (Some tt) size);
  Ret (status, value, with_model h v).

Definition mmioWrite (addr : Z) (bytes : list Z) (v : backend) : res (Z * backend) :=
  '(status, h) ← finish
      (coral_gem5_mmio_write highmem expf pieces fuel (modelHandle v) addr (Some bytes)
         (Z.of_nat (length bytes)));
  Ret (status, with_model h v).

Definition stepModel (v : backend) : res (Z * backend) :=
  '(status, h) ← coral_gem5_step highmem expf (modelHandle v) (rtlCyclesPerEvent v);
  Ret (status, with_model h v).

Definition extmemWrite (addr : Z) (bytes : list Z) (v : backend) : res (Z * backend) :=
  '(status, h) ← coral_gem5_extmem_write (modelHandle v) addr (Some bytes)
                   (Z.of_nat (length bytes));
  Ret (status, with_model h v).

(** ** The firmware loader *)

(** The fields of [Elf32_Ehdr] and [Elf32_Phdr] the loader reads. *)
Definition sizeof_Ehdr : Z := 52.
Definition sizeof_Phdr : Z := 32.
Definition PT_LOAD : Z := 1.

Record Elf32_Phdr := {
  p_type : Z; p_offset : Z; p_paddr : Z; p_filesz : Z }.

Definition field (image : buf) (off n : Z) : res Z :=
  bs ← buf_read image off n; Ret (le_val bs).

Definition elf_ident_ok (image : buf) : res bool :=
  magic ← buf_read image 0 4;
  cls ← field image 4 1;
  enc ← field image 5 1;
  Ret (bool_decide (magic = [0x7f; 0x45; 0x4c; 0x46]) && (cls =? 1) && (enc =? 1)).

Definition program_header (image : buf) (off : Z) : res Elf32_Phdr :=
  type ← field image off 4;
  offset ← field image (off + 4) 4;
  paddr ← field image (off + 12) 4;
  filesz ← field image (off + 16) 4;
  Ret {| p_type := type; p_offset := offset; p_paddr := paddr; p_filesz := filesz |}.

(** The loop body, after the [continue] of a segment with nothing to load. *)
Definition load_segment (image : buf) (s : Elf32_Phdr) (v : backend) : res backend :=
  _ ← fatal_if (buf_len image <? p_offset s + p_filesz s);
  bytes ← buf_read image (p_offset s) (p_filesz s);
  if kCoralExtmemBase <=? p_paddr s then
    '(status, v1) ← extmemWrite (p_paddr s) bytes v;
    _ ← fatal_if (negb (status =? 0));
    Ret v1
  else
    '(status, v1) ← mmioWrite (p_paddr s) bytes v;
    _ ← fatal_if (negb (status =? 0));
    '(status, loaded, v2) ← mmioRead (p_paddr s) (p_filesz s) v1;
    _ ← fatal_if (negb (status =? 0));
    _ ← fatal_if (negb (bool_decide (loaded = bytes)));
    Ret v2.

Definition load_entry (image : buf) (phoff i : Z) (v : backend) : res backend :=
  s ← program_header image (phoff + i * sizeof_Phdr);
  if negb (p_type s =? PT_LOAD) || (p_filesz s =? 0) then Ret v
  else load_segment image s v.

(** [firmware] is [None] when the file cannot be opened or read. *)
Definition loadFirmware (pathEmpty : bool) (firmware : option buf) (v : backend) :
    res backend :=
  _ ← fatal_if pathEmpty;
  match firmware with
  | None => Fatal
  | Some image =>
      _ ← fatal_if (buf_len image <? sizeof_Ehdr);
      ident ← elf_ident_ok image;
      _ ← fatal_if (negb ident);
      phentsize ← field image 42 2;
      _ ← fatal_if (negb (phentsize =? sizeof_Phdr));
      phoff ← field image 28 4;
      phnum ← field image 44 2;
      _ ← fatal_if (buf_len image <? phoff + phnum * sizeof_Phdr);
      v1 ← forZ phnum (load_entry image phoff) v;
      entry ← field image 24 4;
      Ret {| rtlTickPeriod := rtlTickPeriod v1; rtlCyclesPerEvent := rtlCyclesPerEvent v1;
             modelHandle := modelHandle v1; localExtmemEnabled := localExtmemEnabled v1;
             running := running v1; pendingEventTick := pendingEventTick v1;
             resetControl := resetControl v1; firmwareEntry := entry;
             dmaRequestPending := dmaRequestPending v1; wfiObserved := wfiObserved v1;
             rtlEventCount := rtlEventCount v1; rtlDmaRequestCount := rtlDmaRequestCount v1;
             pendingDmaRequest := pendingDmaRequest v1 |}
  end.

(** ** The constructor *)

(** The library was found, with all its symbols; the rest of its environment. *)
Record library := {
  lib_path_empty : bool; lib_opened : bool; lib_symbols : bool; lib_env : bridge_env;
  lib_powerup : mac_regs; lib_create_now : Z; lib_reset_now : Z; lib_core : W }.

Definition mode_value (operator_mode : string) : Z :=
  if String.eqb operator_mode "hybrid" then 1
  else if String.eqb operator_mode "sampled" then 2 else 0.

Definition set_operator_mode (operator_mode : string) (h : option (bridge W)) :
    res (option (bridge W)) :=
  let '(status, h1) := coral_gem5_operator_mode h (mode_value operator_mode) in
  if negb (status =? 0) then
    _ ← fatal_if (negb (String.eqb operator_mode "sampled"));
    let '(status2, h2) := coral_gem5_operator_mode h1 1 in
    _ ← fatal_if (negb (status2 =? 0));
    Ret h2
  else Ret h1.

Definition make (lib : library) (pathEmpty : bool) (firmware : option buf)
    (rtl_tick_period rtl_cycles_per_event : Z) (enable_local_extmem : bool)
    (operator_mode : string) : res backend :=
  _ ← fatal_if (lib_path_empty lib);
  _ ← fatal_if (rtl_tick_period =? 0);
  _ ← fatal_if (rtl_cycles_per_event =? 0);
  _ ← fatal_if (negb (String.eqb operator_mode "rtl") && negb (String.eqb operator_mode "hybrid")
                && negb (String.eqb operator_mode "sampled"));
  _ ← fatal_if (negb (lib_opened lib));
  _ ← fatal_if (negb (lib_symbols lib));
  _ ← fatal_if (negb (coral_gem5_abi_version =? CORAL_GEM5_ABI_VERSION));
  let h := Some (coral_gem5_create (lib_env lib) (lib_powerup lib) (lib_create_now lib)
                   (lib_core lib)) in
  let '(status, h) := coral_gem5_reset (lib_reset_now lib) h in
  _ ← fatal_if (negb (status =? 0));
  let '(status, h) := coral_gem5_extmem_enable h enable_local_extmem in
  _ ← fatal_if (negb (status =? 0));
  h ← set_operator_mode operator_mode h;
  loadFirmware pathEmpty firmware
    {| rtlTickPeriod := rtl_tick_period; rtlCyclesPerEvent := rtl_cycles_per_event;
       modelHandle := h; localExtmemEnabled := enable_local_extmem; running := false;
       pendingEventTick := 0; resetControl := Z.lor kResetBit kClockGateBit;
       firmwareEntry := 0; dmaRequestPending := false; wfiObserved := false;
       rtlEventCount := 0; rtlDmaRequestCount := 0; pendingDmaRequest := no_request |}.

(** ** Registers *)

Section packets.
Context {P : Type} {HP : Packet P}.

Definition read (pkt : P) (pio_addr : Z) (v : backend) : res (bool * P * backend) :=
  let offset := u64 (getAddr pkt - pio_addr) in
  if UINT32_MAX <? offset then Ret (false, pkt, v)
  else
    '(status, data, v1) ← mmioRead (u32 offset) (getSize pkt) v;
    if negb (status =? 0) then Ret (false, pkt, v1)
    else Ret (true, makeAtomicResponse (setData data pkt), v1).

(** The reset-control register the back end shadows. *)
Definition write_control (tick value : Z) (v : backend) : backend :=
  let control := Z.land value (Z.lor kResetBit kClockGateBit) in
  let run := Z.land control (Z.lor kResetBit kClockGateBit) =? 0 in
  let fresh := run && negb (running v) in
  with_run run (if run then u64 (tick + rtlTickPeriod v) else 0) (wfiObserved v)
    (with_counts control (if fresh then 0 else rtlEventCount v)
       (if fresh then 0 else rtlDmaRequestCount v) v).

Definition write (tick : Z) (pkt : P) (pio_addr : Z) (v : backend) :
    res (bool * P * backend) :=
  let offset := u64 (getAddr pkt - pio_addr) in
  if UINT32_MAX <? offset then Ret (false, pkt, v)
  else
    '(status, v1) ← mmioWrite (u32 offset) (writeData pkt) v;
    if negb (status =? 0) then Ret (false, pkt, v1)
    else
      let v2 := if (offset =? kResetControlOffset) && (getSize pkt =? 4)
                then write_control tick (getLE pkt) v1 else v1 in
      Ret (true, makeAtomicResponse pkt, v2).

End packets.

Definition translate (vaddr : Z) (_ : backend) : Z := vaddr.
Definition hasPendingEvent (v : backend) : bool := negb (pendingEventTick v =? 0).
Definition nextEventTick (v : backend) : Z := pendingEventTick v.

(** ** The event *)

(** The fault registers are read for the message; the run stops either way. *)
Definition report_fault (v : backend) : res backend :=
  '(s1, _, v1) ← mmioRead kMepcOffset 4 v;
  _ ← fatal_if (negb (s1 =? 0));
  '(s2, _, v2) ← mmioRead kMtvalOffset 4 v1;
  _ ← fatal_if (negb (s2 =? 0));
  '(s3, _, v3) ← mmioRead kMcauseOffset 4 v2;
  Fatal.

Definition take_request (v : backend) : res backend :=
  match coral_gem5_dma_request_get (modelHandle v) (Some tt) with
  | (1, Some request) =>
      _ ← fatal_if ((req_size request =? 0) || (CORAL_GEM5_DMA_DATA_BYTES <? req_size request));
      _ ← fatal_if (negb (req_type request =? CORAL_GEM5_DMA_READ)
                    && negb (req_type request =? CORAL_GEM5_DMA_WRITE));
      Ret (with_run (running v) 0 (wfiObserved v)
             (with_counts (resetControl v) (rtlEventCount v) (u64 (rtlDmaRequestCount v + 1))
                (with_request true
                   {| dma_type := if req_type request =? CORAL_GEM5_DMA_READ then Read
                                  else Write;
                      dma_addr := req_addr request; dma_size := req_size request;
                      dma_data := req_data request |} v)))
  | _ => Fatal
  end.

(** What follows a step that returned [result] and may run on for [delay]. *)
Definition after_step (tick delay result : Z) (v : backend) : res backend :=
  if result =? 3 then Ret (with_run (running v) (u64 (tick + delay)) true v)
  else if result =? 2 then take_request (with_run (running v) (pendingEventTick v) false v)
  else if 0 <? result then Ret (with_run false 0 false v)
  else Ret (with_run (running v) (u64 (tick + delay)) false v).

Definition processEvent (tick : Z) (v : backend) : res backend :=
  if negb (running v) then Ret (with_run (running v) 0 (wfiObserved v) v)
  else
    let v0 := with_counts (resetControl v) (u64 (rtlEventCount v + 1))
                (rtlDmaRequestCount v) v in
    let cyclesBefore := coral_gem5_cycle_count (modelHandle v0) in
    '(result, v1) ← stepModel v0;
    let cyclesAfter := coral_gem5_cycle_count (modelHandle v1) in
    _ ← fatal_if (cyclesAfter <? cyclesBefore);
    let executedCycles := cyclesAfter - cyclesBefore in
    _ ← fatal_if (negb (executedCycles =? 0) && (MaxTick / executedCycles <? rtlTickPeriod v1));
    let stepDelay := if executedCycles =? 0 then rtlTickPeriod v1
                     else u64 (executedCycles * rtlTickPeriod v1) in
    _ ← fatal_if (result <? 0);
    if result =? 4 then report_fault v1 else after_step tick stepDelay result v1.

(** ** DMA and local memory *)

Definition dmaRequest (v : backend) : res CoralDmaRequest :=
  _ ← fatal_if (negb (dmaRequestPending v)); Ret (pendingDmaRequest v).

Definition completeDma (tick : Z) (data : option (list Z)) (size : Z) (error : bool)
    (v : backend) : res backend :=
  _ ← fatal_if (negb (dmaRequestPending v));
  let is_read := match dma_type (pendingDmaRequest v) with Read => true | Write => false end in
  let '(status, h) := coral_gem5_dma_complete (modelHandle v)
                        (if is_read then data else None) (if is_read then size else 0) error in
  _ ← fatal_if (negb (status =? 0));
  Ret (with_run (running v) (if running v then u64 (tick + rtlTickPeriod v) else 0)
         (wfiObserved v) (with_request false no_request (with_model h v))).

Definition readLocalExtmem (addr size : Z) (v : backend) : res (list Z) :=
  _ ← fatal_if (negb (localExtmemEnabled v) || (UINT32_MAX <? addr));
  '(status, bytes) ← coral_gem5_extmem_read (modelHandle v) (u32 addr) (Some tt) size;
  _ ← fatal_if (negb (status =? 0));
  Ret bytes.

Definition writeLocalExtmem (addr : Z) (bytes : list Z) (v : backend) : res backend :=
  _ ← fatal_if (negb (localExtmemEnabled v) || (UINT32_MAX <? addr));
  '(status, v1) ← extmemWrite (u32 addr) bytes v;
  _ ← fatal_if (negb (status =? 0));
  Ret v1.

#[export] Instance verilated_backend {P} {HP : Packet P} : CoralBackend P backend := {|
  be_read := read;
  be_write := write;
  be_translate := translate;
  Gem5.hasPendingEvent := hasPendingEvent;
  Gem5.nextEventTick := nextEventTick;
  Gem5.processEvent := processEvent;
  hasDmaRequest := dmaRequestPending;
  Gem5.dmaRequest := dmaRequest;
  Gem5.completeDma := completeDma;
  hasLocalExtmem := localExtmemEnabled;
  Gem5.readLocalExtmem := readLocalExtmem;
  Gem5.writeLocalExtmem := writeLocalExtmem |}.

End backend.

End Verilated.
