(* ===== verification/VerilatedSpec.v ===== *)
(** * What the Verilated back end guarantees

    Over a core that issues a transaction only after the last one was
    answered, the bridge's request and the back end's copy of it stay the same
    request until it is completed, register accesses included, and the checks
    of [coral_verilated_backend.cc] that would stop the simulator cannot
    fail, a fault of the core and overflowing delays apart. *)

From Stdlib Require Import SpecFloat String.
From S2P Require Import Prelude Axi CustomMac Operator HybridDispatch EnvParse Bridge BridgeSpec.
From S2P Require Import Drain Gem5 Verilated.
Import Verilated.

(** What the back end relies on of the core: while a transaction waits for
    its answer the core starts no other. *)
Class BlockingCore (W : Type) {HW : Wrapper W} := {
  w_busy : W -> bool;
  bc_issue : forall w, (w_step w).2 <> [] -> w_busy (w_step w).1 = true;
  bc_wait : forall w, w_busy w = true -> (w_step w).2 = [] /\ w_busy (w_step w).1 = true;
  bc_read : forall w a n, w_busy (w_read_start w a n) = w_busy w;
  bc_write : forall w a bs, w_busy (w_write_start w a bs) = w_busy w;
  bc_queue_read : forall w rs, rs = [] -> w_busy (w_queue_read w rs) = w_busy w;
  bc_queue_write : forall w rs, rs = [] -> w_busy (w_queue_write w rs) = w_busy w }.

Section bridge.
Context {W : Type} {HW : Wrapper W} {HS : SingleIssue W} {HC : BlockingCore W}.
Context (highmem : bool) (expf : spec_float -> spec_float).

(** A pending request is the one the core waits for. *)
Definition core_waits (b : bridge W) : Prop :=
  handle_inv (br_handle b) /\
  (dma_pending (dma (br_handle b)) = true -> w_busy (br_wrapper b) = true).

(** The bridge in good order. *)
Definition bridge_ok (b : bridge W) : Prop :=
  core_waits b /\ is_u64 (rtl_cycles (br_handle b)).

(** A pending request survives. *)
Definition same_pending (b b' : bridge W) : Prop :=
  dma_pending (dma (br_handle b)) = true -> dma (br_handle b') = dma (br_handle b).

Lemma same_pending_trans b1 b2 b3 :
  same_pending b1 b2 -> same_pending b2 b3 -> same_pending b1 b3.
Proof. unfold same_pending. intros H1 H2 Hp. rewrite H2; rewrite H1; done. Qed.

Lemma handle_event_ok e b b' :
  event_wf e -> handle_inv (br_handle b) -> dma_pending (dma (br_handle b)) = false ->
  w_busy (br_wrapper b) = true -> handle_event highmem expf e b = Ret b' -> core_waits b'.
Proof.
  intros He Hi Hp Hb E.
  assert (handle_inv (br_handle b')) as Hi' by (by apply handle_event_inv in E).
  split; [done |]. intros Hp'. destruct e as [a|a data now elapsed]; simpl in E.
  - apply bind_ret_inv in E as ([h rs] & E & H). injection H as <-. simpl in *.
    destruct (read_callback_spec highmem a (br_handle b) Hi He Hp)
      as (h1 & rs1 & E1 & _ & _ & Hrs). rewrite E1 in E. injection E as <- <-.
    rewrite bc_queue_read; [done | by apply Hrs].
  - apply bind_ret_inv in E as ([h rs] & E & H). injection H as <-. simpl in *.
    apply write_callback_spec in E as [_ Hrs]; try done; try apply He.
    rewrite bc_queue_write; [done | by apply Hrs].
Qed.

(** A clock step keeps the bridge in order; while a request is pending it
    touches the core only. *)
Lemma wrapper_step_ok b b' :
  bridge_ok b -> wrapper_step highmem expf b = Ret b' ->
  bridge_ok b' /\ (dma_pending (dma (br_handle b)) = true -> br_handle b' = br_handle b).
Proof.
  intros [[Hi Hb] Hc] Es. pose proof (wrapper_step_cycles _ _ _ _ Es) as Ec.
  unfold bridge_ok. rewrite Ec. clear Ec. revert Es. unfold wrapper_step.
  pose proof (step_events_wf (br_wrapper b)) as Hw.
  pose proof (step_single (br_wrapper b)) as Hl.
  pose proof (bc_wait (br_wrapper b)) as Hwait. pose proof (bc_issue (br_wrapper b)) as Hiss.
  destruct (w_step (br_wrapper b)) as [w evs]. simpl in Hw, Hl, Hwait, Hiss.
  destruct (dma_pending (dma (br_handle b))) eqn:Ep.
  - destruct (Hwait (Hb eq_refl)) as [-> Hbusy]. simpl. intros [= <-].
    done.
  - destruct evs as [|e [|]]; simpl in Hl; [| | lia].
    { intros [= <-]. split; [| done]. split; [| done]. split; [done |]. simpl. by rewrite Ep. }
    simpl. intros H. apply bind_ret_inv in H as (b1 & E & H). injection H as <-.
    apply Forall_cons_1 in Hw as [He _]. split; [| done]. split; [| done].
    eapply handle_event_ok; [done | | | | exact E]; [done | done |]. by apply Hiss.
Qed.

Lemma step_until_ok fuel finished b b' :
  bridge_ok b -> step_until highmem expf fuel finished b = Ret (Some b') ->
  bridge_ok b' /\ same_pending b b'.
Proof.
  revert b. induction fuel as [|fuel IH]; intros b Hok; simpl.
  { destruct (finished _); [| done]. by intros [= <-]. }
  destruct (finished _); [by intros [= <-] |].
  intros H. apply bind_ret_inv in H as (b1 & E & H).
  apply wrapper_step_ok in E as [Hok1 E1]; [| done].
  apply IH in H as [Hok' E']; [| done]. split; [done |].
  eapply same_pending_trans; [| done]. intros Hp. by rewrite E1.
Qed.

Lemma wrapper_write_ok n fuel addr data b b' :
  bridge_ok b -> wrapper_write highmem expf n fuel addr data b = Ret (Some b') ->
  bridge_ok b' /\ same_pending b b'.
Proof.
  revert addr data b. induction n as [|n IH]; intros addr data b Hok; destruct data as [|x data];
    cbn [wrapper_write]; try done; try (by intros [= <-]).
  intros H. apply bind_ret_inv in H as ([b1|] & E & H); [| done].
  apply step_until_ok in E as [Hok1 Es].
  - apply IH in H as [Hok' Es']; [| done]. split; [done |].
    eapply same_pending_trans; [| exact Es']. exact Es.
  - destruct Hok as [[Hi Hb] Hc]. split; [| done]. split; [done |]. simpl. by rewrite bc_write.
Qed.

Lemma wrapper_read_ok n fuel addr len result b value b' :
  bridge_ok b -> wrapper_read highmem expf n fuel addr len result b = Ret (Some (value, b')) ->
  bridge_ok b' /\ same_pending b b'.
Proof.
  revert addr result b. induction n as [|n IH]; intros addr result b Hok;
    cbn [wrapper_read]; (case_test; [by intros [= _ <-] |]); [done |].
  intros H. apply bind_ret_inv in H as ([b1|] & E1 & H); [| done].
  apply step_until_ok in E1 as [Hok1 Es].
  - apply IH in H as [Hok' Es']; [| done]. split; [done |].
    eapply same_pending_trans; [| exact Es']. exact Es.
  - destruct Hok as [[Hi Hb] Hc]. split; [| done]. split; [done |]. simpl. by rewrite bc_read.
Qed.

Lemma step_cycle_ok b b' :
  bridge_ok b -> dma_pending (dma (br_handle b)) = false ->
  step_cycle highmem expf b = Ret b' -> bridge_ok b'.
Proof.
  intros [[Hi Hb] Hc] Hp H. apply bind_ret_inv in H as (b1 & E & H). injection H as <-.
  apply wrapper_step_ok in E as [[[Hi1 Hb1] Hc1] _].
  - split; [| done]. split; [| done]. simpl.
    eapply handle_inv_same_dma; simpl; try done; try apply Hi1. apply mac_inv_step, Hi1.
  - split; [| by apply wrap_range]. split; [| done]. simpl.
    eapply handle_inv_same_dma; simpl; try done; apply Hi.
Qed.

Lemma step_loop_ok n b status b' :
  bridge_ok b -> dma_pending (dma (br_handle b)) = false ->
  step_loop highmem expf n b = Ret (status, b') -> bridge_ok b'.
Proof.
  revert b. induction n as [|n IH]; intros b Hok Hp; simpl; [by intros [= _ <-] |].
  destruct (w_fault _); [by intros [= _ <-] |]. destruct (w_halted _); [by intros [= _ <-] |].
  intros H. apply bind_ret_inv in H as (b1 & E & H).
  apply step_cycle_ok in E; [| done | done].
  destruct (dma_pending (dma (br_handle b1))) eqn:Ep; [by injection H as _ <- |].
  destruct (w_fault _); [by injection H as _ <- |].
  destruct (w_halted _); [by injection H as _ <- |]. by apply (IH b1).
Qed.

End bridge.

(** ** The back end in good order *)

Definition of_bridge (r : coral_gem5_dma_request) : CoralDmaRequest :=
  {| dma_type := if req_type r =? CORAL_GEM5_DMA_READ then Read else Write;
     dma_addr := req_addr r; dma_size := req_size r; dma_data := req_data r |}.

Section backend.
Context {W : Type} {HW : Wrapper W} {HS : SingleIssue W} {HC : BlockingCore W}.
Context (highmem : bool) (expf : spec_float -> spec_float) (pieces fuel : nat).

(** The back end's copy of the request is the bridge's. *)
Definition copies (v : CoralVerilatedBackend W) (b : bridge W) : Prop :=
  modelHandle v = Some b /\ bridge_ok b /\
  (dmaRequestPending v = true -> dma_pending (dma (br_handle b)) = true /\
     pendingDmaRequest v = of_bridge (pending_dma (dma (br_handle b)))).

Definition in_order (horizon t : Z) (v : CoralVerilatedBackend W) : Prop :=
  0 <= t /\ 1 <= rtlTickPeriod v /\ 1 <= rtlCyclesPerEvent v < 2 ^ 32 /\
  rtlTickPeriod v * rtlCyclesPerEvent v <= 2 ^ 64 - horizon /\
  0 <= pendingEventTick v /\ (pendingEventTick v <> 0 -> t <= pendingEventTick v) /\
  exists b, copies v b.

(** Another bridge that keeps the request. *)
Lemma in_order_model horizon t v b b' :
  in_order horizon t v -> modelHandle v = Some b -> bridge_ok b' -> same_pending b b' ->
  in_order horizon t (with_model (Some b') v).
Proof.
  intros (H0 & H1 & H2 & H3 & H4 & H5 & b0 & E0 & Hok & Hc) E Hok' Hs.
  rewrite E in E0. injection E0 as <-.
  do 6 (split; [done |]). exists b'. split; [done |]. split; [done |]. simpl.
  intros Hp. destruct (Hc Hp) as [Hd Er]. by rewrite (Hs Hd).
Qed.

Lemma mmioRead_ok horizon t addr size v status value v' :
  in_order horizon t v ->
  mmioRead highmem expf pieces fuel addr size v = Ret (status, value, v') ->
  exists b b', modelHandle v = Some b /\ v' = with_model (Some b') v /\ bridge_ok b' /\
    same_pending b b'.
Proof.
  intros (_ & _ & _ & _ & _ & _ & b & E & Hok & _) H.
  unfold mmioRead in H. apply bind_ret_inv in H as ([[s val] h] & Ef & H).
  injection H as <- <- <-. apply bind_ret_inv in Ef as (o & Er & Ef).
  destruct o as [[[s1 val1] h1]|]; [| done]. injection Ef as -> -> ->.
  unfold coral_gem5_mmio_read in Er. rewrite E in Er. exists b.
  assert (same_pending b b) as Hs by done.
  destruct (size =? 0); [injection Er as _ _ <-; eauto |].
  apply bind_ret_inv in Er as ([[val1 b1]|] & Er & H); [| done].
  apply wrapper_read_ok in Er as [Hok1 Hs1]; [| done].
  case_test_in H; injection H as _ _ <-; eauto.
Qed.

Lemma mmioWrite_ok horizon t addr bytes v status v' :
  in_order horizon t v ->
  mmioWrite highmem expf pieces fuel addr bytes v = Ret (status, v') ->
  exists b b', modelHandle v = Some b /\ v' = with_model (Some b') v /\ bridge_ok b' /\
    same_pending b b'.
Proof.
  intros (_ & _ & _ & _ & _ & _ & b & E & Hok & _) H.
  unfold mmioWrite in H. apply bind_ret_inv in H as ([s h] & Ef & H).
  injection H as <- <-. apply bind_ret_inv in Ef as (o & Er & Ef).
  destruct o as [[s1 h1]|]; [| done]. injection Ef as -> ->.
  unfold coral_gem5_mmio_write in Er. rewrite E in Er. exists b.
  assert (same_pending b b) as Hs by done.
  destruct (_ =? 0); [injection Er as _ <-; eauto |].
  apply bind_ret_inv in Er as ([b1|] & Er & H); [| done].
  apply wrapper_write_ok in Er as [Hok1 Hs1]; [| done]. injection H as _ <-. eauto.
Qed.

Lemma with_extmem_ok enabled mem b :
  bridge_ok b -> buf_len mem = kExtmemSize -> buf_bytes mem ->
  bridge_ok (with_handle (fun h => with_extmem enabled mem (counters h) h) b).
Proof.
  intros [[[L B M Wd S La D] Hb] Hc] ? ?. split; [| done]. split; [| done]. by split.
Qed.

Lemma extmemWrite_ok horizon t addr bytes v status v' :
  in_order horizon t v -> Forall is_byte bytes ->
  extmemWrite addr bytes v = Ret (status, v') ->
  exists b b', modelHandle v = Some b /\ v' = with_model (Some b') v /\ bridge_ok b' /\
    same_pending b b'.
Proof.
  intros (_ & _ & _ & _ & _ & _ & b & E & Hok & _) Hby H.
  unfold extmemWrite in H. apply bind_ret_inv in H as ([s h] & Ef & H).
  injection H as <- <-. unfold coral_gem5_extmem_write in Ef. rewrite E in Ef. exists b.
  assert (same_pending b b) as Hs by done.
  case_test_in Ef; [| injection Ef as _ <-; eauto].
  apply bind_ret_inv in Ef as (m & Ew & H). injection H as _ <-.
  eexists. split; [done |]. split; [done |]. split; [| done].
  apply buf_write_inv in Ew as (_ & _ & ->).
  pose proof Hok as [[[L B _ _ _ _ _] _] _].
  apply (with_extmem_ok (local_extmem_enabled (br_handle b))); [done | done |].
  apply buf_bytes_blit; [done | by apply Forall_take].
Qed.

(** ** Completing a request *)

Lemma bridge_request b :
  bridge_ok b -> dma_pending (dma (br_handle b)) = true -> request_ok (dma (br_handle b)).
Proof. intros [[Hi _] _]. apply Hi. Qed.

Lemma of_bridge_fits b :
  bridge_ok b -> dma_pending (dma (br_handle b)) = true ->
  request_fits (of_bridge (pending_dma (dma (br_handle b)))).
Proof.
  intros Hok Hp. destruct (bridge_request b Hok Hp) as (H1 & H2 & H3 & H4 & H5 & H6 & _).
  unfold request_fits, CORAL_DMA_DATA_BYTES. simpl. split; [done |].
  split; [lia |]. split; [done |]. split; [lia | done].
Qed.

Lemma dma_clear_ok b w :
  bridge_ok b -> bridge_ok {| br_wrapper := w; br_handle := dma_clear (br_handle b) |}.
Proof.
  intros [[Hi Hb] Hc]. split; [| done]. split; [| done]. simpl.
  eapply handle_inv_same_dma; simpl; try done; apply Hi.
Qed.

Lemma bridge_complete_ok b data size error :
  bridge_ok b -> dma_pending (dma (br_handle b)) = true ->
  let r := of_bridge (pending_dma (dma (br_handle b))) in
  (dma_type r = Read -> error = false -> is_Some data /\ size = dma_size r) ->
  exists b', coral_gem5_dma_complete (Some b) data size error = (0, Some b') /\
    bridge_ok b' /\ dma_pending (dma (br_handle b')) = false.
Proof.
  intros Hok Hp r Hr. pose proof (bridge_request b Hok Hp) as Hq.
  unfold coral_gem5_dma_complete. rewrite Hp. cbn [negb].
  pose proof (fun w => dma_clear_ok b w Hok) as Hclr. unfold r, of_bridge in Hr. simpl in Hr.
  destruct Hq as (_ & _ & _ & _ & _ & _ & [Et|[Et _]]); rewrite Et in Hr |- *; simpl in Hr |- *.
  - eexists. split; [done |]. split; [apply Hclr | done].
  - destruct error; [eexists; split; [done |]; split; [apply Hclr | done] |].
    destruct Hr as [[d ->] ->]; [done | done |]. rewrite Z.eqb_refl. simpl.
    eexists. split; [done |]. split; [apply Hclr | done].
Qed.

Lemma completeDma_ok horizon t data size error v :
  t < horizon -> in_order horizon t v -> dmaRequestPending v = true ->
  (dma_type (pendingDmaRequest v) = Read -> error = false ->
     is_Some data /\ size = dma_size (pendingDmaRequest v)) ->
  exists v', completeDma t data size error v = Ret v' /\ in_order horizon t v' /\
    dmaRequestPending v' = false.
Proof.
  intros Ht (H0 & H1 & H2 & H3 & H4 & H5 & b & E & Hok & Hc) Hp Hr.
  destruct (Hc Hp) as [Hd Eq]. unfold completeDma. rewrite Hp, E. cbn [negb fatal_if mbind res_bind].
  destruct (bridge_complete_ok b
    (match dma_type (pendingDmaRequest v) with Read => data | Write => None end)
    (match dma_type (pendingDmaRequest v) with Read => size | Write => 0 end) error
    Hok Hd) as (b' & Ec & Hok' & Hp').
  { intros Et He. rewrite <- Eq in Et |- *. rewrite Et. by apply Hr. }
  destruct (dma_type (pendingDmaRequest v)); rewrite Ec; simpl;
    (eexists; split; [done |]; split; [| done]);
    (do 4 (split; [done |])); simpl;
    (assert (rtlTickPeriod v <= rtlTickPeriod v * rtlCyclesPerEvent v) by nia);
    (split; [destruct (running v); [apply wrap_range; lia | lia] |];
     split; [destruct (running v); [rewrite wrap_small; lia | done] |]);
    exists b'; done.
Qed.

(** ** The event *)

Lemma bridge_step_ok b cycles status h :
  1 <= cycles < 2 ^ 32 -> bridge_ok b ->
  coral_gem5_step highmem expf (Some b) cycles = Ret (status, h) ->
  exists b', h = Some b' /\ bridge_ok b' /\
    if dma_pending (dma (br_handle b)) then status = 2 /\ b' = b
    else status_spec cycles b status b'.
Proof.
  intros Hc Hok. unfold coral_gem5_step. destruct (Z.eqb_spec cycles 0); [lia |].
  destruct (dma_pending (dma (br_handle b))) eqn:Ep; [intros [= <- <-]; eauto |].
  intros H. apply bind_ret_inv in H as ([st b1] & E & H). injection H as <- <-.
  exists b1. split; [done |]. split; [by apply step_loop_ok in E |].
  destruct Hok as [[Hi Hb] Hr].
  apply step_loop_spec in E; [by rewrite Z2Nat.id in E by lia | done | done | intros; lia].
Qed.

(** The cycles a step counted, when its counter did not wrap. *)
Lemma step_executed b b' cycles status :
  1 <= cycles < 2 ^ 32 -> bridge_ok b ->
  (if dma_pending (dma (br_handle b)) then status = 2 /\ b' = b
   else status_spec cycles b status b') ->
  let executed := rtl_cycles (br_handle b') - rtl_cycles (br_handle b) in
  (rtl_cycles (br_handle b) + cycles < 2 ^ 64 -> 0 <= executed) /\
  (0 <= executed -> executed <= cycles) /\ (status = 2 -> dma_pending (dma (br_handle b')) = true) /\
  (status = 0 \/ status = 1 \/ status = 2 \/ status = 3 \/ status = 4).
Proof.
  intros Hc [_ Hr] Hs. unfold is_u64 in Hr.
  destruct (dma_pending _) eqn:Ep; [destruct Hs as [-> ->]; rewrite Ep; simpl; lia |].
  destruct Hs as (k & Hk & Er & Hs). simpl. rewrite Er. split; [| split].
  - intros H. rewrite wrap_small by lia. lia.
  - unfold wrap. destruct (decide (rtl_cycles (br_handle b) + k < 2 ^ 64)).
    + rewrite Z.mod_small by lia. lia.
    + replace (rtl_cycles (br_handle b) + k)
        with (rtl_cycles (br_handle b) + k - 2 ^ 64 + 1 * 2 ^ 64) by lia.
      rewrite Z.mod_add, Z.mod_small by lia. lia.
  - destruct (w_wfi _); intuition lia.
Qed.

Lemma take_request_ok v b :
  copies v b -> dma_pending (dma (br_handle b)) = true ->
  take_request v =
    Ret (with_run (running v) 0 (wfiObserved v)
           (with_counts (resetControl v) (rtlEventCount v) (u64 (rtlDmaRequestCount v + 1))
              (with_request true (of_bridge (pending_dma (dma (br_handle b)))) v))).
Proof.
  intros (E & Hok & _) Hp. unfold take_request, coral_gem5_dma_request_get.
  rewrite E, Hp. destruct (bridge_request b Hok Hp) as (H1 & _ & _ & _ & _ & _ & Ht).
  unfold CORAL_GEM5_DMA_DATA_BYTES in *.
  destruct (Z.eqb_spec (req_size (pending_dma (dma (br_handle b)))) 0); [lia |].
  destruct (Z.ltb_spec 4096 (req_size (pending_dma (dma (br_handle b))))); [lia |].
  unfold of_bridge. by destruct Ht as [->|[-> _]].
Qed.

(** When the event comes back after a step of [executed] cycles. *)
Definition step_delay (v : CoralVerilatedBackend W) (executed : Z) : Z :=
  if executed =? 0 then rtlTickPeriod v else executed * rtlTickPeriod v.

(** What a step with a status other than 4 leads to. *)
Definition event_spec (t : Z) (v : CoralVerilatedBackend W) (status : Z) (b b' : bridge W)
    (v' : CoralVerilatedBackend W) : Prop :=
  copies v' b' /\
  (status = 2 -> dmaRequestPending v' = true /\ pendingEventTick v' = 0 /\
     pendingDmaRequest v' = of_bridge (pending_dma (dma (br_handle b')))) /\
  (status = 1 -> running v' = false /\ pendingEventTick v' = 0) /\
  (status = 0 \/ status = 3 -> running v' = true /\
     pendingEventTick v' =
       t + step_delay v (rtl_cycles (br_handle b') - rtl_cycles (br_handle b))) /\
  (status <> 2 -> dmaRequestPending v' = dmaRequestPending v).

Lemma after_step_ok horizon t v v1 b b' status :
  t < horizon -> in_order horizon t v -> copies v b -> running v = true ->
  bridge_ok b' -> same_pending b b' ->
  (status = 2 -> dma_pending (dma (br_handle b')) = true) ->
  (status = 0 \/ status = 1 \/ status = 2 \/ status = 3) ->
  0 <= rtl_cycles (br_handle b') - rtl_cycles (br_handle b) <= rtlCyclesPerEvent v ->
  v1 = with_model (Some b') (with_counts (resetControl v) (u64 (rtlEventCount v + 1))
         (rtlDmaRequestCount v) v) ->
  exists v', after_step t (u64 (step_delay v (rtl_cycles (br_handle b') -
      rtl_cycles (br_handle b)))) status v1 = Ret v' /\
    in_order horizon t v' /\ event_spec t v status b b' v'.
Proof.
  intros Ht (H0 & H1 & H2 & H3 & H4 & H5 & _) (E & Hok & Hc) Hrun Hok' Hs H2' Hst Hex ->.
  set (ex := rtl_cycles _ - rtl_cycles _) in *.
  assert (1 <= step_delay v ex <= 2 ^ 64 - horizon) as Hd.
  { pose proof (Z.mul_le_mono_nonneg_l 1 (rtlCyclesPerEvent v) (rtlTickPeriod v)).
    pose proof (Z.mul_le_mono_nonneg_r ex (rtlCyclesPerEvent v) (rtlTickPeriod v)).
    pose proof (Z.mul_pos_pos ex (rtlTickPeriod v)).
    unfold step_delay. destruct (Z.eqb_spec ex 0); lia. }
  assert (forall r wfi p, copies (with_run r p wfi (with_model (Some b')
    (with_counts (resetControl v) (u64 (rtlEventCount v + 1)) (rtlDmaRequestCount v) v))) b') as Hcp.
  { intros r wfi p. split; [done |]. split; [done |]. simpl. intros Hp.
    destruct (Hc Hp) as [Hd' Eq]. by rewrite (Hs Hd'). }
  unfold after_step.
  destruct Hst as [->|[->|[->| ->]]]; cbn [Z.eqb Z.ltb Pos.eqb Z.compare].
  1,4: eexists; split; [done |]; rewrite (wrap_small 64 (step_delay v ex)), (wrap_small 64 (t + _)) by lia;
    (split; [do 4 (split; [done |]); simpl; split; [lia |]; split; [lia |]; eexists; apply Hcp
            | split; [apply Hcp |]; simpl; repeat split; done || lia]).
  - eexists. split; [done |]. split; [| split; [apply Hcp |]; simpl; repeat split; done || lia].
    do 4 (split; [done |]). simpl. split; [lia |]. split; [lia |]. eexists. apply Hcp.
  - specialize (H2' eq_refl).
    rewrite (take_request_ok _ b') by (apply Hcp || done).
    eexists. split; [done |]. split.
    + do 4 (split; [done |]). simpl. split; [lia |]. split; [lia |]. by exists b'.
    + split; [done |]. simpl. repeat split; done || lia.
Qed.

Lemma stepModel_inv horizon t v b status v1 :
  in_order horizon t v -> copies v b -> stepModel highmem expf v = Ret (status, v1) ->
  exists b', v1 = with_model (Some b') v /\ bridge_ok b' /\ same_pending b b' /\
    coral_gem5_step highmem expf (Some b) (rtlCyclesPerEvent v) = Ret (status, Some b') /\
    (if dma_pending (dma (br_handle b)) then status = 2 /\ b' = b
     else status_spec (rtlCyclesPerEvent v) b status b').
Proof.
  intros (_ & _ & H2 & _) (E & Hok & _) H. unfold stepModel in H. rewrite E in H.
  apply bind_ret_inv in H as ([s h] & Es & H). injection H as <- <-.
  pose proof Es as Es'. apply bridge_step_ok in Es as (b' & -> & Hok' & Hs); [| done | done].
  exists b'. split; [done |]. split; [done |]. split; [| done].
  intros Hp. rewrite Hp in Hs. by destruct Hs as [_ ->].
Qed.

Lemma overflow_test ex period :
  0 <= ex -> 1 <= period -> ex * period <= MaxTick ->
  negb (ex =? 0) && (MaxTick / ex <? period) = false.
Proof.
  intros. destruct (Z.eqb_spec ex 0); [done |]. simpl. apply Z.ltb_ge.
  apply Z.div_le_lower_bound; lia.
Qed.

(** The event in one equation: the step, the checks, what follows. *)
Lemma processEvent_step horizon t v b b' status :
  t < horizon -> in_order horizon t v -> copies v b -> running v = true ->
  coral_gem5_step highmem expf (Some b) (rtlCyclesPerEvent v) = Ret (status, Some b') ->
  0 <= rtl_cycles (br_handle b') - rtl_cycles (br_handle b) <= rtlCyclesPerEvent v ->
  0 <= status ->
  let v1 := with_model (Some b') (with_counts (resetControl v) (u64 (rtlEventCount v + 1))
              (rtlDmaRequestCount v) v) in
  processEvent highmem expf pieces fuel t v =
    if status =? 4 then report_fault highmem expf pieces fuel v1
    else after_step t (u64 (step_delay v (rtl_cycles (br_handle b') -
           rtl_cycles (br_handle b)))) status v1.
Proof.
  intros Ht (H0 & H1 & H2 & H3 & _) (E & Hok & _) Hrun Es Hex Hst. simpl.
  unfold processEvent. rewrite Hrun. cbn [negb].
  unfold stepModel. cbn [modelHandle with_counts rtlCyclesPerEvent].
  rewrite E, Es. cbn [mbind res_bind modelHandle with_model coral_gem5_cycle_count].
  destruct (Z.ltb_spec (rtl_cycles (br_handle b')) (rtl_cycles (br_handle b))); [lia |].
  pose proof (Z.mul_le_mono_nonneg_r (rtl_cycles (br_handle b') - rtl_cycles (br_handle b))
    (rtlCyclesPerEvent v) (rtlTickPeriod v)).
  cbn [fatal_if mbind res_bind rtlTickPeriod with_model with_counts].
  rewrite overflow_test by (unfold MaxTick; lia).
  cbn [fatal_if mbind res_bind].
  destruct (Z.ltb_spec status 0); [lia |]. cbn [fatal_if mbind res_bind].
  unfold step_delay. destruct (_ - _ =? 0); [| done].
  rewrite (wrap_small 64 (rtlTickPeriod v)); [done |].
  pose proof (Z.mul_le_mono_nonneg_l 1 (rtlCyclesPerEvent v) (rtlTickPeriod v)). lia.
Qed.

(** What a run of the event that returned has done. *)
Lemma processEvent_ok horizon t v v' :
  t < horizon -> in_order horizon t v -> processEvent highmem expf pieces fuel t v = Ret v' ->
  in_order horizon t v' /\
  (dmaRequestPending v = true -> dmaRequestPending v' = true /\
     pendingDmaRequest v' = pendingDmaRequest v).
Proof.
  intros Ht Hin H. pose proof Hin as (H0 & H1 & H2 & H3 & H4 & H5 & b & Hcp).
  destruct (running v) eqn:Hrun; cycle 1.
  { unfold processEvent in H. rewrite Hrun in H. injection H as <-.
    split; [| done]. do 4 (split; [done |]). simpl. split; [lia |]. split; [done |]. by exists b. }
  assert (exists status v1, stepModel highmem expf (with_counts (resetControl v)
    (u64 (rtlEventCount v + 1)) (rtlDmaRequestCount v) v) = Ret (status, v1) /\
    0 <= coral_gem5_cycle_count (modelHandle v1) - coral_gem5_cycle_count (modelHandle v))
    as (status & v1 & Es & Hge).
  { unfold processEvent in H. rewrite Hrun in H. cbn [negb] in H.
    apply bind_ret_inv in H as ([status v1] & Es & H). exists status, v1. split; [done |].
    apply bind_ret_inv in H as (u & Hf & _). unfold fatal_if in Hf. case_test_in Hf; [done |].
    cbn [modelHandle with_counts] in E. bool_prop. lia. }
  apply (stepModel_inv horizon t _ b) in Es as (b' & -> & Hok' & Hs & Es & Hst); [| done | done].
  simpl in Es, Hst. pose proof Hcp as (E & Hok & Hc). rewrite E in Hge. simpl in Hge.
  destruct (step_executed b b' _ _ H2 Hok Hst) as (_ & Hle & Hp2 & Hcases).
  rewrite (processEvent_step horizon t v b b' status) in H by (done || lia).
  destruct (Z.eqb_spec status 4) as [->|Hn4].
  { unfold report_fault in H. apply bind_ret_inv in H as ([[? ?] ?] & _ & H).
    apply bind_ret_inv in H as (_ & _ & H). apply bind_ret_inv in H as ([[? ?] ?] & _ & H).
    apply bind_ret_inv in H as (_ & _ & H). by apply bind_ret_inv in H as ([[? ?] ?] & _ & H). }
  destruct (after_step_ok horizon t v _ b b' status Ht Hin Hcp Hrun Hok' Hs Hp2 ltac:(lia)
    ltac:(lia) eq_refl) as (v2 & Ea & Hin' & (E' & _ & Hc') & Hev2 & _ & _ & Hev).
  rewrite Ea in H. injection H as <-. split; [done |]. intros Hp.
  destruct (Hc Hp) as [Hd Er]. rewrite Hd in Hst. destruct Hst as [-> ->].
  destruct (Hev2 eq_refl) as (Hp' & _ & Er'). split; [done |]. congruence.
Qed.

Section packets.
Context {P : Type} {HP : Packet P} {pkwf : P -> Prop} {HL : PacketLaws P pkwf}.

Lemma write_control_ok horizon t value v :
  t < horizon -> in_order horizon t v -> in_order horizon t (write_control t value v).
Proof.
  intros Ht (H0 & H1 & H2 & H3 & H4 & H5 & b & Hcp). do 4 (split; [done |]). simpl.
  pose proof (Z.mul_le_mono_nonneg_l 1 (rtlCyclesPerEvent v) (rtlTickPeriod v)).
  split; [case_test; [apply wrap_range; lia | lia] |].
  split; [case_test; [rewrite wrap_small; lia | done] |]. by exists b.
Qed.

#[export] Instance verilated_laws horizon :
  BackendLaws P (CoralVerilatedBackend W) (HB := verilated_backend highmem expf pieces fuel)
    pkwf horizon (in_order horizon).
Proof.
  split; unfold keeps_request; simpl.
  - intros t v (_ & _ & _ & _ & _ & H & _) Hp. apply negb_true_iff, Z.eqb_neq in Hp. by apply H.
  - intros t t' v (H0 & H1 & H2 & H3 & H4 & H5 & Hb) Ht Hn. split; [lia |].
    do 4 (split; [done |]). split; [| done]. intros Hne. apply Hn. by apply negb_true_iff, Z.eqb_neq.
  - intros t v p pio h p' v' Ht Hin Hpk H. unfold read in H. case_test_in H; [by injection H as _ _ <- |].
    apply bind_ret_inv in H as ([[s d] v1] & Er & H).
    apply (mmioRead_ok horizon t) in Er as (b & b' & E1 & -> & Hok & Hs); [| done].
    pose proof (in_order_model horizon t v b b' Hin E1 Hok Hs).
    case_test_in H; by injection H as _ _ <-.
  - intros t v p pio h p' v' Ht Hin Hpk H. unfold write in H. case_test_in H; [by injection H as _ _ <- |].
    apply bind_ret_inv in H as ([s v1] & Er & H).
    apply (mmioWrite_ok horizon t) in Er as (b & b' & E1 & -> & Hok & Hs); [| done].
    pose proof (in_order_model horizon t v b b' Hin E1 Hok Hs) as Hin'.
    case_test_in H; [by injection H as _ _ <- |]. injection H as _ _ <-.
    case_test; [| done]. split; [by apply write_control_ok | done].
  - intros t v v' Ht Hin H. apply (processEvent_ok horizon) in H as [Hin' Hk]; [| done | done].
    split; [done |]. intros Hp. destruct (Hk Hp) as [Hp' Er]. split; [done |].
    unfold dmaRequest. by rewrite Hp, Hp', Er.
  - intros t v (_ & _ & _ & _ & _ & _ & b & E & Hok & Hc) Hp. destruct (Hc Hp) as [Hd Er].
    unfold dmaRequest. rewrite Hp, Er. eexists. split; [done |]. by apply of_bridge_fits.
  - intros t v r bs Ht Hin Hp Er. unfold dmaRequest in Er. rewrite Hp in Er.
    injection Er as <-. apply completeDma_ok; eauto.
  - intros t v Ht Hin Hp. apply completeDma_ok; done.
  - intros t v a bs v' Hin Hb H. unfold writeLocalExtmem in H.
    apply bind_ret_inv in H as (_ & _ & H). apply bind_ret_inv in H as ([s v1] & Ew & H).
    apply bind_ret_inv in H as (_ & _ & H). injection H as <-.
    apply (extmemWrite_ok horizon t) in Ew as (b & b' & E1 & -> & Hok & Hs); [| done | done].
    split; [by eapply in_order_model | done].
  - intros t v a n bs (_ & _ & _ & _ & _ & _ & b & E & Hok & _) Hn H.
    unfold readLocalExtmem in H. apply bind_ret_inv in H as (_ & _ & H).
    apply bind_ret_inv in H as ([s bytes] & Er & H). apply bind_ret_inv in H as (u & Hf & H).
    injection H as <-. unfold fatal_if in Hf. case_test_in Hf; [done |].
    unfold coral_gem5_extmem_read in Er. rewrite E in Er.
    case_test_in Er; [| injection Er as <- _; done].
    apply bind_ret_inv in Er as (m & Er & H). injection H as _ <-.
    apply buf_read_inv in Er as (_ & _ & _ & ->). pose proof Hok as [[[L B _ _ _ _ _] _] _].
    split; [by apply buf_slice_bytes |]. rewrite length_buf_slice. lia.
Qed.

End packets.

End backend.

(** At a tick before the horizon (up to which the delays of a batch do not
    overflow), over a core that waits for the answer to its transaction, an
    event of a running back end whose step returns no core fault and whose
    cycle counter does not wrap never stops the simulator, and its outcome is
    exact: a step that left a request hands over that very request and no
    event is due; a halted core stops the back end; otherwise the event comes
    back after the time of the cycles the step counted.  A request that was
    waiting is still the same. *)
Theorem verilated_event {W} {HW : Wrapper W} {HS : SingleIssue W} {HC : BlockingCore W}
    highmem expf pieces fuel horizon t (v : CoralVerilatedBackend W) b b' status :
  t < horizon -> in_order horizon t v -> copies v b -> running v = true ->
  coral_gem5_step highmem expf (Some b) (rtlCyclesPerEvent v) = Ret (status, Some b') ->
  rtl_cycles (br_handle b) + rtlCyclesPerEvent v < 2 ^ 64 -> status <> 4 ->
  exists v', processEvent highmem expf pieces fuel t v = Ret v' /\
    in_order horizon t v' /\ event_spec t v status b b' v' /\
    (dmaRequestPending v = true -> pendingDmaRequest v' = pendingDmaRequest v).
Proof.
  intros Ht Hin Hcp Hrun Es Hw H4. pose proof Hin as (_ & _ & H2 & _).
  pose proof Hcp as (E & Hok & Hc).
  destruct (bridge_step_ok highmem expf b _ status _ H2 Hok Es) as (b1 & [= <-] & Hok' & Hst).
  destruct (step_executed b b' _ _ H2 Hok Hst) as (Hge & Hle & Hp2 & Hcases).
  specialize (Hge Hw). specialize (Hle Hge).
  assert (same_pending b b') as Hs.
  { intros Hp. rewrite Hp in Hst. by destruct Hst as [_ ->]. }
  destruct (after_step_ok horizon t v _ b b' status Ht Hin Hcp Hrun Hok' Hs Hp2 ltac:(lia)
    ltac:(lia) eq_refl) as (v' & Ea & Hin' & Hev).
  assert (processEvent highmem expf pieces fuel t v = Ret v') as Ep.
  { rewrite (processEvent_step highmem expf pieces fuel horizon t v b b' status) by (done || lia).
    destruct (Z.eqb_spec status 4); [done | exact Ea]. }
  exists v'. split; [done |]. split; [done |]. split; [done |]. intros Hp.
  by apply (processEvent_ok highmem expf pieces fuel horizon) in Ep as [_ Hk];
    [destruct (Hk Hp) | |].
Qed.

#[export] Instance one_read_blocking : BlockingCore one_read.
Proof.
  refine {| w_busy := or_started |}; intros [st rs ws]; simpl; destruct st; done.
Defined.

Lemma fresh_bridge_ok : bridge_ok fresh_bridge.
Proof.
  split; [split; [apply handle_inv_init | done] |]. vm_compute. split; [discriminate | reflexivity].
Qed.

(** A back end whose core is about to start its read. *)
Definition started_backend : CoralVerilatedBackend one_read :=
  {| rtlTickPeriod := 1000; rtlCyclesPerEvent := 5; modelHandle := Some fresh_bridge;
     localExtmemEnabled := false; running := true; pendingEventTick := 7; resetControl := 0;
     firmwareEntry := 0; dmaRequestPending := false; wfiObserved := false; rtlEventCount := 0;
     rtlDmaRequestCount := 0; pendingDmaRequest := no_request |}.

Lemma started_in_order : in_order 1000000 7 started_backend.
Proof.
  do 6 (split; [simpl; lia |]). exists fresh_bridge.
  split; [done |]. split; [exact fresh_bridge_ok | done].
Qed.

Lemma verilated_event_witness :
  exists v', processEvent true no_exp 1 1 7 started_backend = Ret v' /\
    dmaRequestPending v' = true /\ dma_addr (pendingDmaRequest v') = 536870920.
Proof.
  destruct (verilated_event true no_exp 1 1 1000000 7 started_backend fresh_bridge
    waiting_bridge 2) as (v' & E & _ & (_ & H2 & _) & _).
  - lia.
  - exact started_in_order.
  - split; [done |]. split; [exact fresh_bridge_ok | done].
  - reflexivity.
  - reflexivity.
  - vm_compute. reflexivity.
  - lia.
  - destruct (H2 eq_refl) as (Hp & _ & Er). exists v'. split; [exact E |]. split; [exact Hp |].
    rewrite Er. reflexivity.
Defined.
