(* ===== verification/NpuDevice.v ===== *)
(** * The NPU device

    [NPUDevice] of [npu_device.cc] over any back end and any simulator: the
    register aperture, the event that runs the back end, the DMA hand-over in
    timing and in functional mode, the page cache of functional DMA, the
    synchronisation of the local external memory and draining.  Debug output
    is left out, and so is the callback object a functional DMA allocates and
    never uses. *)

From Stdlib Require Import SpecFloat String.
From S2P Require Import Prelude Bridge Drain Gem5 StageA Verilated.

Definition kBackendIdOffset : Z := 0x30ffc.
Definition kFirmwareEntryOffset : Z := 0x30ff8.
Definition kSharedSizeOffset : Z := 0x30ff4.
Definition kSharedBaseOffset : Z := 0x30ff0.
Definition kDmaStateOffset : Z := 0x30fec.
Definition kDmaCompletionsOffset : Z := 0x30fe8.
Definition kDmaRequestsOffset : Z := 0x30fe4.
Definition kDmaErrorsOffset : Z := 0x30fe0.
Definition kResetControlOffset : Z := 0x30000.
Definition kStageABackendId : Z := 0x4e505501.
Definition kVerilatedCoralBackendId : Z := 0x4e505502.
Definition kFastDmaPageSize : Z := 4096.

(** The members no operation changes. *)
Record npu_config := {
  pioAddr : Z; pioSize : Z; pioDelay : Z; dmaExtmemBase : Z; dmaSharedBase : Z;
  dmaSharedSize : Z; fastDma : bool; fastDmaEventBatch : Z; fastDmaSyncOffset : Z;
  fastDmaSyncSize : Z; backendId : Z; firmwareEntry : Z }.

(** The device and the simulator around it. *)
Record NPUDevice (B G : Type) := {
  cfg : npu_config; dmaActive : bool; dmaRequests : Z; dmaCompletions : Z; dmaErrors : Z;
  fastDmaCache : buf; fastDmaPageValid : list bool; fastDmaPageDirty : list bool;
  backend : B; gem5 : G }.
Arguments cfg {B G} _.
Arguments dmaActive {B G} _.
Arguments dmaRequests {B G} _.
Arguments dmaCompletions {B G} _.
Arguments dmaErrors {B G} _.
Arguments fastDmaCache {B G} _.
Arguments fastDmaPageValid {B G} _.
Arguments fastDmaPageDirty {B G} _.
Arguments backend {B G} _.
Arguments gem5 {B G} _.

Section device.
Context {P B G : Type} {HP : Packet P} {HB : CoralBackend P B} {HG : Gem5 G}.

Abbreviation device := (NPUDevice B G).

Definition with_backend (b : B) (d : device) : device :=
  {| cfg := cfg d; dmaActive := dmaActive d; dmaRequests := dmaRequests d;
     dmaCompletions := dmaCompletions d; dmaErrors := dmaErrors d;
     fastDmaCache := fastDmaCache d; fastDmaPageValid := fastDmaPageValid d;
     fastDmaPageDirty := fastDmaPageDirty d; backend := b; gem5 := gem5 d |}.

Definition with_gem5 (g : G) (d : device) : device :=
  {| cfg := cfg d; dmaActive := dmaActive d; dmaRequests := dmaRequests d;
     dmaCompletions := dmaCompletions d; dmaErrors := dmaErrors d;
     fastDmaCache := fastDmaCache d; fastDmaPageValid := fastDmaPageValid d;
     fastDmaPageDirty := fastDmaPageDirty d; backend := backend d; gem5 := g |}.

Definition with_dma (active : bool) (requests completions errors : Z) (d : device) : device :=
  {| cfg := cfg d; dmaActive := active; dmaRequests := requests;
     dmaCompletions := completions; dmaErrors := errors;
     fastDmaCache := fastDmaCache d; fastDmaPageValid := fastDmaPageValid d;
     fastDmaPageDirty := fastDmaPageDirty d; backend := backend d; gem5 := gem5 d |}.

Definition with_cache (cache : buf) (valid dirty : list bool) (d : device) : device :=
  {| cfg := cfg d; dmaActive := dmaActive d; dmaRequests := dmaRequests d;
     dmaCompletions := dmaCompletions d; dmaErrors := dmaErrors d;
     fastDmaCache := cache; fastDmaPageValid := valid;
     fastDmaPageDirty := dirty; backend := backend d; gem5 := gem5 d |}.

Definition tick_of (d : device) : Z := curTick (gem5 d).

(** ** Draining and checkpoints *)

Definition dmaQuiesced (d : device) : bool :=
  negb (dmaActive d) && negb (hasDmaRequest (backend d)) && negb (hasPendingEvent (backend d)).

Definition checkDrainDone (d : device) : device :=
  if bool_decide (drainState (gem5 d) = Draining) && dmaQuiesced d
  then with_gem5 (signalDrainDone (gem5 d)) d else d.

Definition drain (d : device) : DrainState := if dmaQuiesced d then Drained else Draining.

(** The counters a checkpoint holds; the state of the base class is not the
    device's. *)
Definition serialize (d : device) : res (Z * Z * Z) :=
  _ ← fatal_if (negb (dmaQuiesced d));
  Ret (dmaRequests d, dmaCompletions d, dmaErrors d).

(** Each counter is read only if the checkpoint has it. *)
Definition unserialize (cp : option Z * option Z * option Z) (d : device) : device :=
  let '(requests, completions, errors) := cp in
  with_dma (dmaActive d) (default (dmaRequests d) requests)
    (default (dmaCompletions d) completions) (default (dmaErrors d) errors) d.

(** ** The event *)

Definition syncBackendEvent (d : device) : res device :=
  let g := gem5 d in
  if hasPendingEvent (backend d) then
    let when := nextEventTick (backend d) in
    if negb (scheduled g) || negb (event_when g =? when) then
      g1 ← (if scheduled g then deschedule g else Ret g);
      g2 ← schedule when g1;
      Ret (with_gem5 g2 d)
    else Ret d
  else if scheduled g then g1 ← deschedule g; Ret (with_gem5 g1 d)
  else Ret d.

(** ** Functional memory accesses *)

Definition functionalMemoryAccess (command : MemCmd) (addr : Z) (data : list Z) (g : G) :
    res (list Z * G) :=
  let '(error, data', g') := sendFunctional command addr data g in
  _ ← fatal_if error;
  Ret (data', g').

(** [while (completed < size)]: [rest] is the part of the buffer behind
    [completed]; every turn completes at least one byte, so its length is
    fuel enough. *)
Fixpoint range_loop (fuel : nat) (command : MemCmd) (blockSize current : Z) (rest : list Z)
    (g : G) : res (list Z * G) :=
  match rest, fuel with
  | [], _ => Ret ([], g)
  | _, O => Hang
  | _, S fuel =>
      let boundary := blockSize - current mod blockSize in
      let chunk := Z.min boundary (Z.of_nat (List.length rest)) in
      '(data, g1) ← functionalMemoryAccess command current (take (Z.to_nat chunk) rest) g;
      '(more, g2) ← range_loop fuel command blockSize (u64 (current + chunk))
                      (drop (Z.to_nat chunk) rest) g1;
      Ret (data ++ more, g2)
  end.

Definition functionalMemoryRange (command : MemCmd) (addr : Z) (data : list Z) (g : G) :
    res (list Z * G) :=
  let blockSize := cacheBlockSize g in
  _ ← fatal_if (blockSize =? 0);
  range_loop (List.length data) command blockSize addr data g.

(** ** The page cache of functional DMA *)

(** The bytes of a page, the last one may be short. *)
Definition page_bytes (d : device) (pageOffset : Z) : Z :=
  Z.min kFastDmaPageSize (buf_len (fastDmaCache d) - pageOffset).

(** [vector<bool>] accesses, undefined outside. *)
Definition flag_at (flags : list bool) (page : Z) : res bool :=
  match flags !! Z.to_nat page with Some f => Ret f | None => Undef end.
Definition flag_set (flags : list bool) (page : Z) (f : bool) : list bool :=
  <[Z.to_nat page := f]> flags.

Definition fill_page (page : Z) (d : device) : res device :=
  let pageOffset := page * kFastDmaPageSize in
  old ← buf_read (fastDmaCache d) pageOffset (page_bytes d pageOffset);
  '(data, g) ← functionalMemoryRange ReadReq (u64 (dmaSharedBase (cfg d) + pageOffset)) old
                 (gem5 d);
  cache ← buf_write (fastDmaCache d) pageOffset data;
  Ret (with_gem5 g (with_cache cache (flag_set (fastDmaPageValid d) page true)
                      (fastDmaPageDirty d) d)).

(** The data array afterwards and the device. *)
Definition fastDmaAccess (request : CoralDmaRequest) (hostAddr : Z) (data : list Z)
    (d : device) : res (list Z * device) :=
  let offset := u64 (hostAddr - dmaSharedBase (cfg d)) in
  let page := offset / kFastDmaPageSize in
  let inPage := offset mod kFastDmaPageSize in
  _ ← fatal_if ((Z.of_nat (List.length (fastDmaPageValid d)) <=? page)
                || (kFastDmaPageSize - inPage <? dma_size request));
  valid ← flag_at (fastDmaPageValid d) page;
  d1 ← (if (valid : bool) then Ret d else fill_page page d);
  _ ← undef_unless (dma_size request <=? Z.of_nat (List.length data));
  match dma_type request with
  | Read =>
      bytes ← buf_read (fastDmaCache d1) offset (dma_size request);
      Ret (bytes ++ drop (Z.to_nat (dma_size request)) data, d1)
  | Write =>
      cache ← buf_write (fastDmaCache d1) offset (take (Z.to_nat (dma_size request)) data);
      _ ← flag_at (fastDmaPageDirty d1) page;
      Ret (data, with_cache cache (fastDmaPageValid d1)
                   (flag_set (fastDmaPageDirty d1) page true) d1)
  end.

Definition flush_page (page : Z) (d : device) : res device :=
  dirty ← flag_at (fastDmaPageDirty d) page;
  if negb dirty then Ret d
  else
    let offset := page * kFastDmaPageSize in
    bytes ← buf_read (fastDmaCache d) offset (page_bytes d offset);
    '(data, g) ← functionalMemoryRange WriteReq (u64 (dmaSharedBase (cfg d) + offset)) bytes
                   (gem5 d);
    cache ← buf_write (fastDmaCache d) offset data;
    Ret (with_gem5 g (with_cache cache (fastDmaPageValid d)
                        (flag_set (fastDmaPageDirty d) page false) d)).

Definition flushFastDmaCache (d : device) : res device :=
  forZ (Z.of_nat (List.length (fastDmaPageDirty d))) flush_page d.

Definition invalidateFastDmaCache (d : device) : device :=
  with_cache (fastDmaCache d) (replicate (List.length (fastDmaPageValid d)) false)
    (replicate (List.length (fastDmaPageDirty d)) false) d.

(** ** The local external memory *)

Definition count_sync (d : device) : device :=
  with_dma (dmaActive d) (u32 (dmaRequests d + 1)) (u32 (dmaCompletions d + 1))
    (dmaErrors d) d.

Definition syncHostToLocalExtmem (d : device) : res device :=
  if negb (hasLocalExtmem (backend d)) then Ret d
  else
    let c := cfg d in
    '(data, g) ← functionalMemoryRange ReadReq (u64 (dmaSharedBase c + fastDmaSyncOffset c))
                   (replicate (Z.to_nat (fastDmaSyncSize c)) 0) (gem5 d);
    b ← writeLocalExtmem (u64 (dmaExtmemBase c + fastDmaSyncOffset c)) data (backend d);
    Ret (count_sync (with_backend b (with_gem5 g d))).

Definition syncLocalExtmemToHost (d : device) : res device :=
  let c := cfg d in
  data ← readLocalExtmem (u64 (dmaExtmemBase c + fastDmaSyncOffset c)) (fastDmaSyncSize c)
           (backend d);
  '(_, g) ← functionalMemoryRange WriteReq (u64 (dmaSharedBase c + fastDmaSyncOffset c)) data
              (gem5 d);
  Ret (count_sync (with_gem5 g d)).

(** ** DMA *)

Definition completeBackendDma (data : list Z) (d : device) : res device :=
  _ ← fatal_if (negb (dmaActive d));
  request ← dmaRequest (backend d);
  b ← completeDma (tick_of d) (Some data) (dma_size request) false (backend d);
  let d1 := with_backend b (with_dma false (dmaRequests d) (u32 (dmaCompletions d + 1))
                              (dmaErrors d) d) in
  _ ← fatal_if (hasDmaRequest b);
  d2 ← syncBackendEvent d1;
  Ret (checkDrainDone d2).

Definition completeBackendDmaError (d : device) : res device :=
  _ ← fatal_if (dmaActive d);
  _ ← fatal_if (negb (hasDmaRequest (backend d)));
  b ← completeDma (tick_of d) None 0 true (backend d);
  let d1 := with_backend b (with_dma (dmaActive d) (dmaRequests d) (dmaCompletions d)
                              (u32 (dmaErrors d + 1)) d) in
  _ ← fatal_if (hasDmaRequest b);
  d2 ← syncBackendEvent d1;
  Ret (checkDrainDone d2).

(** The request lies outside the EXTMEM window. *)
Definition dma_rejected (c : npu_config) (request : CoralDmaRequest) : bool :=
  (dma_addr request <? dmaExtmemBase c)
  || (dmaSharedSize c <=? u64 (dma_addr request - dmaExtmemBase c))
  || (u64 (dmaSharedSize c - u64 (dma_addr request - dmaExtmemBase c)) <? dma_size request).

Definition startBackendDma (d : device) : res device :=
  if dmaActive d || negb (hasDmaRequest (backend d)) then Ret d
  else
    request ← dmaRequest (backend d);
    if dma_rejected (cfg d) request then completeBackendDmaError d
    else
      let c := cfg d in
      let hostAddr := u64 (dmaSharedBase c + u64 (dma_addr request - dmaExtmemBase c)) in
      let d1 := with_dma true (u32 (dmaRequests d + 1)) (dmaCompletions d) (dmaErrors d) d in
      if fastDma c then
        '(data, d2) ← fastDmaAccess request hostAddr (dma_data request) d1;
        completeBackendDma data d2
      else
        match dma_type request with
        | Read => Ret (with_gem5 (dmaReadVirt hostAddr (dma_size request) (dma_data request)
                                    (gem5 d1)) d1)
        | Write => Ret (with_gem5 (dmaWriteVirt hostAddr (dma_size request) (dma_data request)
                                     (gem5 d1)) d1)
        end.

(** The loop of [processBackendEvent]. *)
Fixpoint event_batches (n : nat) (d : device) : res device :=
  match n with
  | O => Ret d
  | S n =>
      b ← processEvent (tick_of d) (backend d);
      d1 ← startBackendDma (with_backend b d);
      if negb (fastDma (cfg d1)) || dmaActive d1 || negb (hasPendingEvent (backend d1))
      then Ret d1
      else
        g ← (if scheduled (gem5 d1) then deschedule (gem5 d1) else Ret (gem5 d1));
        event_batches n (with_gem5 g d1)
  end.

Definition processBackendEvent (d : device) : res device :=
  let batchBudget := if fastDma (cfg d) then fastDmaEventBatch (cfg d) else 1 in
  d1 ← event_batches (Z.to_nat batchBudget) d;
  let idle := negb (hasPendingEvent (backend d1)) && negb (hasDmaRequest (backend d1)) in
  d2 ← (if fastDma (cfg d1) && hasLocalExtmem (backend d1) && idle
        then syncLocalExtmemToHost d1
        else if fastDma (cfg d1) && idle then flushFastDmaCache d1 else Ret d1);
  d3 ← syncBackendEvent d2;
  Ret (checkDrainDone d3).

(** ** The aperture *)

(** The registers of the device itself. *)
Definition shell_register (d : device) (offset : Z) : option Z :=
  if offset =? kDmaRequestsOffset then Some (dmaRequests d)
  else if offset =? kDmaCompletionsOffset then Some (dmaCompletions d)
  else if offset =? kDmaStateOffset then
    Some (Z.lor (if hasDmaRequest (backend d) then 1 else 0) (if dmaActive d then 2 else 0))
  else if offset =? kDmaErrorsOffset then Some (dmaErrors d)
  else if offset =? kSharedBaseOffset then Some (u32 (dmaSharedBase (cfg d)))
  else if offset =? kSharedSizeOffset then Some (u32 (dmaSharedSize (cfg d)))
  else if offset =? kFirmwareEntryOffset then Some (firmwareEntry (cfg d))
  else if offset =? kBackendIdOffset then Some (backendId (cfg d))
  else None.

(** The latency, the packet and the device. *)
Definition read (pkt : P) (d : device) : res (Z * P * device) :=
  let offset := u64 (getAddr pkt - pioAddr (cfg d)) in
  '(pkt1, d1) ←
    match shell_register d offset with
    | Some value =>
        if getSize pkt =? 4 then Ret (makeAtomicResponse (setLE value pkt), d)
        else '(handled, p, b) ← be_read pkt (pioAddr (cfg d)) (backend d);
             Ret (if (handled : bool) then p else setBadAddress (makeAtomicResponse p), with_backend b d)
    | None =>
        '(handled, p, b) ← be_read pkt (pioAddr (cfg d)) (backend d);
        Ret (if (handled : bool) then p else setBadAddress (makeAtomicResponse p), with_backend b d)
    end;
  d2 ← syncBackendEvent d1;
  Ret (pioDelay (cfg d), pkt1, d2).

Definition write (pkt : P) (d : device) : res (Z * P * device) :=
  let offset := u64 (getAddr pkt - pioAddr (cfg d)) in
  d1 ← (if fastDma (cfg d) && hasLocalExtmem (backend d) && (offset =? kResetControlOffset)
           && (getSize pkt =? 4) && (Z.land (getLE pkt) 3 =? 0)
        then syncHostToLocalExtmem d else Ret d);
  '(handled, p, b) ← be_write (tick_of d1) pkt (pioAddr (cfg d1)) (backend d1);
  let d2 := with_backend b d1 in
  let pkt1 := if (handled : bool) then p else setBadAddress (makeAtomicResponse p) in
  let d3 := if fastDma (cfg d2) && (offset =? kResetControlOffset) && (getSize pkt1 =? 4)
               && negb (Z.land (getLE pkt1) 1 =? 0)
            then invalidateFastDmaCache d2 else d2 in
  d4 ← syncBackendEvent d3;
  Ret (pioDelay (cfg d), pkt1, d4).

(** The aperture the device answers for. *)
Definition getAddrRanges (d : device) : list (Z * Z) :=
  [(pioAddr (cfg d), pioAddr (cfg d) + pioSize (cfg d))].

Definition translate (vaddr : Z) (d : device) : Z := be_translate vaddr (backend d).

(** The constructor after its own checks, with the back end it has made. *)
Definition make_device (c : npu_config) (b : B) (g : G) : res device :=
  let pages := if fastDma c
    then Z.to_nat ((u64 (dmaSharedSize c + kFastDmaPageSize - 1)) / kFastDmaPageSize) else O in
  syncBackendEvent
    {| cfg := c; dmaActive := false; dmaRequests := 0; dmaCompletions := 0; dmaErrors := 0;
       fastDmaCache := buf_new (if fastDma c then dmaSharedSize c else 0);
       fastDmaPageValid := replicate pages false; fastDmaPageDirty := replicate pages false;
       backend := b; gem5 := g |}.

End device.

(** ** The constructor *)

(** [std::unique_ptr<CoralBackend>]: one of the two back ends. *)
Inductive coral_backend (W : Type) :=
| StageABackend (b : StageA.CoralStageABackend)
| VerilatedBackend (v : Verilated.CoralVerilatedBackend W).
Arguments StageABackend {W} b.
Arguments VerilatedBackend {W} v.

Section constructor.
Context {W P G : Type} {HW : Wrapper W} {HP : Packet P} {HG : Gem5 G}.
Context (highmem : bool) (expf : spec_float -> spec_float) (pieces fuel : nat).

#[local] Instance stagea_ops : CoralBackend P StageA.CoralStageABackend := StageA.backend.
#[local] Instance verilated_ops : CoralBackend P (Verilated.CoralVerilatedBackend W) :=
  Verilated.verilated_backend highmem expf pieces fuel.

Definition lift_a {A} (m : res (A * StageA.CoralStageABackend)) : res (A * coral_backend W) :=
  '(a, b) ← m; Ret (a, StageABackend b).
Definition lift_v {A} (m : res (A * Verilated.CoralVerilatedBackend W)) :
    res (A * coral_backend W) :=
  '(a, v) ← m; Ret (a, VerilatedBackend v).

(** A virtual call. *)
#[export] Instance any_backend : CoralBackend P (coral_backend W) := {|
  be_read pkt pio be := match be with
    | StageABackend b => lift_a (be_read pkt pio b)
    | VerilatedBackend v => lift_v (be_read pkt pio v) end;
  be_write tick pkt pio be := match be with
    | StageABackend b => lift_a (be_write tick pkt pio b)
    | VerilatedBackend v => lift_v (be_write tick pkt pio v) end;
  be_translate a be := match be with
    | StageABackend b => be_translate a b
    | VerilatedBackend v => be_translate a v end;
  hasPendingEvent be := match be with
    | StageABackend b => hasPendingEvent b
    | VerilatedBackend v => hasPendingEvent v end;
  nextEventTick be := match be with
    | StageABackend b => nextEventTick b
    | VerilatedBackend v => nextEventTick v end;
  processEvent tick be := match be with
    | StageABackend b => b1 ← processEvent tick b; Ret (StageABackend b1)
    | VerilatedBackend v => v1 ← processEvent tick v; Ret (VerilatedBackend v1) end;
  hasDmaRequest be := match be with
    | StageABackend b => hasDmaRequest b
    | VerilatedBackend v => hasDmaRequest v end;
  dmaRequest be := match be with
    | StageABackend b => dmaRequest b
    | VerilatedBackend v => dmaRequest v end;
  completeDma tick data size error be := match be with
    | StageABackend b => b1 ← completeDma tick data size error b; Ret (StageABackend b1)
    | VerilatedBackend v => v1 ← completeDma tick data size error v; Ret (VerilatedBackend v1)
    end;
  hasLocalExtmem be := match be with
    | StageABackend b => hasLocalExtmem b
    | VerilatedBackend v => hasLocalExtmem v end;
  readLocalExtmem a n be := match be with
    | StageABackend b => readLocalExtmem a n b
    | VerilatedBackend v => readLocalExtmem a n v end;
  writeLocalExtmem a bs be := match be with
    | StageABackend b => b1 ← writeLocalExtmem a bs b; Ret (StageABackend b1)
    | VerilatedBackend v => v1 ← writeLocalExtmem a bs v; Ret (VerilatedBackend v1) end |}.

(** The parameters of [NPUDevice.py], and what the file system and the
    dynamic linker hold for the paths among them. *)
Record NPUDeviceParams := {
  p_pioAddr : Z; p_pioSize : Z; p_pioDelay : Z; p_itcmSize : Z; p_dtcmSize : Z;
  p_executionLatency : Z; p_autoHalt : bool; p_backendType : string;
  p_rtlTickPeriod : Z; p_rtlCyclesPerEvent : Z; p_operatorMode : string;
  p_dmaExtmemBase : Z; p_dmaSharedBase : Z; p_dmaSharedSize : Z; p_fastDma : bool;
  p_fastDmaEventBatch : Z; p_fastDmaSyncOffset : Z; p_fastDmaSyncSize : Z;
  p_library : Verilated.library (W := W); p_firmwareEmpty : bool; p_firmware : option buf }.

Definition config_of (p : NPUDeviceParams) (id entry : Z) : npu_config :=
  {| pioAddr := p_pioAddr p; pioSize := p_pioSize p; pioDelay := p_pioDelay p;
     dmaExtmemBase := p_dmaExtmemBase p; dmaSharedBase := p_dmaSharedBase p;
     dmaSharedSize := p_dmaSharedSize p; fastDma := p_fastDma p;
     fastDmaEventBatch := p_fastDmaEventBatch p; fastDmaSyncOffset := p_fastDmaSyncOffset p;
     fastDmaSyncSize := p_fastDmaSyncSize p; backendId := id; firmwareEntry := entry |}.

Definition NPUDevice_make (p : NPUDeviceParams) (g : G) : res (NPUDevice (coral_backend W) G) :=
  let verilated := String.eqb (p_backendType p) "verilated-coral" in
  _ ← fatal_if (p_dmaSharedSize p =? 0);
  _ ← fatal_if (p_fastDma p && (p_fastDmaEventBatch p =? 0));
  _ ← fatal_if (verilated && p_fastDma p
                && ((p_dmaSharedSize p <? p_fastDmaSyncOffset p)
                    || (u64 (p_dmaSharedSize p - p_fastDmaSyncOffset p)
                        <? p_fastDmaSyncSize p)));
  _ ← fatal_if (UINT32_MAX <? p_dmaSharedBase p);
  if String.eqb (p_backendType p) "stage-a" then
    b ← StageA.make (p_pioAddr p) (p_pioSize p) (p_itcmSize p) (p_dtcmSize p)
          (p_executionLatency p) (p_autoHalt p);
    make_device (config_of p kStageABackendId 0) (StageABackend b) g
  else if verilated then
    v ← Verilated.make highmem expf pieces fuel (p_library p) (p_firmwareEmpty p)
          (p_firmware p) (p_rtlTickPeriod p) (p_rtlCyclesPerEvent p) (p_fastDma p)
          (p_operatorMode p);
    make_device (config_of p kVerilatedCoralBackendId (Verilated.firmwareEntry v))
      (VerilatedBackend v) g
  else Fatal.

End constructor.
