(* ===== verification/NpuSpec.v ===== *)
(** * What the NPU device guarantees

    Over any back end that keeps the contract [BackendLaws] and any simulator
    that behaves as documented: the event of the device is always the one the
    back end asks for, the hand-over of DMA requests never stops the
    simulator, and the page cache of functional DMA is a flat memory. *)

From S2P Require Import Prelude Drain Gem5 StageA NpuDevice.

(** ** Functional accesses to a range *)

Section ranges.
Context {G : Type} {HG : Gem5 G} {host : G -> Z -> Z} {HH : Gem5Laws G host}.

(** Nothing but the memory has changed. *)
Definition same_events (g g' : G) : Prop :=
  scheduled g' = scheduled g /\ event_when g' = event_when g /\
  drainState g' = drainState g /\ cacheBlockSize g' = cacheBlockSize g /\
  curTick g' = curTick g.

(** The memory with [bs] at [a]. *)
Definition overlay (m : Z -> Z) (a : Z) (bs : list Z) (i : Z) : Z :=
  if decide (a <= i < a + Z.of_nat (length bs)) then bs !!! Z.to_nat (i - a) else m i.

Lemma same_events_trans g1 g2 g3 : same_events g1 g2 -> same_events g2 g3 -> same_events g1 g3.
Proof. unfold same_events. intros (-> & -> & -> & -> & ->). done. Qed.

Lemma overlay_app m a bs cs i :
  overlay (overlay m a bs) (a + Z.of_nat (length bs)) cs i = overlay m a (bs ++ cs) i.
Proof.
  unfold overlay. rewrite length_app. repeat case_decide; try lia; try done.
  - rewrite lookup_total_app_r by lia. f_equal. lia.
  - rewrite lookup_total_app_l by lia. done.
Qed.

Lemma overlay_ext m m' a bs i : (m i = m' i) -> overlay m a bs i = overlay m' a bs i.
Proof. unfold overlay. by case_decide. Qed.

(** The piece of a range up to the end of its block lies in that block. *)
Lemma chunk_block bsz a n :
  0 < bsz -> 1 <= n <= bsz - a mod bsz -> a / bsz = (a + n - 1) / bsz.
Proof.
  intros Hb Hn. pose proof (Z.div_mod a bsz ltac:(lia)).
  pose proof (Z.mod_pos_bound a bsz Hb).
  apply Z.div_unique with (r := a mod bsz + n - 1); lia.
Qed.

Lemma range_loop_read fuel bsz cur rest g :
  cacheBlockSize g = bsz -> 0 <= cur -> cur + Z.of_nat (length rest) < 2 ^ 64 ->
  (length rest <= fuel)%nat ->
  exists g', range_loop fuel ReadReq bsz cur rest g =
      Ret (host g <$> seqZ cur (Z.of_nat (length rest)), g') /\
    same_events g g' /\ forall i, host g' i = host g i.
Proof.
  revert cur rest g. induction fuel as [|fuel IH]; intros cur rest g Eb Hc Hl Hf;
    destruct rest as [|x rest]; try (simpl in Hf; lia).
  1,2: exists g; done.
  pose proof (g_block g) as Hb. rewrite Eb in Hb. cbn [range_loop].
  set (l := x :: rest) in *. set (chunk := Z.min _ _).
  pose proof (Z.mod_pos_bound cur bsz Hb).
  assert (1 <= Z.of_nat (length l)) by (unfold l; simpl; lia).
  assert (1 <= chunk <= bsz - cur mod bsz /\ chunk <= Z.of_nat (length l)) as [Hk Hk']
    by (unfold chunk; lia).
  assert (length (take (Z.to_nat chunk) l) = Z.to_nat chunk) as Et
    by (rewrite length_take; lia).
  destruct (g_read cur (take (Z.to_nat chunk) l) g) as (g1 & Er & E1 & E2 & E3 & E4 & E5 & E6).
  { rewrite Et, Eb, Z2Nat.id by lia. by apply chunk_block. }
  unfold functionalMemoryAccess. rewrite Er. cbn [fatal_if mbind res_bind].
  rewrite wrap_small by lia.
  destruct (IH (cur + chunk) (drop (Z.to_nat chunk) l) g1) as (g' & Eg & Hs & Hm).
  { by rewrite E5. } { lia. } { rewrite length_drop. lia. } { rewrite length_drop. lia. }
  rewrite Eg. cbn [mbind res_bind]. exists g'. split; [| split].
  - f_equal. f_equal. rewrite Et, length_drop.
    replace (Z.of_nat (length l)) with (Z.of_nat (Z.to_nat chunk) +
      Z.of_nat (length l - Z.to_nat chunk)) by lia.
    rewrite seqZ_app, fmap_app by lia. rewrite Z2Nat.id by lia. f_equal.
    apply list_fmap_ext. intros. apply E4.
  - eapply same_events_trans; [| done]. done.
  - intros i. by rewrite Hm, E4.
Qed.

Lemma range_loop_write fuel bsz cur rest g :
  cacheBlockSize g = bsz -> 0 <= cur -> cur + Z.of_nat (length rest) < 2 ^ 64 ->
  (length rest <= fuel)%nat -> Forall is_byte rest ->
  exists g', range_loop fuel WriteReq bsz cur rest g = Ret (rest, g') /\
    same_events g g' /\ forall i, host g' i = overlay (host g) cur rest i.
Proof.
  revert cur rest g. induction fuel as [|fuel IH]; intros cur rest g Eb Hc Hl Hf Hby;
    destruct rest as [|x rest]; try (simpl in Hf; lia).
  1,2: exists g; split; [done |]; split; [done |]; intros i; unfold overlay; simpl;
    case_decide; [lia | done].
  pose proof (g_block g) as Hb. rewrite Eb in Hb. cbn [range_loop].
  set (l := x :: rest) in *. set (chunk := Z.min _ _).
  pose proof (Z.mod_pos_bound cur bsz Hb).
  assert (1 <= Z.of_nat (length l)) by (unfold l; simpl; lia).
  assert (1 <= chunk <= bsz - cur mod bsz /\ chunk <= Z.of_nat (length l)) as [Hk Hk']
    by (unfold chunk; lia).
  assert (length (take (Z.to_nat chunk) l) = Z.to_nat chunk) as Et
    by (rewrite length_take; lia).
  destruct (g_write cur (take (Z.to_nat chunk) l) g) as (g1 & Er & E4 & E5 & E6 & E1 & E2 & E3).
  { rewrite Et, Eb, Z2Nat.id by lia. by apply chunk_block. }
  { by apply Forall_take. }
  unfold functionalMemoryAccess. rewrite Er. cbn [fatal_if mbind res_bind].
  rewrite wrap_small by lia.
  destruct (IH (cur + chunk) (drop (Z.to_nat chunk) l) g1) as (g' & Eg & Hs & Hm).
  { by rewrite E5. } { lia. } { rewrite length_drop. lia. } { rewrite length_drop. lia. }
  { by apply Forall_drop. }
  rewrite Eg. cbn [mbind res_bind]. exists g'. split; [by rewrite take_drop |]. split.
  - eapply same_events_trans; [| done]. done.
  - intros i. rewrite Hm.
    rewrite (overlay_ext _ (overlay (host g) cur (take (Z.to_nat chunk) l))) by apply E4.
    replace (cur + chunk) with (cur + Z.of_nat (length (take (Z.to_nat chunk) l))) by lia.
    by rewrite overlay_app, take_drop.
Qed.

(** A range read block by block is the range. *)
Lemma range_read addr data g :
  0 <= addr -> addr + Z.of_nat (length data) < 2 ^ 64 ->
  exists g', functionalMemoryRange ReadReq addr data g =
      Ret (host g <$> seqZ addr (Z.of_nat (length data)), g') /\
    same_events g g' /\ forall i, host g' i = host g i.
Proof.
  intros. unfold functionalMemoryRange. pose proof (g_block g).
  destruct (Z.eqb_spec (cacheBlockSize g) 0); [lia |]. by apply range_loop_read.
Qed.

Lemma range_write addr data g :
  0 <= addr -> addr + Z.of_nat (length data) < 2 ^ 64 -> Forall is_byte data ->
  exists g', functionalMemoryRange WriteReq addr data g = Ret (data, g') /\
    same_events g g' /\ forall i, host g' i = overlay (host g) addr data i.
Proof.
  intros. unfold functionalMemoryRange. pose proof (g_block g).
  destruct (Z.eqb_spec (cacheBlockSize g) 0); [lia |]. by apply range_loop_write.
Qed.

End ranges.

(** ** The page cache *)

Section cache.
Context {B G : Type} {HG : Gem5 G} {host : G -> Z -> Z} {HH : Gem5Laws G host}.

Abbreviation device := (NPUDevice B G).

Definition page_count (d : device) : Z :=
  (dmaSharedSize (cfg d) + kFastDmaPageSize - 1) / kFastDmaPageSize.

(** The flag of the page that holds the offset [i]. *)
Definition page_flag (flags : list bool) (i : Z) : bool :=
  default false (flags !! Z.to_nat (i / kFastDmaPageSize)).

(** The shared memory as the core sees it. *)
Definition view (d : device) (i : Z) : Z :=
  if page_flag (fastDmaPageValid d) i then buf_at (fastDmaCache d) i
  else host (gem5 d) (dmaSharedBase (cfg d) + i).

(** A page that is valid and not dirty holds what the memory holds. *)
Record cache_ok (d : device) : Prop := {
  co_range : 0 <= dmaSharedBase (cfg d) /\ 1 <= dmaSharedSize (cfg d) /\
             dmaSharedBase (cfg d) + dmaSharedSize (cfg d) < 2 ^ 64;
  co_len : buf_len (fastDmaCache d) = dmaSharedSize (cfg d);
  co_bytes : buf_bytes (fastDmaCache d);
  co_valid : Z.of_nat (length (fastDmaPageValid d)) = page_count d;
  co_dirty : length (fastDmaPageDirty d) = length (fastDmaPageValid d);
  co_order : forall i, 0 <= i -> page_flag (fastDmaPageDirty d) i = true ->
             page_flag (fastDmaPageValid d) i = true;
  co_clean : forall i, 0 <= i < dmaSharedSize (cfg d) ->
             page_flag (fastDmaPageValid d) i = true ->
             page_flag (fastDmaPageDirty d) i = false ->
             buf_at (fastDmaCache d) i = host (gem5 d) (dmaSharedBase (cfg d) + i) }.

(** Everything but the cache and the memory. *)
Definition same_device (d d' : device) : Prop :=
  cfg d' = cfg d /\ dmaActive d' = dmaActive d /\ dmaRequests d' = dmaRequests d /\
  dmaCompletions d' = dmaCompletions d /\ dmaErrors d' = dmaErrors d /\
  backend d' = backend d /\ same_events (gem5 d) (gem5 d').

Lemma same_device_trans d1 d2 d3 : same_device d1 d2 -> same_device d2 d3 -> same_device d1 d3.
Proof.
  unfold same_device. intros (-> & -> & -> & -> & -> & -> & H1) (-> & -> & -> & -> & -> & -> & H2).
  do 6 (split; [done |]). by eapply same_events_trans.
Qed.

Lemma page_flag_set flags p v i :
  0 <= p < Z.of_nat (length flags) -> 0 <= i ->
  page_flag (flag_set flags p v) i =
    if decide (i / kFastDmaPageSize = p) then v else page_flag flags i.
Proof.
  intros Hp Hi. unfold page_flag, flag_set.
  pose proof (Z.div_pos i kFastDmaPageSize Hi ltac:(done)). case_decide.
  - subst p. rewrite list_lookup_insert_eq by lia. done.
  - rewrite list_lookup_insert_ne by lia. done.
Qed.

Lemma page_flag_at flags p :
  0 <= p < Z.of_nat (length flags) ->
  flag_at flags p = Ret (page_flag flags (p * kFastDmaPageSize)).
Proof.
  intros Hp. unfold flag_at, page_flag. rewrite Z.div_mul by done.
  destruct (flags !! Z.to_nat p) eqn:E; [done |].
  apply lookup_ge_None in E. lia.
Qed.

Lemma page_flag_page flags i :
  page_flag flags i = page_flag flags (i / kFastDmaPageSize * kFastDmaPageSize).
Proof. unfold page_flag. by rewrite Z.div_mul by done. Qed.

(** A page of the shared memory, with the bytes it has. *)
Lemma page_range d p :
  cache_ok d -> 0 <= p < page_count d ->
  let off := p * kFastDmaPageSize in
  0 <= off < dmaSharedSize (cfg d) /\ 1 <= page_bytes d off /\
  off + page_bytes d off <= dmaSharedSize (cfg d) /\
  forall i, 0 <= i < dmaSharedSize (cfg d) ->
    (off <= i < off + page_bytes d off <-> i / kFastDmaPageSize = p).
Proof.
  intros Hok Hp off. pose proof (co_range d Hok) as (_ & Hs & _).
  unfold page_bytes. rewrite (co_len d Hok). unfold page_count, kFastDmaPageSize in *.
  assert (off < dmaSharedSize (cfg d)) as Hlt.
  { pose proof (Z.mul_div_le (dmaSharedSize (cfg d) + 4096 - 1) 4096 ltac:(lia)). lia. }
  split; [lia |]. split; [lia |]. split; [lia |]. intros i Hi. unfold off in *. split.
  - intros H. symmetry. apply Z.div_unique with (r := i - p * 4096); lia.
  - intros <-. pose proof (Z.mul_div_le i 4096 ltac:(lia)).
    pose proof (Z.mul_succ_div_gt i 4096 ltac:(lia)). lia.
Qed.

Lemma length_host_range g a n : length (host g <$> seqZ a n) = Z.to_nat n.
Proof. by rewrite length_fmap, length_seqZ. Qed.

Lemma lookup_host_range g a n k :
  0 <= k < n -> (host g <$> seqZ a n) !!! Z.to_nat k = host g (a + k).
Proof.
  intros. apply list_lookup_total_correct.
  rewrite list_lookup_fmap, lookup_seqZ_lt by lia. simpl. do 2 f_equal. lia.
Qed.

(** Filling a page brings the memory's bytes in and changes no byte the core
    can see. *)
Lemma fill_page_spec d p :
  cache_ok d -> 0 <= p < page_count d ->
  page_flag (fastDmaPageValid d) (p * kFastDmaPageSize) = false ->
  exists d', fill_page p d = Ret d' /\ cache_ok d' /\ same_device d d' /\
    page_flag (fastDmaPageValid d') (p * kFastDmaPageSize) = true /\
    fastDmaPageDirty d' = fastDmaPageDirty d /\
    (forall i, host (gem5 d') i = host (gem5 d) i) /\
    forall i, 0 <= i < dmaSharedSize (cfg d) -> view d' i = view d i.
Proof.
  intros Hok Hp Hv. destruct (page_range d p Hok Hp) as (Ho & Hn & Hl & Hin).
  destruct Hok as [Hr Hlen Hb Hvl Hdl Hord Hcl]. unfold fill_page.
  set (off := p * kFastDmaPageSize) in *. set (n := page_bytes d off) in *.
  rewrite buf_read_ret by lia. cbn [mbind res_bind]. rewrite wrap_small by lia.
  destruct (range_read (dmaSharedBase (cfg d) + off) (buf_slice (fastDmaCache d) off n) (gem5 d))
    as (g & Eg & Hs & Hm); [lia | rewrite length_buf_slice; lia |].
  rewrite Eg, length_buf_slice, Z2Nat.id by lia. cbn [mbind res_bind].
  rewrite buf_write_ret by (rewrite ?length_host_range; lia).
  assert (forall i, 0 <= i -> page_flag (flag_set (fastDmaPageValid d) p true) i =
    if decide (i / kFastDmaPageSize = p) then true else page_flag (fastDmaPageValid d) i) as Hf
    by (intros i Hi; apply page_flag_set; lia).
  assert (forall i, 0 <= i < dmaSharedSize (cfg d) ->
    buf_at (buf_blit (fastDmaCache d) off (host (gem5 d) <$>
      seqZ (dmaSharedBase (cfg d) + off) n)) i =
    if decide (i / kFastDmaPageSize = p) then host (gem5 d) (dmaSharedBase (cfg d) + i)
    else buf_at (fastDmaCache d) i) as Hat.
  { intros i Hi. rewrite buf_at_blit, length_host_range, Z2Nat.id by lia.
    pose proof (Hin i Hi). repeat case_decide; try tauto.
    rewrite lookup_host_range by lia. f_equal. lia. }
  eexists. split; [done |]. split; [| split; [done |]].
  - split; simpl; try done.
    + apply buf_bytes_blit; [done |]. apply Forall_fmap, Forall_true. intros i. apply g_bytes.
    + unfold flag_set. by rewrite length_insert.
    + unfold flag_set. by rewrite length_insert.
    + intros i Hi Hd. rewrite Hf by done. case_decide; [done |]. by apply Hord.
    + intros i Hi Hv' Hd'. rewrite Hf in Hv' by lia. rewrite Hat, Hm by done.
      case_decide; [done |]. by apply Hcl.
  - simpl. split; [| split; [done | split; [done |]]].
    + rewrite Hf by lia. case_decide; [done |].
      contradict H. apply Z.div_mul. done.
    + intros i Hi. unfold view. simpl. rewrite Hf, Hat, Hm by lia.
      case_decide; [| done].
      assert (page_flag (fastDmaPageValid d) i = false) as ->; [| done].
      rewrite page_flag_page. by replace (i / kFastDmaPageSize) with p.
Qed.


(** A request at an offset of the shared memory, inside one page. *)
Definition request_at (d : device) (r : CoralDmaRequest) (off : Z) : Prop :=
  0 <= off /\ 1 <= dma_size r /\ off + dma_size r <= dmaSharedSize (cfg d) /\
  off mod kFastDmaPageSize + dma_size r <= kFastDmaPageSize /\
  dma_size r <= Z.of_nat (length (dma_data r)) /\ Forall is_byte (dma_data r).

Lemma request_page d r off :
  cache_ok d -> request_at d r off ->
  0 <= off / kFastDmaPageSize < page_count d /\
  forall i, off <= i < off + dma_size r -> i / kFastDmaPageSize = off / kFastDmaPageSize.
Proof.
  intros Hok (H0 & H1 & H2 & H3 & _). unfold page_count, kFastDmaPageSize in *.
  pose proof (Z.div_mod off 4096 ltac:(lia)). pose proof (Z.mod_pos_bound off 4096 ltac:(lia)).
  split; [split; [apply Z.div_pos; lia |] |].
  - assert (off / 4096 + 1 <= (dmaSharedSize (cfg d) + 4096 - 1) / 4096); [| lia].
    apply Z.div_le_lower_bound; lia.
  - intros i Hi. symmetry. apply Z.div_unique with (r := i - 4096 * (off / 4096)); lia.
Qed.

(** The page of a request, filled if need be. *)
Lemma access_page d off r :
  cache_ok d -> request_at d r off ->
  let page := off / kFastDmaPageSize in
  exists valid d1, flag_at (fastDmaPageValid d) page = Ret valid /\
    (if (valid : bool) then Ret d else fill_page page d) = Ret d1 /\
    cache_ok d1 /\ same_device d d1 /\
    page_flag (fastDmaPageValid d1) (page * kFastDmaPageSize) = true /\
    (forall i, host (gem5 d1) i = host (gem5 d) i) /\
    forall i, 0 <= i < dmaSharedSize (cfg d) -> view d1 i = view d i.
Proof.
  intros Hok Hr page. destruct (request_page d r off Hok Hr) as [Hp _].
  exists (page_flag (fastDmaPageValid d) (page * kFastDmaPageSize)).
  rewrite page_flag_at by (rewrite (co_valid d Hok); done).
  destruct (page_flag (fastDmaPageValid d) (page * kFastDmaPageSize)) eqn:E.
  - exists d. do 4 (split; [done |]). done.
  - destruct (fill_page_spec d page Hok Hp E) as (d1 & Ef & Hok1 & Hs & Hv & _ & Hm & Hw).
    exists d1. by split.
Qed.

(** What an access does to the memory the core sees. *)
Lemma fastDmaAccess_spec d r off :
  cache_ok d -> request_at d r off ->
  exists data d', fastDmaAccess r (u64 (dmaSharedBase (cfg d) + off)) (dma_data r) d =
      Ret (data, d') /\
    cache_ok d' /\ same_device d d' /\
    (forall i, host (gem5 d') i = host (gem5 d) i) /\
    match dma_type r with
    | Read => data = (view d <$> seqZ off (dma_size r)) ++ drop (Z.to_nat (dma_size r)) (dma_data r) /\
        forall i, 0 <= i < dmaSharedSize (cfg d) -> view d' i = view d i
    | Write => data = dma_data r /\ forall i, 0 <= i < dmaSharedSize (cfg d) ->
        view d' i = overlay (view d) off (take (Z.to_nat (dma_size r)) (dma_data r)) i
    end.
Proof.
  intros Hok Hr. pose proof Hr as (H0 & H1 & H2 & H3 & H4 & H5).
  destruct (request_page d r off Hok Hr) as [Hp Hin].
  destruct (access_page d off r Hok Hr) as (valid & d1 & Ev & Ed & Hok1 & Hs & Hv & Hm & Hw).
  pose proof (co_range d Hok) as Hrg. unfold fastDmaAccess.
  rewrite (wrap_small 64 (_ + off)), Z.add_simpl_l, wrap_small by lia.
  destruct (Z.leb_spec (Z.of_nat (length (fastDmaPageValid d))) (off / kFastDmaPageSize)) as [Hc|_];
    [rewrite (co_valid d Hok) in Hc; lia |].
  destruct (Z.ltb_spec (kFastDmaPageSize - off mod kFastDmaPageSize) (dma_size r)); [lia |].
  cbn [orb fatal_if mbind res_bind]. rewrite Ev. cbn [mbind res_bind]. rewrite Ed.
  cbn [mbind res_bind]. rewrite (proj2 (Z.leb_le _ _) H4). cbn [undef_unless mbind res_bind].
  pose proof (proj1 Hs) as Ec.
  assert (forall i, off <= i < off + dma_size r -> page_flag (fastDmaPageValid d1) i = true) as Hvi.
  { intros i Hi. by rewrite page_flag_page, Hin. }
  assert (buf_len (fastDmaCache d1) = dmaSharedSize (cfg d)) as Hlen
    by (rewrite (co_len d1 Hok1), Ec; done).
  destruct (dma_type r).
  - rewrite buf_read_ret by lia. cbn [mbind res_bind]. eexists _, _. split; [done |].
    split; [done |]. split; [done |]. split; [done |]. split; [| done]. f_equal.
    apply list_fmap_ext. intros k i Hk. apply lookup_seqZ in Hk.
    rewrite <- Hw by lia. unfold view. by rewrite Hvi by lia.
  - assert (Z.of_nat (length (take (Z.to_nat (dma_size r)) (dma_data r))) = dma_size r) as Ht
      by (rewrite length_take; lia).
    rewrite buf_write_ret by lia. cbn [mbind res_bind].
    assert (0 <= off / kFastDmaPageSize < Z.of_nat (length (fastDmaPageDirty d1))) as Hpd.
    { rewrite (co_dirty d1 Hok1), (co_valid d1 Hok1). unfold page_count. by rewrite Ec. }
    rewrite page_flag_at by done. cbn [mbind res_bind]. eexists _, _. split; [done |].
    split; [| split; [exact Hs |]]; [| split; [done | split; [done |]]].
    + destruct Hok1 as [Hr1 Hl1 Hb1 Hv1 Hd1 Ho1 Hc1]. split; simpl; try done.
      * apply buf_bytes_blit; [done | by apply Forall_take].
      * unfold flag_set. by rewrite length_insert.
      * intros i Hi. rewrite page_flag_set by done. case_decide as Hpi; [| by apply Ho1].
        intros _. by rewrite page_flag_page, Hpi.
      * intros i Hi Hvi' Hdi. rewrite page_flag_set in Hdi by (done || lia).
        case_decide as Hpi; [done |]. rewrite buf_at_blit, Ht.
        case_decide; [by contradict Hpi; apply Hin | by apply Hc1].
    + intros i Hi. unfold view, overlay. simpl. rewrite buf_at_blit, Ht.
      case_decide as Hii; [by rewrite Hvi |]. exact (Hw i Hi).
Qed.

(** ** Writing the dirty pages back *)

Lemma flush_page_spec d p :
  cache_ok d -> 0 <= p < page_count d ->
  exists d', flush_page p d = Ret d' /\ cache_ok d' /\ same_device d d' /\
    fastDmaPageValid d' = fastDmaPageValid d /\
    (forall i, 0 <= i -> page_flag (fastDmaPageDirty d') i =
       if decide (i / kFastDmaPageSize = p) then false else page_flag (fastDmaPageDirty d) i) /\
    (forall i, ~ dmaSharedBase (cfg d) <= i < dmaSharedBase (cfg d) + dmaSharedSize (cfg d) ->
       host (gem5 d') i = host (gem5 d) i) /\
    forall i, 0 <= i < dmaSharedSize (cfg d) -> view d' i = view d i.
Proof.
  intros Hok Hp. destruct (page_range d p Hok Hp) as (Ho & Hn & Hl & Hin).
  pose proof Hok as [Hr Hlen Hb Hvl Hdl Hord Hcl]. unfold flush_page.
  rewrite page_flag_at by lia. cbn [mbind res_bind].
  set (off := p * kFastDmaPageSize) in *. set (n := page_bytes d off) in *.
  assert (forall i, i / kFastDmaPageSize = p -> forall fl, page_flag fl i = page_flag fl off) as Hpf
    by (intros i <- fl; apply page_flag_page).
  destruct (page_flag (fastDmaPageDirty d) off) eqn:Ed; cbn [negb]; cycle 1.
  { exists d. do 4 (split; [done |]). split; [| done]. intros i Hi. case_decide as Hpi; [| done].
    by rewrite (Hpf i Hpi). }
  rewrite buf_read_ret by lia. cbn [mbind res_bind]. rewrite wrap_small by lia.
  set (bs := buf_slice (fastDmaCache d) off n).
  assert (Z.of_nat (length bs) = n) as Hbl by (unfold bs; rewrite length_buf_slice; lia).
  destruct (range_write (dmaSharedBase (cfg d) + off) bs (gem5 d))
    as (g & Eg & Hs & Hm); [lia | lia | by apply buf_slice_bytes |].
  rewrite Eg. cbn [mbind res_bind]. rewrite buf_write_ret by lia.
  assert (forall i, buf_at (buf_blit (fastDmaCache d) off bs) i = buf_at (fastDmaCache d) i) as Hat.
  { intros i. rewrite buf_at_blit, Hbl. case_decide; [| done].
    unfold bs. rewrite lookup_total_slice by lia. f_equal. lia. }
  assert (forall i, 0 <= i < dmaSharedSize (cfg d) -> host g (dmaSharedBase (cfg d) + i) =
    if decide (i / kFastDmaPageSize = p) then buf_at (fastDmaCache d) i
    else host (gem5 d) (dmaSharedBase (cfg d) + i)) as Hh.
  { intros i Hi. rewrite Hm. unfold overlay. rewrite Hbl. pose proof (Hin i Hi).
    repeat case_decide; try lia; try done. unfold bs. rewrite lookup_total_slice by lia.
    f_equal. lia. }
  assert (forall i, 0 <= i -> page_flag (flag_set (fastDmaPageDirty d) p false) i =
    if decide (i / kFastDmaPageSize = p) then false else page_flag (fastDmaPageDirty d) i) as Hf
    by (intros i Hi; apply page_flag_set; lia).
  eexists. split; [done |]. split; [| split; [done |]]; [| split; [done |]].
  - split; simpl; try done.
    + by apply buf_bytes_blit; [| apply buf_slice_bytes].
    + unfold flag_set. by rewrite length_insert.
    + intros i Hi. rewrite Hf by done. case_decide; [done |]. by apply Hord.
    + intros i Hi Hv Hd. rewrite Hf in Hd by lia. rewrite Hat, Hh by done.
      case_decide; [done | by apply Hcl].
  - simpl. split; [done |]. split.
    + intros i Hi. rewrite Hm. unfold overlay. rewrite Hbl. case_decide; [lia | done].
    + intros i Hi. unfold view. simpl. rewrite Hat, Hh by done. case_decide as Hpi; [| done].
      rewrite (Hpf i Hpi), (Hord off) by (done || lia). done.
Qed.

Lemma flush_spec d :
  cache_ok d ->
  exists d', flushFastDmaCache d = Ret d' /\ cache_ok d' /\ same_device d d' /\
    (forall i, 0 <= i < dmaSharedSize (cfg d) ->
       view d' i = view d i /\ host (gem5 d') (dmaSharedBase (cfg d) + i) = view d i) /\
    forall i, ~ dmaSharedBase (cfg d) <= i < dmaSharedBase (cfg d) + dmaSharedSize (cfg d) ->
      host (gem5 d') i = host (gem5 d) i.
Proof.
  intros Hok. unfold flushFastDmaCache. rewrite (co_dirty d Hok), (co_valid d Hok).
  pose proof (co_range d Hok) as (_ & Hs & _).
  destruct (forZ_ret (fun k d1 => cache_ok d1 /\ same_device d d1 /\
      (forall i, 0 <= i -> i / kFastDmaPageSize < k ->
         page_flag (fastDmaPageDirty d1) i = false) /\
      (forall i, ~ dmaSharedBase (cfg d) <= i < dmaSharedBase (cfg d) + dmaSharedSize (cfg d) ->
         host (gem5 d1) i = host (gem5 d) i) /\
      forall i, 0 <= i < dmaSharedSize (cfg d) -> view d1 i = view d i)
    (page_count d) flush_page d) as (d' & E & Hok' & Hsd & Hdirty & Hout & Hview).
  - apply Z.div_pos; unfold kFastDmaPageSize; lia.
  - do 2 (split; [done |]). split; [| done]. intros i Hi Hlt.
    pose proof (Z.div_pos i kFastDmaPageSize Hi ltac:(done)). lia.
  - intros k d1 Hk (Hok1 & Hs1 & Hd1 & Ho1 & Hv1). pose proof (proj1 Hs1) as Ec.
    destruct (flush_page_spec d1 k Hok1) as (d2 & E2 & Hok2 & Hs2 & _ & Hd2 & Ho2 & Hv2).
    { unfold page_count. by rewrite Ec. }
    rewrite Ec in Ho2, Hv2. exists d2. split; [done |]. split; [done |].
    split; [by eapply same_device_trans |]. split; [| split].
    + intros i Hi Hlt. rewrite Hd2 by done. case_decide; [done |]. apply Hd1; lia.
    + intros i Hi. rewrite Ho2, Ho1; done.
    + intros i Hi. rewrite Hv2, Hv1; done.
  - exists d'. split; [done |]. split; [done |]. split; [done |]. split; [| done].
    intros i Hi. split; [by apply Hview |]. rewrite <- Hview by done.
    pose proof (proj1 Hsd) as Ec. unfold view.
    destruct (page_flag (fastDmaPageValid d') i) eqn:Ev; [| by rewrite Ec].
    rewrite (co_clean d' Hok' i); [by rewrite Ec | by rewrite Ec | done |].
    apply Hdirty; [lia |]. unfold page_count, kFastDmaPageSize in *.
    assert (i / 4096 + 1 <= (dmaSharedSize (cfg d) + 4096 - 1) / 4096); [| lia].
    apply Z.div_le_lower_bound; [lia |]. pose proof (Z.mul_div_le i 4096 ltac:(lia)). lia.
Qed.

End cache.

(** ** The event of the device *)

Section device.
Context {P B G : Type} {HP : Packet P} {HB : CoralBackend P B} {HG : Gem5 G}.
Context {pkwf : P -> Prop} {HL : PacketLaws P pkwf}.
Context {horizon : Z} {ok : Z -> B -> Prop} {HBL : BackendLaws P B pkwf horizon ok}.
Context {host : G -> Z -> Z} {HH : Gem5Laws G host}.

Abbreviation device := (NPUDevice B G).

(** The event is scheduled exactly when the back end waits for one, and for
    its tick. *)
Definition event_synced (d : device) : Prop :=
  scheduled (gem5 d) = hasPendingEvent (backend d) /\
  (hasPendingEvent (backend d) = true -> event_when (gem5 d) = nextEventTick (backend d)).

(** Only the event or the drain state of the simulator changed. *)
Definition same_but_event (d d' : device) : Prop :=
  d' = with_gem5 (gem5 d') d /\ same_memory host (gem5 d) (gem5 d').

Lemma syncBackendEvent_spec d :
  (hasPendingEvent (backend d) = true -> tick_of d <= nextEventTick (backend d)) ->
  exists d', syncBackendEvent d = Ret d' /\ event_synced d' /\ same_but_event d d' /\
    drainState (gem5 d') = drainState (gem5 d).
Proof.
  intros Ht. unfold syncBackendEvent, event_synced, same_but_event.
  assert (same_memory host (gem5 d) (gem5 d)) as Hsame by done.
  destruct (hasPendingEvent (backend d)) eqn:Ep; cycle 1.
  { destruct (scheduled (gem5 d)) eqn:Es.
    - destruct (g_deschedule (gem5 d) Es) as (g & -> & E1 & E2 & E3). simpl.
      eexists. split; [done |]. simpl. by rewrite Ep.
    - exists d. split; [done |]. rewrite Ep, Es. by destruct d. }
  specialize (Ht eq_refl). unfold tick_of in Ht.
  destruct (scheduled (gem5 d)) eqn:Es; simpl.
  - destruct (Z.eqb_spec (event_when (gem5 d)) (nextEventTick (backend d))) as [Ew|Ew]; simpl.
    { exists d. split; [done |]. rewrite Ep, Es. by destruct d. }
    destruct (g_deschedule (gem5 d) Es) as (g & -> & E1 & E2 & E3 & E4 & E5). simpl.
    destruct (g_schedule (nextEventTick (backend d)) g) as (g' & -> & F1 & F2 & F3 & F4 & F5 & F6);
      [lia | done |].
    simpl. eexists. split; [done |]. simpl. rewrite Ep.
    split; [done |]. split; [| congruence]. split; [done |]. split; [| split; congruence].
    intros i. by rewrite F4.
  - destruct (g_schedule (nextEventTick (backend d)) (gem5 d)) as (g' & -> & F1 & F2 & F3 & F4);
      [lia | done |].
    simpl. eexists. split; [done |]. simpl. by rewrite Ep.
Qed.

Lemma checkDrainDone_spec d :
  event_synced d ->
  event_synced (checkDrainDone d) /\ same_but_event d (checkDrainDone d) /\
  (dmaQuiesced d = true -> drainState (gem5 (checkDrainDone d)) <> Draining).
Proof.
  intros Hs. unfold checkDrainDone.
  destruct (bool_decide _ && dmaQuiesced d) eqn:E.
  - apply andb_true_iff in E as [Ed%bool_decide_eq_true _].
    destruct (g_signal (gem5 d) Ed) as (E1 & E2 & E3 & E4).
    split; [| split; [done |]]; [| simpl; by rewrite E1].
    unfold event_synced. simpl. by rewrite E2, E3.
  - split; [done |]. split; [by destruct d |]. intros Hq. rewrite Hq, andb_true_r in E.
    by apply bool_decide_eq_false in E.
Qed.

(** ** The invariant *)

(** The window of the external memory starts on a page, and every address the
    device computes fits its type. *)
Definition config_ok (c : npu_config) : Prop :=
  0 <= dmaExtmemBase c < 2 ^ 32 /\ dmaExtmemBase c mod kFastDmaPageSize = 0 /\
  0 <= dmaSharedBase c < 2 ^ 32 /\ 1 <= dmaSharedSize c < 2 ^ 63 /\
  0 <= fastDmaSyncOffset c /\ 0 <= fastDmaSyncSize c /\
  fastDmaSyncOffset c + fastDmaSyncSize c <= dmaSharedSize c.

Record device_ok (d : device) : Prop := {
  do_config : config_ok (cfg d);
  do_tick : tick_of d < horizon;
  do_backend : ok (tick_of d) (backend d);
  do_active : dmaActive d = true -> hasDmaRequest (backend d) = true }.

Lemma device_ok_gem5 d d' :
  device_ok d -> same_but_event d d' -> device_ok d'.
Proof.
  intros [H0 H1 H2 H3] (E & _ & _ & Et). rewrite E. unfold tick_of in *.
  split; unfold tick_of; simpl; rewrite ?Et; done.
Qed.

(** The end of every handler. *)
Lemma finish_handler d :
  device_ok d ->
  exists d', syncBackendEvent d = Ret d' /\ device_ok d' /\ event_synced d' /\
    same_but_event d d' /\ drainState (gem5 d') = drainState (gem5 d).
Proof.
  intros Hok. destruct (syncBackendEvent_spec d) as (d' & E & Hs & Hsame & Hd).
  { intros Hp. by apply (bl_tick (P := P) _ _ (do_backend d Hok)). }
  exists d'. split; [done |]. split; [by eapply device_ok_gem5 | done].
Qed.

Lemma same_but_event_trans d1 d2 d3 :
  same_but_event d1 d2 -> same_but_event d2 d3 -> same_but_event d1 d3.
Proof.
  intros (E1 & M1 & C1 & T1) (E2 & M2 & C2 & T2). split.
  - rewrite E2, E1. done.
  - split; [| split; congruence]. intros i. by rewrite M2.
Qed.

Lemma finish_and_drain d d' :
  device_ok d -> (d1 ← syncBackendEvent d; Ret (checkDrainDone d1)) = Ret d' ->
  device_ok d' /\ event_synced d' /\ same_but_event d d'.
Proof.
  intros Hok H. destruct (finish_handler d Hok) as (d1 & E & Hok1 & Hs1 & Hsame & _).
  rewrite E in H. injection H as <-.
  destruct (checkDrainDone_spec d1 Hs1) as (Hs2 & Hsame2 & _).
  split; [by eapply device_ok_gem5 |]. split; [done |]. by eapply same_but_event_trans.
Qed.

(** ** Completing a request *)

(** The completion the back end is given, and what is left of the device. *)
Definition completed (d : device) (completions errors : Z) (b : B) (d' : device) : Prop :=
  same_but_event (with_backend b (with_dma false (dmaRequests d) completions errors d)) d'.

Lemma completeBackendDma_spec d data :
  device_ok d -> dmaActive d = true ->
  exists r b d', dmaRequest (backend d) = Ret r /\
    completeDma (tick_of d) (Some data) (dma_size r) false (backend d) = Ret b /\
    completeBackendDma data d = Ret d' /\
    completed d (u32 (dmaCompletions d + 1)) (dmaErrors d) b d' /\
    hasDmaRequest b = false /\ device_ok d' /\ event_synced d'.
Proof.
  intros [Hcf Ht Hb Ha] Hact. specialize (Ha Hact).
  destruct (bl_request (P := P) _ _ Hb Ha) as (r & Er & _).
  destruct (bl_complete (P := P) _ _ r data Ht Hb Ha Er) as (b & Ec & Hok & Hn).
  unfold completeBackendDma. rewrite Hact, Er. cbn [negb fatal_if mbind res_bind].
  rewrite Ec. cbn [mbind res_bind]. rewrite Hn. cbn [fatal_if mbind res_bind].
  destruct (finish_handler (with_backend b (with_dma false (dmaRequests d)
    (u32 (dmaCompletions d + 1)) (dmaErrors d) d))) as (d1 & E1 & Hok1 & Hs1 & Hsame & _).
  { by split. }
  rewrite E1. cbn [mbind res_bind].
  destruct (checkDrainDone_spec d1 Hs1) as (Hs2 & Hsame2 & _).
  exists r, b, (checkDrainDone d1). do 3 (split; [done |]).
  split; [by eapply same_but_event_trans |]. split; [done |].
  split; [by eapply device_ok_gem5 | done].
Qed.

Lemma completeBackendDmaError_spec d :
  device_ok d -> dmaActive d = false -> hasDmaRequest (backend d) = true ->
  exists b d', completeDma (tick_of d) None 0 true (backend d) = Ret b /\
    completeBackendDmaError d = Ret d' /\
    completed d (dmaCompletions d) (u32 (dmaErrors d + 1)) b d' /\
    hasDmaRequest b = false /\ device_ok d' /\ event_synced d'.
Proof.
  intros [Hcf Ht Hb Ha] Hact Hreq.
  destruct (bl_error (P := P) _ _ Ht Hb Hreq) as (b & Ec & Hok & Hn).
  unfold completeBackendDmaError. rewrite Hact, Hreq. cbn [negb fatal_if mbind res_bind].
  rewrite Ec. cbn [mbind res_bind]. rewrite Hn. cbn [fatal_if mbind res_bind].
  destruct (finish_handler (with_backend b (with_dma false (dmaRequests d)
    (dmaCompletions d) (u32 (dmaErrors d + 1)) d))) as (d1 & E1 & Hok1 & Hs1 & Hsame & _).
  { by split. }
  rewrite E1. cbn [mbind res_bind].
  destruct (checkDrainDone_spec d1 Hs1) as (Hs2 & Hsame2 & _).
  exists b, (checkDrainDone d1). do 2 (split; [done |]).
  split; [by eapply same_but_event_trans |]. split; [done |].
  split; [by eapply device_ok_gem5 | done].
Qed.

(** ** Serving a request *)

Lemma window_request (d : device) r :
  config_ok (cfg d) -> request_fits r -> dma_rejected (cfg d) r = false ->
  let off := dma_addr r - dmaExtmemBase (cfg d) in
  u64 off = off /\ request_at d r off.
Proof.
  intros (He & Ha & Hb & Hs & _) (H1 & H2 & H3 & H4 & H5) Hr off.
  unfold CORAL_DMA_DATA_BYTES, kFastDmaPageSize in *.
  unfold dma_rejected in Hr. rewrite !orb_false_iff, !Z.ltb_ge, Z.leb_gt in Hr.
  fold off in Hr. destruct Hr as [[R1 R2] R3].
  rewrite (wrap_small 64 off) in R2, R3 by lia. rewrite wrap_small in R3 by lia.
  split; [apply wrap_small; lia |]. split; [lia |]. split; [lia |]. split; [lia |].
  split; [| split; [lia | done]]. unfold kFastDmaPageSize.
  assert (off mod 4096 = dma_addr r mod 4096) as ->.
  { unfold off. rewrite Zminus_mod, Ha, Z.sub_0_r, Z.mod_mod; lia. }
  pose proof (Z.div_mod (dma_addr r) 4096 ltac:(lia)).
  pose proof (Z.div_mod (dma_addr r + dma_size r - 1) 4096 ltac:(lia)).
  pose proof (Z.mod_pos_bound (dma_addr r + dma_size r - 1) 4096 ltac:(lia)). lia.
Qed.

(** The device after a request was served: by an error outside the window, by
    the memory port in timing mode, at once from the page cache in functional
    mode. *)
Definition served (d : device) (r : CoralDmaRequest) (d' : device) : Prop :=
  let c := cfg d in
  let off := dma_addr r - dmaExtmemBase c in
  if dma_rejected c r then
    exists b, completeDma (tick_of d) None 0 true (backend d) = Ret b /\
      completed d (dmaCompletions d) (u32 (dmaErrors d + 1)) b d'
  else if fastDma c then
    exists data b dc, fastDmaAccess r (u64 (dmaSharedBase c + off)) (dma_data r) d = Ret (data, dc) /\
      completeDma (tick_of d) (Some data) (dma_size r) false (backend d) = Ret b /\
      match dma_type r with
      | Read => take (Z.to_nat (dma_size r)) data = view (host := host) d <$> seqZ off (dma_size r)
      | Write => True
      end /\
      completed (with_dma true (u32 (dmaRequests d + 1)) (dmaCompletions d) (dmaErrors d) dc)
        (u32 (dmaCompletions d + 1)) (dmaErrors d) b d' /\
      cache_ok (host := host) d' /\
      forall i, 0 <= i < dmaSharedSize c -> view (host := host) d' i =
        match dma_type r with
        | Read => view (host := host) d i
        | Write => overlay (view (host := host) d) off
                     (take (Z.to_nat (dma_size r)) (dma_data r)) i
        end
  else
    d' = with_gem5 (match dma_type r with
                    | Read => dmaReadVirt
                    | Write => dmaWriteVirt
                    end (u64 (dmaSharedBase c + off)) (dma_size r) (dma_data r) (gem5 d))
           (with_dma true (u32 (dmaRequests d + 1)) (dmaCompletions d) (dmaErrors d) d).

(** [fastDmaAccess] does not look at the counters. *)
Lemma fill_page_with_dma p (d : device) a x y z :
  fill_page p (with_dma a x y z d) = d' ← fill_page p d; Ret (with_dma a x y z d').
Proof.
  unfold fill_page. simpl.
  change (page_bytes (with_dma a x y z d)) with (page_bytes d).
  destruct (buf_read _ _ _); simpl; try done.
  destruct (functionalMemoryRange _ _ _ _) as [[data g]| | |]; simpl; try done.
  by destruct (buf_write _ _ _).
Qed.

Lemma fastDmaAccess_with_dma r a0 data (d : device) a x y z :
  fastDmaAccess r a0 data (with_dma a x y z d) =
    '(bs, d') ← fastDmaAccess r a0 data d; Ret (bs, with_dma a x y z d').
Proof.
  unfold fastDmaAccess. simpl. destruct (fatal_if _); simpl; try done.
  destruct (flag_at _ _) as [[]| | |]; simpl; try done; [| rewrite fill_page_with_dma].
  2: destruct (fill_page _ d) as [d1| | |]; simpl; try done.
  all: destruct (undef_unless _); simpl; try done; destruct (dma_type r); simpl.
  1,3: by destruct (buf_read _ _ _).
  all: destruct (buf_write _ _ _); simpl; try done; by destruct (flag_at _ _).
Qed.

Lemma cache_ok_same (d d' : device) :
  cfg d' = cfg d -> fastDmaCache d' = fastDmaCache d ->
  fastDmaPageValid d' = fastDmaPageValid d -> fastDmaPageDirty d' = fastDmaPageDirty d ->
  (forall i, host (gem5 d') i = host (gem5 d) i) ->
  cache_ok (host := host) d ->
  cache_ok (host := host) d' /\ forall i, view (host := host) d' i = view (host := host) d i.
Proof.
  intros E1 E2 E3 E4 Em [H1 H2 H3 H4 H5 H6 H7]. split.
  - split; rewrite ?E1, ?E2, ?E3, ?E4; try done.
    + unfold page_count. by rewrite E1.
    + intros i. rewrite Em. apply H7.
  - intros i. unfold view. by rewrite E1, E2, E3, Em.
Qed.

Lemma completed_fields d c e b d' :
  completed d c e b d' ->
  cfg d' = cfg d /\ fastDmaCache d' = fastDmaCache d /\
  fastDmaPageValid d' = fastDmaPageValid d /\ fastDmaPageDirty d' = fastDmaPageDirty d /\
  backend d' = b /\ dmaActive d' = false /\ forall i, host (gem5 d') i = host (gem5 d) i.
Proof. intros (E & Hm & _). rewrite E. simpl. done. Qed.

Lemma device_ok_with_dma (d dc : device) r c :
  device_ok d -> hasDmaRequest (backend d) = true -> same_device d dc ->
  device_ok (with_dma true r c (dmaErrors d) dc).
Proof.
  intros [Hcf Ht Hb Ha] Hreq (Ec & _ & _ & _ & _ & Eb & _ & _ & _ & _ & Et).
  unfold tick_of in *. split; unfold tick_of; simpl; rewrite ?Ec, ?Eb, ?Et; done.
Qed.

Lemma startBackendDma_spec d r :
  device_ok d -> (fastDma (cfg d) = true -> cache_ok (host := host) d) ->
  dmaActive d = false -> hasDmaRequest (backend d) = true -> dmaRequest (backend d) = Ret r ->
  exists d', startBackendDma d = Ret d' /\ served d r d' /\ device_ok d'.
Proof.
  intros Hok Hcache Hact Hreq Er. pose proof Hok as [Hcfg Ht Hb _].
  destruct (bl_request (P := P) _ _ Hb Hreq) as (r' & Er' & Hfit).
  rewrite Er in Er'. injection Er' as <-.
  unfold startBackendDma, served. rewrite Hact, Hreq, Er. cbn [orb negb mbind res_bind].
  destruct (dma_rejected (cfg d) r) eqn:Erej.
  { destruct (completeBackendDmaError_spec d Hok Hact Hreq) as (b & d' & Ec & E & Hc & _ & Hok' & _).
    eauto 10. }
  destruct (window_request d r Hcfg Hfit Erej) as [-> Hat].
  destruct (fastDma (cfg d)); cycle 1.
  { destruct (g_dma (u64 (dmaSharedBase (cfg d) + (dma_addr r - dmaExtmemBase (cfg d))))
      (dma_size r) (dma_data r) (gem5 d)) as ((_ & _ & _ & T1) & _ & _ & _ & T2).
    unfold tick_of in *.
    destruct (dma_type r); (eexists; split; [done |]); (split; [done |]);
      split; unfold tick_of; simpl; rewrite ?T1, ?T2; done. }
  specialize (Hcache eq_refl).
  destruct (fastDmaAccess_spec d r _ Hcache Hat) as (data & dc & Ef & Hcok & Hsd & Hm & Hty).
  rewrite fastDmaAccess_with_dma, Ef. cbn [mbind res_bind].
  pose proof (device_ok_with_dma d dc (u32 (dmaRequests d + 1)) (dmaCompletions d) Hok Hreq Hsd) as Hok1.
  pose proof Hsd as (Ecfg & _ & _ & _ & Eerr & Eb & _ & _ & _ & _ & Et).
  destruct (completeBackendDma_spec _ data Hok1 eq_refl)
    as (r' & b & d' & Er' & Ec & E & Hc & _ & Hok' & _).
  simpl in Er', Ec. rewrite Eb, Er in Er'. injection Er' as <-.
  unfold tick_of in Ec. simpl in Ec. rewrite Et, Eb in Ec. fold (tick_of d) in Ec.
  destruct (completed_fields _ _ _ _ _ Hc) as (F1 & F2 & F3 & F4 & _ & _ & F5). simpl in F1, F2, F3, F4, F5.
  destruct (cache_ok_same dc d' F1 F2 F3 F4 F5 Hcok) as [Hcok' Hview].
  exists d'. split; [exact E |]. split; [| done].
  exists data, b, dc. split; [done |]. split; [exact Ec |]. split; [| split; [| split; [done |]]].
  - destruct (dma_type r); [| done]. destruct Hty as [-> _].
    rewrite take_app_length'; [done |]. rewrite length_fmap, length_seqZ. done.
  - exact Hc.
  - intros i Hi. rewrite Hview. destruct (dma_type r); by apply Hty.
Qed.

(** ** Every handler keeps the invariant *)

(** What matters to the invariant is the same. *)
Definition same_core (d d' : device) : Prop :=
  cfg d' = cfg d /\ dmaActive d' = dmaActive d /\ backend d' = backend d /\
  tick_of d' = tick_of d.

Lemma same_core_ok d d' : device_ok d -> same_core d d' -> device_ok d'.
Proof. intros [H0 H1 H2 H3] (E1 & E2 & E3 & E4). split; by rewrite ?E1, ?E2, ?E3, ?E4. Qed.

Lemma range_time cmd addr data g bs g' :
  functionalMemoryRange cmd addr data g = Ret (bs, g') -> curTick g' = curTick g.
Proof.
  intros H. apply bind_ret_inv in H as (u & _ & H). revert H.
  generalize (cacheBlockSize g) (length data). intros bsz fuel. revert addr data g bs.
  induction fuel as [|fuel IH]; intros addr data g bs; destruct data as [|x data];
    cbn [range_loop]; try done; try (by intros [= _ <-]).
  intros H. apply bind_ret_inv in H as ([d1 g1] & E1 & H).
  apply bind_ret_inv in H as ([d2 g2] & E2 & H). injection H as _ <-.
  apply IH in E2. rewrite E2. unfold functionalMemoryAccess in E1.
  destruct (sendFunctional _ _ _ g) as [[e b1] g0] eqn:Es.
  apply bind_ret_inv in E1 as (u' & _ & E1). injection E1 as _ <-. by eapply g_time.
Qed.

Lemma fill_page_core p d d' : fill_page p d = Ret d' -> same_core d d'.
Proof.
  intros H. apply bind_ret_inv in H as (old & _ & H).
  apply bind_ret_inv in H as ([data g] & E & H). apply bind_ret_inv in H as (c & _ & H).
  injection H as <-. apply range_time in E. done.
Qed.

Lemma fastDmaAccess_core r a data d bs d' :
  fastDmaAccess r a data d = Ret (bs, d') -> same_core d d'.
Proof.
  intros H. apply bind_ret_inv in H as (u & _ & H). apply bind_ret_inv in H as (v & _ & H).
  apply bind_ret_inv in H as (d1 & E & H). apply bind_ret_inv in H as (u' & _ & H).
  assert (same_core d d1) as Hs.
  { destruct v; [by injection E as <- | by apply fill_page_core in E]. }
  destruct (dma_type r).
  - apply bind_ret_inv in H as (bytes & _ & H). by injection H as _ <-.
  - apply bind_ret_inv in H as (c & _ & H). apply bind_ret_inv in H as (f & _ & H).
    by injection H as _ <-.
Qed.

Lemma flush_page_core p d d' : flush_page p d = Ret d' -> same_core d d'.
Proof.
  intros H. apply bind_ret_inv in H as (f & _ & H).
  case_test_in H; [by injection H as <- |].
  apply bind_ret_inv in H as (bytes & _ & H). apply bind_ret_inv in H as ([data g] & E1 & H).
  apply bind_ret_inv in H as (c & _ & H). injection H as <-. apply range_time in E1. done.
Qed.

Lemma flush_core d d' : flushFastDmaCache d = Ret d' -> same_core d d'.
Proof.
  intros H. unfold flushFastDmaCache in H.
  apply (forZ_inv (fun _ d1 => same_core d d1)) in H; [done | lia | done |].
  intros i d1 d2 _ (E1 & E2 & E3 & E4) E. apply flush_page_core in E as (F1 & F2 & F3 & F4).
  repeat split; congruence.
Qed.

Lemma startBackendDma_ok d d' :
  device_ok d -> startBackendDma d = Ret d' -> device_ok d'.
Proof.
  intros Hok H. unfold startBackendDma in H.
  destruct (dmaActive d) eqn:Hact; [by injection H as <- |].
  destruct (hasDmaRequest (backend d)) eqn:Hreq; [| by injection H as <-].
  cbn [orb negb] in H. apply bind_ret_inv in H as (r & Er & H).
  destruct (dma_rejected _ r).
  { destruct (completeBackendDmaError_spec d Hok Hact Hreq) as (b & d1 & _ & E & _ & _ & Hok' & _).
    rewrite E in H. by injection H as <-. }
  pose proof Hok as [Hcf Ht Hb _].
  destruct (fastDma (cfg d)).
  - rewrite fastDmaAccess_with_dma in H. apply bind_ret_inv in H as ([data d2] & E & H).
    apply bind_ret_inv in E as ([bs dc] & E & E'). injection E' as <- <-.
    apply fastDmaAccess_core in E as (E1 & E2 & E3 & E4).
    destruct (completeBackendDma_spec (with_dma true (u32 (dmaRequests d + 1))
      (dmaCompletions d) (dmaErrors d) dc) bs) as (r' & b & d1 & _ & _ & Ec & _ & _ & Hok' & _).
    + unfold tick_of in *. split; unfold tick_of; simpl; rewrite ?E1, ?E3, ?E4; done.
    + done.
    + rewrite Ec in H. by injection H as <-.
  - destruct (g_dma (u64 (dmaSharedBase (cfg d) + u64 (dma_addr r - dmaExtmemBase (cfg d))))
      (dma_size r) (dma_data r) (gem5 d)) as ((_ & _ & _ & T1) & _ & _ & _ & T2).
    unfold tick_of in *. destruct (dma_type r); injection H as <-;
      split; unfold tick_of; simpl; rewrite ?T1, ?T2; done.
Qed.

Lemma event_batches_ok n d d' :
  device_ok d -> event_batches n d = Ret d' -> device_ok d'.
Proof.
  revert d. induction n as [|n IH]; intros d Hok H; [by injection H as <- |].
  cbn [event_batches] in H. apply bind_ret_inv in H as (b & Ep & H).
  apply bind_ret_inv in H as (d1 & Ed & H).
  assert (device_ok d1) as Hok1.
  { apply startBackendDma_ok in Ed; [done |]. destruct Hok as [Hcf Ht Hb Ha].
    apply (bl_process (P := P)) in Ep as [Hb' Hk]; [| done | done].
    split; [done | done | exact Hb' |]. simpl. intros Hact. by apply Hk, Ha. }
  case_test_in H; [by injection H as <- |].
  apply bind_ret_inv in H as (g & Eg & H). apply (IH (with_gem5 g d1)); [| done].
  destruct (scheduled (gem5 d1)) eqn:Es; [| injection Eg as <-; by destruct d1].
  destruct (g_deschedule (gem5 d1) Es) as (g' & E' & _ & _ & _ & _ & Et).
  rewrite E' in Eg. injection Eg as <-.
  apply (same_core_ok d1); [done |]. unfold same_core, tick_of. done.
Qed.

Lemma local_to_host_core d d' : syncLocalExtmemToHost d = Ret d' -> same_core d d'.
Proof.
  intros H. apply bind_ret_inv in H as (data & _ & H).
  apply bind_ret_inv in H as ([bs g] & E & H). injection H as <-. apply range_time in E. done.
Qed.

Lemma processBackendEvent_ok d d' :
  device_ok d -> processBackendEvent d = Ret d' -> device_ok d' /\ event_synced d'.
Proof.
  intros Hok H. apply bind_ret_inv in H as (d1 & E & H).
  apply event_batches_ok in E; [| done]. cbv zeta in H.
  apply bind_ret_inv in H as (d2 & Es & H).
  assert (device_ok d2) as Hok2.
  { eapply same_core_ok; [exact E |].
    case_test_in Es; [by apply local_to_host_core in Es |].
    case_test_in Es; [by apply flush_core in Es | by injection Es as <-]. }
  apply finish_and_drain in H as (? & ? & _); done.
Qed.

Lemma completeBackendDma_ok d data d' :
  device_ok d -> dmaActive d = true -> completeBackendDma data d = Ret d' ->
  device_ok d' /\ event_synced d'.
Proof.
  intros Hok Hact H.
  destruct (completeBackendDma_spec d data Hok Hact) as (r & b & d1 & _ & _ & E & _ & _ & Hok' & Hs).
  rewrite E in H. by injection H as <-.
Qed.

Lemma backend_step_ok d b :
  device_ok d -> ok (tick_of d) b -> keeps_request (backend d) b -> device_ok (with_backend b d).
Proof.
  intros [Hcf Ht Hb Ha] Hok Hk. split; [done | done | exact Hok |].
  simpl. intros Hact. by apply Hk, Ha.
Qed.

Lemma read_ok d p lat p' d' :
  device_ok d -> pkwf p -> read p d = Ret (lat, p', d') -> device_ok d' /\ event_synced d'.
Proof.
  intros Hok Hp H. apply bind_ret_inv in H as ([p1 d1] & E & H).
  apply bind_ret_inv in H as (d2 & Es & H). injection H as _ _ <-.
  assert (device_ok d1) as Hok1.
  { assert (forall h q b, be_read p (pioAddr (cfg d)) (backend d) = Ret (h, q, b) ->
      device_ok (with_backend b d)) as Hr.
    { intros h q b Er. apply (bl_read (tick_of d)) in Er as [Hb Hk]; try done; try apply Hok.
      by apply backend_step_ok. }
    destruct (shell_register d _).
    - destruct (getSize p =? 4); [by injection E as _ <- |].
      apply bind_ret_inv in E as ([[h q] b] & Er & E). injection E as _ <-. by eapply Hr.
    - apply bind_ret_inv in E as ([[h q] b] & Er & E). injection E as _ <-. by eapply Hr. }
  destruct (finish_handler d1 Hok1) as (d3 & E3 & Hok3 & Hs3 & _).
  rewrite E3 in Es. by injection Es as <-.
Qed.

Lemma host_to_local_ok d d' :
  device_ok d -> syncHostToLocalExtmem d = Ret d' -> device_ok d'.
Proof.
  intros Hok H. unfold syncHostToLocalExtmem in H. case_test_in H; [by injection H as <- |].
  apply bind_ret_inv in H as ([data g] & Eg & H). apply bind_ret_inv in H as (b & Eb & H).
  injection H as <-. pose proof (do_config d Hok) as (_ & _ & Hb & Hs & H1 & H2 & H3).
  pose proof (range_time _ _ _ _ _ _ Eg) as Et.
  rewrite wrap_small in Eg by lia.
  destruct (range_read (host := host) (dmaSharedBase (cfg d) + fastDmaSyncOffset (cfg d))
    (replicate (Z.to_nat (fastDmaSyncSize (cfg d))) 0) (gem5 d)) as (g' & Er & _).
  { lia. } { rewrite length_replicate. lia. }
  rewrite Er in Eg. injection Eg as <- <-.
  apply (bl_local_write (tick_of d)) in Eb as [Hb' Hk]; [| apply Hok |].
  - apply (same_core_ok (with_backend b d)); [by apply backend_step_ok |].
    unfold same_core, tick_of. simpl. done.
  - apply Forall_fmap, Forall_true. intros i. apply g_bytes.
Qed.

Lemma write_ok d p lat p' d' :
  device_ok d -> pkwf p -> write p d = Ret (lat, p', d') -> device_ok d' /\ event_synced d'.
Proof.
  intros Hok Hp H. apply bind_ret_inv in H as (d1 & E & H).
  assert (device_ok d1) as Hok1.
  { case_test_in E; [by apply host_to_local_ok in E | by injection E as <-]. }
  apply bind_ret_inv in H as ([[h q] b] & Ew & H). cbv zeta in H.
  apply bind_ret_inv in H as (d4 & Es & H). injection H as _ _ <-.
  apply bl_write in Ew as [Hb Hk]; try done; try apply Hok1.
  match type of Es with syncBackendEvent ?x = _ => assert (device_ok x) as Hok3 end.
  { pose proof (backend_step_ok d1 b Hok1 Hb Hk) as Hok2. case_test; [| done].
    apply (same_core_ok (with_backend b d1)); done. }
  destruct (finish_handler _ Hok3) as (d5 & E5 & Hok5 & Hs5 & _).
  rewrite E5 in Es. by injection Es as <-.
Qed.

(** ** The runs of the device *)

(** What can happen to a device: accesses of the host, the end of a timing
    DMA, its event (which the simulator takes off the queue first), and time
    passing up to that event while the rest of the system works on the memory
    and the drain manager on the drain state. *)
Inductive device_reach : device -> Prop :=
| dr_make c b g d : config_ok c -> curTick g < horizon -> ok (curTick g) b ->
    make_device c b g = Ret d -> device_reach d
| dr_read d p lat p' d' : device_reach d -> pkwf p -> read p d = Ret (lat, p', d') ->
    device_reach d'
| dr_write d p lat p' d' : device_reach d -> pkwf p -> write p d = Ret (lat, p', d') ->
    device_reach d'
| dr_dma d data d' : device_reach d -> dmaActive d = true ->
    completeBackendDma data d = Ret d' -> device_reach d'
| dr_event d g d' : device_reach d -> scheduled (gem5 d) = true ->
    event_when (gem5 d) = curTick (gem5 d) -> scheduled g = false ->
    curTick g = curTick (gem5 d) -> processBackendEvent (with_gem5 g d) = Ret d' ->
    device_reach d'
| dr_time d g : device_reach d -> scheduled g = scheduled (gem5 d) ->
    event_when g = event_when (gem5 d) -> curTick (gem5 d) <= curTick g < horizon ->
    (scheduled g = true -> curTick g <= event_when g) -> device_reach (with_gem5 g d).

Lemma device_reach_inv d : device_reach d -> device_ok d /\ event_synced d.
Proof.
  induction 1 as [c b g d Hc Hg Hb E | d p lat p' d' _ [Hok _] Hp E | d p lat p' d' _ [Hok _] Hp E
    | d data d' _ [Hok _] Hact E | d g d' _ [Hok _] _ _ _ Et E | d g _ [Hok Hs] E1 E2 Ht Hw].
  - unfold make_device in E.
    match type of E with syncBackendEvent ?x = _ => assert (device_ok x) as Hok end.
    { by split. }
    destruct (finish_handler _ Hok) as (d1 & E1 & Hok1 & Hs1 & _). rewrite E1 in E.
    by injection E as <-.
  - by apply read_ok in E.
  - by apply write_ok in E.
  - by apply completeBackendDma_ok in E.
  - apply processBackendEvent_ok in E; [done |].
    apply (same_core_ok d); [done |]. unfold same_core, tick_of. done.
  - destruct Hs as [Hs1 Hs2]. pose proof Hok as [Hcf Hh Hb Ha]. split.
    + unfold tick_of in *. split; unfold tick_of; simpl; [done | lia | | done].
      eapply (bl_later (P := P)); [exact Hb | lia |]. intros Hp.
      rewrite <- Hs2, <- E2 by done. apply Hw. congruence.
    + split; simpl; [congruence |]. intros Hp. rewrite E2. by apply Hs2.
Qed.

End device.

(** C22: over any back end that keeps its contract and any simulator that
    behaves as documented, in every state of every run the device's event is
    scheduled exactly when the back end waits for one, for the tick the back
    end asked for and never for one in the past, and while a timing DMA is
    under way the back end still holds its request. *)
Theorem device_event_synced {P B G} {HP : Packet P} {HB : CoralBackend P B} {HG : Gem5 G}
    {pkwf : P -> Prop} {HL : PacketLaws P pkwf} {horizon} {ok : Z -> B -> Prop}
    {HBL : BackendLaws P B pkwf horizon ok} {host : G -> Z -> Z} {HH : Gem5Laws G host}
    (d : NPUDevice B G) :
  device_reach (pkwf := pkwf) (horizon := horizon) (ok := ok) d ->
  scheduled (gem5 d) = hasPendingEvent (backend d) /\
  (hasPendingEvent (backend d) = true ->
     event_when (gem5 d) = nextEventTick (backend d) /\ curTick (gem5 d) <= event_when (gem5 d)) /\
  (dmaActive d = true -> hasDmaRequest (backend d) = true /\
     exists r, dmaRequest (backend d) = Ret r /\ request_fits r).
Proof.
  intros Hr. destruct (device_reach_inv (host := host) d Hr) as [[Hcf Ht Hb Ha] [H1 H2]].
  split; [done |]. split.
  - intros Hp. rewrite H2 by done. split; [done |]. by apply (bl_tick (P := P) _ _ Hb).
  - intros Hact. specialize (Ha Hact). split; [done |]. by apply (bl_request (P := P) (tick_of d)).
Qed.

(** ** The stage-A back end in the device *)

Section stagea.
Context {G : Type} {HG : Gem5 G} {host : G -> Z -> Z} {HH : Gem5Laws G host}.
Context {P : Type} {HP : Packet P} {pkwf : P -> Prop} {HL : PacketLaws P pkwf}.

(** A packet for a word of the aperture. *)
Definition word_packet (d : NPUDevice StageA.CoralStageABackend G) (p : P) (off : Z) : Prop :=
  StageA.packet_at (pkwf := pkwf) (backend d) p off /\ getSize p = 4 /\
  pioAddr (cfg d) = StageA.pioAddr (backend d).

Lemma control_write d p tick :
  StageA.wf (backend d) -> word_packet d p StageA.kCsrOffset ->
  StageA.write tick p (pioAddr (cfg d)) (backend d) =
    Ret (true, makeAtomicResponse p, StageA.writeControl tick (getLE p) (backend d)).
Proof.
  intros Hw (Hp & Hs & ->). unfold StageA.write.
  rewrite (StageA.packet_offset (pkwf := pkwf) _ _ StageA.kCsrOffset Hw Hp) by lia. rewrite Hs.
  pose proof (StageA.wf_itcm _ Hw) as (_ & Hi & _). pose proof (StageA.wf_dtcm _ Hw) as (_ & Hd & _).
  destruct (StageA.inItcm _ _ _) eqn:E1.
  { apply StageA.inItcm_iff in E1; unfold StageA.kCsrOffset, StageA.kDtcmOffset in *; lia || done. }
  destruct (StageA.inDtcm _ _ _) eqn:E2.
  { apply StageA.inDtcm_iff in E2; unfold StageA.kCsrOffset, StageA.kDtcmOffset in *; lia || done. }
  change (StageA.inCsr StageA.kCsrOffset 4) with true. cbn iota.
  unfold StageA.writeCsr. by rewrite Hs.
Qed.

Lemma status_read d p :
  StageA.wf (backend d) -> word_packet d p (StageA.kCsrOffset + 8) ->
  StageA.read p (pioAddr (cfg d)) (backend d) =
    Ret (true, makeAtomicResponse (setLE (Z.lor (if StageA.halted (backend d) then 1 else 0)
           (if StageA.fault (backend d) then 2 else 0)) p), backend d).
Proof.
  intros Hw (Hp & Hs & ->). unfold StageA.read.
  rewrite (StageA.packet_offset (pkwf := pkwf) _ _ _ Hw Hp) by lia. rewrite Hs.
  pose proof (StageA.wf_itcm _ Hw) as (_ & Hi & _). pose proof (StageA.wf_dtcm _ Hw) as (_ & Hd & _).
  destruct (StageA.inItcm _ _ _) eqn:E1.
  { apply StageA.inItcm_iff in E1; unfold StageA.kCsrOffset, StageA.kDtcmOffset in *; lia || done. }
  destruct (StageA.inDtcm _ _ _) eqn:E2.
  { apply StageA.inDtcm_iff in E2; unfold StageA.kCsrOffset, StageA.kDtcmOffset in *; lia || done. }
  change (StageA.inCsr (StageA.kCsrOffset + 8) 4) with true. cbn iota.
  unfold StageA.readCsr. rewrite Hs. done.
Qed.

End stagea.
