(* ===== verification/NpuSystem.v ===== *)
(** * The NPU device with its back ends

    Functional DMA as a flat memory; a DMA read of the RTL core from the
    host's memory to the core's port; a run of the stage-A back end from the
    host's release to its status register; a drain that is never reported. *)

From Stdlib Require Import SpecFloat.
From S2P Require Import Prelude Axi CustomMac Operator HybridDispatch EnvParse Bridge BridgeSpec.
From S2P Require Import Drain Gem5 StageA Verilated VerilatedSpec NpuDevice NpuSpec.

(** ** Functional DMA is a flat memory *)

Section flat.
Context {B G : Type} {HG : Gem5 G} {host : G -> Z -> Z} {HH : Gem5Laws G host}.

Abbreviation device := (NPUDevice B G).

(** The requests of a run, each at the host address [startBackendDma]
    computes; the data arrays they leave. *)
Fixpoint fast_run (rs : list CoralDmaRequest) (d : device) : res (list (list Z) * device) :=
  match rs with
  | [] => Ret ([], d)
  | r :: rs =>
      '(data, d1) ← fastDmaAccess r
          (u64 (dmaSharedBase (cfg d) + u64 (dma_addr r - dmaExtmemBase (cfg d))))
          (dma_data r) d;
      '(more, d2) ← fast_run rs d1;
      Ret (data :: more, d2)
  end.

(** The same requests on a memory without pages; [off] is the offset of the
    request in the shared memory. *)
Definition flat_access (base : Z) (r : CoralDmaRequest) (m : Z -> Z) : list Z * (Z -> Z) :=
  let off := dma_addr r - base in
  match dma_type r with
  | Read => ((m <$> seqZ off (dma_size r)) ++ drop (Z.to_nat (dma_size r)) (dma_data r), m)
  | Write => (dma_data r, overlay m off (take (Z.to_nat (dma_size r)) (dma_data r)))
  end.

Fixpoint flat_run (base : Z) (rs : list CoralDmaRequest) (m : Z -> Z) :
    list (list Z) * (Z -> Z) :=
  match rs with
  | [] => ([], m)
  | r :: rs =>
      let '(data, m1) := flat_access base r m in
      let '(more, m2) := flat_run base rs m1 in (data :: more, m2)
  end.

(** A request of the core inside the window. *)
Definition in_window (c : npu_config) (r : CoralDmaRequest) : Prop :=
  request_fits r /\ dma_rejected c r = false.

Lemma flat_access_ext c r m m' :
  config_ok c -> in_window c r ->
  (forall i, 0 <= i < dmaSharedSize c -> m i = m' i) ->
  (flat_access (dmaExtmemBase c) r m).1 = (flat_access (dmaExtmemBase c) r m').1 /\
  forall i, 0 <= i < dmaSharedSize c ->
    (flat_access (dmaExtmemBase c) r m).2 i = (flat_access (dmaExtmemBase c) r m').2 i.
Proof.
  intros (He & _ & Hb & Hs & _) [(F1 & F2 & _) Hr] Hm. unfold flat_access.
  unfold dma_rejected in Hr. rewrite !orb_false_iff, !Z.ltb_ge, Z.leb_gt in Hr.
  destruct Hr as [[R1 R2] R3].
  rewrite (wrap_small 64 (dma_addr r - dmaExtmemBase c)) in R2, R3 by lia.
  rewrite wrap_small in R3 by lia.
  destruct (dma_type r); simpl.
  - split; [| done]. f_equal. apply list_fmap_ext. intros k i Hk. apply lookup_seqZ in Hk.
    apply Hm. lia.
  - split; [done |]. intros i Hi. apply overlay_ext, Hm, Hi.
Qed.

Lemma fast_run_spec rs (d : device) m :
  config_ok (cfg d) -> cache_ok (host := host) d -> Forall (in_window (cfg d)) rs ->
  (forall i, 0 <= i < dmaSharedSize (cfg d) -> view (host := host) d i = m i) ->
  exists outs d', fast_run rs d = Ret (outs, d') /\ cache_ok (host := host) d' /\
    same_device d d' /\ (forall i, host (gem5 d') i = host (gem5 d) i) /\
    outs = (flat_run (dmaExtmemBase (cfg d)) rs m).1 /\
    forall i, 0 <= i < dmaSharedSize (cfg d) ->
      view (host := host) d' i = (flat_run (dmaExtmemBase (cfg d)) rs m).2 i.
Proof.
  revert d m. induction rs as [|r rs IH]; intros d m Hcf Hok HF Hv.
  { exists [], d. done. }
  apply Forall_cons_1 in HF as [Hr HF]. cbn [fast_run flat_run].
  destruct (window_request d r Hcf (proj1 Hr) (proj2 Hr)) as [-> Hat].
  destruct (fastDmaAccess_spec d r _ Hok Hat) as (data & d1 & E1 & Hok1 & Hs1 & Hm1 & Ht).
  rewrite E1. cbn [mbind res_bind]. pose proof (proj1 Hs1) as Ec.
  assert (data = (flat_access (dmaExtmemBase (cfg d)) r (view (host := host) d)).1 /\
    forall i, 0 <= i < dmaSharedSize (cfg d) ->
      view (host := host) d1 i =
      (flat_access (dmaExtmemBase (cfg d)) r (view (host := host) d)).2 i) as [Ed Hv1].
  { unfold flat_access. destruct (dma_type r); apply Ht. }
  destruct (flat_access_ext (cfg d) r _ m Hcf Hr Hv) as [X1 X2].
  destruct (flat_access (dmaExtmemBase (cfg d)) r m) as [data1 m1]. simpl in X1, X2.
  destruct (IH d1 m1) as (outs & d2 & E2 & Hok2 & Hs2 & Hm2 & Eo & Hv2); rewrite ?Ec; try done.
  { intros i Hi. rewrite Hv1, X2; done. }
  rewrite Ec in Eo, Hv2. rewrite E2. cbn [mbind res_bind]. exists (data :: outs), d2.
  split; [done |]. split; [done |]. split; [by eapply same_device_trans |].
  split; [intros i; by rewrite Hm2, Hm1 |].
  destruct (flat_run _ rs m1) as [more m2]. simpl in *. split; [congruence | done].
Qed.

End flat.

(** C13: functional DMA is a flat memory.  From a cache in good order, any
    sequence of requests of the core inside the window returns what the same
    requests on a plain byte memory with the host's contents return; and once
    the cache is flushed the host's shared memory holds exactly what that
    memory holds, the rest of the host's memory being untouched. *)
Theorem fast_dma_refines {B G} {HG : Gem5 G} {host : G -> Z -> Z} {HH : Gem5Laws G host}
    (rs : list CoralDmaRequest) (d : NPUDevice B G) :
  config_ok (cfg d) -> cache_ok (host := host) d -> Forall (in_window (cfg d)) rs ->
  let base := dmaSharedBase (cfg d) in
  let '(outs, m) := flat_run (dmaExtmemBase (cfg d)) rs (view (host := host) d) in
  exists d1 d2, fast_run rs d = Ret (outs, d1) /\ flushFastDmaCache d1 = Ret d2 /\
    (forall i, 0 <= i < dmaSharedSize (cfg d) -> host (gem5 d2) (base + i) = m i) /\
    (forall i, ~ base <= i < base + dmaSharedSize (cfg d) ->
       host (gem5 d2) i = host (gem5 d) i) /\
    cache_ok (host := host) d2 /\ backend d2 = backend d.
Proof.
  intros Hcf Hok HF base.
  destruct (fast_run_spec rs d (view (host := host) d) Hcf Hok HF ltac:(done))
    as (outs & d1 & E1 & Hok1 & Hs1 & Hm1 & Eo & Hv1).
  destruct (flat_run _ rs _) as [outs' m]. simpl in Eo, Hv1. subst outs'.
  destruct (flush_spec d1 Hok1) as (d2 & E2 & Hok2 & Hs2 & Hv2 & Ho2).
  pose proof (proj1 Hs1) as Ec. rewrite Ec in Hv2, Ho2.
  exists d1, d2. split; [done |]. split; [done |]. split; [| split; [| split; [done |]]].
  - intros i Hi. etrans; [apply (Hv2 i Hi) | by apply Hv1].
  - intros i Hi. rewrite Ho2 by done. apply Hm1.
  - destruct Hs1 as (_ & _ & _ & _ & _ & B1 & _), Hs2 as (_ & _ & _ & _ & _ & B2 & _). congruence.
Qed.

(** A board with two pages of shared memory, the second one short. *)
Definition sample_config : npu_config :=
  {| pioAddr := 0x2d000000; pioSize := 0x31000; pioDelay := 10; dmaExtmemBase := 0x20000000;
     dmaSharedBase := 0x8ff00000; dmaSharedSize := 6000; fastDma := true;
     fastDmaEventBatch := 4; fastDmaSyncOffset := 0; fastDmaSyncSize := 16;
     backendId := kStageABackendId; firmwareEntry := 0 |}.

Lemma sample_config_ok : config_ok sample_config.
Proof. vm_compute. intuition discriminate. Qed.

(** A memory with a few bytes in it. *)
Definition sample_sim : sim :=
  {| sim_tick := 100; sim_event := None; sim_drain := Running; sim_block := 64;
     sim_mem := blit ∅ (0x8ff00000 + 8) [11; 12; 13; 14; 15; 16; 17; 18];
     sim_dma := [] |}.

Definition sample_device {B} (b : B) : NPUDevice B sim :=
  {| cfg := sample_config; dmaActive := false; dmaRequests := 0; dmaCompletions := 0;
     dmaErrors := 0; fastDmaCache := buf_new 6000; fastDmaPageValid := [false; false];
     fastDmaPageDirty := [false; false]; backend := b; gem5 := sample_sim |}.

Lemma sample_cache_ok {B} (b : B) : cache_ok (host := sim_host) (sample_device b).
Proof.
  assert (forall i, page_flag [false; false] i = false) as Hf.
  { intros i. unfold page_flag. by destruct (Z.to_nat _) as [|[|]]. }
  split; [vm_compute; intuition discriminate | done | apply buf_bytes_new | done | done | |].
  - intros i _. simpl. by rewrite !Hf.
  - intros i _. simpl. by rewrite !Hf.
Qed.

Definition sample_request (type : CoralDmaType) (addr size : Z) : CoralDmaRequest :=
  {| dma_type := type; dma_addr := addr; dma_size := size; dma_data := replicate 4096 7 |}.

Lemma sample_request_window type addr size :
  1 <= size -> 0x20000000 <= addr -> addr mod 4096 + size <= 4096 ->
  addr + size <= 0x20000000 + 6000 -> in_window sample_config (sample_request type addr size).
Proof.
  intros H1 H2 H3 H4. pose proof (Z.div_mod addr 4096 ltac:(lia)).
  pose proof (Z.mod_pos_bound addr 4096 ltac:(lia)). split.
  - unfold request_fits, CORAL_DMA_DATA_BYTES. cbn [dma_size dma_addr dma_data sample_request].
    rewrite length_replicate. split; [lia |]. split; [lia |]. split; [| split; [lia |]].
    + apply Z.div_unique with (r := addr mod 4096 + size - 1); lia.
    + apply Forall_replicate. unfold is_byte. lia.
  - unfold dma_rejected. cbn [dma_size dma_addr sample_request dmaExtmemBase dmaSharedSize sample_config].
    rewrite (wrap_small 64 (addr - _)) by lia. rewrite wrap_small by lia.
    rewrite !orb_false_iff, !Z.ltb_ge, Z.leb_gt. lia.
Qed.

Lemma fast_dma_refines_witness :
  exists outs d1 d2,
    fast_run [sample_request Write 0x20000008 2; sample_request Read 0x20000008 4]
      (sample_device tt) = Ret (outs, d1) /\
    flushFastDmaCache d1 = Ret d2 /\ sim_host (gem5 d2) (0x8ff00000 + 9) = 7 /\
    sim_host (gem5 d2) 5 = sim_host sample_sim 5.
Proof.
  assert (Forall (in_window sample_config)
    [sample_request Write 0x20000008 2; sample_request Read 0x20000008 4]) as HF.
  { repeat (apply List.Forall_cons || apply List.Forall_nil);
      apply sample_request_window; vm_compute; discriminate. }
  pose proof (fast_dma_refines (host := sim_host) _ (sample_device tt) sample_config_ok
    (sample_cache_ok tt) HF) as H.
  destruct (flat_run _ _ _) as [outs m] eqn:Ef in H.
  destruct H as (d1 & d2 & E1 & E2 & Hin & Hout & _).
  exists outs, d1, d2. split; [exact E1 |]. split; [exact E2 |]. split.
  - etrans; [apply Hin; vm_compute; split; [discriminate | reflexivity] |].
    injection Ef as _ <-. vm_compute. reflexivity.
  - apply Hout. vm_compute. intros [H _]. by apply H.
Defined.

(** ** A DMA read of the core *)

Section rtl.
Context {W : Type} {HW : Wrapper W} {HS : SingleIssue W} {HC : BlockingCore W}.

(** Completing a read hands the core beats that hold the data. *)
Lemma complete_read_beats t (v v' : Verilated.CoralVerilatedBackend W) b data :
  copies v b -> Verilated.dmaRequestPending v = true ->
  dma_type (Verilated.pendingDmaRequest v) = Read -> Forall is_byte data ->
  dma_size (Verilated.pendingDmaRequest v) <= Z.of_nat (length data) ->
  Verilated.completeDma t (Some data) (dma_size (Verilated.pendingDmaRequest v)) false v = Ret v' ->
  exists a rs, axi_addr_wf a /\ burst_ok a /\
    addr_bits_addr a = dma_addr (Verilated.pendingDmaRequest v) /\
    addr_bits_id a = req_id (pending_dma (dma (br_handle b))) /\
    Verilated.modelHandle v' =
      Some {| br_wrapper := w_queue_read (br_wrapper b) rs;
              br_handle := dma_clear (br_handle b) |} /\
    payload a (as_wdata <$> rs) (addr_bits_len a + 1) =
      take (Z.to_nat (dma_size (Verilated.pendingDmaRequest v))) data.
Proof.
  intros (E & Hok & Hc) Hp Ht Hby Hl H. destruct (Hc Hp) as [Hd Er].
  pose proof (bridge_request b Hok Hd) as (_ & _ & _ & _ & _ & _ & Hty).
  rewrite Er in *. unfold of_bridge in *. simpl in Ht, Hl, H |- *.
  destruct Hty as [Ety|(Ety & a & Ha & Hok' & E1 & E2 & E3 & E4 & E5)].
  { rewrite Ety in Ht. done. }
  unfold Verilated.completeDma in H. rewrite Hp, Er, E in H. unfold of_bridge in H.
  cbn [negb fatal_if mbind res_bind dma_type] in H. rewrite Ety in H.
  cbn [Z.eqb Pos.eqb CORAL_GEM5_DMA_READ] in H.
  unfold coral_gem5_dma_complete in H. rewrite Hd, Ety, Z.eqb_refl in H.
  cbn [negb Z.eqb Pos.eqb CORAL_GEM5_DMA_READ fatal_if mbind res_bind] in H.
  rewrite Z.eqb_refl in H. cbn [negb Z.eqb fatal_if mbind res_bind] in H.
  injection H as <-. exists a. eexists. do 2 (split; [done |]). split; [by rewrite E1 |].
  split; [done |]. split; [done |].
  assert (0 <= addr_bits_len a) by apply Ha. rewrite E1, E2, E3, E4, E5.
  rewrite payload_read_beats; try done; try lia. by rewrite (Z.mul_comm (2 ^ _)).
Qed.

End rtl.


(** The back end after the event in which its core started the read. *)
Definition reading_backend : Verilated.CoralVerilatedBackend one_read :=
  match Verilated.processEvent true no_exp 1 1 7 started_backend with
  | Ret v => v
  | _ => started_backend
  end.

Lemma reading_in_order : in_order 1000000 100 reading_backend.
Proof.
  destruct (verilated_laws (P := packet) (pkwf := packet_wf) true no_exp 1 1 1000000)
    as [_ Hlater _ _ Hproc _ _ _ _ _].
  apply (Hlater 7); [| lia | vm_compute; discriminate].
  apply (Hproc 7 started_backend); [lia | exact started_in_order | reflexivity].
Qed.


(** ** A run of the stage-A back end *)

#[local] Existing Instance StageA.backend.

Section run.
Context {G : Type} {HG : Gem5 G} {host : G -> Z -> Z} {HH : Gem5Laws G host}.
Context {P : Type} {HP : Packet P} {pkwf : P -> Prop} {HL : PacketLaws P pkwf}.

Abbreviation device := (NPUDevice StageA.CoralStageABackend G).

Lemma control_offset (d : device) (p : P) off :
  StageA.wf (backend d) -> word_packet (pkwf := pkwf) d p off ->
  u64 (getAddr p - pioAddr (cfg d)) = off.
Proof.
  intros Hw (Hp & Hs & ->). apply (StageA.packet_offset (pkwf := pkwf)); done || lia.
Qed.

(** A write of the reset-control register in timing mode. *)
Lemma device_control_write (d : device) (p : P) :
  fastDma (cfg d) = false -> StageA.wf (backend d) ->
  word_packet (pkwf := pkwf) d p kResetControlOffset ->
  let b := StageA.writeControl (tick_of d) (getLE p) (backend d) in
  (StageA.pendingEventTick b <> 0 -> tick_of d <= StageA.pendingEventTick b) ->
  exists d1, write p d = Ret (pioDelay (cfg d), makeAtomicResponse p, d1) /\
    backend d1 = b /\ cfg d1 = cfg d /\ dmaActive d1 = dmaActive d /\
    event_synced (P := P) d1 /\ drainState (gem5 d1) = drainState (gem5 d).
Proof.
  intros Hf Hw Hp b Ht. unfold write. rewrite Hf. cbn [andb mbind res_bind].
  unfold be_write. cbn [StageA.backend].
  rewrite (control_write (pkwf := pkwf) d p _ Hw Hp). cbn [mbind res_bind]. fold b.
  cbn [cfg with_backend]. rewrite Hf. cbn [andb].
  destruct (syncBackendEvent_spec (P := P) (host := host) (with_backend b d))
    as (d1 & E & Hs & Hsame & Hd).
  { simpl. intros H. apply negb_true_iff, Z.eqb_neq in H. by apply Ht. }
  rewrite E. cbn [mbind res_bind]. exists d1. split; [done |].
  destruct Hsame as [Ed _]. rewrite Ed in Hs |- *. done.
Qed.

(** The event of a run that is under way. *)
Lemma device_halt (d : device) :
  fastDma (cfg d) = false -> dmaActive d = false ->
  exists d2, processBackendEvent (P := P) d = Ret d2 /\ cfg d2 = cfg d /\
    backend d2 = StageA.completeExecution (backend d) /\ scheduled (gem5 d2) = false.
Proof.
  intros Hf Ha. unfold processBackendEvent. rewrite Hf. change (Z.to_nat 1) with 1%nat.
  assert (event_batches 1 d = Ret (with_backend (StageA.completeExecution (backend d)) d)) as ->.
  { simpl. unfold startBackendDma. simpl. rewrite Ha. simpl. by rewrite Hf. }
  cbn [mbind res_bind cfg with_backend]. rewrite Hf. cbn [andb mbind res_bind].
  destruct (syncBackendEvent_spec (P := P) (host := host)
    (with_backend (StageA.completeExecution (backend d)) d)) as (d1 & E & Hs & Hsame & _).
  { done. }
  rewrite E. cbn [mbind res_bind].
  destruct (checkDrainDone_spec (host := host) d1 Hs) as (Hs2 & [E2 _] & _).
  destruct Hsame as [E1 _]. eexists. split; [done |].
  assert (backend (checkDrainDone (P := P) d1) = StageA.completeExecution (backend d)) as Eb.
  { rewrite E2, E1. done. }
  split; [by rewrite E2, E1 |]. split; [done |]. destruct Hs2 as [-> _]. by rewrite Eb.
Qed.

Lemma device_status (d : device) (q : P) :
  StageA.wf (backend d) -> scheduled (gem5 d) = StageA.hasPendingEvent (backend d) ->
  StageA.pendingEventTick (backend d) = 0 ->
  word_packet (pkwf := pkwf) d q (kResetControlOffset + 8) ->
  exists q', read q d = Ret (pioDelay (cfg d), q', d) /\ isError q' = isError q /\
    writeData q' = le_bytes 4 (Z.lor (if StageA.halted (backend d) then 1 else 0)
                                 (if StageA.fault (backend d) then 2 else 0)).
Proof.
  intros Hw Hs Hp Hq. unfold read. rewrite (control_offset d q _ Hw Hq).
  change (shell_register d (kResetControlOffset + 8)) with (@None Z). cbn iota.
  unfold be_read. cbn [StageA.backend].
  rewrite (status_read (pkwf := pkwf) d q Hw Hq). cbn [mbind res_bind].
  destruct Hq as ((Hk & _) & H4 & _).
  destruct (pk_setLE (Z.lor (if StageA.halted (backend d) then 1 else 0)
    (if StageA.fault (backend d) then 2 else 0)) q Hk H4) as (W1 & D1 & _ & E1).
  destruct (pk_response _ W1) as (_ & D2 & _ & E2).
  assert (with_backend (backend d) d = d) as -> by (by destruct d).
  unfold syncBackendEvent, hasPendingEvent. cbn [StageA.backend].
  unfold StageA.hasPendingEvent in *. rewrite Hp in Hs |- *. cbn [negb Z.eqb] in Hs |- *.
  rewrite Hs. cbn [mbind res_bind]. eexists. split; [done |]. split; [congruence |].
  rewrite D2, D1. done.
Qed.

End run.

(** A run of the stage-A back end, from the host's side.  With the core in
    reset, a write of zero to the reset-control register at tick [t] schedules
    the device's event for [t] plus the execution latency; when the simulator
    delivers that event the run is over: no event remains, and a read of the
    status register returns 1 (halted, no fault). *)
Theorem stagea_run {G} {HG : Gem5 G} {host : G -> Z -> Z} {HH : Gem5Laws G host}
    {P} {HP : Packet P} {pkwf : P -> Prop} {HL : PacketLaws P pkwf}
    (d : NPUDevice StageA.CoralStageABackend G) (p q : P) :
  let b := backend d in
  let t := tick_of d in
  let stop := t + StageA.executionLatency b in
  StageA.wf b -> fastDma (cfg d) = false -> dmaActive d = false -> 0 <= t ->
  0 < stop < 2 ^ 64 -> 0 <= StageA.executionLatency b ->
  StageA.autoHalt b = true -> Z.land (StageA.resetControl b) 1 = 1 ->
  word_packet (pkwf := pkwf) d p kResetControlOffset -> getLE p = 0 ->
  word_packet (pkwf := pkwf) d q (kResetControlOffset + 8) -> isError q = false ->
  exists d1, write p d = Ret (pioDelay (cfg d), makeAtomicResponse p, d1) /\
    scheduled (gem5 d1) = true /\ event_when (gem5 d1) = stop /\
    forall g, curTick g = stop -> scheduled g = false ->
      exists d2 q', processBackendEvent (P := P) (with_gem5 g d1) = Ret d2 /\
        scheduled (gem5 d2) = false /\
        read q d2 = Ret (pioDelay (cfg d), q', d2) /\ isError q' = false /\
        writeData q' = [1; 0; 0; 0].
Proof.
  intros b t stop Hw Hf Ha H0 Hstop Hlat Hauto Hrst Hp Hv Hq Hqe.
  assert (StageA.writeControl t 0 b = StageA.startExecution t (StageA.with_csr 0 (StageA.pcStart b) b))
    as Ewc.
  { unfold StageA.writeControl. change (Z.land 0 _) with 0. cbn [Z.land Z.eqb negb].
    unfold StageA.kResetBit. by rewrite Hrst. }
  assert (StageA.pendingEventTick (StageA.writeControl t 0 b) = stop) as Etick.
  { rewrite Ewc. simpl. rewrite Hauto. apply wrap_small. lia. }
  destruct (device_control_write (host := host) (pkwf := pkwf) d p Hf Hw Hp)
    as (d1 & E1 & Eb & Ec & Ea & [Hs1 Hs2] & _); rewrite Hv in *.
  { fold t b. rewrite Etick. lia. }
  fold t b in Eb. unfold hasPendingEvent in Hs1, Hs2. cbn [StageA.backend] in Hs1, Hs2.
  assert (StageA.hasPendingEvent (backend d1) = true) as Hpend.
  { unfold StageA.hasPendingEvent. rewrite Eb, Etick. destruct (Z.eqb_spec stop 0); [lia | done]. }
  exists d1. split; [exact E1 |]. split; [by rewrite Hs1 |]. split.
  { rewrite Hs2 by done. cbn. unfold StageA.nextEventTick. by rewrite Eb. }
  intros g Hg Hgs.
  destruct (device_halt (host := host) (P := P) (with_gem5 g d1)) as (d2 & E2 & Ec2 & Eb2 & Hsch).
  { simpl. by rewrite Ec. } { simpl. by rewrite Ea. }
  cbn [backend with_gem5 cfg] in Eb2, Ec2.
  assert (StageA.wf (backend d2)) as Hw2.
  { rewrite Eb2, Eb. destruct (StageA.writeControl_wf t 0 b Hw). by split. }
  destruct (device_status (pkwf := pkwf) d2 q Hw2) as (q' & E3 & Hq1 & Hq2).
  { rewrite Eb2. done. } { by rewrite Eb2. }
  { destruct Hq as (Hq & H4 & Hpio). unfold word_packet, StageA.packet_at in *.
    rewrite Eb2, Ec2, Eb, Ewc, Ec. done. }
  exists d2, q'. split; [done |]. split; [done |]. split; [by rewrite E3, Ec2, Ec |].
  split; [congruence |]. rewrite Hq2, Eb2, Eb, Ewc. done.
Qed.

(** ** Draining *)


(** The sample device in timing mode. *)
Definition timing_device (b : StageA.CoralStageABackend) (g : sim) :
    NPUDevice StageA.CoralStageABackend sim :=
  {| cfg := {| pioAddr := 0x2d000000; pioSize := 0x31000; pioDelay := 10;
               dmaExtmemBase := 0x20000000; dmaSharedBase := 0x8ff00000; dmaSharedSize := 6000;
               fastDma := false; fastDmaEventBatch := 4; fastDmaSyncOffset := 0;
               fastDmaSyncSize := 16; backendId := kStageABackendId; firmwareEntry := 0 |};
     dmaActive := false; dmaRequests := 0; dmaCompletions := 0; dmaErrors := 0;
     fastDmaCache := buf_new 0; fastDmaPageValid := []; fastDmaPageDirty := [];
     backend := b; gem5 := g |}.

Lemma sample_word_packet b g off data :
  StageA.pioAddr b = 0x2d000000 -> StageA.pioSize b = 0x31000 ->
  0 <= off <= 0x30ffc -> length data = 4%nat -> Forall is_byte data ->
  word_packet (pkwf := packet_wf) (timing_device b g) (StageA.sample_packet off data) off.
Proof.
  intros E1 E2 Ho Hl Hb. unfold word_packet, StageA.packet_at. simpl. rewrite E1, E2, Hl.
  split; [| done]. split; [| lia]. split; [simpl; lia |]. by split.
Qed.

Ltac byte_list :=
  repeat (apply List.Forall_cons || apply List.Forall_nil); unfold is_byte; lia.

Lemma stagea_run_witness :
  exists d1, write (StageA.sample_packet 0x30000 [0; 0; 0; 0])
      (timing_device StageA.sample_backend sample_sim) =
      Ret (10, makeAtomicResponse (StageA.sample_packet 0x30000 [0; 0; 0; 0]), d1) /\
    event_when (gem5 d1) = 1000100.
Proof.
  destruct (stagea_run (host := sim_host) (pkwf := packet_wf)
    (timing_device StageA.sample_backend sample_sim)
    (StageA.sample_packet 0x30000 [0; 0; 0; 0]) (StageA.sample_packet 0x30008 [0; 0; 0; 0]))
    as (d1 & E & _ & Hw & _); try reflexivity.
  - exact StageA.sample_wf.
  - vm_compute. discriminate.
  - vm_compute. split; reflexivity.
  - vm_compute. discriminate.
  - apply (sample_word_packet StageA.sample_backend sample_sim 0x30000);
      [done | done | lia | done | byte_list].
  - apply (sample_word_packet StageA.sample_backend sample_sim 0x30008);
      [done | done | lia | done | byte_list].
  - exists d1. split; [exact E | exact Hw].
Defined.

(** A run that is under way while the simulator drains. *)
Definition draining_sim : sim :=
  {| sim_tick := 100; sim_event := Some 1000100; sim_drain := Draining; sim_block := 64;
     sim_mem := ∅; sim_dma := [] |}.
Definition running_backend : StageA.CoralStageABackend :=
  StageA.writeControl 100 0 StageA.sample_backend.


(** The device of the sample board after the host has released the core. *)
Definition released_device : NPUDevice StageA.CoralStageABackend sim :=
  match write (StageA.sample_packet 0x30000 [0; 0; 0; 0])
          (timing_device StageA.sample_backend sample_sim) with
  | Ret (_, _, d) => d
  | _ => timing_device StageA.sample_backend sample_sim
  end.

Lemma device_event_synced_witness :
  scheduled (gem5 released_device) = true /\ event_when (gem5 released_device) = 1000100.
Proof.
  assert (StageA.in_order 1000000000 100 StageA.sample_backend) as Ho.
  { split; [exact StageA.sample_wf |]. vm_compute. intuition discriminate. }
  destruct (device_event_synced (P := packet) (pkwf := packet_wf) (horizon := 1000000000)
    (ok := StageA.in_order 1000000000) (host := sim_host) (HBL := StageA.stagea_laws 1000000000)
    released_device) as (H1 & H2 & _).
  - apply (dr_write (timing_device StageA.sample_backend sample_sim)
      (StageA.sample_packet 0x30000 [0; 0; 0; 0]) 10
      (makeAtomicResponse (StageA.sample_packet 0x30000 [0; 0; 0; 0]))).
    + apply (dr_make (cfg (timing_device StageA.sample_backend sample_sim))
        StageA.sample_backend sample_sim); [| reflexivity | exact Ho | reflexivity].
      vm_compute. intuition discriminate.
    + split; [simpl; lia |]. split; [reflexivity | byte_list].
    + reflexivity.
  - split; [rewrite H1; reflexivity |]. destruct (H2 eq_refl) as [E _]. rewrite E. reflexivity.
Defined.
