(* ===== verification/NpuDrain.v ===== *)
(** * The NPU device under the drain manager

    The device's view of draining, a class in [Gem5.v], provided by the drain
    manager of [Drain.v]: a simulator whose drain state is the manager's entry
    of the device.  Whenever the device finds itself quiescent after an event or
    a completed DMA, the manager has its report. *)

From S2P Require Import Prelude Drain DrainSpec Gem5 StageA NpuDevice NpuSpec NpuSystem.

Section managed.
Context {G : Type} {HG : Gem5 G} (host : G -> Z -> Z) {HL : Gem5Laws G host}.
(** The device's number, and how often the loop had been left when the drain
    began. *)
Context (npu : Z) (before : nat).

(** A simulator with the drain manager in it, during a drain: the loop has been
    left once more exactly if no object is draining any more. *)
Record managed := {
  mgr : DrainManager G;
  mgr_ok : dm_inv mgr;
  mgr_npu : npu ∈ _allDrainable mgr;
  mgr_left : exits mgr = (before + if decide (draining mgr = []) then 1 else 0)%nat }.

Definition simulator (g : managed) : G := rest (mgr g).

Lemma dm_inv_rest (m : DrainManager G) w : dm_inv m -> dm_inv (set_rest w m).
Proof. by intros []; split. Qed.

(** Another simulator under the same manager. *)
Definition with_sim (w : G) (g : managed) : managed :=
  {| mgr := set_rest w (mgr g); mgr_ok := dm_inv_rest (mgr g) w (mgr_ok g);
     mgr_npu := mgr_npu g; mgr_left := mgr_left g |}.

Lemma signal_keeps (g : managed) m' :
  Drain.signalDrainDone npu (mgr g) = Ret m' ->
  dm_inv m' /\ npu ∈ _allDrainable m' /\ rest m' = rest (mgr g) /\
  (forall x, x ∈ draining m' <-> x ∈ draining (mgr g) /\ x <> npu) /\
  exits m' = (before + if decide (draining m' = []) then 1 else 0)%nat.
Proof.
  intros E. destruct (signal_spec (mgr g) npu (mgr_ok g) (mgr_npu g)) as (m & Em & Hi & _ & Ha & Hd & Hx).
  assert (m = m') as -> by congruence. split; [done |]. split; [rewrite Ha; apply mgr_npu |].
  split; [by apply signal_rest in E |]. split; [done |]. rewrite Hx, (mgr_left g).
  pose proof (removed_nil _ _ npu (draining_nodup _ (mgr_ok g)) Hd) as Hn.
  destruct (decide (draining m' = [])) as [E1|E1]; destruct (decide (draining (mgr g) = [])) as [E2|E2];
    destruct (decide (draining (mgr g) = [npu])) as [E3|E3]; try lia; exfalso; intuition congruence.
Qed.

Definition signal_managed (g : managed) : managed :=
  match Drain.signalDrainDone npu (mgr g) as r return Drain.signalDrainDone npu (mgr g) = r -> managed with
  | Ret m' => fun E =>
      {| mgr := m'; mgr_ok := proj1 (signal_keeps g m' E);
         mgr_npu := proj1 (proj2 (signal_keeps g m' E));
         mgr_left := proj2 (proj2 (proj2 (proj2 (signal_keeps g m' E)))) |}
  | _ => fun _ => g
  end eq_refl.

(** The manager always takes the report. *)
Lemma signal_managed_spec g :
  Drain.signalDrainDone npu (mgr g) = Ret (mgr (signal_managed g)) /\
  simulator (signal_managed g) = simulator g /\
  (forall x, x ∈ draining (mgr (signal_managed g)) <-> x ∈ draining (mgr g) /\ x <> npu).
Proof.
  assert (Drain.signalDrainDone npu (mgr g) = Ret (mgr (signal_managed g))) as E.
  { destruct (signal_spec (mgr g) npu (mgr_ok g) (mgr_npu g)) as (m & Em & _). unfold signal_managed.
    generalize (signal_keeps g). rewrite Em. intros H. done. }
  split; [done |]. destruct (signal_keeps g _ E) as (_ & _ & Hr & Hd & _). by split.
Qed.

#[export] Instance managed_gem5 : Gem5 managed := {|
  curTick g := curTick (simulator g);
  scheduled g := scheduled (simulator g);
  event_when g := event_when (simulator g);
  schedule t g := w ← schedule t (simulator g); Ret (with_sim w g);
  deschedule g := w ← deschedule (simulator g); Ret (with_sim w g);
  drainState g := default Running (_drainState (mgr g) !! npu);
  signalDrainDone := signal_managed;
  cacheBlockSize g := cacheBlockSize (simulator g);
  sendFunctional cmd a bs g :=
    let '(error, bs', w) := sendFunctional cmd a bs (simulator g) in (error, bs', with_sim w g);
  dmaReadVirt a n bs g := with_sim (dmaReadVirt a n bs (simulator g)) g;
  dmaWriteVirt a n bs g := with_sim (dmaWriteVirt a n bs (simulator g)) g |}.

(** The device is draining exactly if the manager counts it. *)
Lemma npu_draining (g : managed) : Gem5.drainState g = Draining <-> npu ∈ draining (mgr g).
Proof.
  rewrite elem_draining. simpl. pose proof (mgr_npu g).
  destruct (_drainState (mgr g) !! npu) as [o|]; simpl; [| by intuition].
  split; [by intros -> | by intros [_ [= ->]]].
Qed.

Lemma signal_drained g : Gem5.drainState g = Draining -> Gem5.drainState (signal_managed g) = Drained.
Proof.
  intros Hd. destruct (signal_managed_spec g) as [E _]. simpl in Hd |- *.
  unfold Drain.signalDrainDone, Drain.drainState in E.
  destruct (_drainState (mgr g) !! npu) as [o|] eqn:Eo; [| done]. simpl in Hd. subst o.
  cbn [mbind res_bind] in E. unfold manager_signalDrainDone in E.
  apply bind_ret_inv in E as ([] & _ & [= <-]).
  case_match; cbn [_drainState exitSimLoop set_count set_drainState]; by rewrite lookup_insert_eq.
Qed.

#[export] Instance managed_laws : Gem5Laws managed (fun g => host (simulator g)).
Proof.
  split.
  - intros t g Ht Hs. destruct (g_schedule t (simulator g) Ht Hs) as (w & E & H). exists (with_sim w g).
    simpl. rewrite E. split; [done |]. destruct H as (H1 & H2 & _ & H4). by split_and!.
  - intros g Hs. destruct (g_deschedule (simulator g) Hs) as (w & E & H). exists (with_sim w g).
    simpl. rewrite E. split; [done |]. destruct H as (H1 & _ & H4). by split_and!.
  - intros g Hd. split; [by apply signal_drained |]. destruct (signal_managed_spec g) as (_ & Es & _).
    unfold same_memory. simpl. by rewrite Es.
  - intros g. apply (g_block (host := host) (simulator g)).
  - intros g i. apply (g_bytes (simulator g)).
  - intros a bs g Ha. destruct (g_read a bs (simulator g) Ha) as (w & E & H1 & H2 & _ & H4).
    exists (with_sim w g). simpl. rewrite E. by split_and!.
  - intros a bs g Ha F. destruct (g_write a bs (simulator g) Ha F) as (w & E & H1 & H2 & H3 & H4 & H5 & _).
    exists (with_sim w g). simpl. rewrite E. by split_and!.
  - intros cmd a bs g error bs' g' E. simpl in E.
    destruct (sendFunctional cmd a bs (simulator g)) as [[e b] w] eqn:Ew. injection E as _ _ <-.
    by apply g_time in Ew.
  - intros a n bs g. destruct (g_dma a n bs (simulator g)) as ((? & ? & _ & ?) & ? & ? & _ & ?). simpl. by split_and!.
Qed.

End managed.

Section device.
Context {P B G : Type} {HP : Packet P} {HB : CoralBackend P B} {HG : Gem5 G}.
Context {npu : Z} {before : nat}.
Implicit Types d : NPUDevice B (managed (G := G) npu before).

Lemma check_reported d :
  drain (P := P) (checkDrainDone (P := P) d) = Drained ->
  npu ∉ draining (mgr npu before (gem5 (checkDrainDone (P := P) d))).
Proof.
  unfold checkDrainDone. intros Hq Hin. apply npu_draining in Hin. revert Hq Hin.
  destruct (bool_decide _) eqn:Ed; cbn [andb].
  - apply bool_decide_eq_true in Ed. destruct (dmaQuiesced d) eqn:Eq.
    + intros _ Hin. cbn [gem5 with_gem5] in Hin. pose proof (signal_drained npu before (gem5 d) Ed) as Hd.
      simpl in Hin, Hd. rewrite Hd in Hin. done.
    + unfold drain. by rewrite Eq.
  - apply bool_decide_eq_false in Ed. done.
Qed.

End device.

(** C36: the drain manager learns that the NPU has drained.  Over the repository's drain manager, during a
    drain: whenever an event of the back end, a completed DMA or a failed one leaves the device
    quiescent, the manager no longer counts it as draining, its counter is the number of the other objects
    that still drain, and if there is none, the simulation loop has been left, exactly once. *)
Theorem npu_drain_reported {P B G} {HP : Packet P} {HB : CoralBackend P B} {HG : Gem5 G} npu before data
    (d d' : NPUDevice B (managed (G := G) npu before))
    (Hd : processBackendEvent (P := P) d = Ret d' \/ completeBackendDma (P := P) data d = Ret d' \/
          completeBackendDmaError (P := P) d = Ret d')
    (Hq : drain (P := P) d' = Drained) :
  let m := mgr npu before (gem5 d') in
  (npu ∉ draining m) /\ _count m = Z.of_nat (length (draining m)) /\
  (draining m = [] -> exits m = S before).
Proof.
  assert (exists d1, d' = checkDrainDone (P := P) d1) as [d1 ->].
  { destruct Hd as [H|[H|H]]; unfold processBackendEvent, completeBackendDma, completeBackendDmaError in H;
      repeat (apply bind_ret_inv in H as (? & _ & H)); injection H as <-; by eexists. }
  split; [by apply check_reported |]. split; [apply di_count, mgr_ok |]. intros Hn.
  pose proof (mgr_left npu before (gem5 (checkDrainDone (P := P) d1))) as Hx.
  rewrite decide_True in Hx by done. lia.
Qed.

(** ** A board that drains *)

#[local] Existing Instance StageA.backend.

(** Two objects, of which the NPU, number 1, still drains. *)
Definition board_manager : DrainManager sim :=
  {| _allDrainable := [1; 2]; _count := 1; _state := Draining;
     _drainState := list_to_map [(1, Draining); (2, Drained)]; exits := 0;
     rest := {| sim_tick := 1000100; sim_event := None; sim_drain := Running; sim_block := 64;
                sim_mem := ∅; sim_dma := [] |} |}.

Lemma board_inv : dm_inv board_manager.
Proof.
  split; try done.
  - apply (bool_decide_unpack _). reflexivity.
  - intros obj Ho. simpl in Ho. rewrite !elem_of_cons in Ho.
    destruct Ho as [->|[->|Ho]]; [by exists Draining; split; [| left] | by exists Drained; split; [| right] |].
    by apply elem_of_nil in Ho.
  - intros obj Ho. simpl in Ho |- *. rewrite !elem_of_cons in Ho.
    rewrite !lookup_insert_ne by naive_solver. done.
Qed.

Definition board : managed (G := sim) 1 0.
Proof. refine {| mgr := board_manager |}; [apply board_inv | by left | reflexivity]. Defined.

Definition board_device : NPUDevice StageA.CoralStageABackend (managed (G := sim) 1 0) :=
  {| cfg := cfg (timing_device running_backend draining_sim);
     dmaActive := false; dmaRequests := 0; dmaCompletions := 0; dmaErrors := 0;
     fastDmaCache := buf_new 0; fastDmaPageValid := []; fastDmaPageDirty := [];
     backend := running_backend; gem5 := board |}.

(** After the event that ends the run. *)
Definition board_after : NPUDevice StageA.CoralStageABackend (managed (G := sim) 1 0) :=
  match processBackendEvent (P := packet) board_device with Ret d => d | _ => board_device end.

Lemma npu_drain_reported_witness :
  drain (P := packet) board_device = Draining /\
  processBackendEvent (P := packet) board_device = Ret board_after /\
  exits (mgr 1 0 (gem5 board_after)) = 1%nat.
Proof.
  assert (processBackendEvent (P := packet) board_device = Ret board_after) as E by reflexivity.
  split; [reflexivity |]. split; [exact E |].
  apply (npu_drain_reported (P := packet) 1 0 [] board_device board_after (or_introl E)); reflexivity.
Defined.
