(* ===== verification/Mobilenet.v ===== *)
(** * The inference firmware

    The program of [gem5_mobilenet.cc]: it runs a network through TensorFlow
    Lite Micro, hands convolutions to the bridge where the operator registers
    say so, counts the others, and reports through a mailbox in the external
    memory.  The program runs on a machine made of the bridge's handle, whose
    local memory is the external memory, and the core's own memory.  TensorFlow
    Lite Micro, the optimised copy routines, and the clocks are not in the
    repository: they are classes. *)

From Stdlib Require Import SpecFloat.
From S2P Require Import Prelude Axi CustomMac Operator FixedPoint Kernels.
From S2P Require Import KernelsFloat HybridDispatch EnvParse Bridge HybridSubmit.

(** ** Constants *)

Definition CORAL_EXECUTION_DESCRIPTOR_OFFSET : Z := 0x00400100.
Definition CORAL_OPERATOR_FLAG_ALLOW_RTL_FALLBACK : Z := 1.

Definition OPENNPUX_CORAL_MOBILENET_MAGIC : Z := 0x4e504d42.
Definition OPENNPUX_CORAL_MOBILENET_VERSION : Z := 1.
Definition OPENNPUX_CORAL_MOBILENET_MAILBOX_OFFSET : Z := 0x00400000.
Definition OPENNPUX_CORAL_MOBILENET_OUTPUT_COUNT : Z := 5.
Definition OPENNPUX_CORAL_MOBILENET_PROGRESS_ADDR : Z := 0x30000020.

Definition PROGRESS_CRT : Z := 0x4d4e0100.
Definition PROGRESS_MAIN : Z := 0x4d4e0200.
Definition PROGRESS_MAILBOX : Z := 0x4d4e0201.
Definition PROGRESS_ALLOCATE_BEGIN : Z := 0x4d4e0300.
Definition PROGRESS_ALLOCATE_END : Z := 0x4d4e0301.
Definition PROGRESS_INPUT_READY : Z := 0x4d4e0400.
Definition PROGRESS_INVOKE_BEGIN : Z := 0x4d4e0500.
Definition PROGRESS_INVOKE_END : Z := 0x4d4e0501.

Definition MAILBOX_STARTED : Z := 1.
Definition MAILBOX_TENSORS_READY : Z := 2.
Definition MAILBOX_COMPLETE : Z := 3.
Definition MAILBOX_ERROR : Z := 0x80000000.

Definition MAILBOX_ERROR_NONE : Z := 0.
Definition MAILBOX_ERROR_ALLOCATE : Z := 1.
Definition MAILBOX_ERROR_INPUT : Z := 2.
Definition MAILBOX_ERROR_INVOKE : Z := 3.
Definition MAILBOX_ERROR_OUTPUT : Z := 4.

Definition kTensorArenaSize : Z := 4 * 1024 * 1024.

(** ** The machine the program runs on *)

(** The bridge, the core's own memory from address zero, and the number of
    clock readings so far. *)
Record machine := { m_handle : coral_gem5_handle; m_tcm : buf; m_clock : nat }.

(** A piece of the program.  [Hang]: it does not return, because an access
    waits for a transfer outside the bridge, or failed and has trapped into the
    exception handler. *)
Definition fw (A : Type) : Type := machine -> res (A * machine).

#[export] Instance fw_ret : MRet fw := fun A a m => Ret (a, m).
#[export] Instance fw_bind : MBind fw := fun A B f p m => '(a, m1) ← p m; f a m1.

Definition with_bridge (h : coral_gem5_handle) (m : machine) : machine :=
  {| m_handle := h; m_tcm := m_tcm m; m_clock := m_clock m |}.
Definition set_local (b : buf) (m : machine) : machine :=
  with_bridge (with_extmem (local_extmem_enabled (m_handle m)) b (counters (m_handle m))
                 (m_handle m)) m.
Definition set_tcm (b : buf) (m : machine) : machine :=
  {| m_handle := m_handle m; m_tcm := b; m_clock := m_clock m |}.
Definition tick (h : coral_gem5_handle) (m : machine) : machine :=
  {| m_handle := h; m_tcm := m_tcm m; m_clock := S (m_clock m) |}.

(** *** Memory

    How many transactions the compiler makes of an access is not in the
    source, so that accesses to data leave the traffic counters alone. *)

Definition in_extmem (addr n : Z) : bool :=
  (kExtmemBase <=? addr) && (addr + n <=? kExtmemBase + kExtmemSize).

Definition mem_read (addr n : Z) : fw (list Z) := fun m =>
  if in_extmem addr n then
    if local_extmem_enabled (m_handle m) then
      bs ← buf_read (local_extmem (m_handle m)) (addr - kExtmemBase) n; Ret (bs, m)
    else Hang
  else bs ← buf_read (m_tcm m) addr n; Ret (bs, m).

Definition mem_write (addr : Z) (bs : list Z) : fw unit := fun m =>
  if in_extmem addr (Z.of_nat (length bs)) then
    if local_extmem_enabled (m_handle m) then
      b ← buf_write (local_extmem (m_handle m)) (addr - kExtmemBase) bs; Ret (tt, set_local b m)
    else Hang
  else b ← buf_write (m_tcm m) addr bs; Ret (tt, set_tcm b m).

(** A descriptor in the external memory, at an offset. *)
Definition get_descriptor (off : Z) : fw coral_operator_descriptor := fun m =>
  if local_extmem_enabled (m_handle m) then
    undef_unless (buf_in (local_extmem (m_handle m)) off descriptor_sizeof);;
    Ret (load_descriptor (local_extmem (m_handle m)) off, m)
  else Hang.

Definition put_descriptor (off : Z) (d : coral_operator_descriptor) : fw unit := fun m =>
  if local_extmem_enabled (m_handle m) then
    undef_unless (buf_in (local_extmem (m_handle m)) off descriptor_sizeof);;
    Ret (tt, set_local (store_descriptor (local_extmem (m_handle m)) off d) m)
  else Hang.

(** [InitializeOperatorDescriptor]: every word is cleared first. *)
Definition init_descriptor (off opcode execution_mode : Z) : fw unit :=
  mem_write (kExtmemBase + off) (replicate (Z.to_nat descriptor_sizeof) 0);;
  put_descriptor off (InitializeOperatorDescriptor opcode execution_mode).

(** ** TensorFlow Lite Micro's data *)

Inductive TfLiteStatus :=
| kTfLiteOk
| kTfLiteError
| kTfLiteOtherStatus (code : Z).

Inductive TfLiteType :=
| kTfLiteInt8
| kTfLiteInt32
| kTfLiteOtherType (code : Z).

#[export] Instance TfLiteStatus_eq : EqDecision TfLiteStatus.
Proof. solve_decision. Defined.
#[export] Instance TfLiteType_eq : EqDecision TfLiteType.
Proof. solve_decision. Defined.

(** The fields the program uses.  Pointers to data are addresses. *)
Record TfLiteIntArray := { ia_size : Z; ia_data : list Z }.
Record TfLiteEvalTensor := { et_type : TfLiteType; et_dims : option TfLiteIntArray; et_raw : Z }.
Record TfLiteTensor := { tt_data : Z; tt_bytes : Z }.

Record OpDataConvCustom := {
  input_zero_point : Z; filter_zero_point : Z; output_zero_point : Z;
  per_channel_output_multiplier : Z; per_channel_output_shift : Z;
  output_activation_min : Z; output_activation_max : Z;
  od_padding_height : Z; od_padding_width : Z }.

(** The strides of [TfLiteConvParams] and [TfLiteDepthwiseConvParams]. *)
Record conv_params := { cp_stride_height : Z; cp_stride_width : Z }.

(** The positions of the tensors of a convolution in its node. *)
Record tensor_indices := {
  input_index : Z; filter_index : Z; bias_index : Z; output_index : Z }.

(** What a kernel sees of the library.  The indices are those of a depthwise
    convolution if the flag is set. *)
Class Tflm := {
  TfLiteContext : Type;
  TfLiteNode : Type;
  NumInputs : TfLiteNode -> Z;
  user_data : TfLiteNode -> option OpDataConvCustom;
  builtin_data : TfLiteNode -> option conv_params;
  conv_tensors : bool -> tensor_indices;
  GetEvalInput : option TfLiteContext -> TfLiteNode -> Z -> option TfLiteEvalTensor;
  GetEvalOutput : option TfLiteContext -> TfLiteNode -> Z -> option TfLiteEvalTensor }.

(** The copy routines, the clocks of the machine the simulator runs on, and the
    core's cycle counter. *)
Class Runtime := {
  Memcpy : Z -> Z -> Z -> fw unit;
  Memset : Z -> Z -> Z -> fw unit;
  wall_clock : nat -> Z;
  kernel_time : nat -> Z;
  mcycle : nat -> Z }.

(** ** Tensors *)

(** [dims->data[i]]; the array has [size] elements. *)
Definition dims_at (dims : TfLiteIntArray) (i : Z) : res Z :=
  if (0 <=? i) && (i <? ia_size dims)
  then match ia_data dims !! Z.to_nat i with Some v => Ret v | None => Undef end
  else Undef.

Fixpoint fnv_loop (hash : Z) (bytes : list Z) : Z :=
  match bytes with
  | [] => hash
  | b :: bytes => fnv_loop (u32 (Z.lxor hash b * 16777619)) bytes
  end.

Definition Fnv1a32 (bytes : list Z) : Z := fnv_loop 2166136261 bytes.

(** The loop over the dimensions, [None] for the early return of zero. *)
Fixpoint bytes_loop (dims : TfLiteIntArray) (l : list Z) (bytes : Z) : res (option Z) :=
  match l with
  | [] => Ret (Some bytes)
  | i :: l =>
      n ← dims_at dims i;
      if (n <=? 0) || (UINT32_MAX / u32 n <? bytes) then Ret None
      else bytes_loop dims l (u64 (bytes * n))
  end.

Definition TensorBytes (tensor : option TfLiteEvalTensor) (element_size : Z) : res Z :=
  match tensor with
  | None => Ret 0
  | Some t =>
      match et_dims t with
      | None => Ret 0
      | Some dims =>
          if ia_size dims <=? 0 then Ret 0
          else if CORAL_OPERATOR_MAX_DIMS <? u32 (ia_size dims) then Ret 0
          else
            r ← bytes_loop dims (seqZ 0 (u32 (ia_size dims))) element_size;
            Ret (match r with Some bytes => u32 bytes | None => 0 end)
      end
  end.

(** The array of four dimensions; a fifth would be written outside it. *)
Definition TensorDimensions (t : TfLiteEvalTensor) : res (list Z) :=
  match et_dims t with
  | None => Undef
  | Some dims =>
      forZ (u32 (ia_size dims)) (fun i dimensions =>
        n ← dims_at dims i;
        undef_unless (i <? CORAL_OPERATOR_MAX_DIMS);;
        Ret (<[Z.to_nat i := u32 n]> dimensions)) [0; 0; 0; 0]
  end.

(** Reading a value that may be undefined. *)
Definition lift {A} (r : res A) : fw A := fun m => a ← r; Ret (a, m).

Section program.
Context {T : Tflm} {R : Runtime} (highmem : bool) (expf : spec_float -> spec_float).

(** ** Registers *)

Definition bus_store (addr value : Z) : fw unit := fun m =>
  o ← firmware_store highmem expf (wall_clock (m_clock m)) (kernel_time (m_clock m)) addr value
        (m_handle m);
  match o with Some h => Ret (tt, tick h m) | None => Hang end.

Definition bus_load (addr : Z) : fw Z := fun m =>
  o ← firmware_load highmem addr (m_handle m);
  match o with Some (v, h) => Ret (v, tick h m) | None => Hang end.

Definition MarkProgress (value : Z) : fw unit :=
  bus_store OPENNPUX_CORAL_MOBILENET_PROGRESS_ADDR value.

Definition MarkCrtReady : fw unit := MarkProgress PROGRESS_CRT.

Definition OperatorMode : fw Z := bus_load CORAL_OPERATOR_MODE_REG.
Definition OperatorCapabilities : fw Z := bus_load CORAL_OPERATOR_CAPABILITIES_REG.
Definition SampledRtlMask : fw Z := bus_load CORAL_OPERATOR_SAMPLED_RTL_MASK_REG.

(** [HybridOperatorSupported] and [OperatorUsesHybrid] with their accesses. *)
Definition operator_supported (opcode : Z) : fw bool :=
  if negb (opcode <? 32) then mret false else
  caps ← OperatorCapabilities;
  mret (negb (Z.land caps (u32 (Z.shiftl 1 opcode)) =? 0)).

Definition operator_uses_hybrid (opcode : Z) : fw bool :=
  mode ← OperatorMode;
  if mode =? CORAL_OPERATOR_MODE_HYBRID then operator_supported opcode
  else if mode =? CORAL_OPERATOR_MODE_SAMPLED then
    supported ← operator_supported opcode;
    if negb supported then mret false else
    mask ← SampledRtlMask;
    mret (Z.land mask (u32 (Z.shiftl 1 opcode)) =? 0)
  else mret false.

Definition submit_operator (address : Z) : fw bool := fun m =>
  o ← SubmitHybridOperator highmem expf (wall_clock (m_clock m)) (kernel_time (m_clock m)) address
        (m_handle m);
  match o with Some (ok, h) => Ret (ok, tick h m) | None => Hang end.

(** Up to the [ebreak] that halts the core. *)
Definition coralnpu_exception_handler (mepc mtval mcause : Z) : fw unit :=
  MarkProgress 0x4d4eff01;; MarkProgress mepc;;
  MarkProgress 0x4d4eff02;; MarkProgress mtval;;
  MarkProgress 0x4d4eff03;; MarkProgress mcause.

(** ** Convolutions *)

(** The allocator afterwards, and whether the tensor was staged. *)
Definition StageTensor (a : OperatorStagingAllocator) (index : Z)
    (tensor : TfLiteEvalTensor) (element_size element_type zero_point : Z) :
    fw (bool * OperatorStagingAllocator) :=
  bytes ← lift (TensorBytes (Some tensor) element_size);
  let '(address, a1) := AllocateStaging (Some a) bytes
                          (if element_size <? 16 then 16 else element_size) in
  let a1 := default a a1 in
  if address =? 0 then mret (false, a1) else
  dimensions ← lift (TensorDimensions tensor);
  d ← get_descriptor CORAL_OPERATOR_DESCRIPTOR_OFFSET;
  let rank := match et_dims tensor with Some dims => u32 (ia_size dims) | None => 0 end in
  let '(ok, d1) := SetOperatorTensor (Some d) index address bytes rank (Some dimensions)
                     element_type zero_point in
  put_descriptor CORAL_OPERATOR_DESCRIPTOR_OFFSET (default d d1);;
  if negb ok then mret (false, a1) else
  Memcpy address (et_raw tensor) bytes;;
  mret (true, a1).

(** The tensors of one convolution. *)
Record conv_node := {
  cn_input : TfLiteEvalTensor; cn_filter : TfLiteEvalTensor;
  cn_bias : TfLiteEvalTensor; cn_output : TfLiteEvalTensor }.

Definition eval_tensors (context : option TfLiteContext) (node : TfLiteNode) (depthwise : bool) :
    option conv_node :=
  let ix := conv_tensors depthwise in
  match GetEvalInput context node (input_index ix), GetEvalInput context node (filter_index ix),
        GetEvalInput context node (bias_index ix), GetEvalOutput context node (output_index ix) with
  | Some input, Some filter, Some bias, Some output =>
      Some {| cn_input := input; cn_filter := filter; cn_bias := bias; cn_output := output |}
  | _, _, _, _ => None
  end.

Definition conv_types_ok (n : conv_node) : bool :=
  bool_decide (et_type (cn_input n) = kTfLiteInt8) &&
  bool_decide (et_type (cn_filter n) = kTfLiteInt8) &&
  bool_decide (et_type (cn_bias n) = kTfLiteInt32) &&
  bool_decide (et_type (cn_output n) = kTfLiteInt8).

(** The four tensors in order, up to the first that is not staged. *)
Definition stage_all (a : OperatorStagingAllocator) (n : conv_node) (data : OpDataConvCustom) :
    fw (bool * OperatorStagingAllocator) :=
  '(ok, a) ← StageTensor a 0 (cn_input n) 1 CORAL_OPERATOR_ELEMENT_INT8 (input_zero_point data);
  if negb ok then mret (false, a) else
  '(ok, a) ← StageTensor a 1 (cn_filter n) 1 CORAL_OPERATOR_ELEMENT_INT8 (filter_zero_point data);
  if negb ok then mret (false, a) else
  '(ok, a) ← StageTensor a 2 (cn_bias n) 4 CORAL_OPERATOR_ELEMENT_INT32 0;
  if negb ok then mret (false, a) else
  StageTensor a 3 (cn_output n) 1 CORAL_OPERATOR_ELEMENT_INT8 (output_zero_point data).

(** The descriptor with the addresses of its quantisation tables. *)
Definition set_tables (d : coral_operator_descriptor) (multiplier shift : Z) :
    coral_operator_descriptor :=
  {| d_magic := d_magic d; d_version := d_version d;
     d_descriptor_size := d_descriptor_size d; d_opcode := d_opcode d;
     d_state := d_state d; d_error := d_error d; d_flags := d_flags d;
     d_execution_mode := d_execution_mode d; d_tensor_count := d_tensor_count d;
     d_tensors := d_tensors d; d_stride_height := d_stride_height d;
     d_stride_width := d_stride_width d; d_padding_height := d_padding_height d;
     d_padding_width := d_padding_width d; d_multiplier_address := multiplier;
     d_shift_address := shift; d_output_zero_point := d_output_zero_point d;
     d_activation_min := d_activation_min d; d_activation_max := d_activation_max d;
     d_quantization_count := d_quantization_count d;
     d_operation_count := d_operation_count d; d_host_elapsed_ns := d_host_elapsed_ns d;
     d_modeled_cycles := d_modeled_cycles d; d_bytes_read := d_bytes_read d;
     d_bytes_written := d_bytes_written d; d_reserved := d_reserved d |}.

(** The descriptor with the parameters of the convolution. *)
Definition set_conv (d : coral_operator_descriptor) (channels : Z) (data : OpDataConvCustom)
    (params : conv_params) : coral_operator_descriptor :=
  {| d_magic := d_magic d; d_version := d_version d;
     d_descriptor_size := d_descriptor_size d; d_opcode := d_opcode d;
     d_state := d_state d; d_error := d_error d; d_flags := d_flags d;
     d_execution_mode := d_execution_mode d; d_tensor_count := d_tensor_count d;
     d_tensors := d_tensors d; d_stride_height := u32 (cp_stride_height params);
     d_stride_width := u32 (cp_stride_width params);
     d_padding_height := u32 (od_padding_height data);
     d_padding_width := u32 (od_padding_width data);
     d_multiplier_address := d_multiplier_address d; d_shift_address := d_shift_address d;
     d_output_zero_point := output_zero_point data;
     d_activation_min := output_activation_min data;
     d_activation_max := output_activation_max data;
     d_quantization_count := channels;
     d_operation_count := d_operation_count d; d_host_elapsed_ns := d_host_elapsed_ns d;
     d_modeled_cycles := d_modeled_cycles d; d_bytes_read := d_bytes_read d;
     d_bytes_written := d_bytes_written d; d_reserved := d_reserved d |}.

(** Adding to the counters of the execution descriptor. *)
Definition add_counts (d : coral_operator_descriptor) (operations elapsed cycles read written : Z) :
    coral_operator_descriptor :=
  set_outcome d (d_state d) (d_error d) (u64 (d_operation_count d + operations))
    (u64 (d_host_elapsed_ns d + elapsed)) (u64 (d_modeled_cycles d + cycles))
    (u64 (d_bytes_read d + read)) (u64 (d_bytes_written d + written)).

(** The submission, the copy of the output and the counters. *)
Definition finish_conv (n : conv_node) : fw (option TfLiteStatus) :=
  ok ← submit_operator (kExtmemBase + CORAL_OPERATOR_DESCRIPTOR_OFFSET);
  if negb ok then mret (Some kTfLiteError) else
  d ← get_descriptor CORAL_OPERATOR_DESCRIPTOR_OFFSET;
  Memcpy (et_raw (cn_output n)) (t_address (tensor_at d 3)) (t_size (tensor_at d 3));;
  d ← get_descriptor CORAL_OPERATOR_DESCRIPTOR_OFFSET;
  e ← get_descriptor CORAL_EXECUTION_DESCRIPTOR_OFFSET;
  put_descriptor CORAL_EXECUTION_DESCRIPTOR_OFFSET
    (add_counts e (d_operation_count d) (d_host_elapsed_ns d) (d_modeled_cycles d)
       (d_bytes_read d) (d_bytes_written d));;
  mret (Some kTfLiteOk).

(** What follows the staging of the tensors: the tables and the parameters. *)
Definition submit_conv (a : OperatorStagingAllocator) (n : conv_node) (data : OpDataConvCustom)
    (params : conv_params) (output_channels : Z) : fw (option TfLiteStatus) :=
  let table := u32 (output_channels * 4) in
  let '(multiplier, a1) := AllocateStaging (Some a) table 4 in
  let '(shift, a2) := AllocateStaging a1 table 4 in
  d ← get_descriptor CORAL_OPERATOR_DESCRIPTOR_OFFSET;
  put_descriptor CORAL_OPERATOR_DESCRIPTOR_OFFSET (set_tables d multiplier shift);;
  if (multiplier =? 0) || (shift =? 0) then mret None else
  Memcpy multiplier (per_channel_output_multiplier data) table;;
  Memcpy shift (per_channel_output_shift data) table;;
  d ← get_descriptor CORAL_OPERATOR_DESCRIPTOR_OFFSET;
  put_descriptor CORAL_OPERATOR_DESCRIPTOR_OFFSET (set_conv d output_channels data params);;
  finish_conv n.

Definition conv_opcode (depthwise : bool) : Z :=
  if depthwise then CORAL_OPERATOR_OP_DEPTHWISE_CONV_2D_INT8 else CORAL_OPERATOR_OP_CONV_2D_INT8.

(** [None]: the function returned [false]; otherwise the status it stored. *)
Definition TryHybridConvInvoke (context : option TfLiteContext) (node : option TfLiteNode)
    (depthwise : bool) : fw (option TfLiteStatus) :=
  hybrid ← operator_uses_hybrid (conv_opcode depthwise);
  if negb hybrid then mret None else
  match node with
  | None => mret None
  | Some node =>
      match user_data node, builtin_data node with
      | Some data, Some params =>
          if negb (NumInputs node =? 3) then mret None else
          match eval_tensors context node depthwise with
          | None => mret None
          | Some n =>
              if negb (conv_types_ok n) then mret None else
              channels ← lift (match et_dims (cn_output n) with
                               | Some dims => dims_at dims 3
                               | None => Undef
                               end);
              let output_channels := u32 channels in
              init_descriptor CORAL_OPERATOR_DESCRIPTOR_OFFSET (conv_opcode depthwise)
                CORAL_OPERATOR_MODE_HYBRID;;
              '(ok, a) ← stage_all (InitializeStagingAllocator kExtmemBase) n data;
              if negb ok then mret None else
              submit_conv a n data params output_channels
          end
      | _, _ => mret None
      end
  end.

(** [dims] of a tensor of rank four. *)
Definition rank4 (t : TfLiteEvalTensor) : option TfLiteIntArray :=
  match et_dims t with
  | Some dims => if ia_size dims =? 4 then Some dims else None
  | None => None
  end.

Definition count_rtl (n : conv_node) (input filter output : TfLiteIntArray) (depthwise : bool) :
    fw unit :=
  input_bytes ← lift (TensorBytes (Some (cn_input n)) 1);
  filter_bytes ← lift (TensorBytes (Some (cn_filter n)) 1);
  bias_bytes ← lift (TensorBytes (Some (cn_bias n)) 4);
  output_bytes ← lift (TensorBytes (Some (cn_output n)) 1);
  if (input_bytes =? 0) || (filter_bytes =? 0) || (bias_bytes =? 0) || (output_bytes =? 0)
  then mret tt else
  batches ← lift (dims_at output 0); output_h ← lift (dims_at output 1);
  output_w ← lift (dims_at output 2); output_c ← lift (dims_at output 3);
  filter_h ← lift (dims_at filter 1); filter_w ← lift (dims_at filter 2);
  input_c ← lift (dims_at input 3);
  let batches := u32 batches in let output_h := u32 output_h in
  let output_w := u32 output_w in let output_c := u32 output_c in
  let filter_h := u32 filter_h in let filter_w := u32 filter_w in
  let input_c := u32 input_c in
  if (batches =? 0) || (output_h =? 0) || (output_w =? 0) || (output_c =? 0)
     || (filter_h =? 0) || (filter_w =? 0) || (input_c =? 0) then mret tt else
  let quantization_bytes := u64 (2 * output_c * 4) in
  let taps := batches * output_h * output_w * output_c * filter_h * filter_w in
  e ← get_descriptor CORAL_EXECUTION_DESCRIPTOR_OFFSET;
  put_descriptor CORAL_EXECUTION_DESCRIPTOR_OFFSET
    (add_counts e (u64 (if depthwise then taps else taps * input_c)) 0 0
       (u64 (u32 (input_bytes + filter_bytes + bias_bytes) + quantization_bytes)) output_bytes).

Definition AccumulateRtlConvStats (context : option TfLiteContext) (node : option TfLiteNode)
    (depthwise : bool) : fw unit :=
  match context, node with
  | Some _, Some node =>
      match user_data node with
      | None => mret tt
      | Some _ =>
          if negb (NumInputs node =? 3) then mret tt else
          match eval_tensors context node depthwise with
          | None => mret tt
          | Some n =>
              match rank4 (cn_input n), rank4 (cn_filter n), rank4 (cn_output n) with
              | Some input, Some filter, Some output => count_rtl n input filter output depthwise
              | _, _, _ => mret tt
              end
          end
      end
  | _, _ => mret tt
  end.

(** A kernel's [invoke]. *)
Definition invoke_fn : Type := option TfLiteContext -> option TfLiteNode -> fw TfLiteStatus.

(** The common body of the two traced kernels. *)
Definition traced_invoke (original : invoke_fn) (depthwise : bool) : invoke_fn :=
  fun context node =>
  handled ← TryHybridConvInvoke context node depthwise;
  match handled with
  | Some status => mret status
  | None =>
      status ← original context node;
      (if bool_decide (status = kTfLiteOk) then AccumulateRtlConvStats context node depthwise
       else mret tt);;
      mret status
  end.

Definition TracedConvInvoke (convInvoke : invoke_fn) : invoke_fn := fun context node =>
  MarkProgress PROGRESS_CONV_BEGIN;;
  status ← traced_invoke convInvoke false context node;
  MarkProgress PROGRESS_CONV_END;;
  mret status.

Definition TracedDepthwiseInvoke (depthwiseInvoke : invoke_fn) : invoke_fn := fun context node =>
  MarkProgress PROGRESS_DEPTHWISE_BEGIN;;
  status ← traced_invoke depthwiseInvoke true context node;
  MarkProgress PROGRESS_DEPTHWISE_END;;
  mret status.

End program.

(** ** The interpreter *)

(** The operators of the library the program registers as they are. *)
Inductive builtin_op :=
| OpReshape | OpAveragePool2D | OpSoftmax | OpStridedSlice | OpPad | OpMean | OpShape | OpPack.

(** The library's kernels, the resolver that collects kernels, and the
    interpreter, whose state is in the memory of the machine. *)
Class MicroLibrary {T : Tflm} := {
  Register_CONV_2D : invoke_fn;
  Register_DEPTHWISE_CONV_2D : invoke_fn;
  Resolver : Type;
  resolver_new : Resolver;
  AddConv2D : invoke_fn -> Resolver -> TfLiteStatus * Resolver;
  AddDepthwiseConv2D : invoke_fn -> Resolver -> TfLiteStatus * Resolver;
  AddBuiltin : builtin_op -> Resolver -> TfLiteStatus * Resolver;
  Interpreter : Type;
  MicroInterpreter : Resolver -> Z -> Z -> Interpreter;
  AllocateTensors : Interpreter -> fw TfLiteStatus;
  interpreter_input : Interpreter -> Z -> fw (option TfLiteTensor);
  interpreter_output : Interpreter -> Z -> fw (option TfLiteTensor);
  Invoke : Interpreter -> fw TfLiteStatus;
  tensor_arena : Z }.

Section main.
Context {T : Tflm} {R : Runtime} {L : MicroLibrary}.
Context (highmem : bool) (expf : spec_float -> spec_float).

(** [TF_LITE_ENSURE_STATUS(resolver.Add...())]: the first failure is returned. *)
Definition ensure (add : Resolver -> TfLiteStatus * Resolver)
    (next : Resolver -> TfLiteStatus * Resolver) (r : Resolver) : TfLiteStatus * Resolver :=
  let '(status, r1) := add r in
  if bool_decide (status = kTfLiteOk) then next r1 else (status, r1).

Definition RegisterOps : Resolver -> TfLiteStatus * Resolver :=
  ensure (AddConv2D (TracedConvInvoke highmem expf Register_CONV_2D)) (
  ensure (AddDepthwiseConv2D (TracedDepthwiseInvoke highmem expf Register_DEPTHWISE_CONV_2D)) (
  ensure (AddBuiltin OpReshape) (
  ensure (AddBuiltin OpAveragePool2D) (
  ensure (AddBuiltin OpSoftmax) (
  ensure (AddBuiltin OpStridedSlice) (
  ensure (AddBuiltin OpPad) (
  ensure (AddBuiltin OpMean) (
  ensure (AddBuiltin OpShape) (
  ensure (AddBuiltin OpPack) (fun r => (kTfLiteOk, r))))))))))).

(** *** The mailbox, by the offsets of its fields *)

Definition mailbox_put (off v : Z) : fw unit :=
  mem_write (kExtmemBase + OPENNPUX_CORAL_MOBILENET_MAILBOX_OFFSET + off) (le_bytes 4 v).
Definition mailbox_put64 (off v : Z) : fw unit :=
  mem_write (kExtmemBase + OPENNPUX_CORAL_MOBILENET_MAILBOX_OFFSET + off) (le_bytes 8 v).

Definition put_magic := mailbox_put 0.
Definition put_version := mailbox_put 4.
Definition put_state := mailbox_put 8.
Definition put_error_code := mailbox_put 12.
Definition put_cycle_low := mailbox_put 16.
Definition put_cycle_high := mailbox_put 20.
Definition put_output_count := mailbox_put 24.
Definition put_output (i v : Z) : fw unit := mailbox_put (28 + 4 * i) v.
Definition put_output_checksum := mailbox_put 48.
Definition put_output_bytes := mailbox_put 52.
Definition put_operation_count := mailbox_put64 56.
Definition put_bytes_read := mailbox_put64 64.
Definition put_bytes_written := mailbox_put64 72.

Definition Fail (error : Z) : fw Z :=
  put_error_code error;; put_state MAILBOX_ERROR;; mret (-1).

(** A clock reading of the core. *)
Definition mcycle_read : fw Z := fun m => Ret (u64 (mcycle (m_clock m)), tick (m_handle m) m).

(** The execution descriptor with a state, an error and the modelled cycles. *)
Definition edit_execution (f : coral_operator_descriptor -> coral_operator_descriptor) : fw unit :=
  e ← get_descriptor CORAL_EXECUTION_DESCRIPTOR_OFFSET;
  put_descriptor CORAL_EXECUTION_DESCRIPTOR_OFFSET (f e).

Definition with_flags (flags : Z) (d : coral_operator_descriptor) : coral_operator_descriptor :=
  {| d_magic := d_magic d; d_version := d_version d;
     d_descriptor_size := d_descriptor_size d; d_opcode := d_opcode d;
     d_state := d_state d; d_error := d_error d; d_flags := flags;
     d_execution_mode := d_execution_mode d; d_tensor_count := d_tensor_count d;
     d_tensors := d_tensors d; d_stride_height := d_stride_height d;
     d_stride_width := d_stride_width d; d_padding_height := d_padding_height d;
     d_padding_width := d_padding_width d; d_multiplier_address := d_multiplier_address d;
     d_shift_address := d_shift_address d; d_output_zero_point := d_output_zero_point d;
     d_activation_min := d_activation_min d; d_activation_max := d_activation_max d;
     d_quantization_count := d_quantization_count d;
     d_operation_count := d_operation_count d; d_host_elapsed_ns := d_host_elapsed_ns d;
     d_modeled_cycles := d_modeled_cycles d; d_bytes_read := d_bytes_read d;
     d_bytes_written := d_bytes_written d; d_reserved := d_reserved d |}.

Definition with_written (n : Z) (d : coral_operator_descriptor) : coral_operator_descriptor :=
  set_outcome d (d_state d) (d_error d) (d_operation_count d) (d_host_elapsed_ns d)
    (d_modeled_cycles d) (d_bytes_read d) n.

Definition execution_failed : fw unit :=
  edit_execution (fun d =>
    set_state_error d CORAL_OPERATOR_STATE_ERROR CORAL_OPERATOR_ERROR_EXECUTION).

(** The last part of [main]: the results of a completed inference. *)
Definition report (output : TfLiteTensor) (execution_mode : Z) : fw Z :=
  let output_bytes := u32 (tt_bytes output) in
  (fun m => forZ OPENNPUX_CORAL_MOBILENET_OUTPUT_COUNT (fun i m =>
     '(v, m) ← mem_read (tt_data output + i) 1 m;
     '(_, m) ← put_output i (i8 (le_val v)) m; Ret m) m ≫= fun m => Ret (tt, m));;
  data ← mem_read (tt_data output) output_bytes;
  put_output_checksum (Fnv1a32 data);;
  put_output_bytes output_bytes;;
  e ← get_descriptor CORAL_EXECUTION_DESCRIPTOR_OFFSET;
  put_operation_count (d_operation_count e);;
  put_bytes_read (d_bytes_read e);;
  put_bytes_written (d_bytes_written e);;
  put_cycle_low (u32 (d_modeled_cycles e));;
  put_cycle_high (u32 (Z.shiftr (d_modeled_cycles e) 32));;
  put_output_count OPENNPUX_CORAL_MOBILENET_OUTPUT_COUNT;;
  put_state MAILBOX_COMPLETE;;
  (if execution_mode =? CORAL_OPERATOR_MODE_RTL
   then edit_execution (with_written OPENNPUX_CORAL_MOBILENET_OUTPUT_COUNT) else mret tt);;
  edit_execution (fun d =>
    set_state_error d CORAL_OPERATOR_STATE_COMPLETE CORAL_OPERATOR_ERROR_NONE);;
  mret 0.

(** From the first clock reading on. *)
Definition run_inference (interpreter : Interpreter) : fw Z :=
  start_cycles ← mcycle_read;
  MarkProgress highmem expf PROGRESS_INVOKE_BEGIN;;
  execution_mode ← OperatorMode highmem;
  sampled_rtl_mask ← SampledRtlMask highmem;
  init_descriptor CORAL_EXECUTION_DESCRIPTOR_OFFSET CORAL_OPERATOR_OP_PARTIAL_MOBILENET
    execution_mode;;
  edit_execution (with_flags CORAL_OPERATOR_FLAG_ALLOW_RTL_FALLBACK);;
  edit_execution (fun d => set_state_error d CORAL_OPERATOR_STATE_RUNNING (d_error d));;
  status ← Invoke interpreter;
  if negb (bool_decide (status = kTfLiteOk)) then
    execution_failed;; Fail MAILBOX_ERROR_INVOKE
  else
    MarkProgress highmem expf PROGRESS_INVOKE_END;;
    end_cycles ← mcycle_read;
    let elapsed_cycles := u64 (end_cycles - start_cycles) in
    (if (execution_mode =? CORAL_OPERATOR_MODE_RTL)
        || ((execution_mode =? CORAL_OPERATOR_MODE_SAMPLED) && negb (sampled_rtl_mask =? 0))
     then edit_execution (fun d => set_cycles d elapsed_cycles) else mret tt);;
    output ← interpreter_output interpreter 0;
    match output with
    | Some output =>
        if tt_bytes output <? OPENNPUX_CORAL_MOBILENET_OUTPUT_COUNT
        then execution_failed;; Fail MAILBOX_ERROR_OUTPUT
        else report output execution_mode
    | None => execution_failed;; Fail MAILBOX_ERROR_OUTPUT
    end.

Definition main : fw Z :=
  MarkProgress highmem expf PROGRESS_MAIN;;
  put_magic OPENNPUX_CORAL_MOBILENET_MAGIC;;
  put_version OPENNPUX_CORAL_MOBILENET_VERSION;;
  put_state MAILBOX_STARTED;;
  put_error_code MAILBOX_ERROR_NONE;;
  put_output_count 0;;
  MarkProgress highmem expf PROGRESS_MAILBOX;;
  let '(status, resolver) := RegisterOps resolver_new in
  if negb (bool_decide (status = kTfLiteOk)) then Fail MAILBOX_ERROR_ALLOCATE else
  let interpreter := MicroInterpreter resolver tensor_arena kTensorArenaSize in
  MarkProgress highmem expf PROGRESS_ALLOCATE_BEGIN;;
  status ← AllocateTensors interpreter;
  if negb (bool_decide (status = kTfLiteOk)) then Fail MAILBOX_ERROR_ALLOCATE else
  MarkProgress highmem expf PROGRESS_ALLOCATE_END;;
  input ← interpreter_input interpreter 0;
  match input with
  | Some input =>
      if (tt_data input =? 0) || (tt_bytes input =? 0) then Fail MAILBOX_ERROR_INPUT else
      Memset (tt_data input) 0 (tt_bytes input);;
      MarkProgress highmem expf PROGRESS_INPUT_READY;;
      put_state MAILBOX_TENSORS_READY;;
      run_inference interpreter
  | None => Fail MAILBOX_ERROR_INPUT
  end.

End main.
