(* ===== verification/MobilenetConv.v ===== *)
(** * Staging the tensors of a convolution

    What the inference firmware does to a convolution's tensors before it hands
    them to the bridge: their sizes ([TensorBytes]), and the copy of each into
    the staging area with its entry in the operator descriptor ([StageTensor]).
    [staging] says what has been staged and that nothing else has changed. *)

From Stdlib Require Import SpecFloat.
From S2P Require Import Prelude Axi CustomMac Operator FixedPoint Kernels KernelSpec.
From S2P Require Import KernelsFloat HybridDispatch KernelFrame EnvParse Bridge BridgeSpec.
From S2P Require Import HybridSubmit Mobilenet.

(** ** The size of a tensor *)

Definition prod (ds : list Z) : Z := foldr Z.mul 1 ds.

(** The tensor has the dimensions [ds]. *)
Definition shape (t : TfLiteEvalTensor) (ds : list Z) : Prop :=
  et_dims t = Some {| ia_size := Z.of_nat (length ds); ia_data := ds |}.

Lemma prod_pos ds : Forall (fun n => 1 <= n) ds -> 1 <= prod ds.
Proof. induction 1; simpl; nia. Qed.

Lemma dims_at_shape ds i :
  0 <= i < Z.of_nat (length ds) ->
  dims_at {| ia_size := Z.of_nat (length ds); ia_data := ds |} i = Ret (nth (Z.to_nat i) ds 0).
Proof.
  intros Hi. unfold dims_at. cbn [ia_size ia_data].
  replace (_ && _) with true by lia.
  destruct (nth_lookup_or_length ds (Z.to_nat i) 0) as [->|]; [done | lia].
Qed.

Definition all_positive (ds : list Z) : bool := forallb (fun n => 0 <? n) ds.

Lemma all_positive_iff ds : all_positive ds = true <-> Forall (fun n => 1 <= n) ds.
Proof.
  unfold all_positive. rewrite forallb_forall, List.Forall_forall.
  split; intros H n Hn; specialize (H n Hn); lia.
Qed.

(** The loop behind the first dimensions. *)
Lemma bytes_loop_eq pre suf acc :
  Forall is_i32 suf -> 1 <= acc <= UINT32_MAX ->
  bytes_loop {| ia_size := Z.of_nat (length (pre ++ suf)); ia_data := pre ++ suf |}
    (seqZ (Z.of_nat (length pre)) (Z.of_nat (length suf))) acc =
  Ret (if all_positive suf && (acc * prod suf <=? UINT32_MAX) then Some (acc * prod suf) else None).
Proof.
  revert pre acc. induction suf as [|n suf IH]; intros pre acc Hi Hacc.
  { simpl. rewrite Z.mul_1_r. by replace (acc <=? _) with true by lia. }
  apply List.Forall_cons_iff in Hi as [Hn Hi]. unfold is_i32 in Hn.
  rewrite seqZ_cons by (simpl; lia). cbn [bytes_loop].
  rewrite dims_at_shape by (rewrite length_app; simpl; lia). cbn [mbind res_bind].
  rewrite Nat2Z.id, app_nth2, Nat.sub_diag by lia. cbn [nth all_positive forallb prod foldr].
  destruct (Z.leb_spec n 0) as [H0|H0]; [by replace (0 <? n) with false by lia |].
  replace (0 <? n) with true by lia. rewrite wrap_small by lia. cbn [orb andb].
  assert (acc <= UINT32_MAX / n <-> acc * n <= UINT32_MAX) as Hdiv.
  { rewrite (Z.mul_comm acc). split; [| by apply Z.div_le_lower_bound].
    intros H. pose proof (Z.mul_div_le UINT32_MAX n ltac:(lia)). nia. }
  destruct (Z.ltb_spec (UINT32_MAX / n) acc) as [Hlt|Hle].
  - destruct (forallb _ suf) eqn:Ep; [| done]. apply all_positive_iff, prod_pos in Ep.
    fold (prod suf). rewrite (proj2 (Z.leb_gt _ _)); [done | nia].
  - apply Hdiv in Hle. rewrite (wrap_small 64) by nia.
    specialize (IH (pre ++ [n]) (acc * n) Hi ltac:(nia)).
    rewrite <- app_assoc in IH. cbn [app] in IH.
    replace (Z.of_nat (length (pre ++ [n]))) with (Z.succ (Z.of_nat (length pre))) in IH
      by (rewrite length_app; simpl; lia).
    replace (Z.pred (Z.of_nat (length (n :: suf)))) with (Z.of_nat (length suf)) by (simpl; lia).
    rewrite IH. fold (prod suf). by rewrite Z.mul_assoc.
Qed.

Lemma tensor_bytes_eq t ds element_size :
  shape t ds -> Forall is_i32 ds -> 1 <= element_size <= UINT32_MAX ->
  Z.of_nat (length ds) < 2 ^ 31 ->
  TensorBytes (Some t) element_size =
    Ret (if (1 <=? Z.of_nat (length ds)) && (Z.of_nat (length ds) <=? CORAL_OPERATOR_MAX_DIMS)
            && all_positive ds && (element_size * prod ds <=? UINT32_MAX)
         then element_size * prod ds else 0).
Proof.
  intros Hs Hi He Hl. unfold TensorBytes. rewrite Hs. cbn [ia_size].
  rewrite (wrap_small 32) by lia. unfold CORAL_OPERATOR_MAX_DIMS.
  destruct (Z.leb_spec (Z.of_nat (length ds)) 0);
    [by replace (1 <=? _) with false by lia |].
  replace (1 <=? _) with true by lia.
  destruct (Z.ltb_spec 4 (Z.of_nat (length ds)));
    [by replace (_ <=? 4) with false by lia |].
  replace (_ <=? 4) with true by lia. cbn [andb].
  pose proof (bytes_loop_eq [] ds element_size Hi He) as E. cbn [app length] in E.
  change (Z.of_nat 0) with 0 in E. rewrite E. cbn [mbind res_bind].
  destruct (all_positive ds) eqn:Ep; [| done]. cbn [andb].
  apply all_positive_iff, prod_pos in Ep.
  destruct (Z.leb_spec (element_size * prod ds) UINT32_MAX); [| done].
  by rewrite wrap_small by nia.
Qed.

(** The size of a tensor is exact.  For a tensor whose dimensions are 32-bit
    integers, [TensorBytes] is the product of the dimensions and the element
    size if there are one to four dimensions, all of them positive, and the
    product fits 32 bits; otherwise, overflow at any of the steps included, it
    is zero, which no caller accepts as a size. *)
Theorem tensor_bytes_exact t ds element_size :
  shape t ds -> Forall is_i32 ds -> 1 <= element_size <= UINT32_MAX ->
  Z.of_nat (length ds) < 2 ^ 31 ->
  TensorBytes (Some t) element_size =
    Ret (if (1 <=? Z.of_nat (length ds)) && (Z.of_nat (length ds) <=? CORAL_OPERATOR_MAX_DIMS)
            && all_positive ds && (element_size * prod ds <=? UINT32_MAX)
         then element_size * prod ds else 0).
Proof. apply tensor_bytes_eq. Qed.

(** The array of dimensions. *)
Definition pad4 (ds : list Z) : list Z := take 4 (ds ++ [0; 0; 0; 0]).

Lemma tensor_dimensions_eq t ds :
  shape t ds -> Forall (fun n => 1 <= n < 2 ^ 31) ds -> (length ds <= 4)%nat ->
  TensorDimensions t = Ret (pad4 ds).
Proof.
  intros Hs Hp Hl. unfold TensorDimensions. rewrite Hs. cbn [ia_size].
  rewrite (wrap_small 32) by lia.
  transitivity (Ret (pad4 (map (wrap 32) ds))).
  { destruct ds as [|a [|b [|c [|d [|e ds]]]]]; [reflexivity .. |]. cbn [length] in Hl. lia. }
  do 2 f_equal. rewrite <- (map_id ds) at 2. apply map_ext_Forall.
  eapply List.Forall_impl; [| exact Hp]. intros n Hn. cbv beta in Hn. apply wrap_small. lia.
Qed.

(** ** Running the program *)

Lemma run_bind {A B} (p : fw A) (f : A -> fw B) m a m1 :
  p m = Ret (a, m1) -> (p ≫= f) m = f a m1.
Proof. intros H. unfold mbind, fw_bind. by rewrite H. Qed.

Lemma run_lift {A B} (r : res A) (f : A -> fw B) m a :
  r = Ret a -> (lift r ≫= f) m = f a m.
Proof. intros ->. done. Qed.

(** One step of the program, by an equation for it. *)
Ltac run H := rewrite (run_bind _ _ _ _ _ H); cbv beta.

(** ** Memory *)

(** The copy routines do what the C library's do. *)
Class RuntimeLaws {R : Runtime} : Prop := {
  memcpy_ok dst src n m bs m' :
    mem_read src n m = Ret (bs, m) -> mem_write dst bs m = Ret (tt, m') ->
    dst + n <= src \/ src + n <= dst -> Memcpy dst src n m = Ret (tt, m');
  memset_ok dst v n m m' :
    mem_write dst (replicate (Z.to_nat n) (v mod 256)) m = Ret (tt, m') ->
    Memset dst v n m = Ret (tt, m');
  kernel_time_ok k : is_u64 (kernel_time k) }.

(** The external memory is local to the bridge, and the core's own memory lies
    below it. *)
Record machine_ok (m : machine) : Prop := {
  mk_memory : memory_ok (m_handle m);
  mk_enabled : local_extmem_enabled (m_handle m) = true;
  mk_mode : is_u32 (operator_mode (m_handle m)) /\ is_u32 (sampled_rtl_mask (m_handle m));
  mk_tcm : buf_len (m_tcm m) <= kExtmemBase;
  mk_tcm_bytes : buf_bytes (m_tcm m) }.

Definition byte_at (m : machine) (a : Z) : Z :=
  if in_extmem a 1 then buf_at (local_extmem (m_handle m)) (a - kExtmemBase)
  else buf_at (m_tcm m) a.

Definition bytes_at (m : machine) (a n : Z) : list Z := byte_at m <$> seqZ a n.

(** The program's data: the external memory in front of the mailbox, where the
    tensor arena is, and the core's own memory. *)
Definition own (m : machine) (a n : Z) : Prop :=
  (kExtmemBase <= a /\ a + n <= kExtmemBase + OPENNPUX_CORAL_MOBILENET_MAILBOX_OFFSET) \/
  (0 <= a /\ a + n <= buf_len (m_tcm m)).

Ltac unfold_layout :=
  unfold kExtmemBase, kExtmemSize, OPENNPUX_CORAL_MOBILENET_MAILBOX_OFFSET,
    CORAL_OPERATOR_DESCRIPTOR_OFFSET, CORAL_EXECUTION_DESCRIPTOR_OFFSET,
    CORAL_OPERATOR_STAGING_OFFSET, CORAL_OPERATOR_STAGING_SIZE, descriptor_sizeof in *.

Lemma set_local_twice b b' m : set_local b (set_local b' m) = set_local b m.
Proof. done. Qed.

Lemma set_local_same m : set_local (local_extmem (m_handle m)) m = m.
Proof. destruct m as [[] t c]. done. Qed.

Lemma set_local_ok b m :
  machine_ok m -> buf_len b = kExtmemSize -> buf_bytes b -> machine_ok (set_local b m).
Proof. intros [H1 H2 H3 H4 H5] Hl Hb. split; done. Qed.

Lemma length_bytes_at m a n : length (bytes_at m a n) = Z.to_nat n.
Proof. unfold bytes_at. by rewrite length_fmap, length_seqZ. Qed.

Lemma bytes_at_ext m m' a n :
  (forall i, a <= i < a + n -> byte_at m i = byte_at m' i) -> bytes_at m a n = bytes_at m' a n.
Proof.
  intros H. unfold bytes_at. apply list_fmap_ext. intros k i Hk.
  apply lookup_seqZ in Hk. apply H. lia.
Qed.

Lemma byte_at_byte m a : machine_ok m -> is_byte (byte_at m a).
Proof.
  intros [[_ Hb] _ _ _ Ht]. unfold byte_at. destruct (in_extmem a 1); [apply Hb | apply Ht].
Qed.

Lemma bytes_at_bytes m a n : machine_ok m -> Forall is_byte (bytes_at m a n).
Proof. intros Hm. apply Forall_fmap, Forall_true. intros i. by apply byte_at_byte. Qed.

Lemma bytes_at_extmem m a n :
  kExtmemBase <= a -> a + n <= kExtmemBase + kExtmemSize ->
  bytes_at m a n = buf_slice (local_extmem (m_handle m)) (a - kExtmemBase) n.
Proof.
  intros H1 H2. apply list_eq_same_length with (n := Z.to_nat n).
  - apply length_buf_slice.
  - apply length_bytes_at.
  - intros i x y Hi Hx Hy. rewrite lookup_buf_slice in Hy by lia.
    unfold bytes_at in Hx. rewrite list_lookup_fmap, lookup_seqZ_lt in Hx by lia.
    injection Hx as <-. injection Hy as <-. unfold byte_at, in_extmem.
    replace (_ && _) with true by lia. f_equal. lia.
Qed.

Lemma mem_read_extmem m a n :
  machine_ok m -> 0 <= n -> kExtmemBase <= a -> a + n <= kExtmemBase + kExtmemSize ->
  mem_read a n m = Ret (bytes_at m a n, m).
Proof.
  intros [[Hl _] He _ _ _] Hn H1 H2. unfold mem_read, in_extmem.
  replace (_ && _) with true by lia. rewrite He, buf_read_ret by lia. cbn [mbind res_bind].
  by rewrite bytes_at_extmem.
Qed.

Lemma mem_read_own m a n :
  machine_ok m -> 0 < n -> own m a n -> mem_read a n m = Ret (bytes_at m a n, m).
Proof.
  intros Hm Hn [[H1 H2] | [H1 H2]].
  - apply mem_read_extmem; [done | lia | done |]. unfold_layout. lia.
  - pose proof (mk_tcm _ Hm) as Ht. unfold mem_read, in_extmem.
    replace (_ && _) with false by lia. rewrite buf_read_ret by lia. cbn [mbind res_bind].
    do 2 f_equal. apply list_eq_same_length with (n := Z.to_nat n).
    + by rewrite length_bytes_at.
    + by rewrite length_buf_slice.
    + intros i x y Hi Hx Hy. rewrite lookup_buf_slice in Hx by lia.
      unfold bytes_at in Hy. rewrite list_lookup_fmap, lookup_seqZ_lt in Hy by lia.
      injection Hx as <-. injection Hy as <-. unfold byte_at, in_extmem.
      by replace (_ && _) with false by lia.
Qed.

Lemma mem_write_extmem m a bs :
  machine_ok m -> kExtmemBase <= a -> a + Z.of_nat (length bs) <= kExtmemBase + kExtmemSize ->
  mem_write a bs m =
    Ret (tt, set_local (buf_blit (local_extmem (m_handle m)) (a - kExtmemBase) bs) m).
Proof.
  intros [[Hl _] He _ _ _] H1 H2. unfold mem_write, in_extmem.
  replace (_ && _) with true by lia. rewrite He, buf_write_ret by lia. done.
Qed.

(** A write to the program's own data changes the bytes written. *)
Lemma mem_write_own m a bs :
  machine_ok m -> (0 < length bs)%nat -> own m a (Z.of_nat (length bs)) -> Forall is_byte bs ->
  exists m', mem_write a bs m = Ret (tt, m') /\ machine_ok m' /\
    settings (m_handle m') = settings (m_handle m) /\ buf_len (m_tcm m') = buf_len (m_tcm m) /\
    forall j, byte_at m' j =
      if decide (a <= j < a + Z.of_nat (length bs)) then bs !!! Z.to_nat (j - a) else byte_at m j.
Proof.
  intros Hm Hn Ho Hb. pose proof (mk_tcm _ Hm) as Ht. destruct Ho as [[H1 H2] | [H1 H2]].
  - eexists. split; [apply mem_write_extmem; [done | done | unfold_layout; lia] |].
    split; [| split; [done | split; [done |]]].
    + apply set_local_ok; [done | apply Hm | apply buf_bytes_blit; [apply Hm | done]].
    + intros j. unfold byte_at, in_extmem.
      cbn [set_local with_bridge m_handle m_tcm with_extmem local_extmem].
      rewrite buf_at_blit. destruct (decide (a <= j < _)).
      * replace (_ && _) with true by (unfold_layout; lia). rewrite decide_True by lia.
        f_equal. lia.
      * by rewrite decide_False by lia.
  - unfold mem_write, in_extmem. replace (_ && _) with false by lia.
    rewrite buf_write_ret by lia. eexists. split; [done |].
    split; [| split; [done | split; [done |]]].
    + destruct Hm as [K1 K2 K3 K4 K5]. split; try done. by apply buf_bytes_blit.
    + intros j. unfold byte_at, in_extmem. cbn [set_tcm m_handle m_tcm].
      rewrite buf_at_blit. destruct (_ && _) eqn:E; [by rewrite decide_False by lia | done].
Qed.

Lemma extmem_byte m j :
  0 <= j < kExtmemSize -> byte_at m (kExtmemBase + j) = buf_at (local_extmem (m_handle m)) j.
Proof.
  intros Hj. unfold byte_at, in_extmem. replace (_ && _) with true by lia. f_equal. lia.
Qed.

(** Descriptors at an offset. *)
Lemma get_descriptor_ok m off :
  machine_ok m -> 0 <= off -> off + descriptor_sizeof <= kExtmemSize ->
  get_descriptor off m = Ret (load_descriptor (local_extmem (m_handle m)) off, m).
Proof.
  intros [[Hl _] He _ _ _] H1 H2. unfold get_descriptor, buf_in, descriptor_sizeof in *.
  rewrite He, Hl. by replace (_ && _ && _) with true by lia.
Qed.

Lemma put_descriptor_ok m off d :
  machine_ok m -> 0 <= off -> off + descriptor_sizeof <= kExtmemSize ->
  put_descriptor off d m =
    Ret (tt, set_local (store_descriptor (local_extmem (m_handle m)) off d) m).
Proof.
  intros [[Hl _] He _ _ _] H1 H2. unfold put_descriptor, buf_in, descriptor_sizeof in *.
  rewrite He, Hl. by replace (_ && _ && _) with true by lia.
Qed.

(** A descriptor is what its own bytes say. *)
Lemma word_ext b b' off i :
  0 <= i -> 4 * i + 4 <= descriptor_sizeof ->
  (forall j, off <= j < off + descriptor_sizeof -> buf_at b j = buf_at b' j) ->
  word b off i = word b' off i.
Proof. intros H0 H1 H. unfold word. f_equal. apply buf_slice_ext. intros j Hj. apply H. lia. Qed.

Lemma load_descriptor_ext b b' off :
  (forall j, off <= j < off + descriptor_sizeof -> buf_at b j = buf_at b' j) ->
  load_descriptor b off = load_descriptor b' off.
Proof.
  intros H. pose proof (fun i H0 H1 => word_ext b b' off i H0 H1 H) as Hw.
  unfold descriptor_sizeof in Hw. unfold load_descriptor, load_tensor, sword, word64.
  change (seqZ 0 8) with [0; 1; 2; 3; 4; 5; 6; 7]. cbn [fmap list_fmap].
  rewrite !Hw by lia. done.
Qed.

(** A descriptor behind the mailbox is not the program's data. *)
Lemma put_descriptor_own m off d :
  machine_ok m -> descriptor_wf d -> OPENNPUX_CORAL_MOBILENET_MAILBOX_OFFSET <= off ->
  off + descriptor_sizeof <= kExtmemSize ->
  let m' := set_local (store_descriptor (local_extmem (m_handle m)) off d) m in
  put_descriptor off d m = Ret (tt, m') /\ machine_ok m' /\
  load_descriptor (local_extmem (m_handle m')) off = d /\
  (forall j, own m j 1 -> byte_at m' j = byte_at m j) /\
  forall j, ~ (off <= j < off + descriptor_sizeof) ->
    buf_at (local_extmem (m_handle m')) j = buf_at (local_extmem (m_handle m)) j.
Proof.
  intros Hm Hd H1 H2 m'.
  destruct (store_descriptor_keeps (local_extmem (m_handle m)) off d) as (K1 & K2 & K3);
    [apply Hd | apply Hd | apply Hd |].
  split; [apply put_descriptor_ok; (done || (unfold_layout; lia)) |].
  split; [apply set_local_ok; [done | rewrite K1; apply Hm | apply K2, Hm] |].
  split; [by apply load_store_descriptor |]. split; [| exact K3].
  intros j Hj. pose proof (mk_tcm _ Hm). unfold byte_at.
  cbn [m' set_local with_bridge m_handle m_tcm with_extmem local_extmem].
  destruct (in_extmem j 1) eqn:E; [| done]. unfold in_extmem in E. rewrite K3; [done |].
  unfold own in Hj. unfold_layout. lia.
Qed.

(** ** The staging area *)

Definition at_cursor (a : OperatorStagingAllocator) (c : Z) : OperatorStagingAllocator :=
  {| a_base := a_base a; a_size := a_size a; a_cursor := c |}.

(** A block of the staging area and the address its bytes come from. *)
Record block := { bk_address : Z; bk_source : Z; bk_size : Z }.

(** The external memory [b] while an operator is staged from the machine [m0]:
    what has been staged lies below the cursor, and beside it only the operator
    descriptor [d] has changed. *)
Record staging (m0 : machine) (b : buf) (a : OperatorStagingAllocator)
    (d : coral_operator_descriptor) (blocks : list block) : Prop := {
  sg_len : buf_len b = kExtmemSize;
  sg_bytes : buf_bytes b;
  sg_kept : forall j,
    ~ (CORAL_OPERATOR_DESCRIPTOR_OFFSET <= j
         < CORAL_OPERATOR_DESCRIPTOR_OFFSET + descriptor_sizeof) ->
    ~ (CORAL_OPERATOR_STAGING_OFFSET <= j < CORAL_OPERATOR_STAGING_OFFSET + a_cursor a) ->
    buf_at b j = buf_at (local_extmem (m_handle m0)) j;
  sg_desc : load_descriptor b CORAL_OPERATOR_DESCRIPTOR_OFFSET = d;
  sg_wf : descriptor_wf d;
  sg_alloc : a_base a = kExtmemBase + CORAL_OPERATOR_STAGING_OFFSET /\
             a_size a = CORAL_OPERATOR_STAGING_SIZE /\
             0 <= a_cursor a <= CORAL_OPERATOR_STAGING_SIZE;
  sg_blocks : Forall (fun k =>
    CORAL_OPERATOR_STAGING_OFFSET <= bk_address k - kExtmemBase /\
    bk_address k - kExtmemBase + bk_size k <= CORAL_OPERATOR_STAGING_OFFSET + a_cursor a /\
    forall i, 0 <= i < bk_size k ->
      buf_at b (bk_address k - kExtmemBase + i) = byte_at m0 (bk_source k + i)) blocks }.

Section staging.
Context {R : Runtime} {RL : RuntimeLaws} (m0 : machine) (Hm : machine_ok m0).

Lemma staging_machine b a d blocks : staging m0 b a d blocks -> machine_ok (set_local b m0).
Proof. intros Hs. apply set_local_ok; [done | apply Hs | apply Hs]. Qed.

(** The program's own data is as it was. *)
Lemma own_kept b a d blocks src n i :
  staging m0 b a d blocks -> own m0 src n -> src <= i < src + n ->
  byte_at (set_local b m0) i = byte_at m0 i.
Proof.
  intros Hs Ho Hi. unfold byte_at. cbn [set_local with_bridge m_handle m_tcm with_extmem local_extmem].
  destruct (in_extmem i 1) eqn:E; [| done]. unfold in_extmem in E.
  destruct Hs as [_ _ Hk _ _ _ _]. pose proof (mk_tcm _ Hm).
  destruct Ho as [[H1 H2] | [H1 H2]]; [| lia].
  apply Hk; unfold_layout; lia.
Qed.

Lemma stage_put b a d blocks d' :
  staging m0 b a d blocks -> descriptor_wf d' ->
  exists b', put_descriptor CORAL_OPERATOR_DESCRIPTOR_OFFSET d' (set_local b m0)
      = Ret (tt, set_local b' m0) /\ staging m0 b' a d' blocks.
Proof.
  intros Hs Hd. pose proof (staging_machine _ _ _ _ Hs) as Hm1.
  rewrite put_descriptor_ok by (done || (unfold_layout; lia)). rewrite set_local_twice.
  eexists. split; [done |]. cbn [set_local with_bridge m_handle with_extmem local_extmem].
  destruct Hs as [Hl Hb Hk Hd0 Hw Ha Hbl].
  destruct (store_descriptor_keeps b CORAL_OPERATOR_DESCRIPTOR_OFFSET d') as (K1 & K2 & K3);
    [apply Hd | apply Hd | apply Hd |].
  split; [by rewrite K1 | auto | | by apply load_store_descriptor | done | done |].
  - intros j H1 H2. rewrite K3 by done. by apply Hk.
  - eapply List.Forall_impl; [| exact Hbl]. intros k (B1 & B2 & B3).
    split; [done | split; [done |]]. intros i Hi. rewrite K3; [by apply B3 |].
    unfold_layout. lia.
Qed.

Lemma stage_copy b a d blocks c src n :
  staging m0 b a d blocks -> 0 < n -> own m0 src n ->
  a_cursor a <= c -> c + n <= CORAL_OPERATOR_STAGING_SIZE ->
  exists b',
    Memcpy (kExtmemBase + CORAL_OPERATOR_STAGING_OFFSET + c) src n (set_local b m0)
      = Ret (tt, set_local b' m0) /\
    staging m0 b' (at_cursor a (c + n)) d
      ({| bk_address := kExtmemBase + CORAL_OPERATOR_STAGING_OFFSET + c;
          bk_source := src; bk_size := n |} :: blocks).
Proof.
  intros Hs Hn Ho Hc Hfit. pose proof (staging_machine _ _ _ _ Hs) as Hm1.
  assert (own (set_local b m0) src n) as Ho1 by exact Ho.
  pose proof (sg_alloc _ _ _ _ _ Hs) as (Ab & As & Ac).
  assert (bytes_at (set_local b m0) src n = bytes_at m0 src n) as Eb.
  { apply bytes_at_ext. intros i Hi. by apply (own_kept b a d blocks src n). }
  set (dst := kExtmemBase + CORAL_OPERATOR_STAGING_OFFSET + c).
  pose proof (mem_write_extmem _ dst (bytes_at m0 src n) Hm1) as Ew.
  rewrite length_bytes_at in Ew. specialize (Ew ltac:(unfold dst; unfold_layout; lia)
    ltac:(unfold dst; unfold_layout; lia)).
  rewrite set_local_twice in Ew. cbn [set_local with_bridge m_handle with_extmem local_extmem] in Ew.
  replace (dst - kExtmemBase) with (CORAL_OPERATOR_STAGING_OFFSET + c) in Ew by (unfold dst; lia).
  exists (buf_blit b (CORAL_OPERATOR_STAGING_OFFSET + c) (bytes_at m0 src n)). split.
  - eapply memcpy_ok; [rewrite mem_read_own, Eb by done; reflexivity | exact Ew |].
    pose proof (mk_tcm _ Hm). unfold dst, own in *. unfold_layout. lia.
  - pose proof (length_bytes_at m0 src n) as Hlen.
    destruct Hs as [Hl Hb Hk Hd0 Hw Ha Hbl].
    assert (forall j, ~ (CORAL_OPERATOR_STAGING_OFFSET + c <= j
              < CORAL_OPERATOR_STAGING_OFFSET + c + n) ->
      buf_at (buf_blit b (CORAL_OPERATOR_STAGING_OFFSET + c) (bytes_at m0 src n)) j = buf_at b j)
      as Hout.
    { intros j Hj. rewrite buf_at_blit, Hlen. rewrite decide_False by lia. done. }
    split; cbn [at_cursor a_base a_size a_cursor]; [done | | | | done | lia |].
    + apply buf_bytes_blit; [done | by apply bytes_at_bytes].
    + intros j H1 H2. rewrite Hout by lia. apply Hk; [done | lia].
    + rewrite <- Hd0. apply load_descriptor_ext. intros j Hj. apply Hout. unfold_layout. lia.
    + apply List.Forall_cons; cbn [bk_address bk_source bk_size].
      * split; [lia |]. split; [lia |]. intros i Hi. rewrite buf_at_blit, Hlen.
        rewrite decide_True by lia. unfold bytes_at.
        replace (Z.to_nat _) with (Z.to_nat i) by lia.
        apply list_lookup_total_correct. rewrite list_lookup_fmap, lookup_seqZ_lt by lia.
        cbn. do 2 f_equal. lia.
      * eapply List.Forall_impl; [| exact Hbl]. intros k (B1 & B2 & B3).
        split; [done |]. split; [lia |]. intros i Hi. rewrite Hout by lia. by apply B3.
Qed.

(** A tensor of the program. *)
Record tensor_ok (t : TfLiteEvalTensor) (ds : list Z) (element_size : Z) : Prop := {
  to_shape : shape t ds;
  to_rank : (1 <= length ds <= 4)%nat;
  to_dims : Forall (fun n => 1 <= n < 2 ^ 31) ds;
  to_element : element_size = 1 \/ element_size = 4;
  to_own : own m0 (et_raw t) (element_size * prod ds) }.

(** The descriptor's tensor. *)
Definition staged_tensor (c : Z) (ds : list Z) (element_size element_type zero_point : Z) :
    coral_operator_tensor :=
  {| t_address := kExtmemBase + CORAL_OPERATOR_STAGING_OFFSET + c;
     t_size := element_size * prod ds; t_rank := Z.of_nat (length ds);
     t_dimensions := pad4 ds; t_element_type := element_type; t_zero_point := zero_point |}.

Definition staged_block (c : Z) (t : TfLiteEvalTensor) (ds : list Z) (element_size : Z) : block :=
  {| bk_address := kExtmemBase + CORAL_OPERATOR_STAGING_OFFSET + c;
     bk_source := et_raw t; bk_size := element_size * prod ds |}.

Lemma dims_positive ds : Forall (fun n => 1 <= n < 2 ^ 31) ds ->
  Forall is_i32 ds /\ all_positive ds = true /\ 1 <= prod ds.
Proof.
  intros H. assert (Forall (fun n => 1 <= n) ds) as H1
    by (eapply List.Forall_impl; [| exact H]; intros n Hn; cbv beta in Hn; lia).
  split; [eapply List.Forall_impl; [| exact H]; intros n Hn; cbv beta in Hn; unfold is_i32; lia |].
  split; [by apply all_positive_iff | by apply prod_pos].
Qed.

Lemma pad4_wf ds :
  Forall (fun n => 1 <= n < 2 ^ 31) ds -> length (pad4 ds) = 4%nat /\ Forall is_u32 (pad4 ds).
Proof.
  intros H. unfold pad4. split; [rewrite length_take, length_app; cbn [length]; lia |].
  apply Forall_take, Forall_app. split.
  - eapply List.Forall_impl; [| exact H]. intros n Hn. cbv beta in Hn. unfold is_u32. lia.
  - repeat (apply List.Forall_cons; [unfold is_u32; lia |]). apply List.Forall_nil.
Qed.

Lemma staged_tensor_wf c ds es ty zp :
  Forall (fun n => 1 <= n < 2 ^ 31) ds -> (length ds <= 4)%nat -> 0 <= es -> 0 <= c ->
  c + es * prod ds <= CORAL_OPERATOR_STAGING_SIZE -> is_u32 ty -> is_i32 zp ->
  tensor_wf (staged_tensor c ds es ty zp).
Proof.
  intros Hd Hl He Hc Hf Ht Hz. destruct (pad4_wf ds Hd) as [P1 P2].
  destruct (dims_positive ds Hd) as (_ & _ & ?).
  assert (0 <= es * prod ds) by nia. unfold tensor_wf, staged_tensor, is_u32 in *.
  cbn [t_address t_size t_rank t_dimensions t_element_type t_zero_point].
  unfold_layout. repeat split; try apply Hz; (done || lia).
Qed.

Lemma element_count_prod ds acc :
  Forall (fun n => 1 <= n < 2 ^ 31) ds -> 1 <= acc -> acc * prod ds < 2 ^ 64 ->
  element_count_loop ds acc = acc * prod ds.
Proof.
  revert acc. induction ds as [|n ds IH]; intros acc Hd Ha Hp; [simpl; lia |].
  apply List.Forall_cons_iff in Hd as [Hn Hd]. destruct (dims_positive ds Hd) as (_ & _ & Hp1).
  cbn [prod foldr] in *. fold (prod ds) in *. cbn [element_count_loop].
  replace (n =? 0) with false by lia.
  assert (acc * n < 2 ^ 64) by nia.
  assert (acc <= UINT64_MAX / n) by (apply Z.div_le_lower_bound; lia).
  replace (_ <? acc) with false by lia. cbn [orb].
  rewrite wrap_small, IH by (done || nia). ring.
Qed.

Lemma staged_count c ds es ty zp :
  Forall (fun n => 1 <= n < 2 ^ 31) ds -> (1 <= length ds <= 4)%nat -> prod ds < 2 ^ 64 ->
  ElementCount (staged_tensor c ds es ty zp) = prod ds.
Proof.
  intros Hd Hl Hp. unfold ElementCount, CORAL_OPERATOR_MAX_DIMS.
  cbn [staged_tensor t_rank t_dimensions].
  replace (_ || _) with false by lia. unfold pad4.
  rewrite take_take, Nat2Z.id, Nat.min_l, take_app_length by lia.
  rewrite element_count_prod by (done || lia). lia.
Qed.

Lemma set_tensors_wf d count i t :
  descriptor_wf d -> tensor_wf t -> is_u32 count ->
  descriptor_wf (set_tensors d count (<[i := t]> (d_tensors d))).
Proof.
  intros [H1 H2 H3 [H4 H5] H6] Ht Hc. split; cbn; try done.
  - rewrite !Forall_cons_iff in *. tauto.
  - rewrite length_insert. split; [done |]. by apply Forall_insert.
Qed.

Lemma stage_allocate b a d blocks n al :
  staging m0 b a d blocks -> 1 <= n -> al = 16 \/ al = 4 ->
  round_up (a_cursor a) al + n <= CORAL_OPERATOR_STAGING_SIZE ->
  AllocateStaging (Some a) n al =
    (kExtmemBase + CORAL_OPERATOR_STAGING_OFFSET + round_up (a_cursor a) al,
     Some (at_cursor a (round_up (a_cursor a) al + n))).
Proof.
  intros Hs Hn Hal Hfit. pose proof (sg_alloc _ _ _ _ _ Hs) as (Ab & As & Ac).
  pose proof (round_up_spec (a_cursor a) al ltac:(lia)) as [_ Hru].
  rewrite allocate_spec; [| | unfold is_u32; unfold_layout; lia | unfold is_u32; lia].
  2: { unfold alloc_wf. rewrite Ab, As. unfold_layout. lia. }
  rewrite Ab, As. replace (1 <=? n) with true by lia.
  replace (_ + n <=? _) with true by lia.
  replace (al =? 2 ^ Z.log2 al) with true by (by destruct Hal as [-> | ->]). unfold at_cursor.
  by rewrite Ab, As.
Qed.

Lemma set_tensor_ok d index c ds es ty zp :
  Forall (fun n => 1 <= n < 2 ^ 31) ds -> (1 <= length ds <= 4)%nat ->
  0 <= index < 4 -> d_tensor_count d = index -> 0 <= c -> 1 <= es * prod ds ->
  SetOperatorTensor (Some d) index (kExtmemBase + CORAL_OPERATOR_STAGING_OFFSET + c)
    (es * prod ds) (Z.of_nat (length ds)) (Some (pad4 ds)) ty zp =
  (true, Some (set_tensors d (index + 1)
    (<[Z.to_nat index := staged_tensor c ds es ty zp]> (d_tensors d)))).
Proof.
  intros Hd Hl Hi Hc Hc0 Hn. unfold SetOperatorTensor, CORAL_OPERATOR_MAX_TENSORS,
    CORAL_OPERATOR_MAX_DIMS.
  replace (4 <=? index) with false by lia. replace (_ =? 0) with false by (unfold_layout; lia).
  replace (es * prod ds =? 0) with false by lia. replace (Z.of_nat _ =? 0) with false by lia.
  replace (4 <? Z.of_nat _) with false by lia. cbn [orb]. rewrite Hc, Z.leb_refl.
  rewrite take_ge by (destruct (pad4_wf ds Hd) as [-> _]; done). done.
Qed.

Lemma stage_tensor_ok b a d blocks index t ds es ty zp :
  staging m0 b a d blocks -> tensor_ok t ds es -> 0 <= index < 4 -> d_tensor_count d = index ->
  is_u32 ty -> is_i32 zp ->
  let c := round_up (a_cursor a) 16 in
  c + es * prod ds <= CORAL_OPERATOR_STAGING_SIZE ->
  exists b', StageTensor a index t es ty zp (set_local b m0)
      = Ret ((true, at_cursor a (c + es * prod ds)), set_local b' m0) /\
    staging m0 b' (at_cursor a (c + es * prod ds))
      (set_tensors d (index + 1)
         (<[Z.to_nat index := staged_tensor c ds es ty zp]> (d_tensors d)))
      (staged_block c t ds es :: blocks).
Proof.
  intros Hs [Hsh Hr Hd He Ho] Hix Hcnt Hty Hzp c Hfit.
  destruct (dims_positive ds Hd) as (Hi & Hp & Hp1).
  pose proof (sg_alloc _ _ _ _ _ Hs) as (_ & _ & Ac).
  pose proof (round_up_spec (a_cursor a) 16 ltac:(lia)) as [_ Hru]. fold c in Hru.
  assert (1 <= es * prod ds <= UINT32_MAX) as Hn by (unfold_layout; nia).
  assert (TensorBytes (Some t) es = Ret (es * prod ds)) as Eb.
  { rewrite (tensor_bytes_eq t ds es Hsh Hi) by lia. rewrite Hp.
    replace (1 <=? Z.of_nat _) with true by lia.
    replace (Z.of_nat (length ds) <=? _) with true by (unfold CORAL_OPERATOR_MAX_DIMS; lia).
    by replace (_ <=? UINT32_MAX) with true by lia. }
  unfold StageTensor. rewrite (run_lift _ _ _ _ Eb).
  replace (if es <? 16 then 16 else es) with 16 by (destruct He as [-> | ->]; done).
  rewrite (stage_allocate b a d blocks) by (done || lia || by left). fold c.
  replace (_ =? 0) with false by (unfold_layout; lia). cbn [default].
  rewrite (run_lift _ _ _ _ (tensor_dimensions_eq t ds Hsh Hd ltac:(lia))).
  run (get_descriptor_ok _ CORAL_OPERATOR_DESCRIPTOR_OFFSET
    (staging_machine _ _ _ _ Hs) ltac:(done) ltac:(done)).
  cbn [set_local with_bridge m_handle with_extmem local_extmem].
  rewrite (sg_desc _ _ _ _ _ Hs), Hsh. cbn [ia_size]. rewrite (wrap_small 32) by lia.
  rewrite set_tensor_ok by (done || lia). cbn [default id].
  destruct (stage_put b a d blocks (set_tensors d (index + 1)
    (<[Z.to_nat index := staged_tensor c ds es ty zp]> (d_tensors d))) Hs) as (b1 & E1 & Hs1).
  { apply set_tensors_wf; [apply Hs | | unfold is_u32; lia].
    apply staged_tensor_wf; (done || lia). }
  run E1. cbn [negb].
  destruct (stage_copy b1 a _ blocks c (et_raw t) (es * prod ds) Hs1 ltac:(lia) Ho ltac:(lia) Hfit)
    as (b2 & E2 & Hs2).
  run E2. by exists b2.
Qed.

End staging.
