(* ===== verification/MobilenetHybrid.v ===== *)
(** * Convolutions handed to the bridge

    [TryHybridConvInvoke] of the inference firmware where the operator registers
    choose the bridge.  The theorems follow the bytes of a node's tensors
    through the staging area, the operator descriptor, the doorbell and the
    kernel, and back into the node's output. *)

From Stdlib Require Import SpecFloat.
From S2P Require Import Prelude Axi CustomMac Operator FixedPoint Kernels KernelSpec.
From S2P Require Import KernelsFloat HybridDispatch KernelFrame EnvParse Bridge BridgeSpec.
From S2P Require Import HybridSubmit Mobilenet MobilenetConv.

(** ** The operator registers *)

Definition at_clock (k : nat) (m : machine) : machine :=
  {| m_handle := m_handle m; m_tcm := m_tcm m; m_clock := k |}.

Lemma firmware_load_register highmem addr h :
  IsHybridWordAccess (word_access addr) = true -> addr mod 4 = 0 ->
  is_u32 (operator_register highmem h addr) ->
  firmware_load highmem addr h = Ret (Some (operator_register highmem h addr, h)).
Proof.
  intros Ha Hm Hv. pose proof (word_lane addr Hm) as Hl. unfold firmware_load, read_callback.
  rewrite Ha. cbn [mbind res_bind word_answer read_data_bits_resp read_data_bits_data Z.eqb
    word_access addr_bits_addr].
  rewrite land_15, drop_lane_data by lia.
  by rewrite take_app_length', le_val_bytes, Z.mod_small by done.
Qed.

(** The registers as the program finds them. *)
Definition regs_of (highmem : bool) (h : coral_gem5_handle) : operator_regs :=
  {| reg_mode := operator_mode h; reg_capabilities := capabilities highmem;
     reg_sampled_rtl_mask := sampled_rtl_mask h |}.

Section registers.
Context {R : Runtime} (highmem : bool).

Lemma bus_load_ok addr m :
  IsHybridWordAccess (word_access addr) = true -> addr mod 4 = 0 ->
  is_u32 (operator_register highmem (m_handle m) addr) ->
  bus_load highmem addr m =
    Ret (operator_register highmem (m_handle m) addr, at_clock (S (m_clock m)) m).
Proof. intros H1 H2 H3. unfold bus_load. by rewrite firmware_load_register. Qed.

Lemma capabilities_u32 : is_u32 (capabilities highmem).
Proof. by destruct highmem. Qed.

Lemma operator_mode_ok m :
  machine_ok m ->
  OperatorMode highmem m = Ret (operator_mode (m_handle m), at_clock (S (m_clock m)) m).
Proof. intros Hm. apply (bus_load_ok CORAL_OPERATOR_MODE_REG); [done | done | apply Hm]. Qed.

Lemma sampled_mask_ok m :
  machine_ok m ->
  SampledRtlMask highmem m = Ret (sampled_rtl_mask (m_handle m), at_clock (S (m_clock m)) m).
Proof.
  intros Hm. apply (bus_load_ok CORAL_OPERATOR_SAMPLED_RTL_MASK_REG); [done | done | apply Hm].
Qed.

Lemma operator_supported_ok opcode m :
  exists k, operator_supported highmem opcode m =
    Ret (HybridOperatorSupported (regs_of highmem (m_handle m)) opcode, at_clock k m).
Proof.
  unfold operator_supported, HybridOperatorSupported.
  destruct (opcode <? 32); cbn [negb andb].
  - pose proof (bus_load_ok CORAL_OPERATOR_CAPABILITIES_REG m eq_refl eq_refl capabilities_u32) as E.
    rewrite (run_bind _ _ _ _ _ E). by eexists.
  - exists (m_clock m). by destruct m.
Qed.

(** The choice the program makes is the one on the registers' values. *)
Lemma uses_hybrid_ok opcode m :
  machine_ok m -> exists k, operator_uses_hybrid highmem opcode m =
    Ret (OperatorUsesHybrid (regs_of highmem (m_handle m)) opcode, at_clock k m).
Proof.
  intros Hm. unfold operator_uses_hybrid, OperatorUsesHybrid.
  rewrite (run_bind _ _ _ _ _ (operator_mode_ok m Hm)). cbn [reg_mode regs_of].
  set (m1 := at_clock _ m). assert (machine_ok m1) as Hm1 by (destruct Hm; by split).
  destruct (_ =? CORAL_OPERATOR_MODE_HYBRID).
  { destruct (operator_supported_ok opcode m1) as (k & ->). by exists k. }
  destruct (_ =? CORAL_OPERATOR_MODE_SAMPLED); [| by eexists].
  destruct (operator_supported_ok opcode m1) as (k & E). rewrite (run_bind _ _ _ _ _ E).
  change (m_handle m1) with (m_handle m).
  destruct (HybridOperatorSupported _ opcode); cbn [negb andb]; [| by eexists].
  assert (machine_ok (at_clock k m1)) as Hm2 by (destruct Hm; by split).
  rewrite (run_bind _ _ _ _ _ (sampled_mask_ok _ Hm2)). by eexists.
Qed.

End registers.

(** ** The convolution a node asks for *)

Record conv_shape := {
  cs_batches : Z; cs_in_h : Z; cs_in_w : Z; cs_in_c : Z; cs_filter_h : Z; cs_filter_w : Z;
  cs_out_h : Z; cs_out_w : Z; cs_out_c : Z }.

Definition i8_at (m : machine) (a : Z) : Z := i8 (byte_at m a).
Definition i32_at (m : machine) (a : Z) : Z := i32 (le_val (bytes_at m a 4)).

Section node.
Context (m : machine) (dw : bool) (g : conv_shape).
Context (n : conv_node) (data : OpDataConvCustom) (params : conv_params).
Abbreviation NB := (cs_batches g).
Abbreviation IY := (cs_in_h g).
Abbreviation IX := (cs_in_w g).
Abbreviation IC := (cs_in_c g).
Abbreviation FH := (cs_filter_h g).
Abbreviation FW := (cs_filter_w g).
Abbreviation OH := (cs_out_h g).
Abbreviation OW := (cs_out_w g).
Abbreviation OC := (cs_out_c g).

Definition input_dims : list Z := [NB; IY; IX; IC].
Definition filter_dims : list Z := if dw then [1; FH; FW; OC] else [OC; FH; FW; IC].
Definition bias_dims : list Z := [OC].
Definition output_dims : list Z := [NB; OH; OW; OC].

(** The product of an input and a filter element, both moved by their zero
    points. *)
Definition ref_product (i j : Z) : Z :=
  (i8_at m (et_raw (cn_input n) + i) - input_zero_point data) *
  (i8_at m (et_raw (cn_filter n) + j) - filter_zero_point data).

(** What a filter tap adds to an output element. *)
Definition ref_tap (batch y x oc fy fx : Z) : Z :=
  let iy := y * cp_stride_height params + fy - od_padding_height data in
  let ix := x * cp_stride_width params + fx - od_padding_width data in
  if (0 <=? iy) && (iy <? IY) && ((0 <=? ix) && (ix <? IX)) then
    if dw then
      ref_product (((batch * IY + iy) * IX + ix) * IC + oc / (OC / IC)) ((fy * FW + fx) * OC + oc)
    else
      sumZ IC (fun c => ref_product (((batch * IY + iy) * IX + ix) * IC + c)
                                    (((oc * FH + fy) * FW + fx) * IC + c))
  else 0.

Definition ref_sum (batch y x oc : Z) : Z :=
  sumZ FH (fun fy => sumZ FW (fun fx => ref_tap batch y x oc fy fx)).

(** The sum with the bias, rescaled by the channel's multiplier and shift and
    moved by the output's zero point. *)
Definition ref_result (batch y x oc : Z) : Z :=
  rescale (clamp INT32_MIN INT32_MAX
             (i32_at m (et_raw (cn_bias n) + 4 * oc) + ref_sum batch y x oc))
    (i32_at m (per_channel_output_multiplier data + 4 * oc))
    (i32_at m (per_channel_output_shift data + 4 * oc)) + output_zero_point data.

Definition ref_value (batch y x oc : Z) : Z :=
  clamp (output_activation_min data) (output_activation_max data) (ref_result batch y x oc).

(** Where the tensors and tables go in the staging area. *)
Definition input_cursor : Z := round_up 0 16.
Definition filter_cursor : Z := round_up (input_cursor + 1 * prod input_dims) 16.
Definition bias_cursor : Z := round_up (filter_cursor + 1 * prod filter_dims) 16.
Definition output_cursor : Z := round_up (bias_cursor + 4 * prod bias_dims) 16.
Definition multiplier_cursor : Z := round_up (output_cursor + 1 * prod output_dims) 4.
Definition shift_cursor : Z := round_up (multiplier_cursor + 4 * OC) 4.
Definition staged_end : Z := shift_cursor + 4 * OC.

(** A node the kernels can execute: its tensors have the shapes of a
    convolution, its tables have an entry for every output channel, everything
    fits the staging area, and no result leaves 32 bits. *)
Record conv_ok : Prop := {
  co_types : conv_types_ok n = true;
  co_input : tensor_ok m (cn_input n) input_dims 1;
  co_filter : tensor_ok m (cn_filter n) filter_dims 1;
  co_bias : tensor_ok m (cn_bias n) bias_dims 4;
  co_output : tensor_ok m (cn_output n) output_dims 1;
  co_channels : dw = true -> OC mod IC = 0;
  co_multiplier : own m (per_channel_output_multiplier data) (4 * OC);
  co_shift : own m (per_channel_output_shift data) (4 * OC);
  co_fits : staged_end <= CORAL_OPERATOR_STAGING_SIZE;
  co_zero_points : -128 <= input_zero_point data <= 127 /\ -128 <= filter_zero_point data <= 127 /\
                   is_i32 (output_zero_point data);
  co_activation : -128 <= output_activation_min data <= output_activation_max data /\
                  output_activation_max data <= 127;
  co_strides : 1 <= cp_stride_height params < 2 ^ 31 /\ 1 <= cp_stride_width params < 2 ^ 31;
  co_padding : 0 <= od_padding_height data < 2 ^ 31 /\ 0 <= od_padding_width data < 2 ^ 31;
  co_geometry : OH * cp_stride_height params + FH <= 2 ^ 31 /\
                OW * cp_stride_width params + FW <= 2 ^ 31;
  co_shifts : forall c, 0 <= c < OC -> -31 <= i32_at m (per_channel_output_shift data + 4 * c) <= 30;
  co_results : forall batch y x oc, 0 <= batch < NB -> 0 <= y < OH -> 0 <= x < OW -> 0 <= oc < OC ->
    is_i32 (ref_result batch y x oc) }.

(** The tensors of the descriptor. *)
Definition staged_tensors : list coral_operator_tensor :=
  [staged_tensor input_cursor input_dims 1 CORAL_OPERATOR_ELEMENT_INT8 (input_zero_point data);
   staged_tensor filter_cursor filter_dims 1 CORAL_OPERATOR_ELEMENT_INT8 (filter_zero_point data);
   staged_tensor bias_cursor bias_dims 4 CORAL_OPERATOR_ELEMENT_INT32 0;
   staged_tensor output_cursor output_dims 1 CORAL_OPERATOR_ELEMENT_INT8 (output_zero_point data)].

Definition staged_address (c : Z) : Z := kExtmemBase + CORAL_OPERATOR_STAGING_OFFSET + c.

(** The descriptor that is submitted. *)
Definition conv_request : coral_operator_descriptor :=
  set_conv (set_tables
    (set_tensors (InitializeOperatorDescriptor (conv_opcode dw) CORAL_OPERATOR_MODE_HYBRID) 4
       staged_tensors) (staged_address multiplier_cursor) (staged_address shift_cursor))
    OC data params.

Definition tensor_blocks : list block :=
  [staged_block output_cursor (cn_output n) output_dims 1;
   staged_block bias_cursor (cn_bias n) bias_dims 4;
   staged_block filter_cursor (cn_filter n) filter_dims 1;
   staged_block input_cursor (cn_input n) input_dims 1].

Definition table_blocks : list block :=
  [{| bk_address := staged_address shift_cursor;
      bk_source := per_channel_output_shift data; bk_size := 4 * OC |};
   {| bk_address := staged_address multiplier_cursor;
      bk_source := per_channel_output_multiplier data; bk_size := 4 * OC |}].

(** What the execution of the node counts for. *)
Definition conv_operations : Z :=
  let taps := NB * OH * OW * OC * FH * FW in u64 (if dw then taps else taps * IC).
Definition conv_read : Z := prod input_dims + prod filter_dims + 4 * prod bias_dims + 8 * OC.
Definition conv_written : Z := prod output_dims.
Definition conv_cycles (l : latency_model) : Z :=
  u64 (hybrid_fixed_cycles l + DivCeil conv_operations (hybrid_ops_per_cycle l)
       + DivCeil (conv_read + conv_written) (hybrid_bytes_per_cycle l)).

(** The machine [m'] after the node has been executed from [m] in [elapsed]
    nanoseconds of the simulator's machine: the output holds the convolution,
    the rest of the program's data and the mailbox are unchanged, and the
    execution descriptor has advanced. *)
Definition conv_done (m' : machine) (elapsed : Z) : Prop :=
  machine_ok m' /\ settings (m_handle m') = settings (m_handle m) /\
  (forall batch y x oc, 0 <= batch < NB -> 0 <= y < OH -> 0 <= x < OW -> 0 <= oc < OC ->
     i8_at m' (et_raw (cn_output n) + (((batch * OH + y) * OW + x) * OC + oc))
       = ref_value batch y x oc) /\
  (forall j, own m j 1 ->
     ~ (et_raw (cn_output n) <= j < et_raw (cn_output n) + prod output_dims) ->
     byte_at m' j = byte_at m j) /\
  (forall j, OPENNPUX_CORAL_MOBILENET_MAILBOX_OFFSET <= j < CORAL_EXECUTION_DESCRIPTOR_OFFSET ->
     buf_at (local_extmem (m_handle m')) j = buf_at (local_extmem (m_handle m)) j) /\
  load_descriptor (local_extmem (m_handle m')) CORAL_EXECUTION_DESCRIPTOR_OFFSET =
    add_counts (load_descriptor (local_extmem (m_handle m)) CORAL_EXECUTION_DESCRIPTOR_OFFSET)
      conv_operations elapsed (conv_cycles (latency (m_handle m))) conv_read conv_written.

Lemma input_prod : prod input_dims = NB * IY * IX * IC.
Proof. unfold input_dims, prod. simpl. ring. Qed.

Lemma output_prod : prod output_dims = NB * OH * OW * OC.
Proof. unfold output_dims, prod. simpl. ring. Qed.

Lemma filter_prod : prod filter_dims = if dw then FH * FW * OC else OC * FH * FW * IC.
Proof. unfold filter_dims, prod. destruct dw; simpl; ring. Qed.

Lemma filter_taps : nth 1 (pad4 filter_dims) 0 = FH /\ nth 2 (pad4 filter_dims) 0 = FW.
Proof. unfold filter_dims. by destruct dw. Qed.

Lemma filter_shape :
  length filter_dims = 4%nat /\
  (dw = true -> nth 0 (pad4 filter_dims) 0 = 1 /\ nth 3 (pad4 filter_dims) 0 = OC) /\
  (dw = false -> nth 0 (pad4 filter_dims) 0 = OC /\ nth 3 (pad4 filter_dims) 0 = IC).
Proof. unfold filter_dims. by destruct dw. Qed.

Lemma either_true (P Q : bool) :
  (dw = true -> P = true) -> (dw = false -> Q = true) -> (if dw then P else Q) = true.
Proof. destruct dw; auto. Qed.

(** The order of the blocks. *)
Lemma cursors_ordered :
  1 <= prod input_dims -> 1 <= prod filter_dims -> 1 <= prod bias_dims ->
  1 <= prod output_dims -> 1 <= OC ->
  input_cursor = 0 /\ input_cursor + 1 * prod input_dims <= filter_cursor /\
  filter_cursor + 1 * prod filter_dims <= bias_cursor /\
  bias_cursor + 4 * prod bias_dims <= output_cursor /\
  output_cursor + 1 * prod output_dims <= multiplier_cursor /\
  multiplier_cursor + 4 * OC <= shift_cursor.
Proof.
  intros. split; [done |].
  repeat split; apply round_up_spec; lia.
Qed.

Lemma conv_sizes (Hc : conv_ok) :
  1 <= prod input_dims /\ 1 <= prod filter_dims /\ 1 <= prod bias_dims /\
  1 <= prod output_dims /\ 1 <= OC.
Proof.
  destruct Hc as [_ [_ _ D0 _ _] [_ _ D1 _ _] [_ _ D2 _ _] [_ _ D3 _ _] _ _ _ _ _ _ _ _ _ _ _].
  split_and!; try (by apply dims_positive).
  apply List.Forall_cons_iff in D2 as [D2 _]. cbv beta in D2. lia.
Qed.

End node.

#[local] Opaque round_up.

(** The outcome written into a descriptor. *)
Lemma set_outcome_wf d state error ops elapsed cycles read written :
  descriptor_wf d -> is_u32 state -> is_u32 error ->
  Forall is_u64 [ops; elapsed; cycles; read; written] ->
  descriptor_wf (set_outcome d state error ops elapsed cycles read written).
Proof.
  intros [H1 H2 H3 H4 H5] Hs He Hc. split; try done.
  cbn. rewrite !List.Forall_cons_iff in H1 |- *. tauto.
Qed.

Lemma answer_wf d k cycles :
  descriptor_wf d ->
  Forall is_u64 [k_operation_count k; k_host_elapsed_ns k; cycles; k_bytes_read k;
                 k_bytes_written k] ->
  descriptor_wf (set_cycles (completed (submitted d) k) cycles).
Proof.
  intros [H1 H2 H3 H4 H5] Hk. split; try done.
  cbn. rewrite !List.Forall_cons_iff in H1 |- *. destruct_and!. by split_and!.
Qed.

Lemma answer_counts d k cycles :
  d_operation_count (set_cycles (completed d k) cycles) = k_operation_count k /\
  d_host_elapsed_ns (set_cycles (completed d k) cycles) = k_host_elapsed_ns k /\
  d_modeled_cycles (set_cycles (completed d k) cycles) = cycles /\
  d_bytes_read (set_cycles (completed d k) cycles) = k_bytes_read k /\
  d_bytes_written (set_cycles (completed d k) cycles) = k_bytes_written k.
Proof. done. Qed.

Lemma answer_tensor d k cycles i :
  tensor_at (set_cycles (completed d k) cycles) i = tensor_at (running d) i.
Proof. done. Qed.

Lemma completed_cycles l d k :
  hybrid_cycles l (completed d k) =
    u64 (hybrid_fixed_cycles l + DivCeil (k_operation_count k) (hybrid_ops_per_cycle l)
         + DivCeil (u64 (k_bytes_read k + k_bytes_written k)) (hybrid_bytes_per_cycle l)).
Proof. done. Qed.

Lemma initial_wf dw :
  descriptor_wf (InitializeOperatorDescriptor (conv_opcode dw) CORAL_OPERATOR_MODE_HYBRID).
Proof. by destruct dw; split; repeat first [split | constructor]. Qed.

(** The kernel behind the opcode. *)
Lemma run_kernel_conv expf dw d b base elapsed :
  d_opcode d = conv_opcode dw ->
  run_kernel expf d b base elapsed =
    Some (if dw then RunGem5HybridDepthwiseConv2D d b base elapsed
          else RunGem5HybridConv2D d b base elapsed).
Proof. unfold run_kernel. intros ->. by destruct dw. Qed.

(** ** Staging a node *)

Section run.
Context {T : Tflm} {R : Runtime} {RL : RuntimeLaws} (expf : spec_float -> spec_float).
Context (m0 : machine) (Hm : machine_ok m0) (dw : bool) (g : conv_shape).
Context (n : conv_node) (data : OpDataConvCustom) (params : conv_params).
Context (Hc : conv_ok m0 dw g n data params).
Abbreviation OC := (cs_out_c g).
Abbreviation a0 := (InitializeStagingAllocator kExtmemBase).
Abbreviation D0 := (InitializeOperatorDescriptor (conv_opcode dw) CORAL_OPERATOR_MODE_HYBRID).

Lemma cursors :
  input_cursor = 0 /\ input_cursor + 1 * prod (input_dims g) <= filter_cursor g /\
  filter_cursor g + 1 * prod (filter_dims dw g) <= bias_cursor dw g /\
  bias_cursor dw g + 4 * prod (bias_dims g) <= output_cursor dw g /\
  output_cursor dw g + 1 * prod (output_dims g) <= multiplier_cursor dw g /\
  multiplier_cursor dw g + 4 * OC <= shift_cursor dw g /\
  shift_cursor dw g + 4 * OC <= CORAL_OPERATOR_STAGING_SIZE.
Proof.
  destruct (conv_sizes _ _ _ _ _ _ Hc) as (P0 & P1 & P2 & P3 & PC).
  destruct (cursors_ordered dw g P0 P1 P2 P3 PC) as (? & ? & ? & ? & ? & ?).
  pose proof (co_fits _ _ _ _ _ _ Hc). unfold staged_end in *. split_and!; (done || lia).
Qed.

Lemma stage_all_ok b :
  staging m0 b a0 D0 [] ->
  let a := at_cursor a0 (output_cursor dw g + 1 * prod (output_dims g)) in
  exists b', stage_all a0 n data (set_local b m0) = Ret ((true, a), set_local b' m0) /\
    staging m0 b' a (set_tensors D0 4 (staged_tensors dw g data)) (tensor_blocks dw g n).
Proof.
  intros Hs a. destruct cursors as (C0 & C1 & C2 & C3 & C4 & C5 & C6).
  destruct (conv_sizes _ _ _ _ _ _ Hc) as (P0 & P1 & P2 & P3 & PC).
  destruct Hc as [_ T0 T1 T2 T3 _ _ _ _ (Z0 & Z1 & Z2) _ _ _ _ _ _]. unfold stage_all.
  assert (is_u32 CORAL_OPERATOR_ELEMENT_INT8 /\ is_u32 CORAL_OPERATOR_ELEMENT_INT32) as [U1 U2]
    by done.
  assert (is_i32 (input_zero_point data) /\ is_i32 (filter_zero_point data) /\ is_i32 0)
    as (I0 & I1 & I2) by (unfold is_i32; lia).
  destruct (stage_tensor_ok m0 Hm b a0 D0 [] 0 _ _ _ CORAL_OPERATOR_ELEMENT_INT8 _ Hs T0
    ltac:(lia) eq_refl U1 I0) as (b1 & E1 & S1); 
    [change (input_cursor + 1 * prod (input_dims g) <= CORAL_OPERATOR_STAGING_SIZE); lia |].
  rewrite (run_bind _ _ _ _ _ E1). cbn [negb].
  destruct (stage_tensor_ok m0 Hm b1 _ _ _ 1 _ _ _ CORAL_OPERATOR_ELEMENT_INT8 _ S1 T1
    ltac:(lia) eq_refl U1 I1) as (b2 & E2 & S2); 
    [change (filter_cursor g + 1 * prod (filter_dims dw g) <= CORAL_OPERATOR_STAGING_SIZE); lia |].
  rewrite (run_bind _ _ _ _ _ E2). cbn [negb].
  destruct (stage_tensor_ok m0 Hm b2 _ _ _ 2 _ _ _ CORAL_OPERATOR_ELEMENT_INT32 _ S2 T2
    ltac:(lia) eq_refl U2 I2) as (b3 & E3 & S3); 
    [change (bias_cursor dw g + 4 * prod (bias_dims g) <= CORAL_OPERATOR_STAGING_SIZE); lia |].
  rewrite (run_bind _ _ _ _ _ E3). cbn [negb].
  destruct (stage_tensor_ok m0 Hm b3 _ _ _ 3 _ _ _ CORAL_OPERATOR_ELEMENT_INT8 _ S3 T3
    ltac:(lia) eq_refl U1 Z2) as (b4 & E4 & S4); 
    [change (output_cursor dw g + 1 * prod (output_dims g) <= CORAL_OPERATOR_STAGING_SIZE); lia |].
  rewrite E4. exists b4. split; [reflexivity |]. exact S4.
Qed.

Lemma staging_grow b a d blocks c :
  staging m0 b a d blocks -> a_cursor a <= c <= CORAL_OPERATOR_STAGING_SIZE ->
  staging m0 b (at_cursor a c) d blocks.
Proof.
  intros [Hl Hb Hk Hd Hw (A1 & A2 & A3) Hbl] Hle. split; cbn [at_cursor a_base a_size a_cursor];
    [done | done | | done | done | lia |].
  - intros j H1 H2. apply Hk; [done | lia].
  - eapply List.Forall_impl; [| exact Hbl]. intros k (B1 & B2 & B3). split_and!; (done || lia).
Qed.

Lemma set_tables_wf d x y :
  descriptor_wf d -> is_u32 x -> is_u32 y -> descriptor_wf (set_tables d x y).
Proof.
  intros [H1 H2 H3 H4 H5] Hx Hy. split; cbn; try done.
  rewrite !Forall_cons_iff in *. tauto.
Qed.

Lemma set_conv_wf d : descriptor_wf d -> descriptor_wf (set_conv d OC data params).
Proof.
  intros [H1 H2 H3 H4 H5]. destruct cursors as (C0 & C1 & C2 & C3 & C4 & C5 & C6).
  destruct (conv_sizes _ _ _ _ _ _ Hc) as (P0 & P1 & P2 & P3 & PC).
  destruct Hc as [_ _ _ _ _ _ _ _ _ (_ & _ & Z2) Ha _ _ _ _ _].
  assert (is_u32 OC) by (unfold is_u32; unfold_layout; lia).
  pose proof (fun z => wrap_range 32 z ltac:(lia)) as Hw.
  split; cbn -[wrap]; try done.
  - rewrite !Forall_cons_iff in *. unfold is_u32 in *. destruct_and!. split_and!; auto; apply Hw.
  - rewrite !Forall_cons_iff in *. unfold is_i32 in *. destruct_and!. split_and!; (done || lia).
Qed.

(** The tables and the parameters; then everything is in place. *)
Lemma submit_conv_eq b :
  let a := at_cursor a0 (output_cursor dw g + 1 * prod (output_dims g)) in
  staging m0 b a (set_tensors D0 4 (staged_tensors dw g data)) (tensor_blocks dw g n) ->
  exists b' a', submit_conv true expf a n data params OC (set_local b m0)
      = finish_conv true expf n (set_local b' m0) /\
    staging m0 b' a' (conv_request dw g data params)
      (table_blocks dw g data ++ tensor_blocks dw g n).
Proof.
  intros a Hs. destruct cursors as (C0 & C1 & C2 & C3 & C4 & C5 & C6).
  destruct (conv_sizes _ _ _ _ _ _ Hc) as (P0 & P1 & P2 & P3 & PC).
  unfold submit_conv.
  assert (u32 (OC * 4) = 4 * OC) as -> by (rewrite wrap_small; unfold_layout; lia).
  rewrite (stage_allocate m0 b a _ _ (4 * OC) 4 Hs) by
    (lia || by right || (change (multiplier_cursor dw g + 4 * OC <= CORAL_OPERATOR_STAGING_SIZE); lia)).
  change (round_up (a_cursor a) 4) with (multiplier_cursor dw g).
  assert (staging m0 b (at_cursor a (multiplier_cursor dw g + 4 * OC))
    (set_tensors D0 4 (staged_tensors dw g data)) (tensor_blocks dw g n)) as Hg
    by (apply staging_grow; [done | cbn [a a_cursor at_cursor]; lia]).
  rewrite (stage_allocate m0 b _ _ _ (4 * OC) 4 Hg) by
    (lia || by right || (change (shift_cursor dw g + 4 * OC <= CORAL_OPERATOR_STAGING_SIZE); lia)).
  change (round_up (a_cursor (at_cursor a (multiplier_cursor dw g + 4 * OC))) 4)
    with (shift_cursor dw g).
  fold (staged_address (multiplier_cursor dw g)) (staged_address (shift_cursor dw g)).
  assert (is_u32 (staged_address (multiplier_cursor dw g)) /\
          is_u32 (staged_address (shift_cursor dw g))) as [U1 U2]
    by (unfold staged_address, is_u32; unfold_layout; lia).
  rewrite (run_bind _ _ _ _ _ (get_descriptor_ok _ CORAL_OPERATOR_DESCRIPTOR_OFFSET
    (staging_machine m0 Hm _ _ _ _ Hs) ltac:(done) ltac:(done))).
  cbn [set_local with_bridge m_handle with_extmem local_extmem]. rewrite (sg_desc _ _ _ _ _ Hs).
  edestruct (stage_put m0 Hm b a _ _ _ Hs (set_tables_wf _ _ _ (sg_wf _ _ _ _ _ Hs) U1 U2))
    as (b1 & E1 & S1).
  rewrite (run_bind _ _ _ _ _ E1).
  replace (_ || _) with false by (unfold staged_address; unfold_layout; lia).
  destruct (stage_copy m0 Hm b1 a _ _ (multiplier_cursor dw g) _ (4 * OC) S1 ltac:(lia)
    (co_multiplier _ _ _ _ _ _ Hc)) as (b2 & E2 & S2);
    [cbn [a a_cursor at_cursor]; lia | lia |].
  rewrite (run_bind _ _ _ _ _ E2).
  destruct (stage_copy m0 Hm b2 _ _ _ (shift_cursor dw g) _ (4 * OC) S2 ltac:(lia)
    (co_shift _ _ _ _ _ _ Hc)) as (b3 & E3 & S3);
    [cbn [a a_cursor at_cursor]; lia | lia |].
  rewrite (run_bind _ _ _ _ _ E3).
  rewrite (run_bind _ _ _ _ _ (get_descriptor_ok _ CORAL_OPERATOR_DESCRIPTOR_OFFSET
    (staging_machine m0 Hm _ _ _ _ S3) ltac:(done) ltac:(done))).
  cbn [set_local with_bridge m_handle with_extmem local_extmem]. rewrite (sg_desc _ _ _ _ _ S3).
  edestruct (stage_put m0 Hm b3 _ _ _ _ S3 (set_conv_wf _ (sg_wf _ _ _ _ _ S3))) as (b4 & E4 & S4).
  rewrite (run_bind _ _ _ _ _ E4). exists b4. eexists. split; [reflexivity |]. exact S4.
Qed.

(** ** The kernel on the staged node *)

Definition staged_in (b : buf) (k : block) : Prop :=
  forall i, 0 <= i < bk_size k ->
    buf_at b (bk_address k - kExtmemBase + i) = byte_at m0 (bk_source k + i).

Section kernel.
Context (br : buf) (Hlen : buf_len br = kExtmemSize).
Context (Hin : Forall (staged_in br) (table_blocks dw g data ++ tensor_blocks dw g n)).
Abbreviation d := (running (submitted (conv_request dw g data params))).

Lemma staged_off c ds es ty zp :
  0 <= c <= CORAL_OPERATOR_STAGING_SIZE ->
  tensor_off kExtmemBase (staged_tensor c ds es ty zp) = CORAL_OPERATOR_STAGING_OFFSET + c.
Proof.
  intros H. unfold tensor_off. cbn [staged_tensor t_address]. rewrite wrap_small; unfold_layout; lia.
Qed.

Lemma block_at k i :
  List.In k (table_blocks dw g data ++ tensor_blocks dw g n) -> 0 <= i < bk_size k ->
  buf_at br (bk_address k - kExtmemBase + i) = byte_at m0 (bk_source k + i).
Proof. intros Hk Hi. rewrite List.Forall_forall in Hin. by apply (Hin k). Qed.

Lemma input_at i :
  0 <= i < prod (input_dims g) ->
  at8 br (tensor_off kExtmemBase (tensor_at d 0) + i) = i8_at m0 (et_raw (cn_input n) + i).
Proof.
  intros Hi. destruct cursors as (C0 & C1 & C2 & C3 & C4 & C5 & C6).
  destruct (conv_sizes _ _ _ _ _ _ Hc) as (P0 & P1 & P2 & P3 & PC).
  change (tensor_at d 0) with (staged_tensor input_cursor (input_dims g) 1
    CORAL_OPERATOR_ELEMENT_INT8 (input_zero_point data)).
  rewrite staged_off by lia. unfold at8, i8_at. f_equal.
  etrans; [| apply (block_at (staged_block input_cursor (cn_input n) (input_dims g) 1) i); [simpl; tauto |]].
  - f_equal; cbn [bk_address staged_block]; lia.
  - cbn [bk_size staged_block]. lia.
Qed.

Lemma filter_at i :
  0 <= i < prod (filter_dims dw g) ->
  at8 br (tensor_off kExtmemBase (tensor_at d 1) + i) = i8_at m0 (et_raw (cn_filter n) + i).
Proof.
  intros Hi. destruct cursors as (C0 & C1 & C2 & C3 & C4 & C5 & C6).
  destruct (conv_sizes _ _ _ _ _ _ Hc) as (P0 & P1 & P2 & P3 & PC).
  change (tensor_at d 1) with (staged_tensor (filter_cursor g) (filter_dims dw g) 1
    CORAL_OPERATOR_ELEMENT_INT8 (filter_zero_point data)).
  rewrite staged_off by lia. unfold at8, i8_at. f_equal.
  etrans; [| apply (block_at (staged_block (filter_cursor g) (cn_filter n) (filter_dims dw g) 1) i); [simpl; tauto |]].
  - f_equal; cbn [bk_address staged_block]; lia.
  - cbn [bk_size staged_block]. lia.
Qed.

(** A word of a block. *)
Lemma block_word k c :
  List.In k (table_blocks dw g data ++ tensor_blocks dw g n) -> 0 <= c -> 4 * c + 4 <= bk_size k ->
  at32 br (bk_address k - kExtmemBase + 4 * c) = i32_at m0 (bk_source k + 4 * c).
Proof.
  intros Hk H0 H1. unfold at32, i32_at. do 2 f_equal.
  apply list_eq_same_length with (n := 4%nat); [done | done |].
  intros i x y Hi Hx Hy. rewrite lookup_buf_slice in Hx by lia.
  unfold bytes_at in Hy. rewrite list_lookup_fmap, lookup_seqZ_lt in Hy by lia.
  injection Hx as <-. injection Hy as <-. rewrite <- !Z.add_assoc. apply block_at; [done | lia].
Qed.

Lemma bias_at c :
  0 <= c < OC -> conv_bias d br kExtmemBase c = i32_at m0 (et_raw (cn_bias n) + 4 * c).
Proof.
  intros Hi. destruct cursors as (C0 & C1 & C2 & C3 & C4 & C5 & C6).
  destruct (conv_sizes _ _ _ _ _ _ Hc) as (P0 & P1 & P2 & P3 & PC).
  unfold conv_bias. change (tensor_at d 2) with (staged_tensor (bias_cursor dw g) (bias_dims g) 4
    CORAL_OPERATOR_ELEMENT_INT32 0).
  rewrite staged_off by lia.
  etrans; [| apply (block_word (staged_block (bias_cursor dw g) (cn_bias n) (bias_dims g) 4) c);
    [simpl; tauto | lia |]].
  - f_equal; cbn [bk_address staged_block]; lia.
  - cbn [bk_size staged_block bias_dims prod foldr]. lia.
Qed.

Lemma multiplier_at c :
  0 <= c < OC ->
  conv_multiplier d br kExtmemBase c = i32_at m0 (per_channel_output_multiplier data + 4 * c).
Proof.
  intros Hi. exact (block_word {| bk_address := staged_address (multiplier_cursor dw g);
      bk_source := per_channel_output_multiplier data; bk_size := 4 * OC |} c
    ltac:(simpl; tauto) ltac:(lia) ltac:(cbn [bk_size]; lia)).
Qed.

Lemma shift_at c :
  0 <= c < OC -> conv_shift d br kExtmemBase c = i32_at m0 (per_channel_output_shift data + 4 * c).
Proof.
  intros Hi. exact (block_word {| bk_address := staged_address (shift_cursor dw g);
      bk_source := per_channel_output_shift data; bk_size := 4 * OC |} c
    ltac:(simpl; tauto) ltac:(lia) ltac:(cbn [bk_size]; lia)).
Qed.

Lemma request_strides :
  d_stride_height d = cp_stride_height params /\ d_stride_width d = cp_stride_width params /\
  d_padding_height d = od_padding_height data /\ d_padding_width d = od_padding_width data.
Proof.
  destruct Hc as [_ _ _ _ _ _ _ _ _ _ _ S P _ _ _]. cbn -[wrap]. rewrite !wrap_small by lia. done.
Qed.

Lemma request_taps :
  dim (tensor_at d 1) 1 = cs_filter_h g /\ dim (tensor_at d 1) 2 = cs_filter_w g.
Proof. exact (filter_taps dw g). Qed.

Lemma product_eq i j :
  0 <= i < prod (input_dims g) -> 0 <= j < prod (filter_dims dw g) ->
  term br (tensor_off kExtmemBase (tensor_at d 0) + i) (t_zero_point (tensor_at d 0))
    (tensor_off kExtmemBase (tensor_at d 1) + j) (t_zero_point (tensor_at d 1))
  = ref_product m0 n data i j.
Proof. intros Hi Hj. unfold term, ref_product. by rewrite input_at, filter_at. Qed.

Lemma conv_tap_eq batch y x oc fy fx :
  dw = false -> 0 <= batch < cs_batches g -> 0 <= oc < OC ->
  0 <= fy < cs_filter_h g -> 0 <= fx < cs_filter_w g ->
  conv_tap d br kExtmemBase batch y x oc fy fx = ref_tap m0 dw g n data params batch y x oc fy fx.
Proof.
  intros Edw Hb Ho Hy Hx. unfold conv_tap, ref_tap.
  destruct request_strides as (-> & -> & -> & ->). destruct request_taps as [-> ->].
  change (dim (tensor_at d 0) 1) with (cs_in_h g). change (dim (tensor_at d 0) 2) with (cs_in_w g).
  change (dim (tensor_at d 0) 3) with (cs_in_c g).
  destruct ((0 <=? _) && _ && _) eqn:E; [| done].
  transitivity (sumZ (cs_in_c g) (fun c => ref_product m0 n data
    (((batch * cs_in_h g + (y * cp_stride_height params + fy - od_padding_height data)) * cs_in_w g
      + (x * cp_stride_width params + fx - od_padding_width data)) * cs_in_c g + c)
    (((oc * cs_filter_h g + fy) * cs_filter_w g + fx) * cs_in_c g + c))); [| by rewrite Edw].
  apply sumZ_ext. intros c Hch. apply product_eq.
  - rewrite input_prod. apply index4_range; lia.
  - rewrite filter_prod, Edw. apply index4_range; lia.
Qed.

Lemma input_channels : 1 <= cs_in_c g.
Proof.
  destruct (co_input _ _ _ _ _ _ Hc) as [_ _ D _ _]. unfold input_dims in D.
  rewrite !List.Forall_cons_iff in D. lia.
Qed.

Lemma depthwise_input oc :
  dw = true -> 0 <= oc < OC -> 0 <= oc / (OC / cs_in_c g) < cs_in_c g.
Proof.
  intros Edw Ho. pose proof input_channels as H1.
  pose proof (co_channels _ _ _ _ _ _ Hc Edw) as Hd. apply Z.mod_divide in Hd as [q Hq]; [| lia].
  rewrite Hq, Z.div_mul by lia. assert (1 <= q) by nia. split.
  - apply Z.div_pos; lia.
  - apply Z.div_lt_upper_bound; lia.
Qed.

Lemma depthwise_tap_eq batch y x oc fy fx :
  dw = true -> 0 <= batch < cs_batches g -> 0 <= oc < OC ->
  0 <= fy < cs_filter_h g -> 0 <= fx < cs_filter_w g ->
  depthwise_tap d br kExtmemBase batch y x oc fy fx =
    ref_tap m0 dw g n data params batch y x oc fy fx.
Proof.
  intros Edw Hb Ho Hy Hx. unfold depthwise_tap, ref_tap.
  destruct request_strides as (-> & -> & -> & ->). destruct request_taps as [_ ->].
  change (dim (tensor_at d 0) 1) with (cs_in_h g). change (dim (tensor_at d 0) 2) with (cs_in_w g).
  change (dim (tensor_at d 0) 3) with (cs_in_c g). change (dim (tensor_at d 3) 3) with OC.
  destruct ((0 <=? _) && _ && _) eqn:E; [| done].
  pose proof (depthwise_input oc Edw Ho) as Hch.
  etrans; [apply product_eq | by rewrite Edw].
  - rewrite input_prod. apply index4_range; lia.
  - rewrite filter_prod, Edw. pose proof (index_range fy fx _ _ Hy Hx) as H2.
    exact (index_range _ oc _ _ H2 Ho).
Qed.

Lemma sum_eq batch y x oc :
  0 <= batch < cs_batches g -> 0 <= oc < OC ->
  either_sum dw d br kExtmemBase batch y x oc = ref_sum m0 dw g n data params batch y x oc.
Proof.
  intros Hb Ho. destruct request_taps as [E1 E2].
  destruct (Bool.bool_dec dw true) as [Edw|Edw%not_true_is_false].
  - transitivity (depthwise_sum d br kExtmemBase batch y x oc);
      [unfold either_sum; by rewrite Edw |].
    unfold depthwise_sum, ref_sum. rewrite E1, E2.
    apply sumZ_ext. intros fy Hy. apply sumZ_ext. intros fx Hx. by apply depthwise_tap_eq.
  - transitivity (conv_sum d br kExtmemBase batch y x oc); [unfold either_sum; by rewrite Edw |].
    unfold conv_sum, ref_sum. rewrite E1, E2.
    apply sumZ_ext. intros fy Hy. apply sumZ_ext. intros fx Hx. by apply conv_tap_eq.
Qed.

Lemma result_eq batch y x oc :
  0 <= batch < cs_batches g -> 0 <= oc < OC ->
  conv_result d br kExtmemBase (either_sum dw d br kExtmemBase batch y x oc) oc =
    ref_result m0 dw g n data params batch y x oc.
Proof.
  intros Hb Ho. unfold conv_result, ref_result.
  by rewrite sum_eq, bias_at, multiplier_at, shift_at.
Qed.

Lemma staged_in_mem c ds es ty zp :
  0 <= c -> c + es * prod ds <= CORAL_OPERATOR_STAGING_SIZE ->
  in_mem kExtmemBase br (staged_tensor c ds es ty zp).
Proof.
  intros H1 H2. unfold in_mem. cbn [staged_tensor t_address t_size]. rewrite Hlen.
  unfold_layout. lia.
Qed.

Lemma request_dims :
  (dw = true -> dim (tensor_at d 1) 0 = 1 /\ dim (tensor_at d 1) 3 = OC) /\
  (dw = false -> dim (tensor_at d 1) 0 = OC /\ dim (tensor_at d 1) 3 = cs_in_c g).
Proof. exact (proj2 (filter_shape dw g)). Qed.

Lemma request_counts :
  ElementCount (tensor_at d 0) = 1 * prod (input_dims g) /\
  ElementCount (tensor_at d 1) = 1 * prod (filter_dims dw g) /\
  u64 (ElementCount (tensor_at d 2) * 4) = 4 * prod (bias_dims g) /\
  ElementCount (tensor_at d 3) = 1 * prod (output_dims g).
Proof.
  destruct cursors as (C0 & C1 & C2 & C3 & C4 & C5 & C6).
  destruct (conv_sizes _ _ _ _ _ _ Hc) as (P0 & P1 & P2 & P3 & PC).
  destruct Hc as [_ [_ R0 D0 _ _] [_ R1 D1 _ _] [_ R2 D2 _ _] [_ R3 D3 _ _] _ _ _ _ _ _ _ _ _ _ _].
  unfold tensor_at. cbn [nth d_tensors running submitted set_state_error set_outcome conv_request
    set_conv set_tables set_tensors staged_tensors].
  rewrite !staged_count by (done || (unfold_layout; lia)).
  rewrite wrap_small by (unfold_layout; lia). lia.
Qed.

Lemma request_valid : CommonConvValid d dw = true.
Proof.
  destruct (conv_sizes _ _ _ _ _ _ Hc) as (P0 & P1 & P2 & P3 & PC).
  destruct request_strides as (S1 & S2 & _). destruct request_counts as (N0 & N1 & N2 & N3).
  destruct request_dims as [Hd1 Hd2]. pose proof (filter_shape dw g) as [Hf _].
  pose proof (co_strides _ _ _ _ _ _ Hc). pose proof (co_activation _ _ _ _ _ _ Hc) as Ha.
  pose proof (co_channels _ _ _ _ _ _ Hc) as Hch. pose proof input_channels.
  destruct (co_input _ _ _ _ _ _ Hc) as [_ _ D0 _ _]. unfold input_dims in D0.
  rewrite !List.Forall_cons_iff in D0.
  unfold CommonConvValid. rewrite S1, S2, N0, N1, N2, N3.
  change (t_size (tensor_at d 0)) with (1 * prod (input_dims g)).
  change (t_size (tensor_at d 1)) with (1 * prod (filter_dims dw g)).
  change (t_size (tensor_at d 2)) with (4 * prod (bias_dims g)).
  change (t_size (tensor_at d 3)) with (1 * prod (output_dims g)).
  change (t_rank (tensor_at d 1)) with (Z.of_nat (length (filter_dims dw g))). rewrite Hf.
  change (d_quantization_count d) with OC. change (dim (tensor_at d 3) 3) with OC.
  change (dim (tensor_at d 0) 0) with (cs_batches g).
  change (dim (tensor_at d 3) 0) with (cs_batches g).
  change (dim (tensor_at d 0) 3) with (cs_in_c g). rewrite !Z.eqb_refl.
  replace (OC =? 0) with false by lia. replace (cs_batches g =? 0) with false by lia.
  replace (cp_stride_height params =? 0) with false by lia.
  replace (cp_stride_width params =? 0) with false by lia.
  replace (activation_ok d) with true by (unfold activation_ok; cbn; lia).
  cbn -[dim tensor_at Z.rem]. apply either_true; intros E.
  - destruct (Hd1 E) as [-> ->]. rewrite Z.rem_mod_nonneg, Hch by (done || lia).
    lia.
  - destruct (Hd2 E) as [-> ->]. by rewrite !Z.eqb_refl.
Qed.

Lemma request_pre : conv_pre d br kExtmemBase dw.
Proof.
  destruct cursors as (C0 & C1 & C2 & C3 & C4 & C5 & C6).
  destruct (conv_sizes _ _ _ _ _ _ Hc) as (P0 & P1 & P2 & P3 & PC).
  destruct request_strides as (S1 & S2 & S3 & S4). destruct request_taps as [E1 E2].
  pose proof shift_at as Hshift.
  destruct Hc as [_ [_ R0 D0 _ _] [_ R1 D1 _ _] [_ R2 D2 _ _] [_ R3 D3 _ _] _ _ _ _ (Z0 & Z1 & Z2)
    _ Hst Hpad Hgeo Hsh _].
  assert (is_i32 (input_zero_point data) /\ is_i32 (filter_zero_point data)) as [I0 I1]
    by (unfold is_i32; lia).
  split.
  - done.
  - by rewrite Hlen.
  - rewrite S1, S2, S3, S4. unfold is_u32. lia.
  - split_and!; apply staged_tensor_wf; (done || lia).
  - apply request_valid.
  - change (1 <= 1 * prod (input_dims g) /\ 1 <= 1 * prod (filter_dims dw g) /\
            1 <= 1 * prod (output_dims g)). lia.
  - split_and!; apply staged_in_mem; lia.
  - unfold apart, tensor_at. cbn [nth d_tensors running submitted set_state_error set_outcome
      conv_request set_conv set_tables set_tensors staged_tensors staged_tensor t_address t_size].
    lia.
  - unfold table_ok. change (dim (tensor_at d 3) 3) with OC. rewrite Hlen.
    change (tensor_at d 3) with (staged_tensor (output_cursor dw g) (output_dims g) 1
      CORAL_OPERATOR_ELEMENT_INT8 (output_zero_point data)).
    rewrite staged_off by lia. cbn [staged_tensor t_size].
    change (d_multiplier_address d) with (staged_address (multiplier_cursor dw g)).
    change (d_shift_address d) with (staged_address (shift_cursor dw g)).
    unfold staged_address. unfold_layout. lia.
  - intros c Hch. change (dim (tensor_at d 3) 3) with OC in Hch. rewrite Hshift by done. by apply Hsh.
  - change (4 * OC <= 4 * prod (bias_dims g)). cbn [bias_dims prod foldr]. lia.
  - split; [exact Z0 | exact Z1].
  - rewrite S1, S2, S3, S4, E1, E2. unfold geometry_ok.
    change (dim (tensor_at d 3) 1) with (cs_out_h g). change (dim (tensor_at d 3) 2) with (cs_out_w g).
    lia.
Qed.

End kernel.

(** ** The submission *)

Section submission.
Context (b : buf) (a : OperatorStagingAllocator).
Context (Hs : staging m0 b a (conv_request dw g data params)
                (table_blocks dw g data ++ tensor_blocks dw g n)).
Context (Hmode : operator_mode (m_handle m0) = CORAL_OPERATOR_MODE_HYBRID \/
                 operator_mode (m_handle m0) = CORAL_OPERATOR_MODE_SAMPLED).
Abbreviation off := CORAL_OPERATOR_DESCRIPTOR_OFFSET.
Abbreviation address := (kExtmemBase + CORAL_OPERATOR_DESCRIPTOR_OFFSET).
Abbreviation request := (conv_request dw g data params).
Abbreviation h := (m_handle (set_local b m0)).

Lemma staged_submit_pre : submit_pre h address.
Proof.
  split; try done.
  - split; [apply Hs | apply Hs].
  - apply Hm.
Qed.

Lemma staged_valid c ds es ty zp :
  (1 <= length ds <= 4)%nat -> 0 <= c -> 1 <= es * prod ds ->
  c + es * prod ds <= CORAL_OPERATOR_STAGING_SIZE ->
  ty = CORAL_OPERATOR_ELEMENT_INT8 \/ ty = CORAL_OPERATOR_ELEMENT_INT32 ->
  tensor_valid kExtmemBase kExtmemSize (staged_tensor c ds es ty zp) = true /\
  range_clear off (t_address (staged_tensor c ds es ty zp)) (es * prod ds) = true.
Proof.
  intros Hl H1 H2 H3 Ht. unfold tensor_valid, RangeValid, range_clear, CORAL_OPERATOR_MAX_DIMS.
  cbn [staged_tensor t_address t_size t_rank t_element_type].
  rewrite wrap_small by (unfold_layout; lia). split.
  - rewrite !andb_true_iff. split_and!; [by destruct Ht as [-> | ->] | ..]; unfold_layout; lia.
  - unfold_layout. lia.
Qed.

Lemma table_valid c :
  0 <= c -> c + 4 * OC <= CORAL_OPERATOR_STAGING_SIZE -> 1 <= OC ->
  RangeValid (staged_address c) (4 * OC) kExtmemBase kExtmemSize = true /\
  range_clear off (staged_address c) (4 * OC) = true.
Proof.
  intros H1 H2 H3. unfold RangeValid, range_clear, staged_address.
  rewrite wrap_small by (unfold_layout; lia). unfold_layout. lia.
Qed.

Lemma request_accepted :
  (ValidateGem5HybridDescriptor (submitted request) kExtmemBase kExtmemSize).1 = true /\
  descriptor_clear off request = true.
Proof.
  destruct cursors as (C0 & C1 & C2 & C3 & C4 & C5 & C6).
  destruct (conv_sizes _ _ _ _ _ _ Hc) as (P0 & P1 & P2 & P3 & PC).
  destruct Hc as [_ [_ R0 _ _ _] [_ R1 _ _ _] [_ R2 _ _ _] [_ R3 _ _ _] _ _ _ _ _ _ _ _ _ _ _].
  destruct (staged_valid input_cursor (input_dims g) 1 CORAL_OPERATOR_ELEMENT_INT8
    (input_zero_point data) R0) as [V0 W0]; [lia | lia | lia | by left |].
  destruct (staged_valid (filter_cursor g) (filter_dims dw g) 1 CORAL_OPERATOR_ELEMENT_INT8
    (filter_zero_point data) R1) as [V1 W1]; [lia | lia | lia | by left |].
  destruct (staged_valid (bias_cursor dw g) (bias_dims g) 4 CORAL_OPERATOR_ELEMENT_INT32 0 R2)
    as [V2 W2]; [lia | lia | lia | by right |].
  destruct (staged_valid (output_cursor dw g) (output_dims g) 1 CORAL_OPERATOR_ELEMENT_INT8
    (output_zero_point data) R3) as [V3 W3]; [lia | lia | lia | by left |].
  destruct (table_valid (multiplier_cursor dw g)) as [V4 W4]; [lia.. |].
  destruct (table_valid (shift_cursor dw g)) as [V5 W5]; [lia.. |].
  split.
  - unfold ValidateGem5HybridDescriptor.
    change (header_ok (submitted request)) with true.
    change (take _ (d_tensors (submitted request))) with (staged_tensors dw g data).
    cbn [staged_tensors forallb negb]. rewrite V0, V1, V2, V3. cbn [andb negb].
    change (d_multiplier_address (submitted request)) with (staged_address (multiplier_cursor dw g)).
    change (d_shift_address (submitted request)) with (staged_address (shift_cursor dw g)).
    replace (staged_address (multiplier_cursor dw g) =? 0) with false
      by (unfold staged_address; unfold_layout; lia).
    replace (staged_address (shift_cursor dw g) =? 0) with false
      by (unfold staged_address; unfold_layout; lia).
    replace (quantization_ok _ _ _) with true; [done |]. symmetry. unfold quantization_ok.
    change (d_quantization_count (submitted request)) with OC.
    change (d_multiplier_address (submitted request)) with (staged_address (multiplier_cursor dw g)).
    change (d_shift_address (submitted request)) with (staged_address (shift_cursor dw g)).
    replace (OC =? 0) with false by lia. replace (OC * 4) with (4 * OC) by lia.
    rewrite (wrap_small 64) by (unfold_layout; lia).
    rewrite (wrap_small 32) by (unfold_layout; lia). rewrite V4, V5.
    replace (_ <=? UINT32_MAX) with true by (unfold_layout; lia). done.
  - unfold descriptor_clear.
    change (take _ (d_tensors request)) with (staged_tensors dw g data).
    cbn [staged_tensors forallb].
    change (d_quantization_count request) with OC.
    change (d_multiplier_address request) with (staged_address (multiplier_cursor dw g)).
    change (d_shift_address request) with (staged_address (shift_cursor dw g)).
    rewrite W4, W5. cbn [staged_tensor t_size]. rewrite W0, W1, W2, W3. done.
Qed.

Lemma staged_request : load_descriptor (local_extmem h) (address - kExtmemBase) = request.
Proof. exact (sg_desc _ _ _ _ _ Hs). Qed.

(** The kernel finds the staged bytes. *)
Lemma running_staged :
  Forall (staged_in (running_mem h address)) (table_blocks dw g data ++ tensor_blocks dw g n).
Proof.
  destruct (running_keeps h address staged_submit_pre) as (_ & _ & Hk).
  eapply List.Forall_impl; [| exact (sg_blocks _ _ _ _ _ Hs)].
  intros k (B1 & B2 & B3) i Hi. rewrite Hk by (unfold_layout; lia). by apply B3.
Qed.

Abbreviation stats elapsed := (conv_stats dw (running (submitted request)) elapsed).
Abbreviation finished elapsed := (completed (submitted request) (stats elapsed)).

Lemma conv_dispatch elapsed :
  exists b1,
    DispatchGem5HybridOperator expf (fun d b => store_descriptor b (address - kExtmemBase) d)
      (submitted request) (submitted_mem b (address - kExtmemBase)) kExtmemBase elapsed
      = Ret (true, finished elapsed,
             store_descriptor b1 (address - kExtmemBase) (finished elapsed)) /\
    conv_post (running (submitted request)) (running_mem h address) kExtmemBase
      (either_sum dw (running (submitted request)) (running_mem h address) kExtmemBase) b1.
Proof.
  destruct (running_keeps h address staged_submit_pre) as (Kl & _ & _).
  assert (buf_len (running_mem h address) = kExtmemSize) as Hl by (rewrite Kl; apply Hs).
  pose proof (request_pre _ Hl running_staged) as Hpre.
  destruct (conv_run dw _ _ _ elapsed Hpre) as (b1 & E & Hpost).
  { intros batch y x oc Hb Hy Hx Ho. rewrite (result_eq _ running_staged) by done.
    by apply (co_results _ _ _ _ _ _ Hc). }
  exists b1. split; [| done].
  apply (dispatch_completed expf (fun d b => store_descriptor b (address - kExtmemBase) d)).
  - assert (buf_len (submitted_mem b (address - kExtmemBase)) = kExtmemSize) as -> by apply Hs.
    exact (proj1 request_accepted).
  - rewrite (run_kernel_conv expf dw) by done. f_equal. rewrite <- E. unfold running_mem.
    by rewrite staged_request.
Qed.

Lemma stats_counts elapsed :
  k_operation_count (stats elapsed) = conv_operations dw g /\
  k_bytes_read (stats elapsed) = conv_read dw g /\
  k_bytes_written (stats elapsed) = conv_written g.
Proof.
  destruct cursors as (C0 & C1 & C2 & C3 & C4 & C5 & C6).
  destruct (conv_sizes _ _ _ _ _ _ Hc) as (P0 & P1 & P2 & P3 & PC).
  destruct (filter_taps dw g) as [E1 E2].
  cbn [conv_stats k_operation_count k_bytes_read k_bytes_written].
  unfold conv_operations. change (dim (tensor_at (running (submitted request)) 1) 1)
    with (nth 1 (pad4 (filter_dims dw g)) 0).
  change (dim (tensor_at (running (submitted request)) 1) 2)
    with (nth 2 (pad4 (filter_dims dw g)) 0). rewrite E1, E2. split_and!; [done | |].
  - change (u64 (u32 (1 * prod (input_dims g) + 1 * prod (filter_dims dw g) + 4 * prod (bias_dims g))
              + 2 * OC * 4) = conv_read dw g).
    rewrite (wrap_small 32) by (unfold_layout; lia).
    rewrite wrap_small by (unfold_layout; lia). unfold conv_read. lia.
  - change (1 * prod (output_dims g) = conv_written g). unfold conv_written. lia.
Qed.

Lemma traffic_u32 : 0 <= conv_read dw g /\ 0 <= conv_written g /\
  conv_read dw g + conv_written g < 2 ^ 32.
Proof.
  destruct cursors as (C0 & C1 & C2 & C3 & C4 & C5 & C6).
  destruct (conv_sizes _ _ _ _ _ _ Hc) as (P0 & P1 & P2 & P3 & PC).
  unfold conv_read, conv_written. unfold_layout. lia.
Qed.

Lemma stats_cycles elapsed :
  hybrid_cycles (latency (m_handle m0)) (finished elapsed)
    = conv_cycles dw g (latency (m_handle m0)).
Proof.
  destruct (stats_counts elapsed) as (Eo & Er & Ew). pose proof traffic_u32.
  rewrite completed_cycles, Eo, Er, Ew. unfold conv_cycles.
  by rewrite (wrap_small 64 (conv_read dw g + conv_written g)) by lia.
Qed.

(** The descriptor as the bridge leaves it. *)
Abbreviation answered elapsed :=
  (set_cycles (finished elapsed)
     (hybrid_cycles (latency (m_handle m0)) (finished elapsed))).

Lemma answered_wf elapsed : is_u64 elapsed -> descriptor_wf (answered elapsed).
Proof.
  intros He. destruct (stats_counts elapsed) as (Eo & Er & Ew). pose proof traffic_u32.
  rewrite stats_cycles. apply answer_wf; [apply Hs |]. rewrite Eo, Er, Ew.
  pose proof (fun z => wrap_range 64 z ltac:(lia)) as Hw.
  rewrite !List.Forall_cons_iff. split_and!; [apply Hw | exact He | apply Hw | | | done];
    unfold is_u64; lia.
Qed.

Lemma output_range :
  tensor_off kExtmemBase (tensor_at (running (submitted request)) 3)
    = CORAL_OPERATOR_STAGING_OFFSET + output_cursor dw g /\
  t_size (tensor_at (running (submitted request)) 3) = prod (output_dims g) /\
  t_address (tensor_at (running (submitted request)) 3) = staged_address (output_cursor dw g) /\
  0 <= output_cursor dw g /\
  output_cursor dw g + prod (output_dims g) <= CORAL_OPERATOR_STAGING_SIZE.
Proof.
  destruct cursors as (C0 & C1 & C2 & C3 & C4 & C5 & C6).
  destruct (conv_sizes _ _ _ _ _ _ Hc) as (P0 & P1 & P2 & P3 & PC).
  change (tensor_at (running (submitted request)) 3) with
    (staged_tensor (output_cursor dw g) (output_dims g) 1 CORAL_OPERATOR_ELEMENT_INT8
       (output_zero_point data)).
  rewrite staged_off by lia. cbn [staged_tensor t_size t_address].
  unfold staged_address. split_and!; lia.
Qed.

Lemma output_element batch y x oc :
  0 <= batch < cs_batches g -> 0 <= y < cs_out_h g -> 0 <= x < cs_out_w g -> 0 <= oc < OC ->
  0 <= ((batch * cs_out_h g + y) * cs_out_w g + x) * OC + oc < prod (output_dims g).
Proof. intros. rewrite output_prod. by apply index4_range. Qed.

Lemma output_value b1 batch y x oc :
  conv_post (running (submitted request)) (running_mem h address) kExtmemBase
    (either_sum dw (running (submitted request)) (running_mem h address) kExtmemBase) b1 ->
  0 <= batch < cs_batches g -> 0 <= y < cs_out_h g -> 0 <= x < cs_out_w g -> 0 <= oc < OC ->
  at8 b1 (CORAL_OPERATOR_STAGING_OFFSET + output_cursor dw g
      + (((batch * cs_out_h g + y) * cs_out_w g + x) * OC + oc))
    = ref_value m0 dw g n data params batch y x oc.
Proof.
  intros (_ & Hv & _) Hb Hy Hx Ho. specialize (Hv batch y x oc Hb Hy Hx Ho).
  destruct output_range as (E & _). rewrite E, (result_eq _ running_staged) in Hv by done.
  exact Hv.
Qed.

#[local] Opaque conv_request.

(** The memory behind the two stores of the descriptor. *)
Lemma answered_mem b1 elapsed :
  is_u64 elapsed ->
  let m' := final_mem h address true (finished elapsed)
              (store_descriptor b1 (address - kExtmemBase) (finished elapsed)) in
  load_descriptor m' off = answered elapsed /\ keeps off descriptor_sizeof b1 m'.
Proof.
  intros He m'. pose proof (answered_wf elapsed He) as Hw.
  assert (m' = store_descriptor (store_descriptor b1 off (finished elapsed)) off (answered elapsed))
    as -> by reflexivity.
  split; [by apply load_store_descriptor |].
  destruct (sg_wf _ _ _ _ _ Hs) as [_ _ _ [T1 T2] [V1 V2]].
  etrans; apply store_descriptor_keeps; assumption.
Qed.

(** The output in the staging area, and the memory around it. *)
Lemma submit_conv_ok :
  exists m1 elapsed, submit_operator true expf address (set_local b m0) = Ret (true, m1) /\
    machine_ok m1 /\ settings (m_handle m1) = settings (m_handle m0) /\ m_tcm m1 = m_tcm m0 /\
    load_descriptor (local_extmem (m_handle m1)) off = answered elapsed /\
    (forall batch y x oc, 0 <= batch < cs_batches g -> 0 <= y < cs_out_h g ->
       0 <= x < cs_out_w g -> 0 <= oc < OC ->
       at8 (local_extmem (m_handle m1)) (CORAL_OPERATOR_STAGING_OFFSET + output_cursor dw g
           + (((batch * cs_out_h g + y) * cs_out_w g + x) * OC + oc))
         = ref_value m0 dw g n data params batch y x oc) /\
    (forall j, ~ (off <= j < off + descriptor_sizeof) ->
       ~ (CORAL_OPERATOR_STAGING_OFFSET <= j
            < CORAL_OPERATOR_STAGING_OFFSET + CORAL_OPERATOR_STAGING_SIZE) ->
       buf_at (local_extmem (m_handle m1)) j = buf_at (local_extmem (m_handle m0)) j).
Proof.
  set (t := kernel_time (m_clock (set_local b m0))).
  destruct (conv_dispatch t) as (b1 & Ed & Hpost).
  pose proof staged_submit_pre as Hsub. pose proof staged_request as Hreq.
  rewrite <- Hreq in Ed.
  assert (descriptor_clear (address - kExtmemBase)
    (submitted (load_descriptor (local_extmem h) (address - kExtmemBase))) = true) as Hcl
    by (rewrite Hreq, clear_submitted; exact (proj2 request_accepted)).
  assert (descriptor_wf (submitted (load_descriptor (local_extmem h) (address - kExtmemBase)))) as Hwf.
  { rewrite <- load_submitted. apply load_descriptor_wf, buf_bytes_blit;
      [apply Hs | apply le_bytes_byte]. }
  destruct (submit_result expf (wall_clock (m_clock (set_local b m0))) t h address Hsub _ _ _
    Hcl Ed) as (h' & Es & El & Eset).
  destruct (final_facts expf t h address Hsub _ _ _ Hwf Ed) as (Fl & Fb & _).
  rewrite Hreq in El, Fl, Fb. exists (tick h' (set_local b m0)), t.
  split; [unfold submit_operator; fold t; by rewrite Es |].
  assert (local_extmem (m_handle (tick h' (set_local b m0))) = final_mem h address true (finished t)
    (store_descriptor b1 (address - kExtmemBase) (finished t))) as E1 by exact El.
  rewrite <- E1 in Fl, Fb. rewrite E1.
  destruct (answered_mem b1 t (kernel_time_ok _)) as (Ea & _ & _ & Hk).
  split; [| split; [exact Eset | split; [reflexivity |]]].
  - injection Eset as S1 S2 S3 S4. split; [split; [exact Fl | exact Fb] | ..].
    + change (local_extmem_enabled h' = true). rewrite S1. apply Hm.
    + change (is_u32 (operator_mode h') /\ is_u32 (sampled_rtl_mask h')). rewrite S2, S3. apply Hm.
    + apply Hm.
    + apply Hm.
  - destruct output_range as (O1 & O2 & O3 & O4 & O5). split; [exact Ea |]. split.
    + intros batch y x oc Hb Hy Hx Ho. rewrite <- (output_value b1) by assumption.
      unfold at8. rewrite Hk; [reflexivity |].
      pose proof (output_element batch y x oc Hb Hy Hx Ho). unfold_layout. lia.
    + intros j Hj1 Hj2. rewrite Hk by exact Hj1. destruct Hpost as (_ & _ & Hout).
      destruct (running_keeps h address Hsub) as (_ & _ & Hrk).
      pose proof (sg_alloc _ _ _ _ _ Hs) as (_ & _ & Ac).
      rewrite Hout by (rewrite O1, O2; lia). rewrite Hrk by exact Hj1.
      apply (sg_kept _ _ _ _ _ Hs); [exact Hj1 | lia].
Qed.

Lemma copy_output m1 :
  machine_ok m1 -> buf_len (m_tcm m1) = buf_len (m_tcm m0) ->
  exists m2,
    Memcpy (et_raw (cn_output n)) (staged_address (output_cursor dw g)) (prod (output_dims g)) m1
      = Ret (tt, m2) /\ machine_ok m2 /\
    settings (m_handle m2) = settings (m_handle m1) /\ buf_len (m_tcm m2) = buf_len (m_tcm m1) /\
    forall j, byte_at m2 j =
      if decide (et_raw (cn_output n) <= j < et_raw (cn_output n) + prod (output_dims g))
      then buf_at (local_extmem (m_handle m1))
             (CORAL_OPERATOR_STAGING_OFFSET + output_cursor dw g + (j - et_raw (cn_output n)))
      else byte_at m1 j.
Proof.
  intros Hm1 Et. destruct output_range as (_ & _ & _ & O4 & O5).
  destruct (conv_sizes _ _ _ _ _ _ Hc) as (_ & _ & _ & P3 & _).
  destruct (co_output _ _ _ _ _ _ Hc) as [_ _ _ _ Ho]. rewrite Z.mul_1_l in Ho.
  set (N := prod (output_dims g)) in *. set (src := staged_address (output_cursor dw g)).
  pose proof (length_bytes_at m1 src N) as Hl.
  assert (Z.of_nat (length (bytes_at m1 src N)) = N) as Hn by lia.
  destruct (mem_write_own m1 (et_raw (cn_output n)) (bytes_at m1 src N) Hm1)
    as (m2 & Ew & Hm2 & Es & Etc & Hby); [lia | unfold own in *; rewrite Hn, Et; exact Ho |
      by apply bytes_at_bytes |].
  exists m2. split; [| split; [done | split; [done | split; [done |]]]].
  - eapply memcpy_ok; [apply mem_read_extmem | exact Ew |]; [done | lia | ..];
      pose proof (mk_tcm _ Hm); unfold src, staged_address, own in *; unfold_layout; lia.
  - intros j. rewrite Hby, Hn. case_decide as Hj; [| done].
    apply list_lookup_total_correct. unfold bytes_at.
    rewrite list_lookup_fmap, lookup_seqZ_lt by lia. cbn [fmap option_fmap option_map]. f_equal.
    rewrite <- extmem_byte by (unfold_layout; lia).
    f_equal. unfold src, staged_address. lia.
Qed.

(** A descriptor in front of the staging area that the copy does not reach. *)
Lemma kept_descriptor m1 m2 o :
  (forall j, byte_at m2 j =
     if decide (et_raw (cn_output n) <= j < et_raw (cn_output n) + prod (output_dims g))
     then buf_at (local_extmem (m_handle m1))
            (CORAL_OPERATOR_STAGING_OFFSET + output_cursor dw g + (j - et_raw (cn_output n)))
     else byte_at m1 j) ->
  OPENNPUX_CORAL_MOBILENET_MAILBOX_OFFSET <= o -> o + descriptor_sizeof <= kExtmemSize ->
  load_descriptor (local_extmem (m_handle m2)) o = load_descriptor (local_extmem (m_handle m1)) o.
Proof.
  intros Hby H1 H2. apply load_descriptor_ext. intros j Hj.
  destruct (co_output _ _ _ _ _ _ Hc) as [_ _ _ _ Ho]. pose proof (mk_tcm _ Hm).
  rewrite <- !extmem_byte by (unfold_layout; lia).
  rewrite Hby, decide_False; [done |]. unfold own in Ho. unfold_layout. lia.
Qed.

Lemma add_counts_wf d ops elapsed cycles read written :
  descriptor_wf d -> descriptor_wf (add_counts d ops elapsed cycles read written).
Proof.
  intros Hd. pose proof (fun z => wrap_range 64 z ltac:(lia)) as Hw.
  pose proof (wf_u32 _ Hd) as Hu. rewrite !List.Forall_cons_iff in Hu.
  destruct Hu as (_ & _ & _ & _ & U1 & U2 & _).
  apply set_outcome_wf; [done | done | done |].
  rewrite !List.Forall_cons_iff. split_and!; (apply Hw || done).
Qed.

Lemma output_own m1 i :
  buf_len (m_tcm m1) = buf_len (m_tcm m0) -> 0 <= i < prod (output_dims g) ->
  own m1 (et_raw (cn_output n) + i) 1.
Proof.
  intros Et Hi. destruct (co_output _ _ _ _ _ _ Hc) as [_ _ _ _ Ho].
  unfold own in *. rewrite Et. lia.
Qed.

Lemma finish_conv_ok :
  exists m' elapsed, finish_conv true expf n (set_local b m0) = Ret (Some kTfLiteOk, m') /\
    conv_done m0 dw g n data params m' elapsed.
Proof.
  destruct submit_conv_ok as (m1 & t & E1 & Hm1 & Eset & Etcm & Ed & Hv & Hk).
  destruct output_range as (_ & O2 & O3 & O4 & O5).
  destruct (copy_output m1 Hm1 ltac:(by rewrite Etcm)) as (m2 & E2 & Hm2 & Eset2 & Etcm2 & Hby).
  pose proof (kept_descriptor m1 m2 off Hby ltac:(done) ltac:(done)) as Ed2.
  pose proof (kept_descriptor m1 m2 CORAL_EXECUTION_DESCRIPTOR_OFFSET Hby ltac:(done) ltac:(done))
    as Ee2.
  destruct (stats_counts t) as (Eo & Er & Ew).
  destruct (answer_counts (submitted request) (stats t)
    (hybrid_cycles (latency (m_handle m0)) (finished t))) as (A1 & A2 & A3 & A4 & A5).
  unfold finish_conv. rewrite (run_bind _ _ _ _ _ E1). cbn [negb].
  rewrite (run_bind _ _ _ _ _ (get_descriptor_ok m1 off Hm1 ltac:(done) ltac:(done))), Ed.
  rewrite answer_tensor, O2, O3, (run_bind _ _ _ _ _ E2).
  rewrite (run_bind _ _ _ _ _ (get_descriptor_ok m2 off Hm2 ltac:(done) ltac:(done))), Ed2, Ed.
  rewrite (run_bind _ _ _ _ _ (get_descriptor_ok m2 CORAL_EXECUTION_DESCRIPTOR_OFFSET Hm2
    ltac:(done) ltac:(done))), Ee2.
  rewrite A1, A2, A3, A4, A5, Eo, Er, Ew, stats_cycles.
  set (e' := add_counts _ _ _ _ _ _).
  destruct (put_descriptor_own m2 CORAL_EXECUTION_DESCRIPTOR_OFFSET e' Hm2)
    as (E3 & Hm3 & El3 & Hb3 & Hx3);
    [apply add_counts_wf, load_descriptor_wf, Hm1 | done | done |].
  rewrite (run_bind _ _ _ _ _ E3). eexists _, t. split; [reflexivity |].
  split; [exact Hm3 |]. split; [cbn; etrans; [exact Eset2 | exact Eset] |]. split_and!.
  - intros batch y x oc Hb Hy Hx Ho. pose proof (output_element batch y x oc Hb Hy Hx Ho).
    rewrite <- Hv by assumption. unfold i8_at, at8. rewrite Hb3, Hby, decide_True by
      (lia || exact (output_own m2 _ (eq_trans Etcm2 (f_equal buf_len Etcm)) ltac:(eassumption))).
    do 2 f_equal. lia.
  - intros j Hj Hout. rewrite Hb3 by (unfold own in *; by rewrite Etcm2, Etcm).
    rewrite Hby, decide_False by exact Hout. pose proof (mk_tcm _ Hm). unfold byte_at. rewrite Etcm.
    destruct (in_extmem j 1) eqn:E; [| done]. unfold in_extmem in E. unfold own in Hj.
    apply Hk; unfold_layout; lia.
  - intros j Hj. destruct (co_output _ _ _ _ _ _ Hc) as [_ _ _ _ Ho]. pose proof (mk_tcm _ Hm).
    rewrite Hx3 by (unfold_layout; lia). rewrite <- extmem_byte by (unfold_layout; lia).
    rewrite Hby, decide_False by (unfold own in Ho; unfold_layout; lia).
    rewrite extmem_byte by (unfold_layout; lia). apply Hk; unfold_layout; lia.
  - rewrite El3. unfold e'. f_equal. apply load_descriptor_ext. intros j Hj.
    apply Hk; unfold_layout; lia.
Qed.

End submission.

(** ** The whole function *)

Lemma init_staging :
  exists b, init_descriptor CORAL_OPERATOR_DESCRIPTOR_OFFSET (conv_opcode dw)
      CORAL_OPERATOR_MODE_HYBRID m0 = Ret (tt, set_local b m0) /\
    staging m0 b a0 D0 [].
Proof.
  unfold init_descriptor. set (zs := replicate _ 0).
  pose proof (mem_write_extmem m0 (kExtmemBase + CORAL_OPERATOR_DESCRIPTOR_OFFSET) zs Hm
    ltac:(done) ltac:(done)) as E.
  rewrite (run_bind _ _ _ _ _ E). clear E.
  set (b := buf_blit _ _ _).
  assert (forall j, ~ (CORAL_OPERATOR_DESCRIPTOR_OFFSET <= j
            < CORAL_OPERATOR_DESCRIPTOR_OFFSET + descriptor_sizeof) ->
    buf_at b j = buf_at (local_extmem (m_handle m0)) j) as Hk.
  { intros j Hj. unfold b, zs. rewrite buf_at_blit, length_replicate, decide_False; [done |].
    unfold_layout. lia. }
  assert (buf_bytes b) as Hb.
  { apply buf_bytes_blit; [apply Hm | apply Forall_replicate; done]. }
  destruct (stage_put m0 Hm b a0 (load_descriptor b CORAL_OPERATOR_DESCRIPTOR_OFFSET) [] D0)
    as (b' & E & Hs); [| apply initial_wf | by exists b'].
  split; [apply Hm | done | | done | by apply load_descriptor_wf | done | by apply List.Forall_nil].
  intros j Hj _. by apply Hk.
Qed.

Lemma output_channels :
  exists dims, et_dims (cn_output n) = Some dims /\ dims_at dims 3 = Ret OC /\ u32 OC = OC.
Proof.
  destruct (co_output _ _ _ _ _ _ Hc) as [Hsh _ Hd _ _]. eexists. split; [exact Hsh |].
  split; [done |]. unfold output_dims in Hd. rewrite !List.Forall_cons_iff in Hd.
  apply wrap_small. lia.
Qed.

Lemma hybrid_conv_run :
  (operator_mode (m_handle m0) = CORAL_OPERATOR_MODE_HYBRID \/
   operator_mode (m_handle m0) = CORAL_OPERATOR_MODE_SAMPLED) ->
  exists m' elapsed,
    (channels ← lift (match et_dims (cn_output n) with
                      | Some dims => dims_at dims 3
                      | None => Undef
                      end);
     let output_channels := u32 channels in
     init_descriptor CORAL_OPERATOR_DESCRIPTOR_OFFSET (conv_opcode dw)
       CORAL_OPERATOR_MODE_HYBRID;;
     '(ok, a) ← stage_all a0 n data;
     if negb ok then mret None else submit_conv true expf a n data params output_channels) m0
      = Ret (Some kTfLiteOk, m') /\ conv_done m0 dw g n data params m' elapsed.
Proof.
  intros Hmode. destruct output_channels as (dims & E1 & E2 & E3).
  rewrite E1, (run_lift _ _ _ _ E2), E3. cbv zeta.
  destruct init_staging as (b0 & I0 & S0). rewrite (run_bind _ _ _ _ _ I0).
  destruct (stage_all_ok b0 S0) as (b1 & I1 & S1). rewrite (run_bind _ _ _ _ _ I1). cbn [negb].
  destruct (submit_conv_eq b1 S1) as (b2 & a2 & I2 & S2). rewrite I2.
  exact (finish_conv_ok b2 a2 S2 Hmode).
Qed.


End run.

Lemma uses_hybrid_mode r opcode :
  OperatorUsesHybrid r opcode = true ->
  reg_mode r = CORAL_OPERATOR_MODE_HYBRID \/ reg_mode r = CORAL_OPERATOR_MODE_SAMPLED.
Proof.
  unfold OperatorUsesHybrid. destruct (Z.eqb_spec (reg_mode r) CORAL_OPERATOR_MODE_HYBRID); [auto |].
  destruct (Z.eqb_spec (reg_mode r) CORAL_OPERATOR_MODE_SAMPLED); [auto | done].
Qed.

Lemma tensor_ok_clock k m t ds es : tensor_ok m t ds es -> tensor_ok (at_clock k m) t ds es.
Proof. intros []. by split. Qed.

Lemma conv_ok_clock k m dw g n data params :
  conv_ok m dw g n data params -> conv_ok (at_clock k m) dw g n data params.
Proof. intros []. split; (done || by apply tensor_ok_clock). Qed.

Lemma hybrid_conv_exec {T : Tflm} {R : Runtime} {RL : RuntimeLaws}
    (expf : spec_float -> spec_float) m context node dw g n data params :
  machine_ok m -> OperatorUsesHybrid (regs_of true (m_handle m)) (conv_opcode dw) = true ->
  user_data node = Some data -> builtin_data node = Some params -> NumInputs node = 3 ->
  eval_tensors context node dw = Some n -> conv_ok m dw g n data params ->
  exists m' elapsed,
    TryHybridConvInvoke true expf context (Some node) dw m = Ret (Some kTfLiteOk, m') /\
    conv_done m dw g n data params m' elapsed.
Proof.
  intros Hm Hreg Hu Hp Hi He Hc. unfold TryHybridConvInvoke.
  destruct (uses_hybrid_ok true (conv_opcode dw) m Hm) as (k & E).
  rewrite (run_bind _ _ _ _ _ E), Hreg, Hu, Hp, Hi, He. cbn [negb Z.eqb Pos.eqb].
  rewrite (co_types _ _ _ _ _ _ Hc). cbn [negb].
  assert (machine_ok (at_clock k m)) as Hm1 by (destruct Hm; by split).
  destruct (hybrid_conv_run expf (at_clock k m) Hm1 dw g n data params
    (conv_ok_clock k _ _ _ _ _ _ Hc)) as (m' & elapsed & Er & Hd).
  { exact (uses_hybrid_mode _ _ Hreg). }
  exists m', elapsed. split; [exact Er | exact Hd].
Qed.


(** A convolution of a two by two input with a filter of one by two. *)

Definition plain_memcpy (dst src n : Z) : fw unit := bs ← mem_read src n; mem_write dst bs.
Definition plain_memset (dst v n : Z) : fw unit :=
  mem_write dst (replicate (Z.to_nat n) (v mod 256)).

#[export] Instance plain_runtime : Runtime := {
  Memcpy := plain_memcpy; Memset := plain_memset;
  wall_clock := Z.of_nat; kernel_time := fun _ => 5; mcycle := Z.of_nat }.

#[export] Instance plain_runtime_laws : RuntimeLaws.
Proof.
  split.
  - intros dst src n m bs m' Hr Hw _. cbn. unfold plain_memcpy. by rewrite (run_bind _ _ _ _ _ Hr).
  - intros dst v n m m' Hw. exact Hw.
  - intros k. done.
Qed.

Definition sample_tensor (type : TfLiteType) (dims : list Z) (raw : Z) : TfLiteEvalTensor :=
  {| et_type := type; et_dims := Some {| ia_size := Z.of_nat (length dims); ia_data := dims |};
     et_raw := raw |}.

Definition sample_node : conv_node :=
  {| cn_input := sample_tensor kTfLiteInt8 [1; 2; 2; 1] 0;
     cn_filter := sample_tensor kTfLiteInt8 [1; 1; 2; 1] 16;
     cn_bias := sample_tensor kTfLiteInt32 [1] 32;
     cn_output := sample_tensor kTfLiteInt8 [1; 2; 1; 1] 64 |}.

Definition sample_data : OpDataConvCustom :=
  {| input_zero_point := 0; filter_zero_point := 0; output_zero_point := 0;
     per_channel_output_multiplier := 48; per_channel_output_shift := 52;
     output_activation_min := -128; output_activation_max := 127;
     od_padding_height := 0; od_padding_width := 0 |}.

Definition sample_params : conv_params := {| cp_stride_height := 1; cp_stride_width := 1 |}.

Definition sample_shape : conv_shape :=
  {| cs_batches := 1; cs_in_h := 2; cs_in_w := 2; cs_in_c := 1; cs_filter_h := 1;
     cs_filter_w := 2; cs_out_h := 2; cs_out_w := 1; cs_out_c := 1 |}.

(** A library that knows one node. *)
#[export] Instance sample_tflm : Tflm := {
  TfLiteContext := unit; TfLiteNode := unit; NumInputs := fun _ => 3;
  user_data := fun _ => Some sample_data; builtin_data := fun _ => Some sample_params;
  conv_tensors := fun _ =>
    {| input_index := 0; filter_index := 1; bias_index := 2; output_index := 0 |};
  GetEvalInput := fun _ _ i =>
    [cn_input sample_node; cn_filter sample_node; cn_bias sample_node] !! Z.to_nat i;
  GetEvalOutput := fun _ _ i => [cn_output sample_node] !! Z.to_nat i }.

Definition sample_tcm : buf :=
  buf_blit (buf_blit (buf_blit (buf_blit (buf_blit {| buf_len := 256; buf_map := ∅ |}
    0 [1; 2; 3; 4]) 16 [1; 2]) 32 (le_bytes 4 1)) 48 (le_bytes 4 1073741824)) 52 (le_bytes 4 1).

Definition sample_machine : machine :=
  {| m_handle := with_extmem true {| buf_len := kExtmemSize; buf_map := ∅ |}
                   (counters submit_handle) submit_handle;
     m_tcm := sample_tcm; m_clock := 0 |}.

Lemma sample_machine_ok : machine_ok sample_machine.
Proof.
  assert (forall len, buf_bytes {| buf_len := len; buf_map := ∅ |}) as H0.
  { intros len j. unfold buf_at. cbn. rewrite lookup_empty. done. }
  split; [split; [done | apply H0] | done | split; split; vm_compute; congruence | done |].
  repeat apply buf_bytes_blit; try apply le_bytes_byte; [apply H0 | ..];
    repeat (apply List.Forall_cons; [done |]); apply List.Forall_nil.
Qed.

Lemma sample_conv_ok : conv_ok sample_machine false sample_shape sample_node sample_data sample_params.
Proof.
  assert (forall a n, 0 <= a /\ a + n <= 256 -> own sample_machine a n) as Hown by (by right).
  assert (forall t ds es, shape t ds -> (1 <= length ds <= 4)%nat ->
    Forall (fun n => 1 <= n < 2 ^ 31) ds -> es = 1 \/ es = 4 ->
    0 <= et_raw t /\ et_raw t + es * prod ds <= 256 -> tensor_ok sample_machine t ds es) as Ht.
  { intros. split; auto. }
  split; try done; try (by apply Hown).
  1-4: apply Ht; [done | cbn; lia | repeat (apply List.Forall_cons; [done |]); apply List.Forall_nil
                 | auto | cbn; lia].
  - intros c Hc. cbn in Hc. assert (c = 0) as -> by lia. vm_compute. split; discriminate.
  - intros batch y x oc Hb Hy Hx Ho. cbn in Hb, Hy, Hx, Ho.
    assert (batch = 0) as -> by lia. assert (x = 0) as -> by lia. assert (oc = 0) as -> by lia.
    assert (y = 0 \/ y = 1) as [-> | ->] by lia; split; vm_compute; congruence.
Qed.

