(* ===== verification/MobilenetSpec.v ===== *)
(** * What the inference firmware counts and reports

    The convolutions the library's own kernels execute are counted like those
    handed to the bridge, and [main] leaves a mailbox that says what happened,
    on every path. *)

From Stdlib Require Import SpecFloat.
From S2P Require Import Prelude Axi CustomMac Operator FixedPoint Kernels KernelSpec.
From S2P Require Import KernelsFloat HybridDispatch KernelFrame EnvParse Bridge BridgeSpec.
From S2P Require Import HybridSubmit Mobilenet MobilenetConv MobilenetHybrid.

(** ** Progress marks *)

Definition marked (v : Z) (k : progress_marks) (ps : list OperatorPhaseStats) (m : machine) :
    machine := tick (with_progress v k ps (m_handle m)) m.

Lemma mark_progress {R : Runtime} highmem expf v m :
  exists k ps, MarkProgress highmem expf v m = Ret (tt, marked (u32 v) k ps m).
Proof.
  unfold MarkProgress, bus_store, firmware_store, write_callback.
  change (IsHybridWordAccess _) with false. change (Contains _ 4) with true. cbv iota.
  unfold write_custom. change (IsCustomWordAccess _) with true. cbn [negb].
  change (written_word _ _) with
    (Some (le_val (take 4 (drop (Z.to_nat (Z.land OPENNPUX_CORAL_MOBILENET_PROGRESS_ADDR 15))
       (lane_data (Z.land OPENNPUX_CORAL_MOBILENET_PROGRESS_ADDR 15) (le_bytes 4 v)))))).
  rewrite drop_lane_data by (vm_compute; discriminate).
  rewrite take_app_length', le_val_bytes by done. eexists _, _. reflexivity.
Qed.

Lemma marked_ok v k ps m : machine_ok m -> machine_ok (marked v k ps m).
Proof. intros []. by split. Qed.

(** ** Counting a convolution of the library *)

Abbreviation execution m :=
  (load_descriptor (local_extmem (m_handle m)) CORAL_EXECUTION_DESCRIPTOR_OFFSET).

Section accounting.
Context {T : Tflm} {R : Runtime} {RL : RuntimeLaws} (expf : spec_float -> spec_float).
Context (m0 : machine) (Hm0 : machine_ok m0) (dw : bool) (g : conv_shape).
Context (n : conv_node) (data : OpDataConvCustom) (params : conv_params).
Context (Hc : conv_ok m0 dw g n data params).

Lemma ok_bytes t ds es :
  tensor_ok m0 t ds es -> es * prod ds <= UINT32_MAX -> TensorBytes (Some t) es = Ret (es * prod ds).
Proof.
  intros [Hsh Hr Hd He _] Hfit.
  rewrite (tensor_bytes_eq t ds es Hsh); [| | lia | lia].
  - replace (1 <=? Z.of_nat _) with true by lia.
    replace (Z.of_nat (length ds) <=? _) with true by (unfold CORAL_OPERATOR_MAX_DIMS; lia).
    replace (_ <=? UINT32_MAX) with true by lia.
    replace (all_positive ds) with true; [done |].
    symmetry. apply forallb_forall. intros x Hx. rewrite List.Forall_forall in Hd.
    specialize (Hd x Hx). cbv beta in Hd. lia.
  - eapply List.Forall_impl; [| exact Hd]. intros x Hx. cbv beta in Hx. unfold is_i32. lia.
Qed.

Lemma ok_rank4 t ds es :
  tensor_ok m0 t ds es -> length ds = 4%nat ->
  rank4 t = Some {| ia_size := Z.of_nat (length ds); ia_data := ds |}.
Proof. intros [Hsh _ _ _ _] Hl. unfold rank4. rewrite Hsh. cbn [ia_size]. by rewrite Hl. Qed.

Lemma filter_entries :
  length (filter_dims dw g) = 4%nat /\
  nth 1 (filter_dims dw g) 0 = cs_filter_h g /\ nth 2 (filter_dims dw g) 0 = cs_filter_w g /\
  Forall (fun z => 1 <= z < 2 ^ 31) [cs_filter_h g; cs_filter_w g].
Proof.
  destruct (co_filter _ _ _ _ _ _ Hc) as [_ _ Hd _ _]. revert Hd. clear. unfold filter_dims.
  destruct dw; intros Hd; rewrite !List.Forall_cons_iff in *; tauto.
Qed.

(** The bytes and operations of a node as the program counts them. *)
Lemma count_rtl_ok m :
  machine_ok m ->
  exists m', count_rtl n {| ia_size := Z.of_nat (length (input_dims g)); ia_data := input_dims g |}
      {| ia_size := Z.of_nat (length (filter_dims dw g)); ia_data := filter_dims dw g |}
      {| ia_size := Z.of_nat (length (output_dims g)); ia_data := output_dims g |} dw m
      = Ret (tt, m') /\ machine_ok m' /\
    execution m' = add_counts (execution m) (conv_operations dw g) 0 0
                     (conv_read dw g) (conv_written g).
Proof.
  intros Hm. destruct (cursors _ _ _ _ _ _ Hc) as (C0 & C1 & C2 & C3 & C4 & C5 & C6).
  destruct (conv_sizes _ _ _ _ _ _ Hc) as (P0 & P1 & P2 & P3 & PC).
  destruct filter_entries as (Fl & F1 & F2 & Ff).
  pose proof (co_input _ _ _ _ _ _ Hc) as T0. pose proof (co_output _ _ _ _ _ _ Hc) as T3.
  pose proof (to_dims _ _ _ _ T0) as D0. pose proof (to_dims _ _ _ _ T3) as D3.
  unfold input_dims in D0. unfold output_dims in D3. rewrite !List.Forall_cons_iff in D0. rewrite !List.Forall_cons_iff in D3.
  rewrite !List.Forall_cons_iff in Ff.
  unfold count_rtl.
  rewrite (run_lift _ _ _ _ (ok_bytes _ _ _ T0 ltac:(unfold_layout; lia))).
  rewrite (run_lift _ _ _ _ (ok_bytes _ _ _ (co_filter _ _ _ _ _ _ Hc) ltac:(unfold_layout; lia))).
  rewrite (run_lift _ _ _ _ (ok_bytes _ _ _ (co_bias _ _ _ _ _ _ Hc) ltac:(unfold_layout; lia))).
  rewrite (run_lift _ _ _ _ (ok_bytes _ _ _ T3 ltac:(unfold_layout; lia))).
  replace (_ || _) with false by lia.
  pose proof (dims_at_shape (output_dims g)) as Eo. cbn [output_dims length] in Eo.
  pose proof (dims_at_shape (filter_dims dw g)) as Ef. rewrite Fl in Ef |- *.
  pose proof (dims_at_shape (input_dims g) 3) as Ei. cbn [input_dims length] in Ei.
  rewrite (run_lift _ _ _ _ (Eo 0 ltac:(lia))), (run_lift _ _ _ _ (Eo 1 ltac:(lia))),
    (run_lift _ _ _ _ (Eo 2 ltac:(lia))), (run_lift _ _ _ _ (Eo 3 ltac:(lia))),
    (run_lift _ _ _ _ (Ef 1 ltac:(lia))), (run_lift _ _ _ _ (Ef 2 ltac:(lia))),
    (run_lift _ _ _ _ (Ei ltac:(lia))).
  change (Z.to_nat 0) with 0%nat. change (Z.to_nat 1) with 1%nat.
  change (Z.to_nat 2) with 2%nat. change (Z.to_nat 3) with 3%nat. rewrite F1, F2.
  cbn [nth output_dims input_dims]. cbv zeta.
  rewrite (wrap_small 32 (cs_batches g)), (wrap_small 32 (cs_out_h g)), (wrap_small 32 (cs_out_w g)),
    (wrap_small 32 (cs_out_c g)), (wrap_small 32 (cs_filter_h g)), (wrap_small 32 (cs_filter_w g)),
    (wrap_small 32 (cs_in_c g)) by lia.
  replace (_ || _) with false by lia.
  rewrite (wrap_small 64 (2 * _ * 4)), (wrap_small 32) by (unfold_layout; lia).
  rewrite (run_bind _ _ _ _ _ (get_descriptor_ok m CORAL_EXECUTION_DESCRIPTOR_OFFSET Hm
    ltac:(done) ltac:(done))).
  set (e' := add_counts _ _ _ _ _ _).
  destruct (put_descriptor_own m CORAL_EXECUTION_DESCRIPTOR_OFFSET e' Hm) as (E3 & Hm3 & El3 & _);
    [apply add_counts_wf, load_descriptor_wf, Hm | done | done |].
  rewrite E3. eexists. split; [reflexivity |]. split; [exact Hm3 |]. rewrite El3. unfold e'.
  f_equal; [| unfold conv_written; lia].
  unfold conv_read. rewrite wrap_small by (unfold_layout; lia). lia.
Qed.

Lemma rtl_counts m context node :
  machine_ok m -> user_data node = Some data -> NumInputs node = 3 ->
  eval_tensors (Some context) node dw = Some n ->
  exists m', AccumulateRtlConvStats (Some context) (Some node) dw m = Ret (tt, m') /\
    machine_ok m' /\
    execution m' = add_counts (execution m) (conv_operations dw g) 0 0
                     (conv_read dw g) (conv_written g).
Proof.
  intros Hm Hu Hi He. unfold AccumulateRtlConvStats. rewrite Hu, Hi, He. cbn [negb Z.eqb Pos.eqb].
  rewrite (ok_rank4 _ _ _ (co_input _ _ _ _ _ _ Hc)), (ok_rank4 _ _ _ (co_output _ _ _ _ _ _ Hc)),
    (ok_rank4 _ _ _ (co_filter _ _ _ _ _ _ Hc)) by (done || apply filter_entries).
  by apply count_rtl_ok.
Qed.

End accounting.

Lemma conv_ok_marked v k ps m dw g n data params :
  conv_ok m dw g n data params -> conv_ok (marked v k ps m) dw g n data params.
Proof.
  assert (forall t ds es, tensor_ok m t ds es -> tensor_ok (marked v k ps m) t ds es) as Ht
    by (intros t ds es []; by split).
  intros []. split; (done || by apply Ht).
Qed.

Lemma no_hybrid_lowmem h opcode : OperatorUsesHybrid (regs_of false h) opcode = false.
Proof.
  unfold OperatorUsesHybrid, HybridOperatorSupported. cbn [reg_capabilities regs_of].
  change (capabilities false) with 0. rewrite Z.land_0_l, andb_false_r. by repeat case_test.
Qed.

Section traced.
Context {T : Tflm} {R : Runtime} {RL : RuntimeLaws}.
Context (highmem : bool) (expf : spec_float -> spec_float) (original : invoke_fn).
Context (context : TfLiteContext) (node : TfLiteNode) (dw : bool).
Context (Horig : forall m, machine_ok m ->
  exists m', original (Some context) (Some node) m = Ret (kTfLiteOk, m') /\
    machine_ok m' /\ execution m' = execution m).

(** The counters the two ways of executing a node have in common. *)
Definition counted (g : conv_shape) (e e' : coral_operator_descriptor) : Prop :=
  d_operation_count e' = u64 (d_operation_count e + conv_operations dw g) /\
  d_bytes_read e' = u64 (d_bytes_read e + conv_read dw g) /\
  d_bytes_written e' = u64 (d_bytes_written e + conv_written g).

Lemma traced_counts m g n data params :
  machine_ok m -> user_data node = Some data -> builtin_data node = Some params ->
  NumInputs node = 3 -> eval_tensors (Some context) node dw = Some n ->
  conv_ok m dw g n data params ->
  exists m', traced_invoke highmem expf original dw (Some context) (Some node) m
      = Ret (kTfLiteOk, m') /\ machine_ok m' /\ counted g (execution m) (execution m').
Proof.
  intros Hm Hu Hp Hi He Hc. unfold traced_invoke.
  destruct (OperatorUsesHybrid (regs_of highmem (m_handle m)) (conv_opcode dw)) eqn:Hh.
  - assert (highmem = true) as -> by (destruct highmem; [done | by rewrite no_hybrid_lowmem in Hh]).
    destruct (hybrid_conv_exec expf m (Some context) node dw g n data params Hm Hh Hu Hp Hi He Hc)
      as (m' & elapsed & E & Hm' & _ & _ & _ & _ & Ee).
    rewrite (run_bind _ _ _ _ _ E). exists m'. split; [done |]. split; [done |]. by rewrite Ee.
  - destruct (uses_hybrid_ok highmem (conv_opcode dw) m Hm) as (k & Eh).
    assert (TryHybridConvInvoke highmem expf (Some context) (Some node) dw m
              = Ret (None, at_clock k m)) as E.
    { unfold TryHybridConvInvoke. by rewrite (run_bind _ _ _ _ _ Eh), Hh. }
    rewrite (run_bind _ _ _ _ _ E).
    assert (machine_ok (at_clock k m)) as Hm1 by (destruct Hm; by split).
    destruct (Horig _ Hm1) as (m1 & Eo & Hm2 & Ee). rewrite (run_bind _ _ _ _ _ Eo).
    rewrite bool_decide_true by done.
    destruct (rtl_counts m dw g n data params Hc m1 context node Hm2 Hu Hi He)
      as (m' & Er & Hm' & Ec). rewrite (run_bind _ _ _ _ _ Er).
    exists m'. split; [done |]. split; [done |]. rewrite Ec, Ee. done.
Qed.

End traced.



(** An output of fewer than four dimensions is read behind its dimensions
    before its rank is looked at. *)
Lemma short_output_undefined {T : Tflm} {R : Runtime} expf m context node dw n data params dims :
  machine_ok m -> OperatorUsesHybrid (regs_of true (m_handle m)) (conv_opcode dw) = true ->
  user_data node = Some data -> builtin_data node = Some params -> NumInputs node = 3 ->
  eval_tensors context node dw = Some n -> conv_types_ok n = true ->
  et_dims (cn_output n) = Some dims -> ia_size dims < 4 ->
  TryHybridConvInvoke true expf context (Some node) dw m = Undef.
Proof.
  intros Hm Hreg Hu Hp Hi He Ht Ed Hs. unfold TryHybridConvInvoke.
  destruct (uses_hybrid_ok true (conv_opcode dw) m Hm) as (k & E).
  rewrite (run_bind _ _ _ _ _ E), Hreg, Hu, Hp, Hi, He. cbn [negb Z.eqb Pos.eqb].
  rewrite Ht, Ed. cbn [negb]. unfold mbind at 1, fw_bind at 1, lift, dims_at.
  by replace (_ && _) with false by lia.
Qed.
