(* ===== verification/Words.v ===== *)
(** * 32-bit words of a buffer

    Little-endian words at byte offsets, as the firmware, the host runtime and
    the float kernels access them. *)

From S2P Require Import Prelude.

Definition word (b : buf) (off : Z) : Z := le_val (buf_slice b off 4).
Definition put (b : buf) (off v : Z) : buf := buf_blit b off (le_bytes 4 v).

Lemma load_u32_word b off : 0 <= off -> off + 4 <= buf_len b -> load_u32 b off = Ret (word b off).
Proof. intros. unfold load_u32. by rewrite buf_read_ret by lia. Qed.

Lemma store_u32_put b off v : 0 <= off -> off + 4 <= buf_len b -> store_u32 b off v = Ret (put b off v).
Proof. intros. unfold store_u32. rewrite buf_write_ret; [done | done |]. by rewrite length_le_bytes. Qed.

Lemma word_put_same b off v : word (put b off v) off = u32 v.
Proof.
  unfold word, put.
  pose proof (buf_slice_blit_same b off (le_bytes 4 v)) as E.
  rewrite length_le_bytes in E. change (Z.of_nat 4) with 4 in E. rewrite E.
  apply (le_val_bytes 4).
Qed.

Lemma word_put_other b off v off' :
  off' + 4 <= off \/ off + 4 <= off' -> word (put b off v) off' = word b off'.
Proof.
  intros. unfold word, put. rewrite buf_slice_blit_disjoint; [done |]. by rewrite length_le_bytes.
Qed.

Lemma put_frame b off v k : ~ off <= k < off + 4 -> buf_at (put b off v) k = buf_at b k.
Proof. intros. unfold put. rewrite buf_at_blit, length_le_bytes. case_decide; [lia | done]. Qed.

Lemma word_frame b b' off :
  (forall k, off <= k < off + 4 -> buf_at b' k = buf_at b k) -> word b' off = word b off.
Proof. intros. unfold word. f_equal. by apply buf_slice_ext. Qed.

Lemma u32_word b off : buf_bytes b -> u32 (word b off) = word b off.
Proof.
  intros. apply wrap_small. unfold word.
  pose proof (le_val_range _ (buf_slice_bytes b off 4 H)) as Hr.
  by rewrite length_buf_slice in Hr.
Qed.

Lemma word_u32 b off : buf_bytes b -> 0 <= word b off < 2 ^ 32.
Proof. intros H. rewrite <- u32_word by done. apply wrap_range. lia. Qed.
