(* ===== verification/Firmware.v ===== *)
(** * The command firmware

    [gem5_command_smoke.c] and [gem5_dma_smoke.c], the programs that run on
    the core: volatile accesses to the external memory and to the registers of
    the multiply-accumulate unit, which advances by the core's clock.  How
    many clock cycles go by before each access is a parameter [lat] (of the
    number of the access).  A C object may be accessed at any byte offset, and
    the memory is the whole external memory of the system. *)

From S2P Require Import Prelude CustomMac.

Definition COMMAND_MAGIC : Z := 0x4e505843.
Definition COMMAND_ABI_VERSION : Z := 1.
Definition COMMAND_SIZE : Z := 64.
Definition OPCODE_VECTOR_ADD_U32 : Z := 1.
Definition OPCODE_VECTOR_ADD_CUSTOM_U32 : Z := 2.
Definition COMMAND_PENDING : Z := 0.
Definition COMMAND_RUNNING : Z := 1.
Definition COMMAND_COMPLETE : Z := 2.
Definition COMMAND_ERROR : Z := 3.
Definition COMMAND_ERROR_NONE : Z := 0.
Definition COMMAND_ERROR_ABI : Z := 1.
Definition COMMAND_ERROR_OPCODE : Z := 2.
Definition COMMAND_ERROR_BOUNDS : Z := 3.
Definition COMMAND_ERROR_ACCELERATOR : Z := 4.
Definition COMMAND_OFFSET : Z := 0.
Definition INPUT0_OFFSET : Z := 0x100.
Definition INPUT1_OFFSET : Z := 0x500.
Definition OUTPUT_OFFSET : Z := 0x900.
Definition TENSOR_MAX_ELEMENTS : Z := 256.

(** The fields of [opennpux_coral_command], by their offset. *)
Inductive command_field :=
| magic | abi_version | struct_size | opcode | sequence | flags | element_count | reserved0
| input0_offset | input1_offset | output_offset | output_size | status | error_code
| completed_elements | accelerator_cycles.

Definition field_offset (f : command_field) : Z :=
  match f with
  | magic => 0 | abi_version => 4 | struct_size => 8 | opcode => 12 | sequence => 16
  | flags => 20 | element_count => 24 | reserved0 => 28 | input0_offset => 32
  | input1_offset => 36 | output_offset => 40 | output_size => 44 | status => 48
  | error_code => 52 | completed_elements => 56 | accelerator_cycles => 60
  end.

Definition CORAL_EXTMEM_BASE : Z := 0x20000000.
Definition CORAL_EXTMEM_SIZE : Z := 0x1000.
Definition CUSTOM_MAC_BASE : Z := 0x30000000.
Definition CUSTOM_MAC_OPERAND_A : Z := 0x00.
Definition CUSTOM_MAC_OPERAND_B : Z := 0x04.
Definition CUSTOM_MAC_ACCUMULATOR : Z := 0x08.
Definition CUSTOM_MAC_COMMAND : Z := 0x0c.
Definition CUSTOM_MAC_RESULT : Z := 0x10.
Definition CUSTOM_MAC_STATUS : Z := 0x14.
Definition CUSTOM_MAC_CYCLES : Z := 0x18.
Definition CUSTOM_MAC_ID : Z := 0x1c.
Definition CUSTOM_MAC_EXPECTED_ID : Z := 0x4e5058a1.

(** ** The machine *)

(** The external memory, the unit, and the accesses made so far. *)
Record machine := { ext : buf; unit_mac : Gem5CustomMac; accesses : nat }.

(** A program: it returns, or is undefined, or has not ended. *)
Definition prog (A : Type) : Type := machine -> res (A * machine).

#[export] Instance prog_ret : MRet prog := fun A a m => Ret (a, m).
#[export] Instance prog_bind : MBind prog := fun A B f p m =>
  '(a, m1) ← p m; f a m1.

Section machine.
Context (lat : nat -> nat).

Definition clocked (m : machine) : machine :=
  {| ext := ext m; unit_mac := Nat.iter (lat (accesses m)) StepIfActive (unit_mac m);
     accesses := S (accesses m) |}.

Definition with_ext (b : buf) (m : machine) : machine :=
  {| ext := b; unit_mac := unit_mac m; accesses := accesses m |}.
Definition with_unit (u : Gem5CustomMac) (m : machine) : machine :=
  {| ext := ext m; unit_mac := u; accesses := accesses m |}.

(** [*(volatile uint32_t * )(shared + off)] and its assignment. *)
Definition load (off : Z) : prog Z := fun m0 =>
  let m := clocked m0 in v ← load_u32 (ext m) off; Ret (v, m).
Definition store (off v : Z) : prog unit := fun m0 =>
  let m := clocked m0 in b ← store_u32 (ext m) off v; Ret (tt, with_ext b m).

Definition custom_reg (offset : Z) : Z := u32 (CUSTOM_MAC_BASE + offset).
Definition custom_read (offset : Z) : prog Z := fun m0 =>
  let m := clocked m0 in
  let '(v, u) := Read32 (custom_reg offset) (unit_mac m) in Ret (v, with_unit u m).
Definition custom_write (offset v : Z) : prog unit := fun m0 =>
  let m := clocked m0 in Ret (tt, with_unit (Write32 (custom_reg offset) v (unit_mac m)) m).

Definition get (f : command_field) : prog Z := load (COMMAND_OFFSET + field_offset f).
Definition set (f : command_field) (v : Z) : prog unit :=
  store (COMMAND_OFFSET + field_offset f) v.

(** ** The program *)

(** [while ((status & 1) == 0) {}]. *)
Fixpoint wait_done (fuel : nat) : prog unit :=
  match fuel with
  | O => fun _ => Hang
  | S fuel =>
      s ← custom_read CUSTOM_MAC_STATUS;
      if Z.land s 1 =? 0 then wait_done fuel else mret tt
  end.

Definition custom_add (fuel : nat) (lhs rhs : Z) : prog Z :=
  custom_write CUSTOM_MAC_OPERAND_A lhs;;
  custom_write CUSTOM_MAC_OPERAND_B 1;;
  custom_write CUSTOM_MAC_ACCUMULATOR rhs;;
  custom_write CUSTOM_MAC_COMMAND 1;;
  wait_done fuel;;
  custom_read CUSTOM_MAC_RESULT.

Definition tensor_in_bounds (offset count : Z) : bool :=
  if negb (Z.land offset 3 =? 0) || (TENSOR_MAX_ELEMENTS <? count) then false
  else (offset <=? CORAL_EXTMEM_SIZE) && (count * 4 <=? u32 (CORAL_EXTMEM_SIZE - offset)).

Definition finish_error (error : Z) : prog unit :=
  set error_code error;; set status COMMAND_ERROR.

(** [a != b || rest]: the fields are read in order, as long as they match. *)
Fixpoint fields_match (l : list (command_field * Z)) : prog bool :=
  match l with
  | [] => mret true
  | (f, v) :: l => x ← get f; if x =? v then fields_match l else mret false
  end.

Definition opcode_known : prog bool :=
  x ← get opcode;
  if x =? OPCODE_VECTOR_ADD_U32 then mret true
  else y ← get opcode; mret (y =? OPCODE_VECTOR_ADD_CUSTOM_U32).

Definition tensor_ok (f : command_field) : prog bool :=
  o ← get f; n ← get element_count; mret (tensor_in_bounds o n).

Definition bounds_ok : prog bool :=
  a ← tensor_ok input0_offset;
  if negb a then mret false else
  b ← tensor_ok input1_offset;
  if negb b then mret false else
  c ← tensor_ok output_offset;
  if negb c then mret false else
  s ← get output_size; n ← get element_count; mret (s =? u32 (n * 4)).

Definition is_custom : prog bool := x ← get opcode; mret (x =? OPCODE_VECTOR_ADD_CUSTOM_U32).

(** One turn of the loop; [in0], [in1] and [out] are offsets. *)
Definition add_element (fuel : nat) (in0 in1 out i : Z) : prog unit :=
  custom ← is_custom;
  (if (custom : bool) then
     x ← load (in0 + 4 * i); y ← load (in1 + 4 * i);
     v ← custom_add fuel x y; store (out + 4 * i) v
   else
     x ← load (in0 + 4 * i); y ← load (in1 + 4 * i); store (out + 4 * i) (u32 (x + y)));;
  set completed_elements (u32 (i + 1)).

(** [for (i = 0; i < command->element_count; ++i)]; the count is read again
    before every turn. *)
Fixpoint add_loop (turns fuel : nat) (in0 in1 out i : Z) : prog unit :=
  mbind (M := prog) (fun n =>
    if i <? n then
      match turns with
      | O => fun _ => Hang
      | S turns =>
          mbind (M := prog) (fun _ => add_loop turns fuel in0 in1 out (u32 (i + 1)))
            (add_element fuel in0 in1 out i)
      end
    else mret tt) (get element_count).

Definition command_main (turns fuel : nat) : prog Z :=
  abi ← fields_match [(magic, COMMAND_MAGIC); (abi_version, COMMAND_ABI_VERSION);
                      (struct_size, COMMAND_SIZE)];
  if negb abi then finish_error COMMAND_ERROR_ABI;; mret 1 else
  op ← opcode_known;
  if negb op then finish_error COMMAND_ERROR_OPCODE;; mret 1 else
  bounds ← bounds_ok;
  if negb bounds then finish_error COMMAND_ERROR_BOUNDS;; mret 1 else
  in0 ← get input0_offset;
  in1 ← get input1_offset;
  out ← get output_offset;
  set status COMMAND_RUNNING;;
  set error_code COMMAND_ERROR_NONE;;
  set completed_elements 0;;
  set accelerator_cycles 0;;
  custom ← is_custom;
  before ← (if (custom : bool) then custom_read CUSTOM_MAC_CYCLES else mret 0);
  custom ← is_custom;
  known ← (if (custom : bool)
           then id ← custom_read CUSTOM_MAC_ID; mret (id =? CUSTOM_MAC_EXPECTED_ID)
           else mret true);
  if negb known then finish_error COMMAND_ERROR_ACCELERATOR;; mret 1 else
  add_loop turns fuel in0 in1 out 0;;
  custom ← is_custom;
  (if (custom : bool) then
     after ← custom_read CUSTOM_MAC_CYCLES; set accelerator_cycles (u32 (after - before))
   else mret tt);;
  set status COMMAND_COMPLETE;;
  mret 0.

(** [gem5_dma_smoke.c]. *)
Definition CORAL_DMA_MAGIC : Z := 0x4e505544.
Definition dma_main : prog Z :=
  x ← load 0; y ← load 4;
  store 0 (u32 (x + y));;
  store 8 CORAL_DMA_MAGIC;;
  mret 0.

End machine.
