(* ===== verification/FirmwareSpec.v ===== *)
(** * What the command firmware computes

    Weakest preconditions for its programs, and the vector addition: with the
    plain instruction and with the multiply-accumulate unit, at any speed of
    the core's accesses. *)

From S2P Require Import Prelude Words CustomMac Firmware.

(** ** The unit between and during its operations *)

(** Idle, with its cycle counter at [c]. *)
Definition idle (u : Gem5CustomMac) (c : Z) : Prop :=
  mac_inv u /\ busy_q (model u) = false /\ cycles_q (model u) = c.

(** Started [3 - k] steps ago on operands that give [v], or finished. *)
Definition working (u : Gem5CustomMac) (v c : Z) (k : nat) : Prop :=
  mac_inv u /\
  match k with
  | O => busy_q (model u) = false /\ done_q (model u) = true /\ result_q (model u) = v /\
         cycles_q (model u) = u32 (c + 3)
  | S _ => busy_q (model u) = true /\ done_q (model u) = false /\
           countdown_q (model u) = Z.of_nat k /\ (k <= 3)%nat /\
           u32 (product_w (model u) + accumulator_q (model u)) = v /\
           cycles_q (model u) = u32 (c + 3 - Z.of_nat k)
  end.

Lemma step_idle_model u :
  mac_inv u -> busy_q (model u) = false -> model (StepIfActive u) = model u.
Proof.
  intros (Hr & Hw & _) Hb. unfold StepIfActive. case_test; [done |]. simpl.
  unfold mac_posedge, mac_busy_part. by rewrite Hr, Hw, Hb.
Qed.

Lemma idle_ticks n u c : idle u c -> idle (Nat.iter n StepIfActive u) c.
Proof.
  intros H. induction n as [|n (Hi & Hb & Hc)]; [done |]. simpl.
  split; [by apply mac_inv_step |]. by rewrite step_idle_model.
Qed.

Lemma idle_ticks_model n u c : idle u c -> model (Nat.iter n StepIfActive u) = model u.
Proof.
  intros H. induction n as [|n IH]; [done |]. simpl.
  destruct (idle_ticks n u c H) as (Hi & Hb & _). by rewrite step_idle_model.
Qed.

Lemma working_step u v c k : working u v c k -> working (StepIfActive u) v c (pred k).
Proof.
  intros [Hi Hk]. split; [by apply mac_inv_step |].
  destruct k as [|k]; [destruct Hk as [Hb Hk]; simpl; by rewrite step_idle_model |].
  destruct Hk as (Hb & Hd & Hc & Hle & Hv & Hcy).
  pose proof Hi as (Hr & Hw & Ha & Hbusy). rewrite Hb in Hbusy.
  unfold StepIfActive. destruct (Z.eqb_spec (active_cycles u) 0); [lia |]. simpl.
  unfold mac_posedge, mac_busy_part. rewrite Hr, Hw, Hb, Hc. cbn [negb].
  destruct k as [|k]; simpl pred.
  - cbn [Z.of_nat Z.eqb Pos.of_succ_nat Pos.eqb]. simpl.
    do 2 (split; [done |]). split; [done |]. rewrite Hcy. unfold wrap.
    rewrite Zplus_mod_idemp_l. f_equal. lia.
  - destruct (Z.eqb_spec (Z.of_nat (S (S k))) 1); [lia |]. simpl model. cbn [busy_q done_q
      countdown_q cycles_q product_w accumulator_q operand_a_q operand_b_q].
    split; [done |]. split; [done |]. rewrite wrap3_small by lia.
    split; [lia |]. split; [lia |]. split; [done |]. rewrite Hcy. unfold wrap.
    rewrite Zplus_mod_idemp_l. f_equal. lia.
Qed.

Lemma working_ticks n u v c k : working u v c k -> working (Nat.iter n StepIfActive u) v c (k - n).
Proof.
  intros H. induction n as [|n IH]; [by rewrite Nat.sub_0_r |]. simpl.
  apply working_step in IH. by replace (k - S n)%nat with (pred (k - n)) by lia.
Qed.

Lemma idle_read u c addr : idle u c -> idle (Read32 addr u).2 c.
Proof. intros ((? & ? & ? & ?) & Hb & Hc). split; [by split | done]. Qed.

(** A write of an operand register of the idle unit. *)
Lemma idle_write u c r v :
  idle u c -> 0 <= r < kCommand ->
  idle (Write32 (kBase + r) v u) c /\
  model (Write32 (kBase + r) v u) = mac_write_part (model u) (model u) r v.
Proof.
  intros (Hi & Hb & Hc) Hr. unfold kCommand in Hr.
  assert (model (Write32 (kBase + r) v u) = mac_write_part (model u) (model u) r v) as E.
  { rewrite mac_write_other by (done || apply Hi). f_equal. rewrite Z.add_simpl_l.
    apply wrap_small. lia. }
  split; [| done]. split.
  - apply mac_inv_write; [unfold kBase; lia | | done].
    apply contains_iff; unfold kBase, kSize; lia.
  - rewrite E. unfold mac_write_part, kOperandA, kOperandB, kAccumulator, kCommand.
    do 3 (case_test; [done |]). destruct (Z.eqb_spec r 12); [lia | done].
Qed.

Lemma idle_start u c :
  idle u c -> 0 <= c < 2 ^ 32 ->
  working (Write32 (kBase + kCommand) 1 u)
    (u32 (product_w (model u) + accumulator_q (model u))) c 3.
Proof.
  intros (Hi & Hb & Hc) Hr. split.
  - apply mac_inv_write; [unfold kBase, kCommand; lia | | done]. reflexivity.
  - rewrite mac_write_other by (done || apply Hi).
    change (u8 (kBase + kCommand - kBase)) with kCommand. unfold mac_write_part. rewrite Hb.
    simpl. repeat split; try done; try lia. rewrite Hc. symmetry. rewrite Z.add_simpl_r.
    by apply wrap_small.
Qed.

(** ** Weakest preconditions *)

Definition wp {A} (p : prog A) (Q : A -> machine -> Prop) (m : machine) : Prop :=
  match p m with Ret (a, m') => Q a m' | _ => False end.

Lemma wp_ret {A} (a : A) (Q : A -> machine -> Prop) m : Q a m -> wp (mret a) Q m.
Proof. done. Qed.

Lemma wp_bind {A B} (p : prog A) (f : A -> prog B) Q m :
  wp p (fun a => wp (f a) Q) m -> wp (p ≫= f) Q m.
Proof. unfold wp, mbind, prog_bind. destruct (p m) as [[a m1]| | |]; done. Qed.

Lemma wp_mono {A} (p : prog A) (Q R : A -> machine -> Prop) m :
  (forall a m', Q a m' -> R a m') -> wp p Q m -> wp p R m.
Proof. unfold wp. destruct (p m) as [[a m1]| | |]; auto. Qed.

Section machine.
Context (lat : nat -> nat) (Hlat : forall k, (1 <= lat k)%nat).

(** The memory is [b] and the unit idle. *)
Definition at_rest (b : buf) (c : Z) (m : machine) : Prop :=
  ext m = b /\ idle (unit_mac m) c.

Lemma wp_load b c off Q m :
  at_rest b c m -> 0 <= off -> off + 4 <= buf_len b ->
  (forall m', at_rest b c m' -> Q (word b off) m') -> wp (load lat off) Q m.
Proof.
  intros [Eb Hi] H1 H2 HQ. unfold wp, load. simpl. rewrite Eb, load_u32_word by done. simpl.
  apply HQ. split; [done |]. by apply idle_ticks.
Qed.

Lemma wp_store b c off v Q m :
  at_rest b c m -> 0 <= off -> off + 4 <= buf_len b ->
  (forall m', at_rest (put b off v) c m' -> Q tt m') -> wp (store lat off v) Q m.
Proof.
  intros [Eb Hi] H1 H2 HQ. unfold wp, store. simpl. rewrite Eb, store_u32_put by done. simpl.
  apply HQ. split; [done |]. by apply idle_ticks.
Qed.

Lemma custom_reg_eq r : 0 <= r < 256 -> custom_reg r = kBase + r.
Proof. intros. unfold custom_reg, CUSTOM_MAC_BASE, kBase. apply wrap_small. lia. Qed.

(** Reading a register of the idle unit. *)
Lemma wp_custom_read b c r Q m :
  at_rest b c m -> 0 <= r < 256 ->
  (forall m', at_rest b c m' -> Q (read_data_o (model (unit_mac m)) r) m') ->
  wp (custom_read lat r) Q m.
Proof.
  intros [Eb Hi] Hr HQ. unfold wp, custom_read. rewrite custom_reg_eq by done. simpl.
  rewrite (idle_ticks_model _ _ c Hi), Z.add_simpl_l, wrap_small by lia.
  apply HQ. split; [done |]. simpl.
  pose proof (idle_ticks (lat (accesses m)) _ c Hi) as ((? & ? & ? & ?) & ? & ?).
  split; [by split | done].
Qed.

(** Writing an operand. *)
Lemma wp_custom_write b c r v Q m :
  at_rest b c m -> 0 <= r < kCommand ->
  (forall m', at_rest b c m' ->
     model (unit_mac m') = mac_write_part (model (unit_mac m)) (model (unit_mac m)) r v ->
     Q tt m') ->
  wp (custom_write lat r v) Q m.
Proof.
  intros [Eb Hi] Hr HQ. unfold wp, custom_write. unfold kCommand in Hr.
  rewrite custom_reg_eq by lia. simpl.
  destruct (idle_write (Nat.iter (lat (accesses m)) StepIfActive (unit_mac m)) c r v)
    as [Hi' Em]; [by apply idle_ticks | done |].
  apply HQ; [by split |]. simpl. by rewrite Em, (idle_ticks_model _ _ c Hi).
Qed.

(** Polling ends within as many reads as the unit has steps left. *)
Lemma wp_wait_done b v c fuel k Q m :
  ext m = b -> working (unit_mac m) v c k -> (k < fuel)%nat ->
  (forall m', at_rest b (u32 (c + 3)) m' -> result_q (model (unit_mac m')) = v -> Q tt m') ->
  wp (wait_done lat fuel) Q m.
Proof.
  revert k m. induction fuel as [|fuel IH]; intros k m Eb Hw Hk HQ; [lia |].
  cbn [wait_done]. apply wp_bind. unfold wp at 1, custom_read.
  rewrite custom_reg_eq by (unfold CUSTOM_MAC_STATUS; lia). simpl.
  rewrite Z.add_simpl_l. change (u8 CUSTOM_MAC_STATUS) with kStatus.
  pose proof (working_ticks (lat (accesses m)) _ v c k Hw) as Hw'.
  set (u := Nat.iter _ _ _) in *. specialize (Hlat (accesses m)).
  assert (mac_inv (set_write (write_en_i u) kStatus (write_data_i u) u)) as Hi.
  { destruct Hw' as [(? & ? & ? & ?) _]. by split. }
  destruct (k - lat (accesses m))%nat as [|k'] eqn:Ek.
  - destruct Hw' as (_ & Hb & Hd & Hr & Hc). unfold read_data_o. simpl. rewrite Hb, Hd. simpl.
    apply wp_ret, HQ; [| done]. split; [done |]. by split.
  - destruct Hw' as (_ & Hb & Hd & Hc & Hle & Hr & Hcy). unfold read_data_o. simpl.
    rewrite Hb, Hd. simpl. eapply (IH (S k')); [done | | lia | done].
    split; [done |]. simpl. done.
Qed.

Lemma wp_custom_add b c fuel lhs rhs Q m :
  at_rest b c m -> 0 <= c < 2 ^ 32 -> (3 < fuel)%nat ->
  (forall m', at_rest b (u32 (c + 3)) m' -> Q (u32 (lhs + rhs)) m') ->
  wp (custom_add lat fuel lhs rhs) Q m.
Proof.
  intros Hm Hc Hf HQ. unfold custom_add.
  apply wp_bind. eapply wp_custom_write; [done | unfold CUSTOM_MAC_OPERAND_A, kCommand; lia |].
  intros m1 Hm1 E1. apply wp_bind.
  eapply wp_custom_write; [done | unfold CUSTOM_MAC_OPERAND_B, kCommand; lia |].
  intros m2 Hm2 E2. apply wp_bind.
  eapply wp_custom_write; [done | unfold CUSTOM_MAC_ACCUMULATOR, kCommand; lia |].
  intros m3 [Eb3 Hi3] E3. rewrite E2, E1 in E3. apply wp_bind.
  unfold wp at 1, custom_write. rewrite custom_reg_eq by (unfold CUSTOM_MAC_COMMAND; lia).
  pose proof (idle_ticks (lat (accesses m3)) _ c Hi3) as Hi.
  pose proof (idle_start _ c Hi Hc) as Hw. rewrite (idle_ticks_model _ _ c Hi3), E3 in Hw.
  apply wp_bind. eapply (wp_wait_done b); [done | exact Hw | done |].
  intros m4 Hm4 Er. eapply wp_custom_read; [done | unfold CUSTOM_MAC_RESULT; lia |].
  intros m5 Hm5. change (read_data_o (model (unit_mac m4)) CUSTOM_MAC_RESULT)
    with (result_q (model (unit_mac m4))). rewrite Er.
  unfold product_w. simpl. rewrite Z.mul_1_r. unfold wrap at 2.
  replace (u32 (lhs mod 2 ^ 32 + rhs)) with (u32 (lhs + rhs)); [by apply HQ |].
  unfold wrap. by rewrite Zplus_mod_idemp_l.
Qed.

End machine.

(** ** The vector addition *)

(** A command in [b] that adds [n] words at [in0] and [in1] into [out]; the
    output overlaps neither an input nor the command. *)
Record vector_command (b : buf) (op n in0 in1 out : Z) : Prop := {
  vc_len : CORAL_EXTMEM_SIZE <= buf_len b;
  vc_bytes : buf_bytes b;
  vc_magic : word b (field_offset magic) = COMMAND_MAGIC;
  vc_abi : word b (field_offset abi_version) = COMMAND_ABI_VERSION;
  vc_size : word b (field_offset struct_size) = COMMAND_SIZE;
  vc_op : word b (field_offset opcode) = op;
  vc_known : op = OPCODE_VECTOR_ADD_U32 \/ op = OPCODE_VECTOR_ADD_CUSTOM_U32;
  vc_count : word b (field_offset element_count) = n;
  vc_in0 : word b (field_offset input0_offset) = in0;
  vc_in1 : word b (field_offset input1_offset) = in1;
  vc_out : word b (field_offset output_offset) = out;
  vc_osize : word b (field_offset output_size) = 4 * n;
  vc_bounds : tensor_in_bounds in0 n = true /\ tensor_in_bounds in1 n = true /\
              tensor_in_bounds out n = true;
  vc_apart : COMMAND_SIZE <= in0 /\ COMMAND_SIZE <= in1 /\ COMMAND_SIZE <= out /\
             (in0 + 4 * n <= out \/ out + 4 * n <= in0) /\
             (in1 + 4 * n <= out \/ out + 4 * n <= in1) }.

Lemma in_bounds_iff o n :
  0 <= o < 2 ^ 32 -> 0 <= n ->
  tensor_in_bounds o n = true <-> Z.land o 3 = 0 /\ n <= 256 /\ o + 4 * n <= CORAL_EXTMEM_SIZE.
Proof.
  intros Ho Hn. unfold tensor_in_bounds, TENSOR_MAX_ELEMENTS, CORAL_EXTMEM_SIZE.
  destruct (Z.eqb_spec (Z.land o 3) 0), (Z.ltb_spec 256 n); simpl; try (split; [done | lia]).
  rewrite andb_true_iff, !Z.leb_le. split.
  - intros [H1 H2]. rewrite wrap_small in H2 by lia. lia.
  - intros (_ & _ & H1). rewrite wrap_small; lia.
Qed.

(** The bytes the firmware may change. *)
Definition frame (n out : Z) (b b' : buf) : Prop :=
  buf_len b' = buf_len b /\ buf_bytes b' /\
  forall k, ~ 48 <= k < 64 -> ~ out <= k < out + 4 * n -> buf_at b' k = buf_at b k.

Lemma frame_put n out b b' off v :
  frame n out b b' -> (48 <= off /\ off + 4 <= 64 \/ out <= off /\ off + 4 <= out + 4 * n) ->
  frame n out b (put b' off v).
Proof.
  intros (L & B & F) Ho. split; [done |].
  split; [apply buf_bytes_blit; [done | apply le_bytes_byte] |].
  intros k H1 H2. rewrite put_frame by lia. by apply F.
Qed.

(** ** The checks at the top of the program *)

Definition abi_matches (b : buf) : bool :=
  (word b (field_offset magic) =? COMMAND_MAGIC) &&
  (word b (field_offset abi_version) =? COMMAND_ABI_VERSION) &&
  (word b (field_offset struct_size) =? COMMAND_SIZE).

Definition opcode_matches (b : buf) : bool :=
  (word b (field_offset opcode) =? OPCODE_VECTOR_ADD_U32) ||
  (word b (field_offset opcode) =? OPCODE_VECTOR_ADD_CUSTOM_U32).

Definition bounds_match (b : buf) : bool :=
  let n := word b (field_offset element_count) in
  tensor_in_bounds (word b (field_offset input0_offset)) n &&
  tensor_in_bounds (word b (field_offset input1_offset)) n &&
  tensor_in_bounds (word b (field_offset output_offset)) n &&
  (word b (field_offset output_size) =? u32 (n * 4)).

(** The code a command is refused with. *)
Definition command_error (b : buf) : option Z :=
  if negb (abi_matches b) then Some COMMAND_ERROR_ABI
  else if negb (opcode_matches b) then Some COMMAND_ERROR_OPCODE
  else if negb (bounds_match b) then Some COMMAND_ERROR_BOUNDS
  else None.

Lemma command_error_none b :
  command_error b = None ->
  abi_matches b = true /\ opcode_matches b = true /\ bounds_match b = true.
Proof. unfold command_error. by destruct (abi_matches b), (opcode_matches b), (bounds_match b). Qed.

Section checks.
Context (lat : nat -> nat) (b : buf) (HL : COMMAND_SIZE <= buf_len b).

Lemma wp_field c f Q m :
  at_rest b c m -> (forall m', at_rest b c m' -> Q (word b (field_offset f)) m') ->
  wp (get lat f) Q m.
Proof.
  intros Hm HQ. unfold COMMAND_SIZE in HL. assert (0 <= field_offset f <= 60) by (destruct f; simpl; lia).
  eapply wp_load; [done | unfold COMMAND_OFFSET; lia .. |].
  change (COMMAND_OFFSET + field_offset f) with (field_offset f). done.
Qed.

Lemma wp_abi (Q : bool -> machine -> Prop) c m :
  at_rest b c m -> (forall m', at_rest b c m' -> Q (abi_matches b) m') ->
  wp (fields_match lat [(magic, COMMAND_MAGIC); (abi_version, COMMAND_ABI_VERSION);
        (struct_size, COMMAND_SIZE)]) Q m.
Proof.
  unfold abi_matches. intros Hm HQ. cbn [fields_match]. apply wp_bind.
  eapply wp_field; [done |]. intros m1 Hm1. destruct (_ =? COMMAND_MAGIC); [| by apply wp_ret, HQ].
  apply wp_bind. eapply wp_field; [done |]. intros m2 Hm2.
  destruct (_ =? COMMAND_ABI_VERSION); [| by apply wp_ret, HQ].
  apply wp_bind. eapply wp_field; [done |]. intros m3 Hm3.
  by destruct (_ =? COMMAND_SIZE); apply wp_ret, HQ.
Qed.

Lemma wp_opcode (Q : bool -> machine -> Prop) c m :
  at_rest b c m -> (forall m', at_rest b c m' -> Q (opcode_matches b) m') ->
  wp (opcode_known lat) Q m.
Proof.
  unfold opcode_matches. intros Hm HQ. apply wp_bind. eapply wp_field; [done |]. intros m1 Hm1.
  destruct (_ =? OPCODE_VECTOR_ADD_U32); [by apply wp_ret, HQ |].
  apply wp_bind. eapply wp_field; [done |]. intros m2 Hm2. by apply wp_ret, HQ.
Qed.

Lemma wp_tensor (Q : bool -> machine -> Prop) f c m :
  at_rest b c m ->
  (forall m', at_rest b c m' ->
     Q (tensor_in_bounds (word b (field_offset f)) (word b (field_offset element_count))) m') ->
  wp (tensor_ok lat f) Q m.
Proof.
  intros Hm HQ. apply wp_bind. eapply wp_field; [done |]. intros m1 Hm1.
  apply wp_bind. eapply wp_field; [done |]. intros m2 Hm2. by apply wp_ret, HQ.
Qed.

Lemma wp_bounds (Q : bool -> machine -> Prop) c m :
  at_rest b c m -> (forall m', at_rest b c m' -> Q (bounds_match b) m') ->
  wp (bounds_ok lat) Q m.
Proof.
  unfold bounds_match. intros Hm HQ. apply wp_bind. eapply wp_tensor; [done |]. intros m1 Hm1.
  destruct (tensor_in_bounds _ _); [| by apply wp_ret, HQ].
  apply wp_bind. eapply wp_tensor; [done |]. intros m2 Hm2.
  destruct (tensor_in_bounds (word b (field_offset input1_offset)) _); [| by apply wp_ret, HQ].
  apply wp_bind. eapply wp_tensor; [done |]. intros m3 Hm3.
  destruct (tensor_in_bounds (word b (field_offset output_offset)) _); [| by apply wp_ret, HQ].
  apply wp_bind. eapply wp_field; [done |]. intros m4 Hm4.
  apply wp_bind. eapply wp_field; [done |]. intros m5 Hm5. by apply wp_ret, HQ.
Qed.

(** The memory a refused command leaves. *)
Definition refused (e : Z) : buf :=
  put (put b (field_offset error_code) e) (field_offset status) COMMAND_ERROR.

Lemma wp_finish_error e c m :
  at_rest b c m ->
  wp (finish_error lat e ≫= fun _ => mret 1) (fun r m' => r = 1 /\ at_rest (refused e) c m') m.
Proof.
  intros Hm. unfold COMMAND_SIZE in HL. apply wp_bind, wp_bind.
  eapply wp_store; [done | unfold COMMAND_OFFSET; simpl; lia .. |]. intros m1 Hm1.
  eapply wp_store; [done | unfold COMMAND_OFFSET; simpl; lia .. |]. intros m2 Hm2.
  by apply wp_ret.
Qed.

Lemma wp_refused turns fuel e c m :
  command_error b = Some e -> at_rest b c m ->
  wp (command_main lat turns fuel) (fun r m' => r = 1 /\ at_rest (refused e) c m') m.
Proof.
  unfold command_error, command_main. intros He Hm.
  apply wp_bind. eapply wp_abi; [done |]. clear m Hm. intros m Hm.
  destruct (abi_matches b); [| injection He as <-; by apply wp_finish_error].
  apply wp_bind. eapply wp_opcode; [done |]. clear m Hm. intros m Hm.
  destruct (opcode_matches b); [| injection He as <-; by apply wp_finish_error].
  apply wp_bind. eapply wp_bounds; [done |]. clear m Hm. intros m Hm.
  destruct (bounds_match b); [done | injection He as <-; by apply wp_finish_error].
Qed.

End checks.

Section run.
Context (lat : nat -> nat) (Hlat : forall k, (1 <= lat k)%nat).
Context (b : buf) (op n in0 in1 out : Z) (Hcmd : vector_command b op n in0 in1 out).

Lemma vector_facts :
  0 <= n <= 256 /\ 64 <= in0 /\ in0 + 4 * n <= 4096 /\ 64 <= in1 /\ in1 + 4 * n <= 4096 /\
  64 <= out /\ out + 4 * n <= 4096 /\ 4096 <= buf_len b /\
  (in0 + 4 * n <= out \/ out + 4 * n <= in0) /\ (in1 + 4 * n <= out \/ out + 4 * n <= in1).
Proof.
  destruct Hcmd as [HL HB _ _ _ _ _ HN HI0 HI1 HO _ (B0 & B1 & B2) (A0 & A1 & A2 & A3 & A4)].
  pose proof (word_u32 b (field_offset element_count) HB) as Rn.
  pose proof (word_u32 b (field_offset input0_offset) HB) as R0.
  pose proof (word_u32 b (field_offset input1_offset) HB) as R1.
  pose proof (word_u32 b (field_offset output_offset) HB) as R2.
  rewrite HN in Rn. rewrite HI0 in R0. rewrite HI1 in R1. rewrite HO in R2.
  apply in_bounds_iff in B0, B1, B2; try lia.
  unfold CORAL_EXTMEM_SIZE, COMMAND_SIZE in *. lia.
Qed.

(** A field above the results still reads as in [b]. *)
Lemma wp_get b' c f Q m :
  at_rest b' c m -> frame n out b b' -> field_offset f + 4 <= 48 ->
  (forall m', at_rest b' c m' -> Q (word b (field_offset f)) m') -> wp (get lat f) Q m.
Proof.
  intros Hm (L & B & F) Hf HQ. pose proof vector_facts.
  assert (0 <= field_offset f) by (destruct f; simpl; lia).
  eapply wp_load; [done | unfold COMMAND_OFFSET; lia .. |]. intros m' Hm'.
  change (COMMAND_OFFSET + field_offset f) with (field_offset f).
  rewrite (word_frame b b') by (intros k Hk; apply F; lia). by apply HQ.
Qed.

Lemma wp_set b' c f v Q m :
  at_rest b' c m -> frame n out b b' -> 48 <= field_offset f -> 
  (forall m', at_rest (put b' (field_offset f) v) c m' ->
     frame n out b (put b' (field_offset f) v) -> Q tt m') -> wp (set lat f v) Q m.
Proof.
  intros Hm Hfr Hf HQ. pose proof Hfr as (L & B & F). pose proof vector_facts.
  assert (field_offset f + 4 <= 64) by (destruct f; simpl; lia).
  eapply wp_store; [done | unfold COMMAND_OFFSET; lia .. |]. intros m' Hm'.
  apply HQ; [done |]. apply frame_put; [done | lia].
Qed.

Lemma wp_is_custom b' c Q m :
  at_rest b' c m -> frame n out b b' ->
  (forall m', at_rest b' c m' -> Q (op =? OPCODE_VECTOR_ADD_CUSTOM_U32) m') ->
  wp (is_custom lat) Q m.
Proof.
  intros Hm Hfr HQ. unfold is_custom. apply wp_bind.
  eapply wp_get; [done | done | simpl; lia |]. intros m' Hm'. apply wp_ret.
  rewrite (vc_op _ _ _ _ _ _ Hcmd). by apply HQ.
Qed.

(** An element of an input. *)
Lemma wp_input b' c src i Q m :
  at_rest b' c m -> frame n out b b' -> src = in0 \/ src = in1 -> 0 <= i < n ->
  (forall m', at_rest b' c m' -> Q (word b (src + 4 * i)) m') ->
  wp (load lat (src + 4 * i)) Q m.
Proof.
  intros Hm (L & B & F) Hs Hi HQ. pose proof vector_facts.
  eapply wp_load; [done | lia | lia |]. intros m' Hm'.
  rewrite (word_frame b b') by (intros k Hk; apply F; lia). by apply HQ.
Qed.

(** The cycles the unit has spent on [i] elements. *)
Definition spent (c i : Z) : Z :=
  if op =? OPCODE_VECTOR_ADD_CUSTOM_U32 then u32 (c + 3 * i) else c.

Definition element_sum (i : Z) : Z := u32 (word b (in0 + 4 * i) + word b (in1 + 4 * i)).

(** The memory after [i] elements. *)
Definition added (i : Z) (b' : buf) : Prop :=
  frame n out b b' /\ word b' (field_offset completed_elements) = i /\
  word b' (field_offset error_code) = COMMAND_ERROR_NONE /\
  word b' (field_offset accelerator_cycles) = 0 /\
  forall j, 0 <= j < i -> word b' (out + 4 * j) = element_sum j.

Lemma added_step i b' :
  0 <= i < n -> added i b' ->
  added (i + 1) (put (put b' (out + 4 * i) (element_sum i))
                   (field_offset completed_elements) (u32 (i + 1))).
Proof.
  intros Hi (Hfr & Hc & He & Hz & Ho). pose proof vector_facts. unfold added.
  cbn [field_offset] in *. split; [| split; [| split; [| split]]].
  - apply frame_put; [apply frame_put; [done | lia] | lia].
  - rewrite word_put_same, wrap_wrap, wrap_small by lia. done.
  - rewrite !word_put_other by lia. done.
  - rewrite !word_put_other by lia. done.
  - intros j Hj. rewrite word_put_other by lia.
    destruct (decide (j = i)) as [->|].
    + rewrite word_put_same. unfold element_sum. rewrite wrap_wrap by lia. done.
    + rewrite word_put_other by lia. apply Ho. lia.
Qed.

Lemma wp_add_element b' c fuel i Q m :
  (3 < fuel)%nat -> 0 <= i < n -> 0 <= c < 2 ^ 32 -> added i b' -> at_rest b' (spent c i) m ->
  (forall b'' m', added (i + 1) b'' -> at_rest b'' (spent c (i + 1)) m' -> Q tt m') ->
  wp (add_element lat fuel in0 in1 out i) Q m.
Proof.
  intros Hf Hi Hc Ha Hm HQ. pose proof Ha as (Hfr & _). pose proof vector_facts.
  assert (forall m', at_rest (put b' (out + 4 * i) (element_sum i)) (spent c (i + 1)) m' ->
    wp (set lat completed_elements (u32 (i + 1))) Q m') as Hset.
  { intros m' Hm'. eapply wp_set; [done | apply frame_put; [done | lia] | simpl; lia |].
    intros m2 Hm2 _. eapply HQ; [by apply added_step | done]. }
  unfold add_element. apply wp_bind. eapply wp_is_custom; [done | done |]. intros m1 Hm1.
  apply wp_bind. destruct (op =? OPCODE_VECTOR_ADD_CUSTOM_U32) eqn:Eop.
  - assert (0 <= spent c i < 2 ^ 32) as Hs.
    { unfold spent. rewrite Eop. apply wrap_range. lia. }
    apply wp_bind. eapply wp_input; [done | done | by left | done |]. intros m2 Hm2.
    apply wp_bind. eapply wp_input; [done | done | by right | done |]. intros m3 Hm3.
    apply wp_bind. eapply wp_custom_add; [done | done | done | done |]. intros m4 Hm4.
    eapply wp_store; [done | lia | destruct Hfr as [-> _]; lia |]. intros m5 Hm5. apply Hset.
    replace (spent c (i + 1)) with (u32 (spent c i + 3)); [done |].
    unfold spent. rewrite Eop. unfold wrap. rewrite Zplus_mod_idemp_l. f_equal. lia.
  - apply wp_bind. eapply wp_input; [done | done | by left | done |]. intros m2 Hm2.
    apply wp_bind. eapply wp_input; [done | done | by right | done |]. intros m3 Hm3.
    eapply wp_store; [done | lia | destruct Hfr as [-> _]; lia |]. intros m5 Hm5. apply Hset.
    replace (spent c (i + 1)) with (spent c i); [done |]. unfold spent. by rewrite Eop.
Qed.

Lemma wp_add_loop turns fuel b' c i Q m :
  (3 < fuel)%nat -> n - i <= Z.of_nat turns -> 0 <= i <= n -> 0 <= c < 2 ^ 32 ->
  added i b' -> at_rest b' (spent c i) m ->
  (forall b'' m', added n b'' -> at_rest b'' (spent c n) m' -> Q tt m') ->
  wp (add_loop lat turns fuel in0 in1 out i) Q m.
Proof.
  intros Hf. revert b' i m. induction turns as [|turns IH]; intros b' i m Ht Hi Hc Ha Hm HQ;
    cbn [add_loop]; pose proof Ha as (Hfr & _); pose proof vector_facts;
    apply wp_bind; (eapply wp_get; [done | done | simpl; lia |]); intros m1 Hm1;
    rewrite (vc_count _ _ _ _ _ _ Hcmd); destruct (Z.ltb_spec i n); try lia.
  1,3: assert (i = n) as -> by lia; apply wp_ret; by eapply HQ.
  apply wp_bind. eapply wp_add_element; [done | lia | done | done | done |].
  intros b2 m2 Ha2 Hm2. rewrite wrap_small by lia. eapply IH; [lia | lia | done | done | done | done].
Qed.

(** What the host finds. *)
Definition command_done (b' : buf) : Prop :=
  frame n out b b' /\ word b' (field_offset status) = COMMAND_COMPLETE /\
  word b' (field_offset error_code) = COMMAND_ERROR_NONE /\
  word b' (field_offset completed_elements) = n /\
  word b' (field_offset accelerator_cycles) =
    (if op =? OPCODE_VECTOR_ADD_CUSTOM_U32 then 3 * n else 0) /\
  forall j, 0 <= j < n -> word b' (out + 4 * j) = element_sum j.

Lemma done_of_added b' cycles :
  added n b' -> cycles = (if op =? OPCODE_VECTOR_ADD_CUSTOM_U32 then 3 * n else 0) ->
  command_done (put (put b' (field_offset accelerator_cycles) cycles)
                  (field_offset status) COMMAND_COMPLETE) /\
  (cycles = 0 -> command_done (put b' (field_offset status) COMMAND_COMPLETE)).
Proof.
  intros (Hfr & Hc & He & Hz & Ho) ->. pose proof vector_facts. unfold command_done.
  cbn [field_offset] in *. split.
  - split; [apply frame_put; [apply frame_put; [done | lia] | lia] |].
    rewrite word_put_same. split; [done |]. rewrite !word_put_other by lia.
    split; [done |]. split; [done |]. rewrite word_put_same. split.
    + destruct (op =? _); apply wrap_small; lia.
    + intros j Hj. rewrite !word_put_other by lia. by apply Ho.
  - intros E. split; [apply frame_put; [done | lia] |]. rewrite word_put_same.
    split; [done |]. rewrite !word_put_other by lia. rewrite E.
    split; [done |]. split; [done |]. split; [done |].
    intros j Hj. rewrite word_put_other by lia. by apply Ho.
Qed.

Lemma vector_checks : command_error b = None.
Proof.
  destruct Hcmd as [HL HB HM HA HS HO HK HN HI0 HI1 HOut HOS (B0 & B1 & B2) _].
  pose proof vector_facts. unfold command_error, abi_matches, opcode_matches, bounds_match.
  rewrite HM, HA, HS, HO, HN, HI0, HI1, HOut, HOS, B0, B1, B2, !Z.eqb_refl.
  rewrite wrap_small, (Z.mul_comm 4), Z.eqb_refl by lia.
  destruct HK as [->| ->]; done.
Qed.

(** The four stores before the loop. *)
Lemma added_start :
  added 0 (put (put (put (put b (field_offset status) COMMAND_RUNNING)
    (field_offset error_code) COMMAND_ERROR_NONE) (field_offset completed_elements) 0)
    (field_offset accelerator_cycles) 0).
Proof.
  pose proof vector_facts. unfold added. cbn [field_offset].
  assert (frame n out b b) as Hfr by (split; [done |]; split; [apply Hcmd | done]).
  split; [repeat (apply frame_put; [| lia]); done |].
  split; [rewrite word_put_other by lia; by rewrite word_put_same |].
  split; [rewrite !word_put_other by lia; by rewrite word_put_same |].
  split; [by rewrite word_put_same | lia].
Qed.

Definition finished (r : Z) (m : machine) : Prop :=
  r = 0 /\ command_done (ext m) /\ exists c, idle (unit_mac m) c.

Lemma wp_complete b' c m :
  command_done (put b' (field_offset status) COMMAND_COMPLETE) -> frame n out b b' ->
  at_rest b' c m -> wp (set lat status COMMAND_COMPLETE ≫= fun _ => mret 0) finished m.
Proof.
  intros Hd Hfr Hm. apply wp_bind. eapply wp_set; [done | done | simpl; lia |].
  intros m' [Eb Hi] _. apply wp_ret. split; [done |]. split; [by rewrite Eb | by exists c].
Qed.

(** The cycle counter and the identification of the idle unit. *)
Lemma wp_cycles b' c Q m :
  at_rest b' c m -> (forall m', at_rest b' c m' -> Q c m') ->
  wp (custom_read lat CUSTOM_MAC_CYCLES) Q m.
Proof.
  intros Hm HQ. eapply wp_custom_read; [done | unfold CUSTOM_MAC_CYCLES; lia |].
  intros m' Hm'. change (read_data_o _ _) with (cycles_q (model (unit_mac m))).
  destruct Hm as (_ & _ & _ & ->). by apply HQ.
Qed.

Lemma wp_id b' c Q m :
  at_rest b' c m -> (forall m', at_rest b' c m' -> Q true m') ->
  wp (id ← custom_read lat CUSTOM_MAC_ID; mret (id =? CUSTOM_MAC_EXPECTED_ID)) Q m.
Proof.
  intros Hm HQ. apply wp_bind. eapply wp_custom_read; [done | unfold CUSTOM_MAC_ID; lia |].
  intros m' Hm'. apply wp_ret. by apply HQ.
Qed.

Lemma spent_elapsed c :
  op = OPCODE_VECTOR_ADD_CUSTOM_U32 -> 0 <= c < 2 ^ 32 -> u32 (spent c n - c) = 3 * n.
Proof.
  intros E Hc. pose proof vector_facts. unfold spent. rewrite E, Z.eqb_refl. unfold wrap.
  rewrite Zminus_mod_idemp_l. replace (c + 3 * n - c) with (3 * n) by lia.
  apply Z.mod_small. lia.
Qed.

(** From the loop to the end. *)
Lemma wp_run turns fuel b' c m :
  (3 < fuel)%nat -> n <= Z.of_nat turns -> 0 <= c < 2 ^ 32 -> added 0 b' -> at_rest b' c m ->
  wp (add_loop lat turns fuel in0 in1 out 0 ≫= fun _ =>
      custom ← is_custom lat;
      (if (custom : bool) then
         after ← custom_read lat CUSTOM_MAC_CYCLES;
         set lat accelerator_cycles (u32 (after - (if op =? OPCODE_VECTOR_ADD_CUSTOM_U32 then c else 0)))
       else mret tt);;
      set lat status COMMAND_COMPLETE;; mret 0) finished m.
Proof.
  intros Hf Ht Hc Ha Hm. pose proof vector_facts.
  apply wp_bind. eapply (wp_add_loop _ _ _ c); [done | lia | lia | done | done | |].
  { unfold spent. rewrite Z.mul_0_r, Z.add_0_r, wrap_small by lia. by case_match. }
  intros b2 m2 Ha2 Hm2. pose proof Ha2 as (Hfr & _).
  apply wp_bind. eapply wp_is_custom; [done | done |]. intros m3 Hm3. apply wp_bind.
  destruct (Z.eqb_spec op OPCODE_VECTOR_ADD_CUSTOM_U32) as [E|E].
  - apply wp_bind. eapply wp_cycles; [done |]. intros m4 Hm4.
    eapply wp_set; [done | done | simpl; lia |]. intros m5 Hm5 Hfr5.
    eapply wp_complete; [| done | done]. apply done_of_added; [done |].
    rewrite spent_elapsed by done. by rewrite E.
  - apply wp_ret. eapply wp_complete; [| done | done]. eapply done_of_added; [done | done |].
    apply Z.eqb_neq in E. by rewrite E.
Qed.

Lemma wp_command_main turns fuel c m :
  (3 < fuel)%nat -> n <= Z.of_nat turns -> 0 <= c < 2 ^ 32 -> at_rest b c m ->
  wp (command_main lat turns fuel) finished m.
Proof.
  intros Hf Ht Hc Hm. pose proof vector_facts.
  assert (frame n out b b) as Hfr by (split; [done |]; split; [apply Hcmd | done]).
  assert (COMMAND_SIZE <= buf_len b) as HL by (unfold COMMAND_SIZE; lia).
  unfold command_main. destruct (command_error_none b vector_checks) as (E1 & E2 & E3).
  apply wp_bind. eapply (wp_abi _ _ HL); [done |]. clear m Hm. intros m Hm.
  rewrite E1. cbn [negb].
  apply wp_bind. eapply (wp_opcode _ _ HL); [done |]. clear m Hm. intros m Hm.
  rewrite E2. cbn [negb].
  apply wp_bind. eapply (wp_bounds _ _ HL); [done |]. clear m Hm. intros m Hm.
  rewrite E3. cbn [negb].
  do 3 (apply wp_bind; (eapply wp_get; [done | done | simpl; lia |]); clear m Hm; intros m Hm).
  rewrite (vc_in0 _ _ _ _ _ _ Hcmd), (vc_in1 _ _ _ _ _ _ Hcmd), (vc_out _ _ _ _ _ _ Hcmd).
  do 4 (apply wp_bind; (eapply wp_set; [done | done | simpl; lia |]); clear m Hm Hfr;
        intros m Hm Hfr).
  pose proof added_start as Ha0. apply wp_bind. eapply wp_is_custom; [done | done |].
  clear m Hm. intros m Hm.
  set (before := if op =? OPCODE_VECTOR_ADD_CUSTOM_U32 then c else 0).
  apply wp_bind. eapply (wp_mono _ (fun x m' => x = before /\ at_rest _ c m')).
  2: { subst before. destruct (op =? _); [by eapply wp_cycles | by apply wp_ret]. }
  clear m Hm. intros x m [-> Hm].
  apply wp_bind. eapply wp_is_custom; [done | done |]. clear m Hm. intros m Hm.
  apply wp_bind. eapply (wp_mono _ (fun x m' => x = true /\ at_rest _ c m')).
  2: { destruct (op =? _); [by eapply wp_id | by apply wp_ret]. }
  clear m Hm. intros x m [-> Hm]. cbn [negb]. by apply wp_run with (4 := Ha0).
Qed.

End run.

(** ** The program *)

(** The plain word addition of the DMA test firmware. *)
Lemma wp_dma_main lat b c m :
  12 <= buf_len b -> at_rest b c m ->
  wp (dma_main lat) (fun r m' => r = 0 /\
    at_rest (put (put b 0 (u32 (word b 0 + word b 4))) 8 CORAL_DMA_MAGIC) c m') m.
Proof.
  intros HL Hm. apply wp_bind. eapply wp_load; [done | lia | lia |]. intros m1 Hm1.
  apply wp_bind. eapply wp_load; [done | lia | lia |]. intros m2 Hm2.
  apply wp_bind. eapply wp_store; [done | lia | lia |]. intros m3 Hm3.
  apply wp_bind. eapply wp_store; [done | lia | simpl; lia |]. intros m4 Hm4. by apply wp_ret.
Qed.

(** C9: the command firmware ends and adds the vectors.  For every well-formed
    vector command, with either opcode and whatever number of clock edges (at
    least one) each access takes, [main] returns 0 after the polling loop has
    ended for every element; the output tensor holds the sums modulo 2^32, the
    command reports completion of all elements without error, the cycle count
    is three cycles an element on the accelerator and zero without it, and no
    other byte of the external memory has changed. *)
Theorem command_main_adds lat turns fuel b op n in0 in1 out c m
  (Hlat : forall k, (1 <= lat k)%nat) (Hf : (3 < fuel)%nat) (Ht : n <= Z.of_nat turns)
  (Hc : 0 <= c < 2 ^ 32) (Hcmd : vector_command b op n in0 in1 out)
  (Hb : ext m = b) (Hu : idle (unit_mac m) c) :
  exists m', command_main lat turns fuel m = Ret (0, m') /\
    command_done b op n in0 in1 out (ext m').
Proof.
  pose proof (wp_command_main lat Hlat b op n in0 in1 out Hcmd turns fuel c m Hf Ht Hc
    (conj Hb Hu)) as H. unfold wp in H.
  destruct (command_main lat turns fuel m) as [[r m']| | |]; try done.
  destruct H as (-> & Hd & _). by exists m'.
Qed.

(** C26: a command the firmware refuses costs nothing but its two result words:
    whenever the ABI words, the opcode or the tensor bounds are wrong, [main]
    returns 1 with the code of the first failed check in [error_code], the
    status ERROR, and every other byte of the memory as it was. *)
Theorem command_main_refuses lat turns fuel e c m
  (HL : COMMAND_SIZE <= buf_len (ext m)) (He : command_error (ext m) = Some e)
  (Hu : idle (unit_mac m) c) :
  exists m', command_main lat turns fuel m = Ret (1, m') /\
    word (ext m') (field_offset status) = COMMAND_ERROR /\
    word (ext m') (field_offset error_code) = u32 e /\
    forall k, ~ 48 <= k < 56 -> buf_at (ext m') k = buf_at (ext m) k.
Proof.
  pose proof (wp_refused lat (ext m) HL turns fuel e c m He (conj eq_refl Hu)) as H.
  unfold wp in H. destruct (command_main lat turns fuel m) as [[r m']| | |]; try done.
  destruct H as (-> & Em & _). exists m'. split; [done |]. rewrite Em. unfold refused. cbn [field_offset].
  split; [by rewrite word_put_same |]. split.
  - rewrite word_put_other by lia. by rewrite word_put_same.
  - intros k Hk. by rewrite !put_frame by lia.
Qed.

(** ** Examples *)

(** A command adding two words. *)
Definition sample_words (op count : Z) : list (Z * Z) :=
  [(0, COMMAND_MAGIC); (4, COMMAND_ABI_VERSION); (8, COMMAND_SIZE); (12, op); (24, count);
   (32, INPUT0_OFFSET); (36, INPUT1_OFFSET); (40, OUTPUT_OFFSET); (44, 4 * count);
   (0x100, 7); (0x104, 0xffffffff); (0x500, 5); (0x504, 3)].
Definition sample_memory (op count : Z) : buf :=
  foldr (fun '(o, v) b => put b o v) (buf_new CORAL_EXTMEM_SIZE) (sample_words op count).
Definition sample_machine (op count : Z) : machine :=
  {| ext := sample_memory op count; unit_mac := custom_mac_init mac_reset; accesses := 0 |}.

Lemma sample_memory_bytes op count : buf_bytes (sample_memory op count).
Proof.
  unfold sample_memory. induction (sample_words op count) as [|[o v] l IH]; simpl.
  - intros i. unfold is_byte, buf_at, buf_new. cbn [buf_map]. rewrite lookup_empty. simpl. lia.
  - apply buf_bytes_blit; [done | apply le_bytes_byte].
Qed.

Lemma sample_idle op count : idle (unit_mac (sample_machine op count)) 0.
Proof. split; [by apply mac_inv_reset | done]. Qed.

Lemma command_main_adds_witness :
  exists m', command_main (fun _ => 1%nat) 2 4 (sample_machine OPCODE_VECTOR_ADD_CUSTOM_U32 2)
      = Ret (0, m') /\
    word (ext m') 0x900 = 12 /\ word (ext m') 0x904 = 2 /\ word (ext m') 60 = 6.
Proof.
  destruct (command_main_adds (fun _ => 1%nat) 2 4
    (sample_memory OPCODE_VECTOR_ADD_CUSTOM_U32 2) OPCODE_VECTOR_ADD_CUSTOM_U32 2 0x100 0x500
    0x900 0 (sample_machine OPCODE_VECTOR_ADD_CUSTOM_U32 2)) as (m' & E & _ & _ & _ & _ & Hc & Ho).
  - intros k. lia.
  - lia.
  - lia.
  - lia.
  - split; try (vm_compute; done); [apply sample_memory_bytes | by right |].
    vm_compute. repeat split; try done; by (left + right).
  - done.
  - apply sample_idle.
  - exists m'. split; [exact E |]. split; [| split; [| exact Hc]].
    + change 0x900 with (0x900 + 4 * 0). rewrite Ho by lia. vm_compute. done.
    + change 0x904 with (0x900 + 4 * 1). rewrite Ho by lia. vm_compute. done.
Defined.

Lemma command_main_refuses_witness :
  exists m', command_main (fun _ => 1%nat) 2 4 (sample_machine OPCODE_VECTOR_ADD_U32 257)
      = Ret (1, m') /\ word (ext m') (field_offset error_code) = COMMAND_ERROR_BOUNDS.
Proof.
  destruct (command_main_refuses (fun _ => 1%nat) 2 4 COMMAND_ERROR_BOUNDS 0
    (sample_machine OPCODE_VECTOR_ADD_U32 257)) as (m' & E & _ & He & _).
  - vm_compute. done.
  - vm_compute. done.
  - apply sample_idle.
  - exists m'. split; [exact E | rewrite He; reflexivity].
Defined.
