(* ===== verification/KernelDriver.v ===== *)
(** * The kernel driver ([runtime/kernel/opennpux_coral.c])

    Every entry point of the driver is a program over the operations it
    shares with other threads: the atomic counters, the device registers, the
    mutex, the delayed work and the wait queue.  [krun] executes a program
    alone; [sys_step] interleaves the operations of any number of callers,
    of the work queue and of the device.  The kernel's own services are those
    of its documentation: a mutex blocks while it is held, and
    [cancel_delayed_work_sync] returns when the work is neither queued nor
    executing. *)

From S2P Require Import Prelude.

(** ** Constants *)

Definition RESET_CONTROL : Z := 0x30000.
Definition PC_START : Z := 0x30004.
Definition STATUS : Z := 0x30008.
Definition DMA_ERRORS : Z := 0x30fe0.
Definition DMA_REQUESTS : Z := 0x30fe4.
Definition DMA_COMPLETIONS : Z := 0x30fe8.
Definition DMA_STATE : Z := 0x30fec.
Definition SHARED_BASE : Z := 0x30ff0.
Definition SHARED_SIZE : Z := 0x30ff4.
Definition FIRMWARE_ENTRY : Z := 0x30ff8.
Definition BACKEND_ID : Z := 0x30ffc.

Definition ABI_VERSION : Z := 1.
Definition FEATURE_SHARED_MMAP : Z := 1.
Definition FEATURE_ASYNC_START : Z := 2.
Definition FEATURE_POLL_COMPLETION : Z := 4.
Definition FEATURE_RESET : Z := 8.

(** Linux's error numbers and poll events. *)
Definition EIO : Z := 5.
Definition ENOMEM : Z := 12.
Definition EFAULT : Z := 14.
Definition EBUSY : Z := 16.
Definition ENODEV : Z := 19.
Definition EINVAL : Z := 22.
Definition ENOTTY : Z := 25.
Definition ETIMEDOUT : Z := 110.
Definition POLLIN : Z := 0x1.
Definition POLLERR : Z := 0x8.
Definition POLLRDNORM : Z := 0x40.

(** ** Programs *)

Inductive counter := running | open_count.

Inductive kop :=
| AtomicRead (c : counter)
| AtomicSet (c : counter) (v : Z)
| AtomicCmpxchg (c : counter) (old new : Z)
| Readl (offset : Z)
| Writel (offset val : Z)
| MutexLock
| MutexUnlock
| ScheduleDelayedWork
| CancelDelayedWorkSync
| WakeUp (events : Z).

(** An operation answers with a number; those that return nothing, with 0. *)
Inductive kprog (A : Type) : Type :=
| KRet (a : A)
| KOp (o : kop) (k : Z -> kprog A).
Arguments KRet {A} a.
Arguments KOp {A} o k.

#[export] Instance kprog_ret : MRet kprog := fun A a => KRet a.
#[export] Instance kprog_bind : MBind kprog :=
  fun A B f => fix bind p :=
    match p with KRet a => f a | KOp o k => KOp o (fun v => bind (k v)) end.

Definition op (o : kop) : kprog Z := KOp o (fun v => KRet v).

Definition coral_readl (offset : Z) : kprog Z := op (Readl offset).
Definition coral_writel (offset val : Z) : kprog Z := op (Writel offset val).

(** ** The driver *)

(** [opennpux_coral_ioc_info]. *)
Record ioc_info := {
  info_base : Z; info_backend_id : Z; info_firmware_entry : Z; info_shared_base : Z;
  info_shared_size : Z; info_dma_requests : Z; info_dma_completions : Z; info_dma_errors : Z;
  info_dma_state : Z; info_reset_control : Z; info_status : Z }.

Record ioc_run := { run_entry : Z; run_status : Z; run_polls : Z }.
Record ioc_caps := { caps_abi_version : Z; caps_features : Z }.
Record ioc_start := { start_entry : Z; start_flags : Z }.

Definition coral_fill_info (regs_start : Z) : kprog ioc_info :=
  id ← coral_readl BACKEND_ID;
  entry ← coral_readl FIRMWARE_ENTRY;
  base ← coral_readl SHARED_BASE;
  size ← coral_readl SHARED_SIZE;
  requests ← coral_readl DMA_REQUESTS;
  completions ← coral_readl DMA_COMPLETIONS;
  errors ← coral_readl DMA_ERRORS;
  state ← coral_readl DMA_STATE;
  reset ← coral_readl RESET_CONTROL;
  status ← coral_readl STATUS;
  mret {| info_base := regs_start; info_backend_id := id; info_firmware_entry := entry;
          info_shared_base := base; info_shared_size := size; info_dma_requests := requests;
          info_dma_completions := completions; info_dma_errors := errors;
          info_dma_state := state; info_reset_control := reset; info_status := status |}.

Definition coral_completion_work : kprog Z :=
  r ← op (AtomicRead running);
  if r =? 0 then mret 0 else
  status ← coral_readl STATUS;
  if negb (Z.land status 3 =? 0) then
    op (AtomicSet running 0);;
    op (WakeUp (Z.lor (Z.lor POLLIN POLLRDNORM) POLLERR));;
    mret 0
  else
    r ← op (AtomicRead running);
    if negb (r =? 0) then op ScheduleDelayedWork;; mret 0 else mret 0.

Definition coral_start (entry : Z) : kprog Z :=
  op MutexLock;;
  r ← op (AtomicRead running);
  if negb (r =? 0) then op MutexUnlock;; mret (- EBUSY) else
  op CancelDelayedWorkSync;;
  op (AtomicSet running 1);;
  coral_writel PC_START entry;;
  coral_writel RESET_CONTROL 1;;
  coral_writel RESET_CONTROL 0;;
  op ScheduleDelayedWork;;
  op MutexUnlock;;
  mret 0.

Definition coral_reset : kprog Z :=
  op MutexLock;;
  op (AtomicSet running 0);;
  op CancelDelayedWorkSync;;
  coral_writel RESET_CONTROL 1;;
  op (WakeUp POLLERR);;
  op MutexUnlock;;
  mret 0.

(** [for (i = 0; i < run->polls; ++i)] with its [break]; [n] turns are left. *)
Fixpoint poll_status (n : nat) (status : Z) : kprog Z :=
  match n with
  | O => mret status
  | S n => status ← coral_readl STATUS;
           if negb (Z.land status 3 =? 0) then mret status else poll_status n status
  end.

(** What [coral_run] returns for a last status. *)
Definition run_result (status : Z) : Z :=
  if negb (Z.land status 2 =? 0) then - EIO
  else if Z.land status 1 =? 0 then - ETIMEDOUT else 0.

Definition coral_run (run : ioc_run) : kprog (Z * ioc_run) :=
  old ← op (AtomicCmpxchg running 0 1);
  if negb (old =? 0) then mret (- EBUSY, run) else
  coral_writel PC_START (run_entry run);;
  coral_writel RESET_CONTROL 1;;
  coral_writel RESET_CONTROL 0;;
  status ← poll_status (Z.to_nat (run_polls run)) 0;
  op (AtomicSet running 0);;
  mret (run_result status,
        {| run_entry := run_entry run; run_status := status; run_polls := run_polls run |}).

(** The user's memory at [arg]: what [copy_from_user] finds there, if it can
    be read, and whether [copy_to_user] can write it. *)
Record user_arg := { arg_run : option ioc_run; arg_start : option ioc_start; arg_writable : bool }.

Inductive ioctl_cmd := IOC_GET_INFO | IOC_RUN | IOC_GET_CAPS | IOC_START | IOC_RESET | IOC_OTHER.

(** What the call has written to the user's memory. *)
Inductive user_out := NoOut | OutInfo (i : ioc_info) | OutRun (r : ioc_run) | OutCaps (c : ioc_caps).

Definition caps : ioc_caps :=
  {| caps_abi_version := ABI_VERSION;
     caps_features := Z.lor (Z.lor (Z.lor FEATURE_SHARED_MMAP FEATURE_ASYNC_START)
                               FEATURE_POLL_COMPLETION) FEATURE_RESET |}.

Definition copy_to_user (u : user_arg) (o : user_out) (ret : Z) : kprog (Z * user_out) :=
  if arg_writable u then mret (ret, o) else mret (- EFAULT, NoOut).

Definition coral_ioctl (regs_start : Z) (cmd : ioctl_cmd) (u : user_arg) : kprog (Z * user_out) :=
  match cmd with
  | IOC_GET_INFO => info ← coral_fill_info regs_start; copy_to_user u (OutInfo info) 0
  | IOC_RUN =>
      match arg_run u with
      | None => mret (- EFAULT, NoOut)
      | Some run => '(ret, run) ← coral_run run; copy_to_user u (OutRun run) ret
      end
  | IOC_GET_CAPS => copy_to_user u (OutCaps caps) 0
  | IOC_START =>
      match arg_start u with
      | None => mret (- EFAULT, NoOut)
      | Some start =>
          if negb (start_flags start =? 0) then mret (- EINVAL, NoOut)
          else ret ← coral_start (start_entry start); mret (ret, NoOut)
      end
  | IOC_RESET => coral_reset;; mret (0, NoOut)
  | IOC_OTHER => mret (- ENOTTY, NoOut)
  end.

(** The events [coral_poll] reports. *)
Definition coral_poll : kprog Z :=
  status ← coral_readl STATUS;
  (if negb (Z.land status 3 =? 0) then op (AtomicSet running 0) else mret 0);;
  if negb (Z.land status 2 =? 0) then mret POLLERR
  else if negb (Z.land status 1 =? 0) then mret (Z.lor POLLIN POLLRDNORM)
  else mret 0.

Definition coral_open : kprog Z :=
  old ← op (AtomicCmpxchg open_count 0 1);
  if negb (old =? 0) then mret (- EBUSY) else mret 0.

Definition coral_release : kprog Z :=
  r ← op (AtomicRead running);
  (if negb (r =? 0) then coral_reset else mret 0);;
  op (AtomicSet open_count 0);;
  mret 0.

(** ** The mapping of the shared window *)

(** Linux's virtual memory area, as far as the driver uses it. *)
Record vm_area := { vm_start : Z; vm_end : Z; vm_pgoff : Z; vm_flags : Z; vm_page_prot : Z }.
Definition VM_IO : Z := 0x4000.
Definition VM_DONTEXPAND : Z := 0x40000.
Definition VM_DONTDUMP : Z := 0x4000000.

(** The fields of the device the entry points use; [resource_size_t] has 64
    bits. *)
Record coral_dev := {
  regs_start : Z; regs_size : Z; shared_start : Z; shared_size : Z }.

(** What the driver asks [remap_pfn_range] for. *)
Record remap := { rm_addr : Z; rm_pfn : Z; rm_size : Z; rm_prot : Z }.

Section mmap.
Context (PAGE_SHIFT : Z) (pgprot_noncached : Z -> Z) (remap_pfn_range : vm_area -> remap -> Z).

Definition PAGE_ALIGNED (z : Z) : bool := Z.land z (2 ^ PAGE_SHIFT - 1) =? 0.

(** The result, and the request made of [remap_pfn_range], if any. *)
Definition coral_mmap (coral : coral_dev) (vma : vm_area) : Z * option remap :=
  let offset := u64 (vm_pgoff vma * 2 ^ PAGE_SHIFT) in
  let size := u64 (vm_end vma - vm_start vma) in
  if negb (PAGE_ALIGNED (shared_start coral)) || negb (PAGE_ALIGNED offset) ||
     (shared_size coral <? offset) || (u64 (shared_size coral - offset) <? size)
  then (- EINVAL, None)
  else
    let phys := u64 (shared_start coral + offset) in
    let vma := {| vm_start := vm_start vma; vm_end := vm_end vma; vm_pgoff := vm_pgoff vma;
                  vm_flags := Z.lor (vm_flags vma) (Z.lor (Z.lor VM_IO VM_DONTEXPAND) VM_DONTDUMP);
                  vm_page_prot := pgprot_noncached (vm_page_prot vma) |} in
    let r := {| rm_addr := vm_start vma; rm_pfn := phys / 2 ^ PAGE_SHIFT; rm_size := size;
                rm_prot := vm_page_prot vma |} in
    (remap_pfn_range vma r, Some r).

End mmap.

(** ** Probing *)

(** What the platform answers while the driver is probed; a negative number
    is an error. *)
Record platform := {
  pf_kzalloc : bool;
  pf_resource : option (Z * Z);        (** [start], [end] *)
  pf_ioremap : Z;
  pf_memory_region : bool;             (** the device tree has the phandle *)
  pf_of_address : Z;
  pf_shared : Z * Z;                   (** [start], [end] of the region *)
  pf_alloc_chrdev : Z;
  pf_cdev_add : Z;
  pf_device_create : Z }.

(** What is registered with the kernel and must be given back: the device
    number, the character device, the class device, references to device
    tree nodes. *)
Record registered := { has_chrdev : bool; has_cdev : bool; has_class_dev : bool; node_refs : Z }.
Definition nothing : registered :=
  {| has_chrdev := false; has_cdev := false; has_class_dev := false; node_refs := 0 |}.

Definition with_chrdev (b : bool) (r : registered) : registered :=
  {| has_chrdev := b; has_cdev := has_cdev r; has_class_dev := has_class_dev r;
     node_refs := node_refs r |}.
Definition with_cdev (b : bool) (r : registered) : registered :=
  {| has_chrdev := has_chrdev r; has_cdev := b; has_class_dev := has_class_dev r;
     node_refs := node_refs r |}.
Definition with_class_dev (b : bool) (r : registered) : registered :=
  {| has_chrdev := has_chrdev r; has_cdev := has_cdev r; has_class_dev := b;
     node_refs := node_refs r |}.
Definition node_get (d : Z) (r : registered) : registered :=
  {| has_chrdev := has_chrdev r; has_cdev := has_cdev r; has_class_dev := has_class_dev r;
     node_refs := node_refs r + d |}.

(** From [alloc_chrdev_region] on, with the two labels of the error path. *)
Definition probe_register (p : platform) (r : registered) : Z * registered :=
  if negb (pf_alloc_chrdev p =? 0) then (pf_alloc_chrdev p, r) else
  let r := with_chrdev true r in
  let unregister_chrdev r := with_chrdev false r in
  let del_cdev r := unregister_chrdev (with_cdev false r) in
  if negb (pf_cdev_add p =? 0) then (pf_cdev_add p, unregister_chrdev r) else
  let r := with_cdev true r in
  if pf_device_create p <? 0 then (pf_device_create p, del_cdev r) else
  (0, with_class_dev true r).

Definition coral_probe (p : platform) : kprog (Z * registered * option coral_dev) :=
  let r := nothing in
  if negb (pf_kzalloc p) then mret (- ENOMEM, r, None) else
  match pf_resource p with
  | None => mret (- ENODEV, r, None)
  | Some (rs, re) =>
      if pf_ioremap p <? 0 then mret (pf_ioremap p, r, None) else
      if negb (pf_memory_region p) then mret (- EINVAL, r, None) else
      let r := node_get 1 r in
      let ret := pf_of_address p in
      let r := node_get (-1) r in
      if negb (ret =? 0) then mret (ret, r, None) else
      let dev := {| regs_start := rs; regs_size := u64 (re - rs + 1);
                    shared_start := (pf_shared p).1;
                    shared_size := u64 ((pf_shared p).2 - (pf_shared p).1 + 1) |} in
      shared_base ← coral_readl SHARED_BASE;
      size ← coral_readl SHARED_SIZE;
      if negb (shared_base =? shared_start dev) || negb (size =? shared_size dev)
      then mret (- EINVAL, r, None) else
      op (AtomicSet running 0);;
      op (AtomicSet open_count 0);;
      let '(ret, r) := probe_register p r in
      mret (ret, r, if ret =? 0 then Some dev else None)
  end.

Definition coral_remove_common (r : registered) : kprog registered :=
  coral_reset;;
  mret (with_chrdev false (with_cdev false (with_class_dev false r))).

(** ** Execution *)

(** The registers of the device: reading and writing one, and what the device
    does on its own. *)
Class Registers (D : Type) := {
  reg_read : Z -> D -> Z * D;
  reg_write : Z -> Z -> D -> D;
  reg_tick : D -> D }.

(** What the callers share. *)
Record kernel (D : Type) := {
  k_regs : D; k_running : Z; k_open_count : Z;
  k_lock : bool;          (** the mutex is held *)
  k_pending : bool;       (** the delayed work is queued *)
  k_working : bool;       (** it is executing *)
  k_wakeups : list Z }.
Arguments k_regs {D} k.
Arguments k_running {D} k.
Arguments k_open_count {D} k.
Arguments k_lock {D} k.
Arguments k_pending {D} k.
Arguments k_working {D} k.
Arguments k_wakeups {D} k.

Section exec.
Context {D : Type} `{HD : Registers D}.

Definition set_regs (d : D) (s : kernel D) : kernel D :=
  {| k_regs := d; k_running := k_running s; k_open_count := k_open_count s; k_lock := k_lock s;
     k_pending := k_pending s; k_working := k_working s; k_wakeups := k_wakeups s |}.
Definition get_counter (c : counter) (s : kernel D) : Z :=
  match c with running => k_running s | open_count => k_open_count s end.
Definition set_counter (c : counter) (v : Z) (s : kernel D) : kernel D :=
  {| k_regs := k_regs s; k_running := (match c with running => v | _ => k_running s end);
     k_open_count := (match c with open_count => v | _ => k_open_count s end);
     k_lock := k_lock s; k_pending := k_pending s; k_working := k_working s;
     k_wakeups := k_wakeups s |}.
Definition set_lock (b : bool) (s : kernel D) : kernel D :=
  {| k_regs := k_regs s; k_running := k_running s; k_open_count := k_open_count s; k_lock := b;
     k_pending := k_pending s; k_working := k_working s; k_wakeups := k_wakeups s |}.
Definition set_work (pending working : bool) (s : kernel D) : kernel D :=
  {| k_regs := k_regs s; k_running := k_running s; k_open_count := k_open_count s;
     k_lock := k_lock s; k_pending := pending; k_working := working;
     k_wakeups := k_wakeups s |}.
Definition add_wakeup (e : Z) (s : kernel D) : kernel D :=
  {| k_regs := k_regs s; k_running := k_running s; k_open_count := k_open_count s;
     k_lock := k_lock s; k_pending := k_pending s; k_working := k_working s;
     k_wakeups := k_wakeups s ++ [e] |}.

(** One operation; [None] when it has to wait. *)
Definition kexec (o : kop) (s : kernel D) : option (Z * kernel D) :=
  match o with
  | AtomicRead c => Some (get_counter c s, s)
  | AtomicSet c v => Some (0, set_counter c v s)
  | AtomicCmpxchg c old new =>
      let v := get_counter c s in
      Some (v, if v =? old then set_counter c new s else s)
  | Readl off => let '(v, d) := reg_read off (k_regs s) in Some (v, set_regs d s)
  | Writel off v => Some (0, set_regs (reg_write off v (k_regs s)) s)
  | MutexLock => if k_lock s then None else Some (0, set_lock true s)
  | MutexUnlock => Some (0, set_lock false s)
  | ScheduleDelayedWork => Some (0, set_work true (k_working s) s)
  | CancelDelayedWorkSync => if k_working s then None else Some (0, set_work false false s)
  | WakeUp e => Some (0, add_wakeup e s)
  end.

(** A program alone. *)
Fixpoint krun {A} (p : kprog A) (s : kernel D) : option (A * kernel D) :=
  match p with
  | KRet a => Some (a, s)
  | KOp o k => '(v, s') ← kexec o s; krun (k v) s'
  end.

(** ** Interleaving *)

(** Callers (a finished call is [KRet]) and the work queue's thread. *)
Record system := { sys_kernel : kernel D; sys_threads : list (kprog Z); sys_work : kprog Z }.

Definition sys_kernel_upd (s : kernel D) (c : system) : system :=
  {| sys_kernel := s; sys_threads := sys_threads c; sys_work := sys_work c |}.

Inductive sys_step (calls : kprog Z -> Prop) : system -> system -> Prop :=
| step_call c i r p :
    sys_threads c !! i = Some (KRet r) -> calls p ->
    sys_step calls c {| sys_kernel := sys_kernel c; sys_threads := <[i := p]> (sys_threads c);
                        sys_work := sys_work c |}
| step_thread c i o k v s' :
    sys_threads c !! i = Some (KOp o k) -> kexec o (sys_kernel c) = Some (v, s') ->
    sys_step calls c {| sys_kernel := s'; sys_threads := <[i := k v]> (sys_threads c);
                        sys_work := sys_work c |}
| step_work_start c :
    k_pending (sys_kernel c) = true -> k_working (sys_kernel c) = false ->
    sys_step calls c {| sys_kernel := set_work false true (sys_kernel c);
                        sys_threads := sys_threads c; sys_work := coral_completion_work |}
| step_work c o k v s' :
    k_working (sys_kernel c) = true -> sys_work c = KOp o k ->
    kexec o (sys_kernel c) = Some (v, s') ->
    sys_step calls c {| sys_kernel := s'; sys_threads := sys_threads c; sys_work := k v |}
| step_work_end c r :
    k_working (sys_kernel c) = true -> sys_work c = KRet r ->
    sys_step calls c (sys_kernel_upd (set_work (k_pending (sys_kernel c)) false (sys_kernel c)) c)
| step_device c :
    sys_step calls c
      (sys_kernel_upd (set_regs (reg_tick (k_regs (sys_kernel c))) (sys_kernel c)) c).

(** The driver has been probed, and nothing was called yet. *)
Definition sys_init (d : D) (n : nat) : system :=
  {| sys_kernel := {| k_regs := d; k_running := 0; k_open_count := 0; k_lock := false;
                      k_pending := false; k_working := false; k_wakeups := [] |};
     sys_threads := replicate n (KRet 0); sys_work := KRet 0 |}.

End exec.
Arguments system D : clear implicits.

(** Registers that remember what was written, in order. *)
Definition logged (D : Type) : Type := list (Z * Z) * D.
#[export] Instance logged_registers {D} {HD : Registers D} : Registers (logged D) := {|
  reg_read off d := let '(v, r) := reg_read off d.2 in (v, (d.1, r));
  reg_write off v d := (d.1 ++ [(off, v)], reg_write off v d.2);
  reg_tick d := (d.1, reg_tick d.2) |}.
