(* ===== verification/DriverSpec.v ===== *)
(** * What the kernel driver guarantees

    The protocol of the asynchronous interface (start, poll, reset, the
    completion work) under every interleaving, as a typing discipline of the
    driver's programs; exclusion of the synchronous interface; what happens
    where the two meet; the mapping of the shared window; probing. *)

From S2P Require Import Prelude KernelDriver.

(** ** What the device may see *)

(** Complete launches and resets. *)
Inductive sessions : list (Z * Z) -> Prop :=
| sessions_nil : sessions []
| sessions_launch l e :
    sessions l -> sessions (l ++ [(PC_START, e); (RESET_CONTROL, 1); (RESET_CONTROL, 0)])
| sessions_reset l : sessions l -> sessions (l ++ [(RESET_CONTROL, 1)]).

(** ** The discipline of the asynchronous callers *)

(** What a caller knows while it holds the lock: nothing yet; the device is
    not running; nor is the work queued or executing; and how much of a launch
    has been written. *)
Inductive phase := Entered | Idle | Stopped | Claimed | Addressed (e : Z) | Held (e : Z) | Launched.

(** Operations that need no lock. *)
Definition lock_free (o : kop) : bool :=
  match o with
  | AtomicRead _ | Readl _ | WakeUp _ | AtomicSet open_count _ | AtomicCmpxchg open_count _ _ => true
  | AtomicSet running v => v =? 0
  | _ => false
  end.

Inductive outside : kprog Z -> Prop :=
| outside_ret r : outside (KRet r)
| outside_op o k : lock_free o = true -> (forall v, outside (k v)) -> outside (KOp o k)
| outside_lock k : inside Entered (k 0) -> outside (KOp MutexLock k)
with inside : phase -> kprog Z -> Prop :=
| inside_test k :
    (forall v, v <> 0 -> inside Entered (k v)) -> inside Idle (k 0) ->
    inside Entered (KOp (AtomicRead running) k)
| inside_clear k : inside Idle (k 0) -> inside Entered (KOp (AtomicSet running 0) k)
| inside_leave k : outside (k 0) -> inside Entered (KOp MutexUnlock k)
| inside_cancel k : inside Stopped (k 0) -> inside Idle (KOp CancelDelayedWorkSync k)
| inside_reset k : inside Entered (k 0) -> inside Stopped (KOp (Writel RESET_CONTROL 1) k)
| inside_claim k : inside Claimed (k 0) -> inside Stopped (KOp (AtomicSet running 1) k)
| inside_entry e k : inside (Addressed e) (k 0) -> inside Claimed (KOp (Writel PC_START e) k)
| inside_hold e k : inside (Held e) (k 0) -> inside (Addressed e) (KOp (Writel RESET_CONTROL 1) k)
| inside_release e k : inside Launched (k 0) -> inside (Held e) (KOp (Writel RESET_CONTROL 0) k)
| inside_watch k : inside Entered (k 0) -> inside Launched (KOp ScheduleDelayedWork k)
| inside_wake ev ph k : inside ph (k 0) -> inside ph (KOp (WakeUp ev) k).

(** The work: [live] while it will still look at the device, hand over or
    clear the flag. *)
Inductive finished : kprog Z -> Prop :=
| finished_ret r : finished (KRet r)
| finished_wake ev k : finished (k 0) -> finished (KOp (WakeUp ev) k).
Inductive live : kprog Z -> Prop :=
| live_test k :
    (forall v, v <> 0 -> live (k v)) -> finished (k 0) -> live (KOp (AtomicRead running) k)
| live_look off k : (forall v, live (k v)) -> live (KOp (Readl off) k)
| live_clear k : finished (k 0) -> live (KOp (AtomicSet running 0) k)
| live_requeue k : finished (k 0) -> live (KOp ScheduleDelayedWork k).

(** ** The driver keeps to it *)

Lemma start_then_outside {A} e (f : Z -> kprog A) (g : A -> kprog Z) :
  (forall r, outside (f r ≫= g)) -> outside ((coral_start e ≫= f) ≫= g).
Proof.
  intros H. apply outside_lock. simpl. apply inside_test.
  - intros v Hv. apply Z.eqb_neq in Hv. rewrite Hv. simpl. constructor. apply H.
  - simpl. repeat constructor. apply H.
Qed.

Lemma reset_then_outside {A} (f : Z -> kprog A) (g : A -> kprog Z) :
  outside (f 0 ≫= g) -> outside ((coral_reset ≫= f) ≫= g).
Proof. intros H. apply outside_lock. simpl. repeat constructor. done. Qed.

Lemma poll_outside : outside coral_poll.
Proof.
  apply outside_op; [done |]. intros v. simpl.
  destruct (Z.land v 3 =? 0); simpl; [| apply outside_op; [done |]; intros _];
    destruct (Z.land v 2 =? 0); simpl; try constructor; destruct (Z.land v 1 =? 0); constructor.
Qed.

Lemma work_live : live coral_completion_work.
Proof.
  apply live_test; [| constructor]. intros v Hv. apply Z.eqb_neq in Hv. rewrite Hv. simpl.
  apply live_look. intros w. destruct (Z.land w 3 =? 0); simpl; [| repeat constructor].
  apply live_test; [| constructor]. intros u Hu. apply Z.eqb_neq in Hu. rewrite Hu.
  repeat constructor.
Qed.

(** The calls a user can make, the synchronous one apart. *)
Definition async_call (p : kprog Z) : Prop :=
  (exists base cmd u, cmd <> IOC_RUN /\ p = ('(r, _) ← coral_ioctl base cmd u; mret r)) \/
  p = coral_poll \/ p = coral_open \/ p = coral_release.

Lemma copy_outside u o r : outside ('(r, _) ← copy_to_user u o r; mret r).
Proof. unfold copy_to_user. destruct (arg_writable u); constructor. Qed.

Lemma async_call_outside p : async_call p -> outside p.
Proof.
  intros [(base & cmd & u & Hc & ->)|[->|[->| ->]]].
  - destruct cmd; [| done | | | |].
    + do 10 (apply outside_op; [done |]; intros). apply copy_outside.
    + apply copy_outside.
    + unfold coral_ioctl. destruct (arg_start u) as [s|]; [| constructor].
      destruct (start_flags s =? 0); [| constructor]. apply start_then_outside. constructor.
    + apply reset_then_outside. constructor.
    + constructor.
  - apply poll_outside.
  - apply outside_op; [done |]. intros v. simpl. destruct (v =? 0); constructor.
  - apply outside_op; [done |]. intros v. simpl. destruct (v =? 0); simpl.
    + apply outside_op; [done |]. constructor.
    + apply outside_lock. simpl. repeat constructor.
Qed.

(** ** The invariant *)

Section invariant.
Context {D : Type} {HD : Registers D}.

Implicit Types (s : kernel (logged D)) (w : kprog Z).

Definition log s : list (Z * Z) := (k_regs s).1.

(** Nothing that was started is unobserved. *)
Definition watched s w : Prop :=
  (k_working s = true -> live w \/ finished w) /\
  (k_running s <> 0 -> k_pending s = true \/ k_working s = true /\ live w).

Definition quiet s : Prop := k_pending s = false /\ k_working s = false.

Definition phase_ok (ph : phase) s w : Prop :=
  match ph with
  | Entered => watched s w /\ sessions (log s)
  | Idle => k_running s = 0 /\ watched s w /\ sessions (log s)
  | Stopped => k_running s = 0 /\ quiet s /\ sessions (log s)
  | Claimed => quiet s /\ sessions (log s)
  | Addressed e => quiet s /\ exists l, sessions l /\ log s = l ++ [(PC_START, e)]
  | Held e => quiet s /\ exists l, sessions l /\
                log s = l ++ [(PC_START, e); (RESET_CONTROL, 1)]
  | Launched => quiet s /\ sessions (log s)
  end.

(** An operation without the lock disturbs no phase. *)
Lemma lock_free_ok o v s s' w ph :
  lock_free o = true -> kexec o s = Some (v, s') ->
  k_lock s' = k_lock s /\ (phase_ok ph s w -> phase_ok ph s' w).
Proof.
  intros Hf E. destruct o as [c|[] x|[] a b|off|off x| | | | |e]; simpl in *; try done.
  - by injection E as <- <-.
  - apply Z.eqb_eq in Hf as ->. injection E as <- <-. split; [done |].
    destruct ph; unfold phase_ok, watched, quiet, log; simpl; try done; intuition.
  - by injection E as <- <-.
  - injection E as <- <-. destruct (_ =? _); split; done.
  - destruct (reg_read off (k_regs s).2) as [x d]. injection E as <- <-. by split.
  - by injection E as <- <-.
Qed.

(** One operation of the holder of the lock. *)
Lemma holder_step o k v s s' w ph :
  inside ph (KOp o k) -> phase_ok ph s w -> k_lock s = true -> kexec o s = Some (v, s') ->
  (exists ph', k_lock s' = true /\ inside ph' (k v) /\ phase_ok ph' s' w) \/
  (k_lock s' = false /\ phase_ok Entered s' w /\ outside (k v)).
Proof.
  intros Hin Hph Hl E. inversion Hin; subst; simpl in E; try (injection E as <- <-).
  - left. destruct (decide (k_running s = 0)) as [E0|E0].
    + exists Idle. rewrite E0. split; [done |]. split; [done |]. by split.
    + exists Entered. auto.
  - left. exists Idle. split; [done |]. split; [done |]. split; [done |].
    destruct Hph as [[Hw _] Hs]. split; [| done]. by split.
  - right. split; [done |]. split; [done | done].
  - destruct (k_working s) eqn:Ew; [done |]. injection E as <- <-. left. exists Stopped.
    destruct Hph as (H0 & _ & Hs). split; [done |]. split; [done |]. split; [done |]. by split.
  - left. exists Entered. destruct Hph as (H0 & (Hp & Hw) & Hs). split; [done |]. split; [done |].
    split; [split; simpl; [by rewrite Hw | done] | by constructor].
  - left. exists Claimed. destruct Hph as (H0 & Hq & Hs). split; [done |]. split; [done |]. by split.
  - left. exists (Addressed e). destruct Hph as [Hq Hs]. split; [done |]. split; [done |].
    split; [done |]. by exists (log s).
  - left. exists (Held e). destruct Hph as (Hq & l & Hs & El). split; [done |]. split; [done |].
    split; [done |]. exists l. split; [done |]. unfold log in *. simpl. rewrite El.
    by rewrite <- app_assoc.
  - left. exists Launched. destruct Hph as (Hq & l & Hs & El). split; [done |]. split; [done |].
    split; [done |]. unfold log in *. simpl. rewrite El, <- app_assoc. by constructor.
  - left. exists Entered. destruct Hph as [(Hp & Hw) Hs]. split; [done |]. split; [done |].
    split; [split; simpl; [by rewrite Hw | by left] | done].
  - left. exists ph. by destruct ph.
Qed.

(** One operation of the work. *)
Lemma work_step o k v s s' ph :
  k_working s = true -> phase_ok ph s (KOp o k) -> kexec o s = Some (v, s') ->
  k_lock s' = k_lock s /\ k_working s' = true /\ phase_ok ph s' (k v).
Proof.
  intros Hw Hph E.
  assert (watched s (KOp o k) -> k_lock s' = k_lock s /\ k_working s' = true /\
    watched s' (k v) /\ log s' = log s /\ (k_running s = 0 -> k_running s' = 0)) as H.
  { intros [HL HR]. destruct (HL Hw) as [L|F].
    - inversion L; subst; simpl in E.
      + injection E as <- <-. split; [done |]. split; [done |]. split; [| done].
        destruct (decide (k_running s = 0)) as [E0|E0]; [rewrite E0 in * | ];
          (split; [auto |]; intros; auto; try done).
      + destruct (reg_read _ (k_regs s).2) as [x d]. injection E as <- <-. split; [done |].
        split; [done |]. split; [| done]. split; [auto |]. simpl. intros Hz.
        destruct (HR Hz) as [?|[? ?]]; auto.
      + injection E as <- <-. split; [done |]. split; [done |]. split; [| done].
        split; [auto | done].
      + injection E as <- <-. split; [done |]. split; [done |]. split; [| done].
        split; [auto |]. by left.
    - inversion F; subst; simpl in E. injection E as <- <-. split; [done |]. split; [done |].
      split; [| done]. split; [auto |]. simpl. intros Hz.
      destruct (HR Hz) as [?|[_ L]]; [auto | inversion L]. }
  destruct ph; simpl in *.
  - destruct Hph as [Hwa Hs]. destruct (H Hwa) as (? & ? & ? & El & _). by rewrite El.
  - destruct Hph as (H0 & Hwa & Hs). destruct (H Hwa) as (? & ? & ? & El & Hr). rewrite El. auto.
  - destruct Hph as (_ & [_ Hw'] & _). congruence.
  - destruct Hph as ([_ Hw'] & _). congruence.
  - destruct Hph as ([_ Hw'] & _). congruence.
  - destruct Hph as ([_ Hw'] & _). congruence.
  - destruct Hph as ([_ Hw'] & _). congruence.
Qed.

(** The holder, if any, and the phase it is in. *)
Definition held_by (c : system (logged D)) (h : option nat) (ph : phase) : Prop :=
  phase_ok ph (sys_kernel c) (sys_work c) /\
  (forall j q, h <> Some j -> sys_threads c !! j = Some q -> outside q) /\
  match h with
  | None => k_lock (sys_kernel c) = false /\ ph = Entered
  | Some i => k_lock (sys_kernel c) = true /\
              exists p, sys_threads c !! i = Some p /\ inside ph p
  end.

Lemma held_same c c' h ph :
  held_by c h ph -> sys_threads c' = sys_threads c ->
  k_lock (sys_kernel c') = k_lock (sys_kernel c) ->
  phase_ok ph (sys_kernel c') (sys_work c') -> held_by c' h ph.
Proof. intros (_ & Ho & Hh) Et El Hp. split; [done |]. by rewrite Et, El. Qed.

Lemma held_insert c h ph i q s' w :
  held_by c h ph -> h <> Some i -> outside q -> k_lock s' = k_lock (sys_kernel c) ->
  phase_ok ph s' w ->
  held_by {| sys_kernel := s'; sys_threads := <[i := q]> (sys_threads c); sys_work := w |} h ph.
Proof.
  intros (_ & Ho & Hh) Hi Hq El Hp. split; [done |]. simpl. split.
  - intros j r Hj. destruct (decide (j = i)) as [->|].
    + intros H. by apply list_lookup_insert_Some in H as [(_ & <- & _)|[? _]].
    + rewrite list_lookup_insert_ne by done. by apply Ho.
  - rewrite El. destruct h as [i'|]; [| done]. rewrite list_lookup_insert_ne by congruence. done.
Qed.

Lemma thread_step c i o k v s' h ph :
  held_by c h ph -> sys_threads c !! i = Some (KOp o k) -> kexec o (sys_kernel c) = Some (v, s') ->
  exists h' ph', held_by {| sys_kernel := s'; sys_threads := <[i := k v]> (sys_threads c);
                            sys_work := sys_work c |} h' ph'.
Proof.
  intros Hc Hi E. pose proof Hc as (Hp & Ho & Hh).
  pose proof (lookup_lt_Some _ _ _ Hi) as Hlt.
  destruct (decide (h = Some i)) as [->|Hne].
  - destruct Hh as (Hl & p & Hi' & Hin). rewrite Hi in Hi'. injection Hi' as <-.
    destruct (holder_step o k v _ s' _ ph Hin Hp Hl E) as [(ph' & Hl' & Hin' & Hp')|(Hl' & Hp' & Hout)].
    + exists (Some i), ph'. split; [done |]. simpl. split.
      * intros j q Hj. rewrite list_lookup_insert_ne by congruence. by apply Ho.
      * split; [done |]. exists (k v). by rewrite list_lookup_insert_eq.
    + exists None, Entered. split; [done |]. simpl. split; [| done]. intros j q _ Hj.
      apply list_lookup_insert_Some in Hj as [(_ & <- & _)|[Hij Hj]]; [done |].
      apply (Ho j); [congruence | done].
  - pose proof (Ho i _ Hne Hi) as Hout. inversion Hout; subst.
    + exists h, ph. destruct (lock_free_ok o v (sys_kernel c) s' (sys_work c) ph) as [El Hp']; [done | done |].
      apply held_insert; auto.
    + simpl in E. destruct h as [i'|]; destruct Hh as [Hl Hh]; rewrite Hl in E; [done |].
      subst ph. injection E as <- <-. exists (Some i), Entered. split; [done |]. simpl. split.
      * intros j q Hj. rewrite list_lookup_insert_ne by congruence. by apply Ho.
      * split; [done |]. exists (k 0). by rewrite list_lookup_insert_eq.
Qed.

Lemma phase_ok_start ph s w :
  k_pending s = true -> k_working s = false -> phase_ok ph s w ->
  phase_ok ph (set_work false true s) coral_completion_work.
Proof.
  intros Hp Hw. pose proof work_live as HL.
  destruct ph; unfold phase_ok, quiet; rewrite ?Hp; try (by intros (_ & [? _] & _));
    try (by intros ([? _] & _)).
  - intros [_ Hs]. split; [| done]. split; simpl; auto.
  - intros (H0 & _ & Hs). split; [done |]. split; [| done]. split; simpl; auto.
Qed.

Lemma phase_ok_end ph s r :
  k_working s = true -> phase_ok ph s (KRet r) ->
  phase_ok ph (set_work (k_pending s) false s) (KRet r).
Proof.
  intros Hw. destruct ph; unfold phase_ok, quiet; rewrite ?Hw; try (by intros (_ & [_ ?] & _));
    try (by intros ([_ ?] & _)).
  - intros [[_ Hr] Hs]. split; [| done]. split; simpl; [done |]. intros H.
    destruct (Hr H) as [?|[_ L]]; [auto | inversion L].
  - intros (H0 & [_ Hr] & Hs). split; [done |]. split; [| done]. by split.
Qed.

Lemma sys_step_held c c' h ph :
  held_by c h ph -> sys_step async_call c c' -> exists h' ph', held_by c' h' ph'.
Proof.
  intros Hc Hs. pose proof Hc as (Hp & Ho & Hh).
  destruct Hs as [c i r p Hi Hcall | c i o k v s' Hi E | c Hpe Hw | c o k v s' Hw Ek E | c r Hw Ek | c].
  - exists h, ph. apply held_insert; [done | | by apply async_call_outside | done | done].
    intros ->. destruct Hh as (_ & p' & Hi' & Hin). rewrite Hi in Hi'. injection Hi' as <-.
    inversion Hin.
  - by eapply thread_step.
  - exists h, ph. eapply held_same; [done | done | done |]. by eapply phase_ok_start.
  - exists h, ph. rewrite Ek in Hp. destruct (work_step o k v _ s' ph Hw Hp E) as (El & _ & Hp').
    by eapply held_same.
  - exists h, ph. eapply held_same; [done | done | done |]. simpl. rewrite Ek in *.
    by apply phase_ok_end.
  - exists h, ph. eapply held_same; [done | done | done |]. by destruct ph.
Qed.

Lemma reachable_held d n c :
  rtc (sys_step async_call) (sys_init (D := logged D) ([], d) n) c -> exists h ph, held_by c h ph.
Proof.
  revert c. apply rtc_ind_r.
  - exists None, Entered. split; [| split].
    + split; [by split | constructor].
    + intros j q _ Hj. apply lookup_replicate in Hj as [-> _]. constructor.
    + done.
  - intros c1 c2 _ Hs (h & ph & Hc). by eapply sys_step_held.
Qed.

End invariant.


(** ** The synchronous call *)

Inductive claim := RunClaimed | RunAddressed (e : Z) | RunHeld (e : Z) | RunPolling.

Inductive free : kprog Z -> Prop :=
| free_ret r : free (KRet r)
| free_claim k :
    (forall v, v <> 0 -> free (k v)) -> owner RunClaimed (k 0) ->
    free (KOp (AtomicCmpxchg running 0 1) k)
with owner : claim -> kprog Z -> Prop :=
| owner_entry e k : owner (RunAddressed e) (k 0) -> owner RunClaimed (KOp (Writel PC_START e) k)
| owner_hold e k :
    owner (RunHeld e) (k 0) -> owner (RunAddressed e) (KOp (Writel RESET_CONTROL 1) k)
| owner_release e k : owner RunPolling (k 0) -> owner (RunHeld e) (KOp (Writel RESET_CONTROL 0) k)
| owner_poll off k : (forall v, owner RunPolling (k v)) -> owner RunPolling (KOp (Readl off) k)
| owner_done k : free (k 0) -> owner RunPolling (KOp (AtomicSet running 0) k).

Definition run_call (p : kprog Z) : Prop := exists r, p = ('(ret, _) ← coral_run r; mret ret).

Lemma poll_owner n st (f : Z -> kprog (Z * ioc_run)) (g : Z * ioc_run -> kprog Z) :
  (forall v, owner RunPolling (f v ≫= g)) -> owner RunPolling ((poll_status n st ≫= f) ≫= g).
Proof.
  intros H. revert st. induction n as [|n IH]; intros st; [apply H |]. cbn [poll_status].
  apply owner_poll. intros v. destruct (Z.land v 3 =? 0); [apply IH | apply H].
Qed.

Lemma run_call_free p : run_call p -> free p.
Proof.
  intros [r ->]. apply free_claim.
  - intros v Hv. apply Z.eqb_neq in Hv. rewrite Hv. constructor.
  - apply owner_entry, owner_hold, owner_release. apply poll_owner. intros v.
    apply owner_done. constructor.
Qed.

Section exclusive.
Context {D : Type} {HD : Registers D}.

Definition claim_ok (cl : claim) (l : list (Z * Z)) : Prop :=
  match cl with
  | RunClaimed | RunPolling => sessions l
  | RunAddressed e => exists l', sessions l' /\ l = l' ++ [(PC_START, e)]
  | RunHeld e => exists l', sessions l' /\ l = l' ++ [(PC_START, e); (RESET_CONTROL, 1)]
  end.

(** The thread that has claimed the device, if any, and how far it is. *)
Definition owned_by (c : system (logged D)) (h : option (nat * claim)) : Prop :=
  let s := sys_kernel c in
  quiet s /\ (forall j q, fst <$> h <> Some j -> sys_threads c !! j = Some q -> free q) /\
  match h with
  | None => k_running s = 0 /\ sessions (log s)
  | Some (i, cl) => k_running s = 1 /\ claim_ok cl (log s) /\
                    exists p, sys_threads c !! i = Some p /\ owner cl p
  end.

(** One operation of the owner. *)
Lemma owner_step cl o k v (s s' : kernel (logged D)) :
  owner cl (KOp o k) -> claim_ok cl (log s) -> quiet s -> k_running s = 1 ->
  kexec o s = Some (v, s') ->
  quiet s' /\
  ((k_running s' = 0 /\ sessions (log s') /\ free (k v)) \/
   (k_running s' = 1 /\ exists cl', claim_ok cl' (log s') /\ owner cl' (k v))).
Proof.
  intros Ho Hl Hq Hr E. inversion Ho; subst; simpl in E.
  - injection E as <- <-. split; [done |]. right. split; [done |]. exists (RunAddressed e).
    split; [| done]. by exists (log s).
  - injection E as <- <-. split; [done |]. right. split; [done |]. exists (RunHeld e).
    split; [| done]. destruct Hl as (l & Hs & El). exists l. split; [done |].
    unfold log in *. simpl. by rewrite El, <- app_assoc.
  - injection E as <- <-. split; [done |]. right. split; [done |]. exists RunPolling.
    split; [| done]. destruct Hl as (l & Hs & El). unfold log in *. simpl.
    rewrite El, <- app_assoc. by constructor.
  - destruct (reg_read off (k_regs s).2) as [x d]. injection E as <- <-. split; [done |].
    right. split; [done |]. exists RunPolling. auto.
  - injection E as <- <-. split; [done |]. left. done.
Qed.

Lemma run_thread_step c i o k v s' h :
  owned_by c h -> sys_threads c !! i = Some (KOp o k) -> kexec o (sys_kernel c) = Some (v, s') ->
  exists h', owned_by {| sys_kernel := s'; sys_threads := <[i := k v]> (sys_threads c);
                         sys_work := sys_work c |} h'.
Proof.
  intros (Hq & Hf & Hh) Hi E. pose proof (lookup_lt_Some _ _ _ Hi) as Hlt.
  destruct (decide (fst <$> h = Some i)) as [Eh|Hne].
  - destruct h as [[i' cl]|]; [| done]. injection Eh as ->.
    destruct Hh as (Hr & Hl & p & Hi' & Ho). rewrite Hi in Hi'. injection Hi' as <-.
    destruct (owner_step cl o k v _ s' Ho Hl Hq Hr E) as (Hq' & [(Hr' & Hs & Hfree)|(Hr' & cl' & Hl' & Ho')]).
    + exists None. split; [done |]. split; [| done]. intros j q _ Hj. simpl in Hj.
      apply list_lookup_insert_Some in Hj as [(_ & <- & _)|[Hij Hj]]; [done |].
      apply (Hf j); [simpl; congruence | done].
    + exists (Some (i, cl')). split; [done |]. split.
      * intros j q Hj. simpl in *. rewrite list_lookup_insert_ne by congruence. by apply Hf.
      * split; [done |]. split; [done |]. exists (k v). simpl. by rewrite list_lookup_insert_eq.
  - pose proof (Hf i _ Hne Hi) as Hfree. inversion Hfree as [| k' Hbusy Hown]; subst.
    simpl in E. destruct h as [[i' cl]|].
    + destruct Hh as (Hr & Hl & p & Hi' & Ho). rewrite Hr in E. injection E as <- <-.
      exists (Some (i', cl)). split; [done |]. simpl in *. split.
      * intros j q Hj Hq'. apply list_lookup_insert_Some in Hq' as [(_ & <- & _)|[Hij Hq']];
          [by apply Hbusy | by apply (Hf j)].
      * split; [done |]. split; [done |]. exists p. rewrite list_lookup_insert_ne by congruence.
        done.
    + destruct Hh as (Hr & Hs). rewrite Hr in E. injection E as <- <-.
      exists (Some (i, RunClaimed)). split; [done |]. simpl. split.
      * intros j q Hj. rewrite list_lookup_insert_ne by congruence. by apply Hf.
      * split; [done |]. split; [done |]. exists (k 0). by rewrite list_lookup_insert_eq.
Qed.

Lemma run_step_owned c c' h :
  owned_by c h -> sys_step run_call c c' -> exists h', owned_by c' h'.
Proof.
  intros Hc Hs. pose proof Hc as ([Hp Hw] & Hf & Hh).
  destruct Hs as [c i r p Hi Hcall | c i o k v s' Hi E | c Hp' | c o k v s' Hw' | c r Hw' | c];
    [| by eapply run_thread_step | congruence | congruence | congruence |].
  - exists h. split; [done |]. simpl. split.
    + intros j q Hj Hq. apply list_lookup_insert_Some in Hq as [(_ & <- & _)|[Hij Hq]];
        [by apply run_call_free | by apply (Hf j)].
    + destruct h as [[i' cl]|]; [| done]. destruct Hh as (Hr & Hl & p' & Hi' & Ho).
      split; [done |]. split; [done |]. exists p'. split; [| done].
      rewrite list_lookup_insert_ne; [done |]. intros ->. rewrite Hi in Hi'. injection Hi' as <-.
      inversion Ho.
  - exists h. split; [done |]. split; [done |]. destruct h as [[i' cl]|]; done.
Qed.

End exclusive.


(** ** Where the two interfaces meet *)

(** Lets the given callers make one step each, in the given order. *)
Fixpoint play {D} {HD : Registers D} (l : list nat) (c : system D) : option (system D) :=
  match l with
  | [] => Some c
  | i :: l =>
      match sys_threads c !! i with
      | Some (KOp o k) =>
          '(v, s') ← kexec o (sys_kernel c);
          play l {| sys_kernel := s'; sys_threads := <[i := k v]> (sys_threads c);
                    sys_work := sys_work c |}
      | _ => None
      end
  end.

Lemma play_reach {D} {HD : Registers D} calls l (c c' : system D) :
  play l c = Some c' -> rtc (sys_step calls) c c'.
Proof.
  revert c. induction l as [|i l IH]; intros c H; simpl in H; [injection H as ->; done |].
  destruct (sys_threads c !! i) as [[r|o k]|] eqn:Ei; [done | | done].
  destruct (kexec o (sys_kernel c)) as [[v s']|] eqn:E; [| done].
  eapply rtc_l; [by eapply step_thread | by apply IH].
Qed.

(** A device that reports completion at once. *)
Definition done_device : Registers unit :=
  {| reg_read _ d := (1, d); reg_write _ _ d := d; reg_tick d := d |}.

(** [sessions] as a test. *)
Fixpoint whole (l : list (Z * Z)) : bool :=
  match l with
  | [] => true
  | (a, x) :: l1 =>
      if a =? RESET_CONTROL then (x =? 1) && whole l1
      else match l1 with
           | (b, y) :: (c, z) :: l2 =>
               (a =? PC_START) && (b =? RESET_CONTROL) && (y =? 1) && (c =? RESET_CONTROL) &&
               (z =? 0) && whole l2
           | _ => false
           end
  end.

Lemma whole_app m : whole m = true -> forall n l, (length l <= n)%nat ->
  whole l = true -> whole (l ++ m) = true.
Proof.
  intros Hm. induction n as [|n IH]; intros l Hn Hl; [by destruct l; [| simpl in Hn; lia] |].
  destruct l as [|[a x] l1]; [done |]. simpl in *. destruct (a =? RESET_CONTROL).
  - destruct (x =? 1); [| done]. simpl in *. apply IH; [lia | done].
  - destruct l1 as [|[b y] [|[c z] l2]]; [done | done |]. simpl in *.
    apply andb_true_iff in Hl as [-> Hl]. apply IH; [lia | done].
Qed.

Lemma sessions_whole l : sessions l -> whole l = true.
Proof.
  induction 1 as [| l e _ IH | l _ IH]; [done | |].
  - by eapply whole_app.
  - by eapply whole_app.
Qed.

(** The calls of the race. *)
Definition race_calls (p : kprog Z) : Prop :=
  run_call p \/ exists e, p = coral_start e.
Definition race_start : kprog Z := coral_start 1.
Definition race_run : kprog Z :=
  '(ret, _) ← coral_run {| run_entry := 2; run_status := 0; run_polls := 1 |}; mret ret.
(** The starter (0) has seen the flag clear and cancelled the work when the
    runner (1) claims the device. *)
Definition race_schedule : list nat := [0; 0; 0; 1; 1; 0; 0; 0; 0; 1; 1; 1; 1; 0; 0]%nat.


(** ** The mapping of the shared window *)

Lemma page_aligned_mul S z : 0 <= S < 64 -> PAGE_ALIGNED S (u64 (z * 2 ^ S)) = true.
Proof.
  intros HS. unfold PAGE_ALIGNED. apply Z.eqb_eq.
  replace (2 ^ S - 1) with (Z.ones S) by (rewrite Z.ones_equiv; lia).
  rewrite Z.land_ones by lia. unfold wrap. 
  replace (2 ^ 64) with (2 ^ (64 - S) * 2 ^ S) by (rewrite <- Z.pow_add_r by lia; f_equal; lia).
  rewrite Z.mul_mod_distr_r by (apply Z.pow_nonzero; lia). apply Z.mod_mul. apply Z.pow_nonzero; lia.
Qed.

Lemma page_aligned_div S z : 0 <= S -> PAGE_ALIGNED S z = true -> z / 2 ^ S * 2 ^ S = z.
Proof.
  intros HS H. unfold PAGE_ALIGNED in H. apply Z.eqb_eq in H.
  replace (2 ^ S - 1) with (Z.ones S) in H by (rewrite Z.ones_equiv; lia).
  rewrite Z.land_ones in H by lia. pose proof (Z.div_mod z (2 ^ S)). lia.
Qed.

Definition vma_ok (v : vm_area) : Prop := 0 <= vm_start v <= vm_end v /\ vm_end v < 2 ^ 64.
Definition dev_ok (d : coral_dev) : Prop :=
  0 <= shared_start d /\ 0 <= shared_size d /\ shared_start d + shared_size d < 2 ^ 64.

(** C24: the driver maps exactly the shared window.  A mapping is made if and
    only if the window starts on a page and the whole area, from the offset
    asked for, lies inside it; then the physical pages are those of the window
    at that offset, so that no byte outside the window becomes accessible; every
    other request is refused with EINVAL, whatever the offset wraps to. *)
Theorem mmap_exact S pgprot remapf coral vma r
  (HS : 0 <= S < 64) (Hv : vma_ok vma) (Hd : dev_ok coral) :
  let offset := u64 (vm_pgoff vma * 2 ^ S) in
  let size := vm_end vma - vm_start vma in
  let fits := PAGE_ALIGNED S (shared_start coral) = true /\ offset + size <= shared_size coral in
  ((coral_mmap S pgprot remapf coral vma).2 = Some r <->
     fits /\ rm_addr r = vm_start vma /\ rm_pfn r * 2 ^ S = shared_start coral + offset /\
     rm_size r = size /\ rm_prot r = pgprot (vm_page_prot vma)) /\
  (~ fits -> coral_mmap S pgprot remapf coral vma = (- EINVAL, None)).
Proof.
  intros offset size fits. destruct Hv as [Hv1 Hv2], Hd as (Hd1 & Hd2 & Hd3).
  pose proof (wrap_range 64 (vm_pgoff vma * 2 ^ S) ltac:(lia)) as Ho. fold offset in Ho.
  pose proof (page_aligned_mul S (vm_pgoff vma) HS) as Ha. fold offset in Ha.
  assert (0 < 2 ^ S) as HP by (apply Z.pow_pos_nonneg; lia).
  unfold coral_mmap. fold offset. rewrite Ha. rewrite (wrap_small 64 (vm_end vma - _)) by lia.
  fold size. subst fits. destruct (PAGE_ALIGNED S (shared_start coral)) eqn:Es; simpl.
  2: { split; [| done]. split; [done | by intros ([? _] & _)]. }
  destruct (Z.ltb_spec (shared_size coral) offset); simpl.
  { split; [| done]. split; [done | intros ([_ ?] & _); lia]. }
  rewrite wrap_small by lia.
  destruct (Z.ltb_spec (shared_size coral - offset) size); simpl.
  { split; [| done]. split; [done | intros ([_ ?] & _); lia]. }
  rewrite wrap_small by lia. split; [| intros []; split; [done | lia]].
  assert (forall q, q * 2 ^ S = shared_start coral + offset <-> q = (shared_start coral + offset) / 2 ^ S) as Hq.
  { intros q. apply page_aligned_div in Ha, Es; try lia.
    rewrite <- Es, <- Ha, <- Z.mul_add_distr_r, Z.div_mul by lia. split; [| by intros ->].
    intros E. by apply Z.mul_reg_r in E; [| lia]. }
  rewrite Hq. destruct r as [a f z t]. simpl. split.
  - intros [= <- <- <- <-]. split; [| done]. split; [done | lia].
  - by intros (_ & -> & -> & -> & ->).
Qed.

(** ** Probing *)

(** C39: probing is all or nothing and never refuses silently.  Whatever the
    platform answers, [coral_probe] ends; with the result 0 everything is
    registered and the window of the device tree is the one the device
    reports; with any error the device number, the character device and the
    class device have been given back, and no device tree node is still
    referenced in either case. *)
Theorem probe_all_or_nothing {D} {HD : Registers D} p (s : kernel D) :
  exists ret r dev s', krun (coral_probe p) s = Some ((ret, r, dev), s') /\ node_refs r = 0 /\
    (ret = 0 -> has_chrdev r = true /\ has_cdev r = true /\ has_class_dev r = true /\
       k_running s' = 0 /\ k_open_count s' = 0 /\
       exists d d1, dev = Some d /\ reg_read SHARED_BASE (k_regs s) = (shared_start d, d1) /\
         (reg_read SHARED_SIZE d1).1 = shared_size d) /\
    (ret <> 0 -> has_chrdev r = false /\ has_cdev r = false /\ has_class_dev r = false /\
       dev = None).
Proof.
  unfold coral_probe. destruct (pf_kzalloc p); simpl; [| by eexists _, _, _, _].
  destruct (pf_resource p) as [[rs re]|]; [| by eexists _, _, _, _].
  destruct (Z.ltb_spec (pf_ioremap p) 0); [eexists _, _, _, _; split; [done |]; split; [done |]; split; [lia | done] |].
  destruct (pf_memory_region p); simpl; [| by eexists _, _, _, _].
  destruct (Z.eqb_spec (pf_of_address p) 0); simpl; [| by eexists _, _, _, _].
  destruct (reg_read SHARED_BASE (k_regs s)) as [b d1] eqn:E1. simpl.
  destruct (reg_read SHARED_SIZE d1) as [z d2] eqn:E2. simpl.
  destruct (Z.eqb_spec b (pf_shared p).1) as [->|]; simpl; [| by eexists _, _, _, _].
  destruct (Z.eqb_spec z (u64 ((pf_shared p).2 - (pf_shared p).1 + 1))) as [->|]; simpl;
    [| by eexists _, _, _, _].
  unfold probe_register. destruct (Z.eqb_spec (pf_alloc_chrdev p) 0) as [|N]; simpl.
  2: { apply Z.eqb_neq in N as N'. rewrite N'. by eexists _, _, _, _. }
  destruct (Z.eqb_spec (pf_cdev_add p) 0) as [|N]; simpl.
  2: { apply Z.eqb_neq in N as N'. rewrite N'. by eexists _, _, _, _. }
  destruct (Z.ltb_spec (pf_device_create p) 0); simpl.
  - destruct (Z.eqb_spec (pf_device_create p) 0); [lia |]. by eexists _, _, _, _.
  - eexists _, _, _, _. split; [done |]. split; [done |]. split; [| done]. intros _.
    do 5 (split; [done |]). eexists _, _. split; [done |]. simpl. by rewrite E2.
Qed.

(** ** Examples *)



Definition sample_dev : coral_dev :=
  {| regs_start := 0x1d000000; regs_size := 0x40000; shared_start := 0x20000000;
     shared_size := 0x400000 |}.
Definition sample_vma : vm_area :=
  {| vm_start := 0x10000; vm_end := 0x14000; vm_pgoff := 2; vm_flags := 0; vm_page_prot := 0 |}.

Lemma mmap_exact_witness :
  (coral_mmap 12 (fun x => x) (fun _ _ => 0) sample_dev sample_vma).2 =
    Some {| rm_addr := 0x10000; rm_pfn := 0x20002; rm_size := 0x4000; rm_prot := 0 |}.
Proof.
  apply (mmap_exact 12 (fun x => x) (fun _ _ => 0) sample_dev sample_vma).
  - lia.
  - unfold vma_ok. simpl. lia.
  - unfold dev_ok. simpl. lia.
  - vm_compute. repeat split; done.
Defined.
