(* ===== verification/HostRuntime.v ===== *)
(** * The host runtime ([runtime/host/src/coral_runtime.c])

    The user-space library over the operating system: a class [OS] whose
    operations are the system calls and the volatile accesses to mapped
    memory.  A system call answers with a negative error number on failure,
    from which the C library makes -1 and [errno].  [exit(1)] is [Fatal]; an
    access outside a mapping, or outside an object, is undefined. *)

From S2P Require Import Prelude Firmware KernelDriver EnvParse.

(** ** The operating system *)

Class OS (W : Type) := {
  os_pagesize : W -> Z;                          (** [sysconf(_SC_PAGESIZE)] *)
  os_getenv : list Z -> W -> option (list Z);
  os_open : list Z -> W -> Z * W;
  os_close : Z -> W -> W;
  os_ioctl : Z -> ioctl_cmd -> user_arg -> W -> Z * user_out * W;
  os_poll : Z -> Z -> W -> Z * Z * W;            (** result and [revents] *)
  os_mmap : Z -> Z -> Z -> W -> Z * W;           (** length, descriptor, offset *)
  os_munmap : Z -> Z -> W -> Z * W;
  os_load32 : Z -> W -> res (Z * W);
  os_store32 : Z -> Z -> W -> res W;
  os_memset0 : Z -> Z -> W -> res W;             (** zeroes [n] bytes *)
  os_fstat_size : Z -> W -> Z + Z;               (** the error, or [st_size] *)
  os_read : Z -> Z -> W -> Z * list Z * W;       (** the count and the bytes *)
  os_malloc : Z -> W -> bool;
  os_clock : W -> option (Z * Z) * W }.          (** seconds and nanoseconds *)

Record hst (W : Type) := { errno : Z; os : W }.
Arguments errno {W} h.
Arguments os {W} h.

Definition host (W A : Type) : Type := hst W -> res (A * hst W).

#[export] Instance host_ret {W} : MRet (host W) := fun A a h => Ret (a, h).
#[export] Instance host_bind {W} : MBind (host W) := fun A B f p h =>
  '(a, h1) ← p h; f a h1.

(** More of Linux's constants. *)
Definition EINTR : Z := 4.
Definition ERANGE : Z := 34.
Definition EPROTO : Z := 71.
Definition ENOTSUP : Z := 95.
Definition POLLHUP : Z := 0x10.
Definition POLLNVAL : Z := 0x20.
Definition INT_MAX : Z := 2147483647.

Definition BACKEND_STAGE_A : Z := 0x4e505501.
Definition BACKEND_VERILATED : Z := 0x4e505502.

Inductive transport := TRANSPORT_UNKNOWN | TRANSPORT_DEVMEM | TRANSPORT_DRIVER.
Inductive backend := BACKEND_UNKNOWN | BACKEND_IS_STAGE_A | BACKEND_IS_VERILATED.

#[export] Instance transport_eq_dec : EqDecision transport.
Proof. solve_decision. Defined.

(** The structures of [coral_runtime.h]. *)
Record device := {
  fd : Z; page_size : Z; mapping : Z; page_base : Z; base : Z; dev_transport : transport;
  dev_abi_version : Z; dev_features : Z }.

Record coral_info := {
  ci_ioc : ioc_info; ci_backend : backend; ci_abi_version : Z; ci_features : Z }.

Record shared_window := {
  win_base : Z; win_size : Z; win_map_size : Z; win_mapping : Z; win_bytes : Z }.

Record dma_test_result := {
  dt_status : Z; dt_result : Z; dt_magic : Z; dt_requests : Z; dt_completions : Z;
  dt_errors : Z; dt_state : Z }.

Record vector_add_result := {
  va_status : Z; va_error_code : Z; va_completed_elements : Z; va_element_count : Z;
  va_checksum : Z; va_accelerator_cycles : Z; va_opcode : Z }.

Record model_result := {
  mo_command_count : Z; mo_completed_commands : Z; mo_output_checksum : Z;
  mo_accelerator_cycles : Z; mo_dma_requests : Z; mo_dma_completions : Z; mo_dma_errors : Z;
  mo_host_elapsed_ns : Z }.

Record mobilenet_result := {
  mn_device_status : Z; mn_state : Z; mn_error_code : Z; mn_output_count : Z;
  mn_output : list Z; mn_output_checksum : Z; mn_output_bytes : Z; mn_operation_count : Z;
  mn_bytes_read : Z; mn_bytes_written : Z; mn_npu_cycles : Z; mn_dma_requests : Z;
  mn_dma_completions : Z; mn_dma_errors : Z }.

(** ** Pure helpers *)

Definition decode_backend (id : Z) : backend :=
  if id =? BACKEND_STAGE_A then BACKEND_IS_STAGE_A
  else if id =? BACKEND_VERILATED then BACKEND_IS_VERILATED
  else BACKEND_UNKNOWN.

(** Whether the digits [strtoull] reads exceed 64 bits ([errno] is [ERANGE]). *)
Definition strtoull_overflows (s : list Z) : bool :=
  let s1 := skip_spaces s in
  let s2 := match s1 with
            | c :: r => if (c =? 45) || (c =? 43) then r else s1
            | [] => []
            end in
  let '(b, s3) := scan_prefix s2 in
  let '(v, _, any) := scan_digits b s3 0 false in
  any && (UINT64_MAX <? v).

(** [opennpux_coral_parse_u64]: the value, or [None] for -1. *)
Definition parse_u64 (text : list Z) : option Z :=
  let '(v, rest) := strtoull text in
  if strtoull_overflows text || (length rest =? length text)%nat ||
     negb (match rest with [] => true | _ => false end)
  then None else Some v.

(** [opennpux_coral_check_shared_u32_access]: the error, 0 when there is none. *)
Definition check_shared_u32_access (size offset : Z) : Z :=
  if negb (Z.land offset 3 =? 0) then EINVAL
  else if (UINT32_MAX <? offset) || (size <? u64 (offset + 4)) then ERANGE
  else 0.

Definition model_range_valid (file_size offset bytes : Z) : bool :=
  (offset <=? file_size) && (bytes <=? u32 (file_size - offset)).

(** The byte strings of the source. *)
Definition n_transport : list Z :=   (* OPENNPUX_CORAL_TRANSPORT *)
  [79; 80; 69; 78; 78; 80; 85; 88; 95; 67; 79; 82; 65; 76; 95; 84; 82; 65; 78; 83; 80; 79; 82; 84].
Definition n_device : list Z :=      (* OPENNPUX_CORAL_DEVICE *)
  [79; 80; 69; 78; 78; 80; 85; 88; 95; 67; 79; 82; 65; 76; 95; 68; 69; 86; 73; 67; 69].
Definition n_devmem : list Z := [100; 101; 118; 109; 101; 109].
Definition n_driver : list Z := [100; 114; 105; 118; 101; 114].
Definition DEVICE_PATH : list Z :=   (* /dev/opennpux-coral *)
  [47; 100; 101; 118; 47; 111; 112; 101; 110; 110; 112; 117; 120; 45; 99; 111; 114; 97; 108].
Definition DEVMEM_PATH : list Z := [47; 100; 101; 118; 47; 109; 101; 109].

Definition str_eqb (a b : list Z) : bool := bool_decide (a = b).

Section runtime.
Context {W : Type} `{HO : OS W}.

(** ** Effects *)

Definition set_errno (e : Z) : host W unit := fun h => Ret (tt, {| errno := e; os := os h |}).
Definition get_errno : host W Z := fun h => Ret (errno h, h).
Definition set_os (w : W) (h : hst W) : hst W := {| errno := errno h; os := w |}.
Definition exit1 {A} : host W A := fun _ => Fatal.
Definition ask {A} (f : W -> A) : host W A := fun h => Ret (f (os h), h).

(** The C library's wrapper: -1 and [errno] for a negative answer. *)
Definition result (r : Z) (w : W) (h : hst W) : res (Z * hst W) :=
  if r <? 0 then Ret (-1, {| errno := - r; os := w |}) else Ret (r, set_os w h).

Definition open_ (path : list Z) : host W Z := fun h =>
  let '(r, w) := os_open path (os h) in result r w h.
Definition close_ (d : Z) : host W unit := fun h => Ret (tt, set_os (os_close d (os h)) h).
Definition ioctl (d : Z) (cmd : ioctl_cmd) (u : user_arg) : host W (Z * user_out) := fun h =>
  let '(r, o, w) := os_ioctl d cmd u (os h) in
  '(r, h) ← result r w h; Ret ((r, o), h).
Definition poll (d timeout : Z) : host W (Z * Z) := fun h =>
  let '(r, ev, w) := os_poll d timeout (os h) in
  '(r, h) ← result r w h; Ret ((r, ev), h).
(** [MAP_FAILED] is -1. *)
Definition mmap (len d off : Z) : host W Z := fun h =>
  let '(r, w) := os_mmap len d off (os h) in result r w h.
Definition munmap (addr len : Z) : host W Z := fun h =>
  let '(r, w) := os_munmap addr len (os h) in result r w h.
Definition ld32 (addr : Z) : host W Z := fun h =>
  '(v, w) ← os_load32 addr (os h); Ret (v, set_os w h).
Definition st32 (addr v : Z) : host W unit := fun h =>
  w ← os_store32 addr (u32 v) (os h); Ret (tt, set_os w h).
Definition memset0 (addr n : Z) : host W unit := fun h =>
  w ← os_memset0 addr n (os h); Ret (tt, set_os w h).

(** ** Opening and closing *)

Definition closed : device :=
  {| fd := -1; page_size := 0; mapping := 0; page_base := 0; base := 0;
     dev_transport := TRANSPORT_UNKNOWN; dev_abi_version := 0; dev_features := 0 |}.

Definition no_arg : user_arg := {| arg_run := None; arg_start := None; arg_writable := true |}.

(** The branch of [opennpux_coral_open] after a successful open of the driver's
    file. *)
Definition open_driver (dev : device) (d : Z) : host W (Z * device) :=
  '(r, out) ← ioctl d IOC_GET_CAPS no_arg;
  let attached (version feats : Z) :=
    {| fd := d; page_size := page_size dev; mapping := 0; page_base := 0; base := base dev;
       dev_transport := TRANSPORT_DRIVER; dev_abi_version := version; dev_features := feats |} in
  if r =? 0 then
    let c := match out with OutCaps c => c | _ => {| caps_abi_version := 0; caps_features := 0 |} end in
    if negb (caps_abi_version c =? ABI_VERSION)
    then close_ d;; set_errno EPROTO;; mret (-1, dev)
    else mret (0, attached (caps_abi_version c) (caps_features c))
  else
    e ← get_errno;
    if negb (e =? ENOTTY) then close_ d;; mret (-1, dev)
    else mret (0, attached 0 0).

(** The rest: the register page through /dev/mem. *)
Definition open_devmem (dev : device) : host W (Z * device) :=
  let csr_addr := u64 (base dev + RESET_CONTROL) in
  let page_mask := u64 (page_size dev - 1) in
  let pbase := Z.land csr_addr (UINT64_MAX - page_mask) in
  d ← open_ DEVMEM_PATH;
  let opened f m t :=
    {| fd := f; page_size := page_size dev; mapping := m; page_base := pbase; base := base dev;
       dev_transport := t; dev_abi_version := 0; dev_features := 0 |} in
  if d <? 0 then mret (-1, opened d 0 TRANSPORT_UNKNOWN) else
  m ← mmap (page_size dev) d pbase;
  if m =? -1 then close_ d;; mret (-1, opened (-1) 0 TRANSPORT_UNKNOWN)
  else mret (0, opened d m TRANSPORT_DEVMEM).

Definition coral_open (base_ : Z) : host W (Z * device) :=
  ps ← ask os_pagesize;
  let dev size := {| fd := -1; page_size := size; mapping := 0; page_base := 0; base := base_;
                     dev_transport := TRANSPORT_UNKNOWN; dev_abi_version := 0;
                     dev_features := 0 |} in
  if ps <=? 0 then mret (-1, dev 0) else
  forced ← ask (os_getenv n_transport);
  let forced_to s := match forced with Some f => str_eqb f s | None => false end in
  driver_path ← ask (os_getenv n_device);
  let path := match driver_path with None | Some [] => DEVICE_PATH | Some p => p end in
  if forced_to n_devmem then open_devmem (dev ps) else
  d ← open_ path;
  if 0 <=? d then open_driver (dev ps) d
  else if forced_to n_driver then mret (-1, dev ps)
  else open_devmem (dev ps).

Definition coral_close (dev : device) : host W device :=
  (if negb (mapping dev =? 0) then munmap (mapping dev) (page_size dev);; mret tt else mret tt);;
  (if 0 <=? fd dev then close_ (fd dev) else mret tt);;
  mret closed.

(** ** Registers *)

Definition reg_ptr (dev : device) (offset : Z) : option Z :=
  let addr := u64 (base dev + offset) in
  if (addr <? page_base dev) || (u64 (page_base dev + page_size dev) <? u64 (addr + 4)) then None
  else Some (mapping dev + u64 (addr - page_base dev)).

Definition zero_info : ioc_info :=
  {| info_base := 0; info_backend_id := 0; info_firmware_entry := 0; info_shared_base := 0;
     info_shared_size := 0; info_dma_requests := 0; info_dma_completions := 0;
     info_dma_errors := 0; info_dma_state := 0; info_reset_control := 0; info_status := 0 |}.

(** [opennpux_coral_get_info] through the driver. *)
Definition get_info_driver (dev : device) : host W coral_info :=
  '(r, out) ← ioctl (fd dev) IOC_GET_INFO no_arg;
  if negb (r =? 0) then exit1 else
  let i := match out with OutInfo i => i | _ => zero_info end in
  mret {| ci_ioc := i; ci_backend := decode_backend (info_backend_id i);
          ci_abi_version := dev_abi_version dev; ci_features := dev_features dev |}.

(** The registers the driver reports. *)
Definition info_reg (i : ioc_info) (offset : Z) : option Z :=
  if offset =? RESET_CONTROL then Some (info_reset_control i)
  else if offset =? STATUS then Some (info_status i)
  else if offset =? DMA_ERRORS then Some (info_dma_errors i)
  else if offset =? DMA_REQUESTS then Some (info_dma_requests i)
  else if offset =? DMA_COMPLETIONS then Some (info_dma_completions i)
  else if offset =? DMA_STATE then Some (info_dma_state i)
  else if offset =? SHARED_BASE then Some (info_shared_base i)
  else if offset =? SHARED_SIZE then Some (info_shared_size i)
  else if offset =? FIRMWARE_ENTRY then Some (info_firmware_entry i)
  else if offset =? BACKEND_ID then Some (info_backend_id i)
  else None.

Definition read_reg (dev : device) (offset : Z) : host W Z :=
  match dev_transport dev with
  | TRANSPORT_DRIVER =>
      info ← get_info_driver dev;
      match info_reg (ci_ioc info) offset with Some v => mret v | None => exit1 end
  | _ => match reg_ptr dev offset with Some a => ld32 a | None => exit1 end
  end.

Definition write_reg (dev : device) (offset value : Z) : host W unit :=
  match dev_transport dev with
  | TRANSPORT_DRIVER => exit1
  | _ => match reg_ptr dev offset with Some a => st32 a value | None => exit1 end
  end.

Definition get_info (dev : device) : host W coral_info :=
  match dev_transport dev with
  | TRANSPORT_DRIVER => get_info_driver dev
  | _ =>
      id ← read_reg dev BACKEND_ID;
      entry ← read_reg dev FIRMWARE_ENTRY;
      sbase ← read_reg dev SHARED_BASE;
      size ← read_reg dev SHARED_SIZE;
      requests ← read_reg dev DMA_REQUESTS;
      completions ← read_reg dev DMA_COMPLETIONS;
      errors ← read_reg dev DMA_ERRORS;
      state ← read_reg dev DMA_STATE;
      reset ← read_reg dev RESET_CONTROL;
      status ← read_reg dev STATUS;
      mret {| ci_ioc := {| info_base := base dev; info_backend_id := id;
                           info_firmware_entry := entry; info_shared_base := sbase;
                           info_shared_size := size; info_dma_requests := requests;
                           info_dma_completions := completions; info_dma_errors := errors;
                           info_dma_state := state; info_reset_control := reset;
                           info_status := status |};
              ci_backend := decode_backend id; ci_abi_version := 0; ci_features := 0 |}
  end.

(** ** The shared window *)

Definition no_window : shared_window :=
  {| win_base := 0; win_size := 0; win_map_size := 0; win_mapping := 0; win_bytes := 0 |}.

Definition open_shared_window (dev : device) (min_size : Z) : host W (Z * shared_window) :=
  wbase ← read_reg dev SHARED_BASE;
  size ← read_reg dev SHARED_SIZE;
  let sized m := {| win_base := wbase; win_size := size; win_map_size := m; win_mapping := 0;
                    win_bytes := 0 |} in
  if size <? min_size then mret (-1, sized 0) else
  let driver := bool_decide (dev_transport dev = TRANSPORT_DRIVER) in
  if driver && (Z.land (dev_features dev) FEATURE_SHARED_MMAP =? 0)
  then set_errno ENOTSUP;; mret (-1, sized 0) else
  let page_mask := u64 (page_size dev - 1) in
  let map_base := if driver then 0 else Z.land wbase (UINT64_MAX - page_mask) in
  let map_offset := if driver then 0 else Z.land wbase page_mask in
  let map_size := u64 (map_offset + size) in
  m ← mmap map_size (fd dev) map_base;
  if m =? -1 then mret (-1, sized map_size)
  else mret (0, {| win_base := wbase; win_size := size; win_map_size := map_size;
                   win_mapping := m; win_bytes := m + map_offset |}).

Definition close_shared_window (w : shared_window) : host W unit :=
  if negb (win_mapping w =? 0) then munmap (win_mapping w) (win_map_size w);; mret tt else mret tt.

Definition clear_shared_window (dev : device) : host W Z :=
  '(r, w) ← open_shared_window dev 0;
  if negb (r =? 0) then mret (-1) else
  memset0 (win_bytes w) (win_size w);;
  close_shared_window w;;
  mret 0.

(** The value is there when the result is 0. *)
Definition read_shared_u32 (dev : device) (offset : Z) : host W (Z * option Z) :=
  '(r, w) ← open_shared_window dev 4;
  if negb (r =? 0) then mret (-1, None) else
  let e := check_shared_u32_access (win_size w) offset in
  if negb (e =? 0) then set_errno e;; close_shared_window w;; mret (-1, None) else
  v ← ld32 (win_bytes w + offset);
  close_shared_window w;;
  mret (0, Some v).

Definition write_shared_u32 (dev : device) (offset value : Z) : host W Z :=
  '(r, w) ← open_shared_window dev 4;
  if negb (r =? 0) then mret (-1) else
  let e := check_shared_u32_access (win_size w) offset in
  if negb (e =? 0) then set_errno e;; close_shared_window w;; mret (-1) else
  st32 (win_bytes w + offset) value;;
  close_shared_window w;;
  mret 0.

(** ** Running a program *)

(** The last test of every variant. *)
Definition run_verdict (status : Z) : host W Z :=
  if negb (Z.land status 2 =? 0) then set_errno EIO;; mret (-1)
  else if Z.land status 1 =? 0 then set_errno ETIMEDOUT;; mret (-1)
  else mret 0.

(** [do poll while (poll_result < 0 && errno == EINTR)]. *)
Fixpoint poll_retry (turns : nat) (d timeout : Z) : host W (Z * Z) :=
  match turns with
  | O => fun _ => Hang
  | S turns =>
      mbind (M := host W) (fun r =>
        mbind (M := host W) (fun e =>
          if (r.1 <? 0) && (e =? EINTR) then poll_retry turns d timeout else mret r) get_errno)
        (poll d timeout)
  end.

Definition ioc_reset (dev : device) : host W Z := '(r, _) ← ioctl (fd dev) IOC_RESET no_arg; mret r.

(** Through the asynchronous interface of the driver: the result and, once
    the program was started, its final status. *)
Definition run_async (turns : nat) (dev : device) (entry polls : Z) : host W (Z * option Z) :=
  '(r, _) ← ioctl (fd dev) IOC_START
             {| arg_run := None; arg_start := Some {| start_entry := entry; start_flags := 0 |};
                arg_writable := true |};
  if negb (r =? 0) then mret (-1, None) else
  let timeout := if INT_MAX <? polls then INT_MAX else polls in
  '(pr, revents) ← poll_retry turns (fd dev) timeout;
  info ← get_info dev;
  let status := info_status (ci_ioc info) in
  if pr <? 0 then ioc_reset dev;; mret (-1, Some status) else
  if pr =? 0 then ioc_reset dev;; set_errno ETIMEDOUT;; mret (-1, Some status) else
  if negb (Z.land revents (Z.lor (Z.lor POLLERR POLLHUP) POLLNVAL) =? 0) ||
     negb (Z.land status 2 =? 0)
  then ioc_reset dev;; set_errno EIO;; mret (-1, Some status) else
  if Z.land status 1 =? 0 then ioc_reset dev;; set_errno EIO;; mret (-1, Some status) else
  r ← ioc_reset dev;
  if negb (r =? 0) then mret (-1, Some status) else mret (0, Some status).

(** Through the synchronous interface. *)
Definition run_sync (dev : device) (entry polls : Z) : host W (Z * option Z) :=
  let run := {| run_entry := entry; run_status := 0; run_polls := polls |} in
  '(r, out) ← ioctl (fd dev) IOC_RUN {| arg_run := Some run; arg_start := None; arg_writable := true |};
  if negb (r =? 0) then mret (-1, None) else
  let run := match out with OutRun r => r | _ => run end in
  r ← run_verdict (run_status run);
  mret (r, Some (run_status run)).

(** [for (i = 0; i < polls; ++i)] over the status register; [n] turns left. *)
Fixpoint poll_reg (n : nat) (dev : device) (status : Z) : host W Z :=
  match n with
  | O => mret status
  | S n =>
      mbind (M := host W) (fun status =>
        if negb (Z.land status 3 =? 0) then mret status else poll_reg n dev status)
        (read_reg dev STATUS)
  end.

Definition run_devmem (dev : device) (entry polls : Z) : host W (Z * option Z) :=
  write_reg dev PC_START entry;;
  write_reg dev RESET_CONTROL 1;;
  write_reg dev RESET_CONTROL 0;;
  status ← poll_reg (Z.to_nat polls) dev 0;
  r ← run_verdict status;
  mret (r, Some status).

(** [opennpux_coral_run]: the result, and what is stored to [*final_status]. *)
Definition run (turns : nat) (dev : device) (entry polls : Z) : host W (Z * option Z) :=
  match dev_transport dev with
  | TRANSPORT_DRIVER =>
      let async := Z.lor FEATURE_ASYNC_START FEATURE_POLL_COMPLETION in
      if Z.land (dev_features dev) async =? async then run_async turns dev entry polls
      else run_sync dev entry polls
  | _ => run_devmem dev entry polls
  end.

Definition DMA_MAGIC : Z := 0x4e505544.

Definition dma_test (turns : nat) (dev : device) (entry polls : Z)
    : host W (Z * option dma_test_result) :=
  '(r, w) ← open_shared_window dev 16;
  if negb (r =? 0) then mret (-1, None) else
  st32 (win_bytes w) 7;;
  st32 (win_bytes w + 4) 35;;
  st32 (win_bytes w + 8) 0;;
  '(run_result, st) ← run turns dev entry polls;
  v ← ld32 (win_bytes w);
  m ← ld32 (win_bytes w + 8);
  requests ← read_reg dev DMA_REQUESTS;
  completions ← read_reg dev DMA_COMPLETIONS;
  errors ← read_reg dev DMA_ERRORS;
  state ← read_reg dev DMA_STATE;
  run_errno ← get_errno;
  let result := {| dt_status := default 0 st; dt_result := v; dt_magic := m;
                   dt_requests := requests; dt_completions := completions;
                   dt_errors := errors; dt_state := state |} in
  let valid := (v =? 42) && (m =? DMA_MAGIC) in
  close_shared_window w;;
  if negb (run_result =? 0) then set_errno run_errno;; mret (-1, Some result) else
  if negb valid then set_errno EIO;; mret (-1, Some result) else
  mret (0, Some result).

(** ** Vector addition *)

(** A loop over the elements of a list. *)
Fixpoint each {A S} (body : A -> S -> host W S) (l : list A) (s : S) : host W S :=
  match l with
  | [] => mret s
  | a :: l => mbind (M := host W) (fun s => each body l s) (body a s)
  end.

(** [p[i]] of an array in the process. *)
Definition at_ (l : list Z) (i : Z) : host W Z := fun h =>
  match (if i <? 0 then None else l !! Z.to_nat i) with Some v => Ret (v, h) | None => Undef end.

Definition field_addr (bytes : Z) (f : command_field) : Z := bytes + COMMAND_OFFSET + field_offset f.

(** Clears the command and fills in inputs and output. *)
Definition fill_tensors (bytes : Z) (in0 in1 : list Z) (n : Z) : host W unit :=
  each (fun i _ =>
    x ← at_ in0 i; st32 (bytes + INPUT0_OFFSET + 4 * i) x;;
    y ← at_ in1 i; st32 (bytes + INPUT1_OFFSET + 4 * i) y;;
    st32 (bytes + OUTPUT_OFFSET + 4 * i) 0) (seqZ 0 n) tt.

Definition fill_command (bytes op n : Z) : host W unit :=
  each (fun '(f, v) _ => st32 (field_addr bytes f) v)
    [(magic, COMMAND_MAGIC); (abi_version, COMMAND_ABI_VERSION); (struct_size, COMMAND_SIZE);
     (opcode, op); (sequence, 1); (element_count, n); (input0_offset, INPUT0_OFFSET);
     (input1_offset, INPUT1_OFFSET); (output_offset, OUTPUT_OFFSET); (output_size, n * 4);
     (status, COMMAND_PENDING)] tt.

(** The sum of the output and whether every element is the one expected;
    [output[i]] is read twice. *)
Definition check_output (bytes : Z) (in0 in1 : list Z) (n : Z) (valid : bool) : host W (Z * bool) :=
  each (fun i '(checksum, valid) =>
    x ← at_ in0 i; y ← at_ in1 i;
    v ← ld32 (bytes + OUTPUT_OFFSET + 4 * i);
    v' ← ld32 (bytes + OUTPUT_OFFSET + 4 * i);
    mret (u32 (checksum + v), if negb (v' =? u32 (x + y)) then false else valid))
    (seqZ 0 n) (0, valid).

Definition zero_vector_result (n op : Z) : vector_add_result :=
  {| va_status := 0; va_error_code := 0; va_completed_elements := 0; va_element_count := n;
     va_checksum := 0; va_accelerator_cycles := 0; va_opcode := op |}.

(** From the end of the run: [run_result] and [st] are what it answered. *)
Definition collect_vector_add (w : shared_window) (op : Z) (in0 in1 : list Z)
    (n expected_checksum run_result : Z) (st : option Z) : host W (Z * vector_add_result) :=
  let bytes := win_bytes w in
  run_errno ← get_errno;
  c_status ← ld32 (field_addr bytes status);
  c_error ← ld32 (field_addr bytes error_code);
  c_completed ← ld32 (field_addr bytes completed_elements);
  c_cycles ← ld32 (field_addr bytes accelerator_cycles);
  let valid := (c_status =? COMMAND_COMPLETE) && (c_error =? COMMAND_ERROR_NONE) &&
               (c_completed =? n) in
  '(checksum, valid) ← check_output bytes in0 in1 n valid;
  let valid := if negb (checksum =? expected_checksum) then false else valid in
  close_shared_window w;;
  let result := {| va_status := c_status; va_error_code := c_error;
                   va_completed_elements := c_completed; va_element_count := n;
                   va_checksum := checksum; va_accelerator_cycles := c_cycles;
                   va_opcode := op |} in
  if negb (run_result =? 0) then set_errno run_errno;; mret (-1, result) else
  if negb valid || (Z.land (default 0 st) 1 =? 0) then set_errno EIO;; mret (-1, result) else
  mret (0, result).

Definition submit_vector_add (turns : nat) (dev : device) (entry op : Z) (in0 in1 : list Z)
    (n expected_checksum polls : Z) : host W (Z * vector_add_result) :=
  let r0 := zero_vector_result n op in
  if (n =? 0) || (TENSOR_MAX_ELEMENTS <? n) ||
     (negb (op =? OPCODE_VECTOR_ADD_U32) && negb (op =? OPCODE_VECTOR_ADD_CUSTOM_U32))
  then set_errno EINVAL;; mret (-1, r0) else
  '(r, w) ← open_shared_window dev (OUTPUT_OFFSET + n * 4);
  if negb (r =? 0) then mret (-1, r0) else
  memset0 (win_bytes w + COMMAND_OFFSET) COMMAND_SIZE;;
  fill_tensors (win_bytes w) in0 in1 n;;
  fill_command (win_bytes w) op n;;
  '(run_result, st) ← run turns dev entry polls;
  collect_vector_add w op in0 in1 n expected_checksum run_result st.

(** The inputs of the self test. *)
Definition vector_add_test (turns : nat) (dev : device) (entry op n polls : Z)
    : host W (Z * option vector_add_result) :=
  if (n =? 0) || (TENSOR_MAX_ELEMENTS <? n) then set_errno EINVAL;; mret (-1, None) else
  let in0 := (fun i => u32 (i + 1)) <$> seqZ 0 n in
  let in1 := (fun i => u32 (u32 (i + 1) * 2)) <$> seqZ 0 n in
  let checksum := foldl (fun c i => u32 (c + u32 (u32 (i + 1) + u32 (u32 (i + 1) * 2)))) 0 (seqZ 0 n) in
  '(r, result) ← submit_vector_add turns dev entry op in0 in1 n checksum polls;
  mret (r, Some result).

(** ** Model files *)

Definition MODEL_MAGIC : Z := 0x4e50584d.
Definition MODEL_VERSION : Z := 1.
Definition MODEL_MAX_COMMANDS : Z := 64.
Definition MODEL_HEADER_SIZE : Z := 32.
Definition MODEL_COMMAND_SIZE : Z := 32.

(** A word of the file. *)
Definition file_u32 (file : list Z) (off : Z) : host W Z := fun h =>
  if (off <? 0) || (Z.of_nat (length file) <? off + 4) then Undef
  else Ret (le_val (take 4 (drop (Z.to_nat off) file)), h).

(** [memcpy(input, file + off, n * 4)] as words. *)
Definition file_words (file : list Z) (off n : Z) : host W (list Z) :=
  each (fun i l => v ← file_u32 file (off + 4 * i); mret (l ++ [v])) (seqZ 0 n) [].

(** The loop that reads the file; it ends within as many turns as bytes. *)
Fixpoint read_file (turns : nat) (d size : Z) (file : list Z) (received : Z)
    : host W (Z + list Z) :=
  if size <=? received then mret (inr file) else
  match turns with
  | O => fun _ => Hang
  | S turns => fun h =>
      let '(r, bs, w) := os_read d (size - received) (os h) in
      mbind (M := host W) (fun count =>
        if count <=? 0
        then mbind (M := host W) (fun e => mret (inl (if count =? 0 then EIO else e))) get_errno
        else read_file turns d size (file ++ bs) (u64 (received + count))) (result r w) h
  end.

(** From opening the file to closing it: its size and its bytes; an error leaves with [errno] set. *)
Definition load_model (path : list Z) : host W (option (Z * list Z)) :=
  d ← open_ path;
  if d <? 0 then mret None else
  st ← ask (os_fstat_size d);
  match st with
  | inl e => close_ d;; set_errno EINVAL;; mret None
  | inr size =>
      if (size <? 0) || (UINT32_MAX <? size) then close_ d;; set_errno EINVAL;; mret None else
      ok ← ask (os_malloc (if size =? 0 then 1 else size));
      if negb (ok : bool) then close_ d;; set_errno ENOMEM;; mret None else
      r ← read_file (Z.to_nat size) d size [] 0;
      match r with
      | inl e => close_ d;; set_errno e;; mret None
      | inr file => close_ d;; mret (Some (size, file))
      end
  end.

(** The checks of the header: the number of commands and their offset. *)
Definition check_header (file : list Z) (file_size : Z) : host W (option (Z * Z)) :=
  if file_size <? MODEL_HEADER_SIZE then mret None else
  m ← file_u32 file 0; v ← file_u32 file 4; hs ← file_u32 file 8; fs ← file_u32 file 12;
  count ← file_u32 file 16; off ← file_u32 file 20;
  let command_bytes := u32 (count * MODEL_COMMAND_SIZE) in
  if negb (m =? MODEL_MAGIC) || negb (v =? MODEL_VERSION) || negb (hs =? MODEL_HEADER_SIZE) ||
     negb (fs =? file_size) || (count =? 0) || (MODEL_MAX_COMMANDS <? count) ||
     negb (Z.land off 3 =? 0) || negb (model_range_valid file_size off command_bytes)
  then mret None else mret (Some (count, off)).

(** One command of the file: [None] when it is refused or fails. *)
Definition model_command (turns : nat) (dev : device) (entry polls : Z) (file : list Z)
    (file_size off : Z) : host W (option vector_add_result) :=
  op ← file_u32 file off; n ← file_u32 file (off + 4); i0 ← file_u32 file (off + 8);
  i1 ← file_u32 file (off + 12); sum ← file_u32 file (off + 16);
  let tensor_bytes := u32 (n * 4) in
  if (n =? 0) || (TENSOR_MAX_ELEMENTS <? n) || negb (Z.land i0 3 =? 0) ||
     negb (Z.land i1 3 =? 0) || negb (model_range_valid file_size i0 tensor_bytes) ||
     negb (model_range_valid file_size i1 tensor_bytes)
  then set_errno EINVAL;; mret None else
  in0 ← file_words file i0 n;
  in1 ← file_words file i1 n;
  '(r, result) ← submit_vector_add turns dev entry op in0 in1 n sum polls;
  mret (if r =? 0 then Some result else None).

Definition zero_model_result : model_result :=
  {| mo_command_count := 0; mo_completed_commands := 0; mo_output_checksum := 0;
     mo_accelerator_cycles := 0; mo_dma_requests := 0; mo_dma_completions := 0;
     mo_dma_errors := 0; mo_host_elapsed_ns := 0 |}.

(** The counters after a completed command. *)
Definition count_command (v : vector_add_result) (r : model_result) : model_result :=
  {| mo_command_count := mo_command_count r;
     mo_completed_commands := u32 (mo_completed_commands r + 1);
     mo_output_checksum := u32 (mo_output_checksum r + va_checksum v);
     mo_accelerator_cycles := u32 (mo_accelerator_cycles r + va_accelerator_cycles v);
     mo_dma_requests := mo_dma_requests r; mo_dma_completions := mo_dma_completions r;
     mo_dma_errors := mo_dma_errors r; mo_host_elapsed_ns := mo_host_elapsed_ns r |}.

(** The loop over the commands; the flag says whether all completed. *)
Fixpoint model_commands (turns : nat) (dev : device) (entry polls : Z) (file : list Z)
    (file_size : Z) (offsets : list Z) (r : model_result) : host W (bool * model_result) :=
  match offsets with
  | [] => mret (true, r)
  | off :: offsets =>
      mbind (M := host W) (fun v =>
        match v with
        | None => mret (false, r)
        | Some v => model_commands turns dev entry polls file file_size offsets (count_command v r)
        end) (model_command turns dev entry polls file file_size off)
  end.

Definition elapsed (t0 t1 : option (Z * Z)) : Z :=
  match t0, t1 with
  | Some (s0, n0), Some (s1, n1) =>
      let ns0 := u64 (u64 (s0 * 1000000000) + n0) in
      let ns1 := u64 (u64 (s1 * 1000000000) + n1) in
      if ns0 <=? ns1 then ns1 - ns0 else 0
  | _, _ => 0
  end.

Definition clock : host W (option (Z * Z)) := fun h =>
  let '(t, w) := os_clock (os h) in Ret (t, set_os w h).

Definition run_model_file (turns : nat) (dev : device) (entry : Z) (path : list Z) (polls : Z)
    : host W (Z * model_result) :=
  let r0 := zero_model_result in
  f ← load_model path;
  match f with
  | None => mret (-1, r0)
  | Some (file_size, file) =>
      hd ← check_header file file_size;
      match hd with
      | None => set_errno EINVAL;; mret (-1, r0)
      | Some (count, off) =>
          let r1 := {| mo_command_count := count; mo_completed_commands := 0;
                       mo_output_checksum := 0; mo_accelerator_cycles := 0;
                       mo_dma_requests := 0; mo_dma_completions := 0; mo_dma_errors := 0;
                       mo_host_elapsed_ns := 0 |} in
          before ← get_info dev;
          t0 ← clock;
          '(ok, r2) ← model_commands turns dev entry polls file file_size
                        ((fun i => off + MODEL_COMMAND_SIZE * i) <$> seqZ 0 count) r1;
          if negb (ok : bool) then mret (-1, r2) else
          after ← get_info dev;
          let b := ci_ioc before in
          let a := ci_ioc after in
          let dr := u32 (info_dma_requests a - info_dma_requests b) in
          let dc := u32 (info_dma_completions a - info_dma_completions b) in
          let de := u32 (info_dma_errors a - info_dma_errors b) in
          let r3 ns := {| mo_command_count := count;
                          mo_completed_commands := mo_completed_commands r2;
                          mo_output_checksum := mo_output_checksum r2;
                          mo_accelerator_cycles := mo_accelerator_cycles r2;
                          mo_dma_requests := dr; mo_dma_completions := dc; mo_dma_errors := de;
                          mo_host_elapsed_ns := ns |} in
          if (dr =? 0) || negb (dr =? dc) || negb (de =? 0) then set_errno EIO;; mret (-1, r3 0) else
          t1 ← (match t0 with Some _ => clock | None => mret None end);
          mret (0, r3 (elapsed t0 t1))
      end
  end.

(** ** The MobileNet test *)

Definition MOBILENET_MAGIC : Z := 0x4e504d42.
Definition MOBILENET_VERSION : Z := 1.
Definition MOBILENET_MAILBOX_OFFSET : Z := 0x400000.
Definition MOBILENET_OUTPUT_COUNT : Z := 5.
Definition MOBILENET_COMPLETE : Z := 3.
Definition MOBILENET_ERROR_NONE : Z := 0.
(** [sizeof(opennpux_coral_mobilenet_mailbox)]. *)
Definition MOBILENET_MAILBOX_SIZE : Z := 80.

(** A 64-bit field, as two words. *)
Definition ld64 (addr : Z) : host W Z :=
  lo ← ld32 addr; hi ← ld32 (addr + 4); mret (lo + hi * 2 ^ 32).

(** What the host asks of the mailbox, from its magic, version, state, error,
    output count and output size. *)
Definition mailbox_valid (m v state error count nbytes : Z) : bool :=
  (m =? MOBILENET_MAGIC) && (v =? MOBILENET_VERSION) && (state =? MOBILENET_COMPLETE) &&
  (error =? MOBILENET_ERROR_NONE) && (count =? MOBILENET_OUTPUT_COUNT) && negb (nbytes =? 0).

Definition mobilenet_test (turns : nat) (dev : device) (entry polls : Z)
    : host W (Z * option mobilenet_result) :=
  '(r, w) ← open_shared_window dev (MOBILENET_MAILBOX_OFFSET + MOBILENET_MAILBOX_SIZE);
  if negb (r =? 0) then mret (-1, None) else
  let mb := win_bytes w + MOBILENET_MAILBOX_OFFSET in
  memset0 mb MOBILENET_MAILBOX_SIZE;;
  before ← get_info dev;
  '(run_result, st) ← run turns dev entry polls;
  run_errno ← get_errno;
  state ← ld32 (mb + 8);
  error ← ld32 (mb + 12);
  count ← ld32 (mb + 24);
  output ← each (fun i l => v ← ld32 (mb + 28 + 4 * i); mret (l ++ [i32 v]))
             (seqZ 0 MOBILENET_OUTPUT_COUNT) [];
  checksum ← ld32 (mb + 48);
  nbytes ← ld32 (mb + 52);
  operations ← ld64 (mb + 56);
  bytes_read ← ld64 (mb + 64);
  bytes_written ← ld64 (mb + 72);
  cycle_high ← ld32 (mb + 20);
  cycle_low ← ld32 (mb + 16);
  m ← ld32 mb;
  v ← (if m =? MOBILENET_MAGIC then ld32 (mb + 4) else mret 0);
  let valid := mailbox_valid m v state error count nbytes in
  after ← get_info dev;
  let b := ci_ioc before in
  let a := ci_ioc after in
  let dr := u32 (info_dma_requests a - info_dma_requests b) in
  let dc := u32 (info_dma_completions a - info_dma_completions b) in
  let de := u32 (info_dma_errors a - info_dma_errors b) in
  let result :=
    {| mn_device_status := default 0 st; mn_state := state; mn_error_code := error;
       mn_output_count := count; mn_output := output; mn_output_checksum := checksum;
       mn_output_bytes := nbytes; mn_operation_count := operations; mn_bytes_read := bytes_read;
       mn_bytes_written := bytes_written;
       mn_npu_cycles := Z.lor (cycle_high * 2 ^ 32) cycle_low;
       mn_dma_requests := dr; mn_dma_completions := dc; mn_dma_errors := de |} in
  close_shared_window w;;
  if negb (run_result =? 0) then set_errno run_errno;; mret (-1, Some result) else
  if negb valid || (dr =? 0) || negb (dr =? dc) || negb (de =? 0)
  then set_errno EIO;; mret (-1, Some result) else
  mret (0, Some result).

End runtime.
