(* ===== verification/HostSpec.v ===== *)
(** * What the host runtime guarantees

    The vector addition from end to end: the runtime, through /dev/mem, on a
    device that runs the command firmware. *)

From S2P Require Import Prelude Words CustomMac Firmware FirmwareSpec KernelDriver HostRuntime.

(** ** Weakest preconditions *)

Definition hwp {W A} (p : host W A) (Q : A -> hst W -> Prop) (h : hst W) : Prop :=
  match p h with Ret (a, h') => Q a h' | _ => False end.

Lemma hwp_ret {W A} (a : A) (Q : A -> hst W -> Prop) h : Q a h -> hwp (mret a) Q h.
Proof. done. Qed.

Lemma hwp_bind {W A B} (p : host W A) (f : A -> host W B) Q h :
  hwp p (fun a => hwp (f a) Q) h -> hwp (p ≫= f) Q h.
Proof. unfold hwp, mbind, host_bind. destruct (p h) as [[a h1]| | |]; done. Qed.

Lemma hwp_mono {W A} (p : host W A) (Q R : A -> hst W -> Prop) h :
  (forall a h', Q a h' -> R a h') -> hwp p Q h -> hwp p R h.
Proof. unfold hwp. destruct (p h) as [[a h1]| | |]; auto. Qed.

Lemma hwp_each {W A S} (I : nat -> S -> hst W -> Prop) (body : A -> S -> host W S) l s h
    (Q : S -> hst W -> Prop) :
  I 0%nat s h ->
  (forall i a s h, l !! i = Some a -> I i s h -> hwp (body a s) (I (Datatypes.S i)) h) ->
  (forall s h, I (length l) s h -> Q s h) -> hwp (each body l s) Q h.
Proof.
  revert I s h. induction l as [|a l IH]; intros I s h H0 Hs HQ; cbn [each].
  - apply hwp_ret, HQ, H0.
  - apply hwp_bind. eapply hwp_mono; [| apply (Hs 0%nat a s h eq_refl H0)]. intros s1 h1 H1.
    apply (IH (fun i => I (Datatypes.S i))); [done | | done].
    intros i b s2 h2 Hi. by apply (Hs (Datatypes.S i)).
Qed.

Lemma hwp_errno {W} e (Q : unit -> hst W -> Prop) h :
  Q tt {| errno := e; os := os h |} -> hwp (set_errno e) Q h.
Proof. done. Qed.

Lemma hwp_get_errno {W} (Q : Z -> hst W -> Prop) h : Q (errno h) h -> hwp get_errno Q h.
Proof. done. Qed.

(** ** A device that runs commands *)

(** The device behind /dev/mem, as the runtime sees it once it is open: its
    shared memory and accelerator; where a window is mapped, if one is. *)
Class CommandWorld (W : Type) := {
  cw_shared : W -> buf;
  cw_unit : W -> Gem5CustomMac;
  cw_window : W -> option Z }.

Section world.
Context {W : Type} {HO : OS W} {HC : CommandWorld W}.
Context (dev : device) (lat : nat -> nat) (wbase wsize entry : Z) (latency : nat).

(** The status register is read [n] times before the device has halted, with
    [b] in its memory. *)
Fixpoint halts (n : nat) (b : buf) (addr : Z) (w : W) : Prop :=
  match n with
  | O => exists w', os_load32 addr w = Ret (1, w') /\ cw_shared w' = b /\
           cw_window w' = cw_window w
  | S n => exists w', os_load32 addr w = Ret (0, w') /\ cw_window w' = cw_window w /\
             halts n b addr w'
  end.

(** What the runtime relies on: the registers and the window are mapped as
    /dev/mem documents, and the device, launched at [entry], runs the command
    firmware on its memory and then halts.  256 turns of its loop and 4 polls
    of the accelerator are enough for every command it accepts. *)
Class CommandLaws : Prop := {
  cl_devmem : dev_transport dev = TRANSPORT_DEVMEM;
  cl_regs : forall off, In off [RESET_CONTROL; PC_START; STATUS; SHARED_BASE; SHARED_SIZE] ->
    exists a, reg_ptr dev off = Some a;
  cl_size : 0 <= wsize < 2 ^ 32 /\ CORAL_EXTMEM_SIZE <= wsize;
  cl_base_reg : forall a w, reg_ptr dev SHARED_BASE = Some a -> os_load32 a w = Ret (wbase, w);
  cl_size_reg : forall a w, reg_ptr dev SHARED_SIZE = Some a -> os_load32 a w = Ret (wsize, w);
  cl_mmap : forall w, cw_window w = None ->
    let mask := u64 (page_size dev - 1) in
    exists m w', os_mmap (u64 (Z.land wbase mask + wsize)) (fd dev)
                   (Z.land wbase (UINT64_MAX - mask)) w = (m, w') /\
      0 < m /\ cw_shared w' = cw_shared w /\ cw_unit w' = cw_unit w /\
      cw_window w' = Some (m + Z.land wbase mask);
  cl_munmap : forall m n w, cw_shared (os_munmap m n w).2 = cw_shared w;
  cl_unmapped : forall m n w, cw_window w = Some (m + Z.land wbase (u64 (page_size dev - 1))) ->
    (os_munmap m n w).1 = 0 /\ cw_window (os_munmap m n w).2 = None;
  cl_load : forall a w k, cw_window w = Some a -> 0 <= k -> k + 4 <= wsize ->
    os_load32 (a + k) w = Ret (word (cw_shared w) k, w);
  cl_store : forall a w k v, cw_window w = Some a -> 0 <= k -> k + 4 <= wsize ->
    exists w', os_store32 (a + k) v w = Ret w' /\ cw_shared w' = put (cw_shared w) k v /\
      cw_unit w' = cw_unit w /\ cw_window w' = Some a;
  cl_memset : forall a w k n, cw_window w = Some a -> 0 <= k -> 0 <= n -> k + n <= wsize ->
    exists w', os_memset0 (a + k) n w = Ret w' /\
      cw_shared w' = buf_blit (cw_shared w) k (replicate (Z.to_nat n) 0) /\
      cw_unit w' = cw_unit w /\ cw_window w' = Some a;
  (** The launch: the entry point, reset, release. *)
  cl_launch : forall apc ars ast w m r,
    reg_ptr dev PC_START = Some apc -> reg_ptr dev RESET_CONTROL = Some ars ->
    reg_ptr dev STATUS = Some ast ->
    command_main lat 256 4 {| ext := cw_shared w; unit_mac := cw_unit w; accesses := 0 |}
      = Ret (r, m) ->
    exists w1 w2 w3 n, os_store32 apc entry w = Ret w1 /\ os_store32 ars 1 w1 = Ret w2 /\
      os_store32 ars 0 w2 = Ret w3 /\ (n <= latency)%nat /\ cw_window w3 = cw_window w /\
      halts n (ext m) ast w3 }.

Context {HL : CommandLaws}.

(** The window is at [a], the memory is [b] and the unit [u]. *)
Definition at_window (a : Z) (b : buf) (u : Gem5CustomMac) (h : hst W) : Prop :=
  cw_window (os h) = Some a /\ cw_shared (os h) = b /\ cw_unit (os h) = u.

Lemma hwp_ld32 a b u k (Q : Z -> hst W -> Prop) h :
  at_window a b u h -> 0 <= k -> k + 4 <= wsize -> Q (word b k) h -> hwp (ld32 (a + k)) Q h.
Proof.
  intros (Hw & <- & _) H1 H2 HQ. unfold hwp, ld32.
  rewrite (cl_load a (os h) k) by done. simpl. by destruct h.
Qed.

Lemma hwp_st32 a b u k v (Q : unit -> hst W -> Prop) h :
  at_window a b u h -> 0 <= k -> k + 4 <= wsize ->
  (forall h', at_window a (put b k (u32 v)) u h' -> Q tt h') -> hwp (st32 (a + k) v) Q h.
Proof.
  intros (Hw & <- & <-) H1 H2 HQ. unfold hwp, st32.
  destruct (cl_store a (os h) k (u32 v) Hw H1 H2) as (w' & -> & Es & Eu & Ew). simpl.
  by apply HQ.
Qed.

Lemma hwp_memset0 a b u k n (Q : unit -> hst W -> Prop) h :
  at_window a b u h -> 0 <= k -> 0 <= n -> k + n <= wsize ->
  (forall h', at_window a (buf_blit b k (replicate (Z.to_nat n) 0)) u h' -> Q tt h') ->
  hwp (memset0 (a + k) n) Q h.
Proof.
  intros (Hw & <- & <-) H1 H2 H3 HQ. unfold hwp, memset0.
  destruct (cl_memset a (os h) k n Hw H1 H2 H3) as (w' & -> & Es & Eu & Ew). simpl.
  by apply HQ.
Qed.

Lemma hwp_munmap m n P h :
  P (os_munmap m n (os h)).2 -> hwp (munmap m n ≫= fun _ => mret tt) (fun _ h' => P (os h')) h.
Proof.
  intros H. unfold hwp, munmap, mbind, host_bind, result.
  destruct (os_munmap m n (os h)) as [r w]. simpl in *. by destruct (r <? 0).
Qed.

Lemma hwp_at l i v (Q : Z -> hst W -> Prop) h :
  l !! i = Some v -> Q v h -> hwp (at_ l (Z.of_nat i)) Q h.
Proof.
  intros Hl HQ. unfold hwp, at_. destruct (Z.ltb_spec (Z.of_nat i) 0); [lia |].
  by rewrite Nat2Z.id, Hl.
Qed.

(** ** Filling the window *)

(** The memory while the tensors are being written: [i] elements are there. *)
Record tensors (in0 in1 : list Z) (b0 : buf) (i : nat) (b : buf) : Prop := {
  tn_len : buf_len b = buf_len b0;
  tn_bytes : buf_bytes b;
  tn_in0 : forall j v, (j < i)%nat -> in0 !! j = Some v ->
    word b (INPUT0_OFFSET + 4 * Z.of_nat j) = u32 v;
  tn_in1 : forall j v, (j < i)%nat -> in1 !! j = Some v ->
    word b (INPUT1_OFFSET + 4 * Z.of_nat j) = u32 v }.

Lemma put_bytes b k v : buf_bytes b -> buf_bytes (put b k v).
Proof. intros H. apply buf_bytes_blit; [done | apply le_bytes_byte]. Qed.

Lemma word_put_u32 b k v : word (put b k (u32 v)) k = u32 v.
Proof. rewrite word_put_same. apply wrap_wrap. lia. Qed.

Lemma tensors_step in0 in1 b0 i b x y :
  (i < 256)%nat -> tensors in0 in1 b0 i b -> in0 !! i = Some x -> in1 !! i = Some y ->
  tensors in0 in1 b0 (S i)
    (put (put (put b (INPUT0_OFFSET + 4 * Z.of_nat i) (u32 x))
       (INPUT1_OFFSET + 4 * Z.of_nat i) (u32 y)) (OUTPUT_OFFSET + 4 * Z.of_nat i) (u32 0)).
Proof.
  intros Hi [TL TB T0 T1] Hx Hy.
  split; [done | by repeat apply put_bytes | |]; intros j v Hj Hv;
    unfold INPUT0_OFFSET, INPUT1_OFFSET, OUTPUT_OFFSET in *.
  - do 2 rewrite word_put_other by lia. destruct (decide (j = i)) as [->|].
    + rewrite Hx in Hv. injection Hv as ->. apply word_put_u32.
    + rewrite word_put_other by lia. apply T0; [lia | done].
  - rewrite word_put_other by lia. destruct (decide (j = i)) as [->|].
    + rewrite Hy in Hv. injection Hv as ->. apply word_put_u32.
    + rewrite !word_put_other by lia. apply T1; [lia | done].
Qed.

Lemma seqZ_lookup_inv n i a : seqZ 0 n !! i = Some a -> a = Z.of_nat i /\ Z.of_nat i < n.
Proof. intros H. apply lookup_seqZ in H as [-> ?]. lia. Qed.

Lemma hwp_fill_tensors a b u in0 in1 (n : nat) (Q : unit -> hst W -> Prop) h :
  at_window a b u h -> buf_bytes b -> (n <= 256)%nat -> (n <= length in0)%nat ->
  (n <= length in1)%nat ->
  (forall b' h', at_window a b' u h' -> tensors in0 in1 b n b' -> Q tt h') ->
  hwp (fill_tensors a in0 in1 (Z.of_nat n)) Q h.
Proof.
  intros Hw Hb Hn H0 H1 HQ. destruct cl_size as [_ Hs]. unfold CORAL_EXTMEM_SIZE in Hs.
  eapply (hwp_each (fun i _ h => exists b', at_window a b' u h /\ tensors in0 in1 b i b')).
  - exists b. split; [done |]. split; [done | done | lia | lia].
  - intros i z [] h1 Hi (b1 & Hw1 & HT). apply seqZ_lookup_inv in Hi as [-> Hi].
    destruct (lookup_lt_is_Some_2 in0 i) as [x Hx]; [lia |].
    destruct (lookup_lt_is_Some_2 in1 i) as [y Hy]; [lia |].
    pose proof (tensors_step in0 in1 b i b1 x y ltac:(lia) HT Hx Hy) as HT'.
    unfold INPUT0_OFFSET, INPUT1_OFFSET, OUTPUT_OFFSET in *. rewrite <- !Z.add_assoc.
    apply hwp_bind. eapply hwp_at; [done |]. apply hwp_bind.
    eapply hwp_st32; [done | lia | lia |]. intros h2 Hw2.
    apply hwp_bind. eapply hwp_at; [done |]. apply hwp_bind.
    eapply hwp_st32; [done | lia | lia |]. intros h3 Hw3.
    eapply hwp_st32; [done | lia | lia |]. intros h4 Hw4. by eexists.
  - intros [] h1 (b1 & Hw1 & HT). rewrite length_seqZ, Nat2Z.id in HT. by eapply HQ.
Qed.

(** The memory with the command. *)
Definition put_fields (l : list (command_field * Z)) (b : buf) : buf :=
  foldl (fun b '(f, v) => put b (field_offset f) (u32 v)) b l.

Lemma field_offset_range f : 0 <= field_offset f /\ field_offset f + 4 <= 64.
Proof. destruct f; simpl; lia. Qed.

Lemma put_fields_frame l b :
  buf_len (put_fields l b) = buf_len b /\ (buf_bytes b -> buf_bytes (put_fields l b)) /\
  forall off, 64 <= off -> word (put_fields l b) off = word b off.
Proof.
  revert b. induction l as [|[f v] l IH]; intros b; [done |]. simpl.
  destruct (IH (put b (field_offset f) (u32 v))) as (L & B & F).
  pose proof (field_offset_range f). split; [by rewrite L |]. split.
  - intros H1. by apply B, put_bytes.
  - intros off Ho. rewrite F, word_put_other by lia. done.
Qed.

Lemma hwp_put_fields a b u l (Q : unit -> hst W -> Prop) h :
  at_window a b u h -> (forall h', at_window a (put_fields l b) u h' -> Q tt h') ->
  hwp (each (fun '(f, v) _ => st32 (field_addr a f) v) l tt) Q h.
Proof.
  destruct cl_size as [_ Hs]. unfold CORAL_EXTMEM_SIZE in Hs.
  revert b h. induction l as [|[f v] l IH]; intros b h Hw HQ; [by apply HQ |].
  cbn [each]. apply hwp_bind. pose proof (field_offset_range f).
  replace (field_addr a f) with (a + field_offset f) by (unfold field_addr, COMMAND_OFFSET; lia).
  eapply hwp_st32; [done | lia | lia |]. intros h1 Hw1. by eapply IH.
Qed.

Definition command_fields (op n : Z) : list (command_field * Z) :=
  [(magic, COMMAND_MAGIC); (abi_version, COMMAND_ABI_VERSION); (struct_size, COMMAND_SIZE);
   (opcode, op); (sequence, 1); (element_count, n); (input0_offset, INPUT0_OFFSET);
   (input1_offset, INPUT1_OFFSET); (output_offset, OUTPUT_OFFSET); (output_size, n * 4);
   (status, COMMAND_PENDING)].

Lemma in_bounds_small o n :
  Z.land o 3 = 0 -> 0 <= o < 2 ^ 32 -> 0 <= n <= 256 -> o + 4 * n <= CORAL_EXTMEM_SIZE ->
  tensor_in_bounds o n = true.
Proof. intros H1 H2 H3 H4. apply in_bounds_iff; lia. Qed.

Lemma filled_command in0 in1 b0 b op (n : nat) :
  CORAL_EXTMEM_SIZE <= buf_len b0 -> tensors in0 in1 b0 n b -> (n <= 256)%nat ->
  op = OPCODE_VECTOR_ADD_U32 \/ op = OPCODE_VECTOR_ADD_CUSTOM_U32 ->
  vector_command (put_fields (command_fields op (Z.of_nat n)) b) op (Z.of_nat n)
    INPUT0_OFFSET INPUT1_OFFSET OUTPUT_OFFSET.
Proof.
  intros HB [TL TB _ _] Hn Hop.
  destruct (put_fields_frame (command_fields op (Z.of_nat n)) b) as (L & B & _).
  assert (forall o, o = INPUT0_OFFSET \/ o = INPUT1_OFFSET \/ o = OUTPUT_OFFSET ->
    tensor_in_bounds o (Z.of_nat n) = true) as Hb.
  { unfold INPUT0_OFFSET, INPUT1_OFFSET, OUTPUT_OFFSET. intros o Ho.
    apply in_bounds_small; [by destruct Ho as [->|[->| ->]] | lia | lia |].
    unfold CORAL_EXTMEM_SIZE. lia. }
  split; [by rewrite L, TL | by apply B | .. | by auto 6 |];
    try (unfold put_fields, command_fields; cbn [foldl field_offset];
      repeat (rewrite word_put_other by lia); rewrite word_put_u32; try done).
  - apply wrap_small. unfold OPCODE_VECTOR_ADD_U32, OPCODE_VECTOR_ADD_CUSTOM_U32 in Hop. lia.
  - done.
  - apply wrap_small. lia.
  - rewrite wrap_small; lia.
  - unfold INPUT0_OFFSET, INPUT1_OFFSET, OUTPUT_OFFSET, COMMAND_SIZE. lia.
Qed.

(** ** Running it *)

Lemma read_reg_devmem off : 
  read_reg dev off = match reg_ptr dev off with Some a => ld32 a | None => exit1 end.
Proof. unfold read_reg. by rewrite cl_devmem. Qed.

Lemma write_reg_devmem off v :
  write_reg dev off v = match reg_ptr dev off with Some a => st32 a v | None => exit1 end.
Proof. unfold write_reg. by rewrite cl_devmem. Qed.

Lemma hwp_poll_reg n k b st ast (Q : Z -> hst W -> Prop) h :
  reg_ptr dev STATUS = Some ast -> halts n b ast (os h) -> (n < k)%nat ->
  (forall h', cw_shared (os h') = b -> cw_window (os h') = cw_window (os h) -> Q 1 h') ->
  hwp (poll_reg k dev st) Q h.
Proof.
  intros Ea. revert n st h. induction k as [|k IH]; intros n st h Hh Hk HQ; [lia |].
  cbn [poll_reg]. apply hwp_bind. rewrite read_reg_devmem, Ea. unfold hwp at 1, ld32.
  destruct n as [|n]; destruct Hh as (w' & -> & Hh); simpl.
  - destruct Hh as [Hb Hw]. by apply hwp_ret, HQ.
  - destruct Hh as [Hw Hh]. apply (IH n); [done | lia |]. intros h' Hb Hw'. apply HQ; [done |].
    simpl in Hw'. by rewrite Hw'.
Qed.

Lemma hwp_run a b u c op n in0 in1 out turns polls (Q : Z * option Z -> hst W -> Prop) h :
  (forall k, (1 <= lat k)%nat) -> 0 <= entry < 2 ^ 32 -> Z.of_nat latency < polls ->
  at_window a b u h -> vector_command b op n in0 in1 out -> idle u c -> 0 <= c < 2 ^ 32 ->
  (forall b' h', cw_window (os h') = Some a -> cw_shared (os h') = b' ->
     command_done b op n in0 in1 out b' -> Q (0, Some 1) h') ->
  hwp (run turns dev entry polls) Q h.
Proof.
  intros Hlat He Hp (Hw & Hb & Hu) Hcmd Hi Hc HQ.
  pose proof (wp_command_main lat Hlat b op n in0 in1 out Hcmd 256 4 c
    {| ext := b; unit_mac := u; accesses := 0 |}) as Hm. unfold wp in Hm.
  destruct (command_main lat 256 4 _) as [[r m]| | |] eqn:Em; try (exfalso; apply Hm;
    [lia | pose proof (vector_facts b op n in0 in1 out Hcmd); lia | done | done]).
  destruct Hm as (-> & Hd & _);
    [lia | pose proof (vector_facts b op n in0 in1 out Hcmd); lia | done | done |].
  destruct (cl_regs PC_START) as [apc Epc]; [simpl; tauto |].
  destruct (cl_regs RESET_CONTROL) as [ars Ers]; [simpl; tauto |].
  destruct (cl_regs STATUS) as [ast Est]; [simpl; tauto |].
  rewrite <- Hb, <- Hu in Em.
  destruct (cl_launch apc ars ast (os h) m 0 Epc Ers Est Em)
    as (w1 & w2 & w3 & k & E1 & E2 & E3 & Hk & Ew & Hh).
  unfold run. rewrite cl_devmem. unfold run_devmem. rewrite !write_reg_devmem, Epc, Ers.
  apply hwp_bind. unfold hwp at 1, st32. rewrite wrap_small by lia. rewrite E1. simpl.
  apply hwp_bind. unfold hwp at 1, st32. change (u32 1) with 1. simpl. rewrite E2. simpl.
  apply hwp_bind. unfold hwp at 1, st32. change (u32 0) with 0. simpl. rewrite E3. simpl.
  apply hwp_bind. eapply hwp_poll_reg; [done | exact Hh | lia |]. intros h' Hb' Hw'.
  apply hwp_bind. apply hwp_ret. apply hwp_ret. apply (HQ (ext m)); [| done | done].
  rewrite Hw'. simpl. by rewrite Ew.
Qed.

(** ** The end-to-end theorem *)

(** The sum of the sums. *)
Definition vector_checksum (in0 in1 : list Z) (n : nat) : Z :=
  foldl (fun c i => u32 (c + u32 (in0 !!! i + in1 !!! i))) 0 (seq 0 n).

Lemma hwp_check_output a b u in0 in1 (n : nat) (Q : Z * bool -> hst W -> Prop) h :
  at_window a b u h -> (n <= 256)%nat -> (n <= length in0)%nat -> (n <= length in1)%nat ->
  (forall i, (i < n)%nat -> word b (OUTPUT_OFFSET + 4 * Z.of_nat i) = u32 (in0 !!! i + in1 !!! i)) ->
  (forall h', at_window a b u h' -> Q (vector_checksum in0 in1 n, true) h') ->
  hwp (check_output a in0 in1 (Z.of_nat n) true) Q h.
Proof.
  intros Hw Hn H0 H1 Hb HQ. destruct cl_size as [_ Hs]. unfold CORAL_EXTMEM_SIZE in Hs.
  eapply (hwp_each (fun i s h => at_window a b u h /\ s = (vector_checksum in0 in1 i, true))).
  - done.
  - intros i z s h1 Hi [Hw1 ->]. apply seqZ_lookup_inv in Hi as [-> Hi].
    destruct (lookup_lt_is_Some_2 in0 i) as [x Hx]; [lia |].
    destruct (lookup_lt_is_Some_2 in1 i) as [y Hy]; [lia |].
    specialize (Hb i ltac:(lia)). rewrite (list_lookup_total_correct _ _ _ Hx),
      (list_lookup_total_correct _ _ _ Hy) in Hb.
    unfold OUTPUT_OFFSET in *. rewrite <- Z.add_assoc.
    apply hwp_bind. eapply hwp_at; [done |]. apply hwp_bind. eapply hwp_at; [done |].
    apply hwp_bind. eapply hwp_ld32; [done | lia | lia |].
    apply hwp_bind. eapply hwp_ld32; [done | lia | lia |]. rewrite Hb, Z.eqb_refl.
    apply hwp_ret. split; [done |]. f_equal. unfold vector_checksum.
    rewrite seq_S, foldl_app. simpl. rewrite (list_lookup_total_correct _ _ _ Hx),
      (list_lookup_total_correct _ _ _ Hy). done.
  - intros s h1 [Hw1 ->]. rewrite length_seqZ, Nat2Z.id. by apply HQ.
Qed.

(** The mapping is the one of the shared window. *)
Definition window_of (w : shared_window) : Prop :=
  win_mapping w <> 0 /\ win_size w = wsize /\
  win_bytes w = win_mapping w + Z.land wbase (u64 (page_size dev - 1)).

Lemma hwp_open_window b u min (Q : Z * shared_window -> hst W -> Prop) h :
  cw_window (os h) = None -> cw_shared (os h) = b -> cw_unit (os h) = u -> min <= wsize ->
  (forall w h', at_window (win_bytes w) b u h' -> window_of w -> Q (0, w) h') ->
  hwp (open_shared_window dev min) Q h.
Proof.
  intros Hw Hb Hu Hmin HQ. unfold open_shared_window. rewrite !read_reg_devmem.
  destruct (cl_regs SHARED_BASE) as [ab Eb]; [simpl; tauto |].
  destruct (cl_regs SHARED_SIZE) as [az Ez]; [simpl; tauto |]. rewrite Eb, Ez.
  apply hwp_bind. unfold hwp at 1, ld32. rewrite (cl_base_reg ab _ Eb). simpl.
  apply hwp_bind. unfold hwp at 1, ld32. simpl. rewrite (cl_size_reg az _ Ez). simpl.
  destruct (Z.ltb_spec wsize min); [lia |]. rewrite cl_devmem. simpl.
  apply hwp_bind. unfold hwp at 1, mmap. simpl.
  destruct (cl_mmap (os h) Hw) as (m & w' & -> & Hm & Es & Eu & Ew). unfold result. simpl.
  destruct (Z.ltb_spec m 0); [lia |]. destruct (Z.eqb_spec m (-1)); [lia |].
  apply hwp_ret, HQ; [simpl; rewrite <- Hb, <- Hu; by split |].
  unfold window_of. simpl. split; [lia | done].
Qed.

Lemma hwp_close_window w b u h (Q : unit -> hst W -> Prop) :
  window_of w -> at_window (win_bytes w) b u h ->
  (forall h', cw_window (os h') = None -> cw_shared (os h') = b -> errno h' = errno h -> Q tt h') ->
  hwp (close_shared_window w) Q h.
Proof.
  intros (Hm & _ & Eb) (Hw & Hs & _) HQ. unfold close_shared_window.
  rewrite (proj2 (Z.eqb_neq _ 0)) by done. rewrite Eb in Hw.
  destruct (cl_unmapped (win_mapping w) (win_map_size w) (os h) Hw) as [Hr Hn].
  pose proof (cl_munmap (win_mapping w) (win_map_size w) (os h)) as Hsh.
  apply hwp_bind. unfold hwp at 1, munmap, result.
  destruct (os_munmap (win_mapping w) (win_map_size w) (os h)) as [r w']. simpl in *. subst r. simpl.
  apply HQ; simpl; congruence.
Qed.

Lemma sums_of_inputs in0 in1 b0 b1 b op (n : nat) b' :
  tensors in0 in1 b0 n b1 -> b = put_fields (command_fields op (Z.of_nat n)) b1 ->
  (n <= length in0)%nat -> (n <= length in1)%nat -> (n <= 256)%nat ->
  Forall (fun v => 0 <= v < 2 ^ 32) in0 -> Forall (fun v => 0 <= v < 2 ^ 32) in1 ->
  command_done b op (Z.of_nat n) INPUT0_OFFSET INPUT1_OFFSET OUTPUT_OFFSET b' ->
  forall i, (i < n)%nat ->
    word b' (OUTPUT_OFFSET + 4 * Z.of_nat i) = u32 (in0 !!! i + in1 !!! i).
Proof.
  intros [_ _ T0 T1] -> H0 H1 Hn F0 F1 (_ & _ & _ & _ & _ & Ho) i Hi.
  destruct (lookup_lt_is_Some_2 in0 i) as [x Hx]; [lia |].
  destruct (lookup_lt_is_Some_2 in1 i) as [y Hy]; [lia |].
  destruct (put_fields_frame (command_fields op (Z.of_nat n)) b1) as (_ & _ & F).
  rewrite Ho by lia. unfold element_sum.
  rewrite !F by (unfold INPUT0_OFFSET, INPUT1_OFFSET; lia).
  rewrite (T0 i x), (T1 i y) by done.
  rewrite (list_lookup_total_correct _ _ _ Hx), (list_lookup_total_correct _ _ _ Hy).
  rewrite (wrap_small 32 x) by (apply (Forall_lookup_1 _ _ _ _ F0 Hx)).
  rewrite (wrap_small 32 y) by (apply (Forall_lookup_1 _ _ _ _ F1 Hy)). done.
Qed.

(** What the caller of [submit_vector_add] gets. *)
Definition vector_answer (op : Z) (in0 in1 : list Z) (n : nat) (expected : Z)
    (r : Z * vector_add_result) (h : hst W) : Prop :=
  let '(ret, v) := r in
  va_opcode v = op /\ va_element_count v = Z.of_nat n /\ va_status v = COMMAND_COMPLETE /\ va_error_code v = COMMAND_ERROR_NONE /\
  va_completed_elements v = Z.of_nat n /\ va_checksum v = vector_checksum in0 in1 n /\
  va_accelerator_cycles v = (if op =? OPCODE_VECTOR_ADD_CUSTOM_U32 then 3 * Z.of_nat n else 0) /\
  (if expected =? vector_checksum in0 in1 n then ret = 0 else ret = -1 /\ errno h = EIO) /\
  forall i, (i < n)%nat ->
    word (cw_shared (os h)) (OUTPUT_OFFSET + 4 * Z.of_nat i) = u32 (in0 !!! i + in1 !!! i).

(** From the moment the program has halted. *)
Lemma hwp_collect a b b' u op in0 in1 (n : nat) expected w h :
  at_window a b' u h -> win_bytes w = a -> (n <= 256)%nat ->
  (n <= length in0)%nat -> (n <= length in1)%nat ->
  command_done b op (Z.of_nat n) INPUT0_OFFSET INPUT1_OFFSET OUTPUT_OFFSET b' ->
  (forall i, (i < n)%nat ->
    word b' (OUTPUT_OFFSET + 4 * Z.of_nat i) = u32 (in0 !!! i + in1 !!! i)) ->
  hwp (collect_vector_add w op in0 in1 (Z.of_nat n) expected 0 (Some 1))
    (vector_answer op in0 in1 n expected) h.
Proof.
  intros Hw <- Hn H0 H1 (_ & Es & Ee & Ec & Ey & _) Ho. destruct cl_size as [_ Hs].
  unfold CORAL_EXTMEM_SIZE in Hs. unfold collect_vector_add.
  assert (forall f, field_addr (win_bytes w) f = win_bytes w + field_offset f) as Hf
    by (intros f; unfold field_addr, COMMAND_OFFSET; lia). rewrite !Hf.
  apply hwp_bind, hwp_get_errno.
  do 4 (apply hwp_bind; (eapply hwp_ld32; [done | simpl; lia | simpl; lia |])).
  rewrite Es, Ee, Ec, Ey, !Z.eqb_refl. cbn [andb].
  apply hwp_bind. eapply hwp_check_output; [done | done | done | done | done |]. intros h1 Hw1.
  apply hwp_bind. eapply (hwp_mono _ (fun _ h2 => cw_shared (os h2) = b')).
  2: { unfold close_shared_window. destruct Hw1 as (_ & E1 & _).
       destruct (win_mapping w =? 0); [by apply hwp_ret |]. apply (hwp_munmap _ _ (fun w => cw_shared w = b')). by rewrite cl_munmap. }
  intros [] h2 E2. cbn [negb Z.eqb]. rewrite (Z.eqb_sym _ expected).
  unfold vector_answer.
  destruct (expected =? vector_checksum in0 in1 n) eqn:E; cbn [negb orb].
  - apply hwp_ret. rewrite E2. by repeat split.
  - apply hwp_bind, hwp_errno, hwp_ret. simpl. rewrite E2. by repeat split.
Qed.

Lemma hwp_submit turns op in0 in1 (n : nat) expected polls c h :
  (forall k, (1 <= lat k)%nat) -> 0 <= entry < 2 ^ 32 -> Z.of_nat latency < polls ->
  cw_window (os h) = None -> CORAL_EXTMEM_SIZE <= buf_len (cw_shared (os h)) ->
  buf_bytes (cw_shared (os h)) -> idle (cw_unit (os h)) c -> 0 <= c < 2 ^ 32 ->
  op = OPCODE_VECTOR_ADD_U32 \/ op = OPCODE_VECTOR_ADD_CUSTOM_U32 -> (1 <= n <= 256)%nat ->
  (n <= length in0)%nat -> (n <= length in1)%nat ->
  Forall (fun v => 0 <= v < 2 ^ 32) in0 -> Forall (fun v => 0 <= v < 2 ^ 32) in1 ->
  hwp (submit_vector_add turns dev entry op in0 in1 (Z.of_nat n) expected polls)
    (vector_answer op in0 in1 n expected) h.
Proof.
  intros Hlat He Hp Hw HB Hbytes Hi Hc Hop Hn H0 H1 F0 F1. destruct cl_size as [_ Hs].
  unfold CORAL_EXTMEM_SIZE in Hs. unfold submit_vector_add.
  assert (((Z.of_nat n =? 0) || (TENSOR_MAX_ELEMENTS <? Z.of_nat n) ||
    (negb (op =? OPCODE_VECTOR_ADD_U32) && negb (op =? OPCODE_VECTOR_ADD_CUSTOM_U32))) = false) as ->.
  { unfold TENSOR_MAX_ELEMENTS. destruct (Z.eqb_spec (Z.of_nat n) 0); [lia |].
    destruct (Z.ltb_spec 256 (Z.of_nat n)); [lia |]. by destruct Hop as [->| ->]. }
  apply hwp_bind. eapply hwp_open_window; [done | done | done | unfold OUTPUT_OFFSET; lia |].
  intros w h1 Hw1 _. cbn [negb Z.eqb]. apply hwp_bind. unfold COMMAND_OFFSET, COMMAND_SIZE.
  eapply hwp_memset0; [done | lia | lia | lia |]. intros h2 Hw2.
  apply hwp_bind. eapply hwp_fill_tensors; [done | | lia | lia | lia |].
  { apply buf_bytes_blit; [done |]. apply Forall_replicate. unfold is_byte. lia. }
  intros b1 h3 Hw3 HT. apply hwp_bind. eapply hwp_put_fields; [done |]. intros h4 Hw4.
  fold (command_fields op (Z.of_nat n)) in Hw4. apply hwp_bind.
  assert (vector_command (put_fields (command_fields op (Z.of_nat n)) b1) op (Z.of_nat n)
    INPUT0_OFFSET INPUT1_OFFSET OUTPUT_OFFSET) as Hcmd
    by (eapply filled_command; [| exact HT | lia | done]; exact HB).
  eapply hwp_run; [done | done | done | done | done | done | done |].
  intros b' h5 Hw5 Hb5 Hd.
  eapply hwp_collect; [split; [done |]; split; [exact Hb5 | reflexivity] | done | lia | lia | lia | done |].
  eapply sums_of_inputs; [done | done | lia | lia | lia | done | done | done].
Qed.

End world.


(** ** A world *)

(** A process that maps the register page at 0x10000 and at most one window, at
    0x80000000, on a device that halts after [left] more looks. *)
Record plain := { p_mem : buf; p_unit : Gem5CustomMac; p_open : bool; p_left : nat }.
Definition p_lat : nat -> nat := fun _ => 1%nat.

Definition p_with (b : buf) (w : plain) : plain :=
  {| p_mem := b; p_unit := p_unit w; p_open := p_open w; p_left := p_left w |}.

(** The device, released from reset. *)
Definition p_release (w : plain) : plain :=
  match command_main p_lat 256 4 {| ext := p_mem w; unit_mac := p_unit w; accesses := 0 |} with
  | Ret (_, m) => {| p_mem := ext m; p_unit := unit_mac m; p_open := p_open w; p_left := 1 |}
  | _ => w
  end.

Definition p_reg (addr : Z) : Z := addr - 0x10000 + 0x30000.
Definition p_is_reg (addr : Z) : bool := addr <? 0x80000000.

#[export] Instance plain_os : OS plain := {|
  os_pagesize _ := 4096;
  os_getenv name _ := if str_eqb name n_transport then Some n_devmem else None;
  os_open _ w := (3, w);
  os_close _ w := w;
  os_ioctl _ _ _ w := (- ENOTTY, NoOut, w);
  os_poll _ _ w := (0, 0, w);
  os_mmap _ _ off w :=
    if off =? 0x1d030000 then (0x10000, w) else
    (0x80000000, {| p_mem := p_mem w; p_unit := p_unit w; p_open := true; p_left := p_left w |});
  os_munmap _ _ w :=
    (0, {| p_mem := p_mem w; p_unit := p_unit w; p_open := false; p_left := p_left w |});
  os_load32 addr w :=
    if p_is_reg addr then
      if p_reg addr =? SHARED_BASE then Ret (0x20000000, w)
      else if p_reg addr =? SHARED_SIZE then Ret (0x1000, w)
      else if p_reg addr =? STATUS then
        match p_left w with
        | O => Ret (1, w)
        | S k => Ret (0, {| p_mem := p_mem w; p_unit := p_unit w; p_open := p_open w; p_left := k |})
        end
      else Ret (0, w)
    else Ret (word (p_mem w) (addr - 0x80000000), w);
  os_store32 addr v w :=
    if p_is_reg addr then
      if (p_reg addr =? RESET_CONTROL) && (v =? 0) then Ret (p_release w) else Ret w
    else Ret (p_with (put (p_mem w) (addr - 0x80000000) v) w);
  os_memset0 addr n w :=
    Ret (p_with (buf_blit (p_mem w) (addr - 0x80000000) (replicate (Z.to_nat n) 0)) w);
  os_fstat_size _ _ := inl EIO;
  os_read _ _ w := (0, [], w);
  os_malloc _ _ := true;
  os_clock w := (None, w) |}.

#[export] Instance plain_world : CommandWorld plain := {|
  cw_shared := p_mem; cw_unit := p_unit;
  cw_window w := if p_open w then Some 0x80000000 else None |}.

Definition plain_dev : device :=
  {| fd := 3; page_size := 4096; mapping := 0x10000; page_base := 0x1d030000; base := 0x1d000000;
     dev_transport := TRANSPORT_DEVMEM; dev_abi_version := 0; dev_features := 0 |}.

Lemma plain_laws : CommandLaws plain_dev p_lat 0x20000000 0x1000 0 1.
Proof.
  split.
  - done.
  - intros off H. simpl in H. repeat destruct H as [<-|H]; try done; by eexists.
  - unfold CORAL_EXTMEM_SIZE. lia.
  - by intros a w [= <-].
  - by intros a w [= <-].
  - intros w Hw. simpl. eexists _, _. split; [done |]. by repeat split.
  - done.
  - done.
  - intros a w k Hw H1 H2. simpl in *. destruct (p_open w); [| done]. injection Hw as <-.
    unfold p_is_reg. destruct (Z.ltb_spec (0x80000000 + k) 0x80000000); [lia |].
    by rewrite Z.add_simpl_l.
  - intros a w k v Hw H1 H2. simpl in *. destruct (p_open w) eqn:Eo; [| done].
    injection Hw as <-. unfold p_is_reg. destruct (Z.ltb_spec (0x80000000 + k) 0x80000000); [lia |].
    rewrite Z.add_simpl_l. eexists. split; [done |]. simpl. by rewrite Eo.
  - intros a w k n Hw H1 H2 H3. simpl in *. destruct (p_open w) eqn:Eo; [| done].
    injection Hw as <-. rewrite Z.add_simpl_l. eexists. split; [done |]. simpl. by rewrite Eo.
  - intros apc ars ast w m r [= <-] [= <-] [= <-] E. exists w, w, (p_release w), 1%nat.
    split; [done |]. split; [done |]. split; [done |]. split; [lia |].
    unfold p_release. simpl in E. rewrite E. split; [done |]. simpl. eexists. split; [done |].
    split; [done |]. eexists. by split.
Qed.

