(* ===== verification/HostSafe.v ===== *)
(** * Memory safety of the host runtime

    Whatever a model file contains and whatever the device answers, the
    runtime stays inside its mappings and its buffers, and gives back every
    window it has mapped. *)

From S2P Require Import Prelude Firmware KernelDriver HostRuntime.

(** ** What the operating system promises *)

(** The mappings of the process, the latest first. *)
Class OSMaps (W : Type) := os_maps : W -> list (Z * Z).

(** The bytes from [a] lie inside one mapping. *)
Definition mapped (M : list (Z * Z)) (a n : Z) : Prop :=
  exists b m, In (b, m) M /\ b <= a /\ a + n <= b + m.

Lemma mapped_cons x M a n : mapped M a n -> mapped (x :: M) a n.
Proof. intros (b & m & H & Hr). exists b, m. split; [by right | done]. Qed.

Definition is_u32 (v : Z) : Prop := 0 <= v < 2 ^ 32.

(** An access inside a mapping is defined; mappings change through [mmap] and
    [munmap] only, and the latest one can be taken away again; [read] answers with as many bytes as it says, at most as
    many as were asked for. *)
Class OSSafe (W : Type) {HO : OS W} {HM : OSMaps W} : Prop := {
  sf_load : forall a w, mapped (os_maps w) a 4 ->
    match os_load32 a w with
    | Ret (v, w') => is_u32 v /\ os_maps w' = os_maps w | Undef => False | _ => True
    end;
  sf_store : forall a v w, mapped (os_maps w) a 4 ->
    match os_store32 a v w with
    | Ret w' => os_maps w' = os_maps w | Undef => False | _ => True
    end;
  sf_memset : forall a n w, mapped (os_maps w) a n ->
    match os_memset0 a n w with
    | Ret w' => os_maps w' = os_maps w | Undef => False | _ => True
    end;
  sf_mmap : forall len d off w,
    let '(r, w') := os_mmap len d off w in
    (r < 0 /\ os_maps w' = os_maps w) \/ (0 < r /\ os_maps w' = (r, len) :: os_maps w);
  sf_munmap : forall a n w M, os_maps w = (a, n) :: M ->
    (os_munmap a n w).1 = 0 /\ os_maps (os_munmap a n w).2 = M;
  sf_page : forall w, 0 < os_pagesize w -> exists k, 12 <= k < 64 /\ os_pagesize w = 2 ^ k;
  sf_open : forall p w, os_maps (os_open p w).2 = os_maps w;
  sf_close : forall d w, os_maps (os_close d w) = os_maps w;
  sf_ioctl : forall d c u w, os_maps (os_ioctl d c u w).2 = os_maps w;
  sf_info : forall d c u w i, (os_ioctl d c u w).1.2 = OutInfo i ->
    is_u32 (info_shared_base i) /\ is_u32 (info_shared_size i);
  sf_poll : forall d t w, os_maps (os_poll d t w).2 = os_maps w;
  sf_read : forall d n w, 
    let '(r, bs, w') := os_read d n w in
    os_maps w' = os_maps w /\
    (0 < r -> r <= n /\ Z.of_nat (length bs) = r /\ Forall is_byte bs);
  sf_clock : forall w, os_maps (os_clock w).2 = os_maps w }.

(** The registers lie in one page. *)
Definition in_block (off : Z) : Prop := RESET_CONTROL <= off <= BACKEND_ID.

Ltac reg_offset :=
  unfold in_block, RESET_CONTROL, PC_START, STATUS, DMA_ERRORS, DMA_REQUESTS, DMA_COMPLETIONS, DMA_STATE,
    SHARED_BASE, SHARED_SIZE, FIRMWARE_ENTRY, BACKEND_ID; lia.

Section safe.
Context {W : Type} {HO : OS W} {HM : OSMaps W} {HS : OSSafe W}.

(** [p] is defined, and [Q] holds where it returns. *)
Definition hsafe {A} (p : host W A) (Q : A -> hst W -> Prop) (h : hst W) : Prop :=
  match p h with Ret (a, h') => Q a h' | Undef => False | _ => True end.

Definition maps_of (h : hst W) : list (Z * Z) := os_maps (os h).

(** [p] is defined under the mappings [M] and keeps them; [Q] holds of what it
    returns. *)
Definition keeps {A} (M : list (Z * Z)) (p : host W A) (Q : A -> Prop) : Prop :=
  forall h, maps_of h = M -> hsafe p (fun a h' => maps_of h' = M /\ Q a) h.

Definition any {A} : A -> Prop := fun _ => True.

Lemma hsafe_bind {A B} (p : host W A) (f : A -> host W B) Q h :
  hsafe p (fun a => hsafe (f a) Q) h -> hsafe (p ≫= f) Q h.
Proof. unfold hsafe, mbind, host_bind. destruct (p h) as [[a h1]| | |]; done. Qed.

Lemma hsafe_mono {A} (p : host W A) (Q R : A -> hst W -> Prop) h :
  (forall a h', Q a h' -> R a h') -> hsafe p Q h -> hsafe p R h.
Proof. unfold hsafe. destruct (p h) as [[a h1]| | |]; auto. Qed.

Lemma keeps_bind {A B} M (p : host W A) (f : A -> host W B) P Q :
  keeps M p P -> (forall a, P a -> keeps M (f a) Q) -> keeps M (p ≫= f) Q.
Proof.
  intros Hp Hf h Hh. apply hsafe_bind. eapply hsafe_mono; [| by apply Hp].
  intros a h' [Hm Ha]. by apply (Hf a Ha).
Qed.

Lemma keeps_then {A B} M (p : host W A) (f : A -> host W B) Q :
  keeps M p any -> (forall a, keeps M (f a) Q) -> keeps M (p ≫= f) Q.
Proof. intros Hp Hf. eapply keeps_bind; [done |]. auto. Qed.

Lemma keeps_ret {A} M (a : A) (Q : A -> Prop) : Q a -> keeps M (mret a) Q.
Proof. intros Ha h Hh. by split. Qed.

Lemma keeps_mono {A} M (p : host W A) (P Q : A -> Prop) :
  (forall a, P a -> Q a) -> keeps M p P -> keeps M p Q.
Proof. intros H Hp h Hh. eapply hsafe_mono; [| by apply Hp]. intros a h' [? ?]. auto. Qed.

Lemma keeps_any {A} M (p : host W A) (P : A -> Prop) : keeps M p P -> keeps M p any.
Proof. by apply keeps_mono. Qed.

Lemma keeps_each {A S} M (I : nat -> S -> Prop) (body : A -> S -> host W S) l s :
  I 0%nat s ->
  (forall i a s, l !! i = Some a -> I i s -> keeps M (body a s) (I (Datatypes.S i))) ->
  keeps M (each body l s) (I (length l)).
Proof.
  revert I s. induction l as [|a l IH]; intros I s H0 Hb; cbn [each]; [by apply keeps_ret |].
  eapply keeps_bind; [by apply (Hb 0%nat) |]. intros s1 H1.
  apply (IH (fun i => I (Datatypes.S i))); [done |]. intros i b s2 Hi. by apply (Hb (Datatypes.S i)).
Qed.

(** ** The effects *)

Lemma keeps_exit {A} M (Q : A -> Prop) : keeps M exit1 Q.
Proof. by intros h Hh. Qed.
Lemma keeps_set_errno M e : keeps M (set_errno e) any.
Proof. by intros h Hh. Qed.
Lemma keeps_get_errno M : keeps M get_errno any.
Proof. by intros h Hh. Qed.
Lemma keeps_ask {A} M (f : W -> A) : keeps M (ask f) any.
Proof. by intros h Hh. Qed.
Lemma keeps_hang {A} M (Q : A -> Prop) : keeps M (fun _ => Hang) Q.
Proof. by intros h Hh. Qed.

Lemma result_ret r w (h : hst W) : exists v h', result r w h = Ret (v, h') /\ os h' = w.
Proof. unfold result. destruct (r <? 0); by eexists _, _. Qed.

Lemma keeps_open_ M p : keeps M (open_ p) any.
Proof.
  intros h Hh. unfold hsafe, open_. pose proof (sf_open p (os h)) as E.
  destruct (os_open p (os h)) as [r w]. simpl in E.
  destruct (result_ret r w h) as (v & h' & -> & Eo). split; [| done].
  unfold maps_of in *. by rewrite Eo, E.
Qed.

Lemma keeps_close_ M d : keeps M (close_ d) any.
Proof. intros h Hh. split; [| done]. unfold maps_of. simpl. by rewrite sf_close. Qed.

Lemma keeps_ioctl M d c u :
  keeps M (ioctl d c u) (fun r => forall i, r.2 = OutInfo i ->
    is_u32 (info_shared_base i) /\ is_u32 (info_shared_size i)).
Proof.
  intros h Hh. unfold hsafe, ioctl. pose proof (sf_ioctl d c u (os h)) as E.
  pose proof (sf_info d c u (os h)) as Hi. destruct (os_ioctl d c u (os h)) as [[r o] w].
  simpl in *. destruct (result_ret r w h) as (v & h' & -> & Eo). split; [| done].
  unfold maps_of in *. by rewrite Eo, E.
Qed.

Lemma keeps_poll M d t : keeps M (poll d t) any.
Proof.
  intros h Hh. unfold hsafe, poll. pose proof (sf_poll d t (os h)) as E.
  destruct (os_poll d t (os h)) as [[r o] w]. simpl in *.
  destruct (result_ret r w h) as (v & h' & -> & Eo). split; [| done].
  unfold maps_of in *. by rewrite Eo, E.
Qed.

Lemma keeps_ld32 M a : mapped M a 4 -> keeps M (ld32 a) is_u32.
Proof.
  intros Ha h Hh. unfold hsafe, ld32. unfold maps_of in Hh. pose proof (sf_load a (os h)) as H.
  rewrite Hh in H. specialize (H Ha). destruct (os_load32 a (os h)) as [[v w]| | |]; simpl; [| done ..].
  destruct H as [Hv Hw]. by split.
Qed.

Lemma keeps_st32 M a v : mapped M a 4 -> keeps M (st32 a v) any.
Proof.
  intros Ha h Hh. unfold hsafe, st32. unfold maps_of in Hh.
  pose proof (sf_store a (u32 v) (os h)) as H. rewrite Hh in H. specialize (H Ha).
  destruct (os_store32 a (u32 v) (os h)) as [w| | |]; simpl; done.
Qed.

Lemma keeps_memset0 M a n : mapped M a n -> keeps M (memset0 a n) any.
Proof.
  intros Ha h Hh. unfold hsafe, memset0. unfold maps_of in Hh.
  pose proof (sf_memset a n (os h)) as H. rewrite Hh in H. specialize (H Ha).
  destruct (os_memset0 a n (os h)) as [w| | |]; simpl; done.
Qed.

Lemma keeps_clock M : keeps M clock any.
Proof.
  intros h Hh. unfold hsafe, clock. pose proof (sf_clock (os h)) as E.
  destruct (os_clock (os h)) as [t w]. simpl in *. split; [| done]. unfold maps_of in *. simpl.
  by rewrite E.
Qed.

Lemma keeps_at M l i : 0 <= i < Z.of_nat (length l) -> keeps M (at_ l i) any.
Proof.
  intros Hi h Hh. unfold hsafe, at_. destruct (Z.ltb_spec i 0); [lia |].
  destruct (lookup_lt_is_Some_2 l (Z.to_nat i)) as [v ->]; [lia | done].
Qed.

Lemma keeps_file_u32 M file off :
  Forall is_byte file -> 0 <= off -> off + 4 <= Z.of_nat (length file) ->
  keeps M (file_u32 file off) is_u32.
Proof.
  intros Hb H1 H2 h Hh. unfold hsafe, file_u32. destruct (Z.ltb_spec off 0); [lia |].
  destruct (Z.ltb_spec (Z.of_nat (length file)) (off + 4)); [lia |]. split; [done |].
  unfold is_u32. pose proof (le_val_range (take 4 (drop (Z.to_nat off) file))) as Hr.
  rewrite length_take, length_drop in Hr.
  replace (4 `min` (length file - Z.to_nat off))%nat with 4%nat in Hr by lia.
  apply Hr, Forall_take, Forall_drop, Hb.
Qed.

(** ** Registers *)

(** The device is open: through the driver, or with the page of its registers
    mapped.  The address space may end inside the registers. *)
Definition dev_open (dev : device) (M : list (Z * Z)) : Prop :=
  dev_transport dev = TRANSPORT_DRIVER \/
  (mapped M (mapping dev) (page_size dev) /\ 0 <= page_base dev /\ 4096 <= page_size dev /\
   page_base dev <= u64 (base dev + RESET_CONTROL) < page_base dev + page_size dev /\
   (page_base dev + page_size dev <= 2 ^ 64 - 4096 \/ page_base dev + page_size dev = 2 ^ 64)).

Lemma dev_open_cons dev x M : dev_open dev M -> dev_open dev (x :: M).
Proof. intros [H|[H Hr]]; [by left | right]. split; [by apply mapped_cons | done]. Qed.

Lemma u64_over z : 2 ^ 64 <= z < 2 ^ 65 -> u64 z = z - 2 ^ 64.
Proof.
  intros H. transitivity (u64 (z - 2 ^ 64)); [| apply wrap_small; lia].
  unfold u64, wrap. by rewrite Zminus_mod, Z_mod_same_full, Z.sub_0_r, Zmod_mod.
Qed.

Lemma reg_ptr_mapped dev M off a :
  dev_transport dev <> TRANSPORT_DRIVER -> dev_open dev M -> in_block off ->
  reg_ptr dev off = Some a -> mapped M a 4.
Proof.
  intros Ht [H|((b & m & Hin & H1 & H2) & Hp0 & Hp1 & Hp2 & Hp3)] Hoff Ha; [done |].
  unfold in_block, BACKEND_ID, RESET_CONTROL, reg_ptr in *. 
  assert (u64 (base dev + off) = u64 (u64 (base dev + 0x30000) + (off - 0x30000))) as Hc.
  { unfold u64, wrap. rewrite Zplus_mod_idemp_l. f_equal. lia. }
  rewrite Hc in Ha. pose proof (wrap_range 64 (base dev + 0x30000) ltac:(lia)) as Hr.
  set (csr := u64 (base dev + 0x30000)) in *. clearbody csr.
  set (addr := u64 (csr + (off - 0x30000))) in *.
  assert (addr = csr + (off - 0x30000) \/ addr = csr + (off - 0x30000) - 2 ^ 64) as Hadd.
  { subst addr. destruct (Z.lt_ge_cases (csr + (off - 0x30000)) (2 ^ 64));
      [left; apply wrap_small; lia | right; apply u64_over; lia]. }
  assert (0 <= addr < 2 ^ 64) by (by apply wrap_range).
  destruct (Z.ltb_spec addr (page_base dev)); [done |].
  destruct (Z.ltb_spec (u64 (page_base dev + page_size dev)) (u64 (addr + 4))) as [|Hle]; [done |].
  cbn [orb] in Ha. injection Ha as <-. rewrite wrap_small by lia.
  assert (addr + 4 <= page_base dev + page_size dev); [| exists b, m; split; [done |]; lia].
  destruct Hp3 as [Hp3|Hp3].
  - rewrite (wrap_small 64 (page_base dev + _)) in Hle by lia.
    destruct (Z.lt_ge_cases (addr + 4) (2 ^ 64)); [rewrite wrap_small in Hle by lia; lia |]. lia.
  - rewrite Hp3 in *. change (u64 (2 ^ 64)) with 0 in Hle.
    destruct (Z.lt_ge_cases (addr + 4) (2 ^ 64)); [rewrite wrap_small in Hle by lia; lia |].
    rewrite u64_over in Hle by lia. lia.
Qed.

Lemma keeps_info_driver M dev :
  keeps M (get_info_driver dev) (fun i => is_u32 (info_shared_base (ci_ioc i)) /\
    is_u32 (info_shared_size (ci_ioc i))).
Proof.
  eapply keeps_bind; [apply keeps_ioctl |]. intros [r out] Ho. simpl in Ho.
  destruct (r =? 0); [| apply keeps_exit]. apply keeps_ret. simpl.
  destruct out as [|i| |]; try (by apply Ho); unfold is_u32; simpl; lia.
Qed.

Definition window_reg (off : Z) : Prop := off = SHARED_BASE \/ off = SHARED_SIZE.

Lemma keeps_read_reg M dev off :
  dev_open dev M -> in_block off ->
  keeps M (read_reg dev off) (fun v => window_reg off -> is_u32 v).
Proof.
  intros Hd Hoff. unfold read_reg.
  destruct (decide (dev_transport dev = TRANSPORT_DRIVER)) as [->|Ht].
  - eapply keeps_bind; [apply keeps_info_driver |]. intros i [Hb Hz].
    destruct (info_reg (ci_ioc i) off) as [v|] eqn:Ev; [| apply keeps_exit].
    apply keeps_ret. intros [->| ->]; injection Ev as <-; done.
  - assert (keeps M (match reg_ptr dev off with Some a => ld32 a | None => exit1 end) is_u32) as H.
    { destruct (reg_ptr dev off) as [a|] eqn:Ea; [| apply keeps_exit].
      apply keeps_ld32. by eapply reg_ptr_mapped. }
    destruct (dev_transport dev); [| | done]; (eapply keeps_mono; [| done]); done.
Qed.

Lemma keeps_write_reg M dev off v :
  dev_open dev M -> in_block off -> keeps M (write_reg dev off v) any.
Proof.
  intros Hd Hoff. unfold write_reg.
  destruct (decide (dev_transport dev = TRANSPORT_DRIVER)) as [->|Ht]; [apply keeps_exit |].
  assert (keeps M (match reg_ptr dev off with Some a => st32 a v | None => exit1 end) any) as H.
  { destruct (reg_ptr dev off) as [a|] eqn:Ea; [| apply keeps_exit].
    apply keeps_st32. by eapply reg_ptr_mapped. }
  by destruct (dev_transport dev).
Qed.

Lemma keeps_get_info M dev : dev_open dev M -> keeps M (get_info dev) any.
Proof.
  intros Hd. unfold get_info.
  destruct (dev_transport dev); [| | eapply keeps_any, keeps_info_driver];
    repeat (eapply keeps_then;
      [eapply keeps_any, keeps_read_reg; [done | reg_offset] |]; intros ?);
    by apply keeps_ret.
Qed.

(** ** Running *)

Lemma keeps_verdict M st : keeps M (run_verdict st) any.
Proof.
  unfold run_verdict. repeat case_match; try (by apply keeps_ret);
    (eapply keeps_then; [apply keeps_set_errno |]; intros ?; by apply keeps_ret).
Qed.

Lemma keeps_poll_retry M turns d t : keeps M (poll_retry turns d t) any.
Proof.
  induction turns as [|turns IH]; [apply keeps_hang |]. cbn [poll_retry].
  eapply keeps_then; [apply keeps_poll |]. intros r.
  eapply keeps_then; [apply keeps_get_errno |]. intros e.
  destruct (_ && _); [done | by apply keeps_ret].
Qed.

Lemma keeps_poll_reg M n dev st : dev_open dev M -> keeps M (poll_reg n dev st) any.
Proof.
  intros Hd. revert st. induction n as [|n IH]; intros st; [by apply keeps_ret |]. cbn [poll_reg].
  eapply keeps_then; [eapply keeps_any, keeps_read_reg; [done | reg_offset] |]. intros v.
  destruct (negb _); [by apply keeps_ret | apply IH].
Qed.

Lemma keeps_reset_then {A} M dev (f : Z -> host W A) Q :
  (forall r, keeps M (f r) Q) -> keeps M (ioc_reset dev ≫= f) Q.
Proof.
  intros Hf. eapply keeps_then; [| done]. eapply keeps_then; [eapply keeps_any, keeps_ioctl |].
  intros [r o]. by apply keeps_ret.
Qed.

Lemma keeps_errno_ret {A} M e (a : A) : keeps M (set_errno e ≫= fun _ => mret a) any.
Proof. eapply keeps_then; [apply keeps_set_errno |]. intros ?. by apply keeps_ret. Qed.

Lemma keeps_run M turns dev entry polls :
  dev_open dev M -> keeps M (run turns dev entry polls) any.
Proof.
  intros Hd. unfold run.
  assert (keeps M (run_devmem dev entry polls) any) as Hm.
  { unfold run_devmem.
    do 3 (eapply keeps_then; [apply keeps_write_reg; [done | reg_offset] |]; intros ?).
    eapply keeps_then; [by apply keeps_poll_reg |]. intros st.
    eapply keeps_then; [apply keeps_verdict |]. intros r. by apply keeps_ret. }
  destruct (dev_transport dev); [done | done |]. case_match.
  - unfold run_async. eapply keeps_then; [eapply keeps_any, keeps_ioctl |]. intros [r o].
    destruct (negb (r =? 0)); [by apply keeps_ret |].
    eapply keeps_then; [apply keeps_poll_retry |]. intros [pr ev].
    eapply keeps_then; [by apply keeps_get_info |]. intros i.
    destruct (pr <? 0); [apply keeps_reset_then; intros; by apply keeps_ret |].
    destruct (pr =? 0); [apply keeps_reset_then; intros; apply keeps_errno_ret |].
    case_match; [apply keeps_reset_then; intros; apply keeps_errno_ret |].
    case_match; [apply keeps_reset_then; intros; apply keeps_errno_ret |].
    apply keeps_reset_then. intros r'. destruct (negb (r' =? 0)); by apply keeps_ret.
  - unfold run_sync. eapply keeps_then; [eapply keeps_any, keeps_ioctl |]. intros [r o].
    destruct (negb (r =? 0)); [by apply keeps_ret |].
    eapply keeps_then; [apply keeps_verdict |]. intros v. by apply keeps_ret.
Qed.

(** ** Windows *)

(** [p] takes the mappings from [M] to [M']. *)
Definition moves {A} (M M' : list (Z * Z)) (p : host W A) (Q : A -> Prop) : Prop :=
  forall h, maps_of h = M -> hsafe p (fun a h' => maps_of h' = M' /\ Q a) h.

Lemma moves_then {A B} M M' M'' (p : host W A) (f : A -> host W B) Q :
  moves M M' p any -> (forall a, moves M' M'' (f a) Q) -> moves M M'' (p ≫= f) Q.
Proof.
  intros Hp Hf h Hh. apply hsafe_bind. eapply hsafe_mono; [| by apply Hp].
  intros a h' [Hm _]. by apply Hf.
Qed.

Definition with_win (w : shared_window) (M : list (Z * Z)) : list (Z * Z) :=
  (win_mapping w, win_map_size w) :: M.

Definition window_in (w : shared_window) (M : list (Z * Z)) : Prop :=
  0 < win_mapping w /\
  forall k n, 0 <= k -> k + n <= win_size w -> mapped (with_win w M) (win_bytes w + k) n.

Lemma moves_munmap a n M : moves ((a, n) :: M) M (munmap a n) (fun r => r = 0).
Proof.
  intros h Hh. unfold hsafe, munmap. destruct (sf_munmap a n (os h) M Hh) as [Hr Hm].
  destruct (os_munmap a n (os h)) as [r w]. simpl in *. by subst r.
Qed.

Lemma moves_close w M : window_in w M -> moves (with_win w M) M (close_shared_window w) any.
Proof.
  intros [Hw _]. unfold close_shared_window. destruct (Z.eqb_spec (win_mapping w) 0); [lia |].
  eapply moves_then; [| intros r; by apply keeps_ret].
  intros h Hh. eapply hsafe_mono; [| by apply moves_munmap]. by intros r h' [? _].
Qed.

Lemma land_le z m : 0 <= z -> 0 <= Z.land z m <= z.
Proof.
  intros Hz. split; [apply Z.land_nonneg; auto |].
  assert (Z.land (Z.land z m) (Z.land z (Z.lnot m)) = 0) as H0.
  { rewrite Z.land_assoc, <- (Z.land_assoc z m z), (Z.land_comm m z), Z.land_assoc,
      Z.land_diag, <- Z.land_assoc, Z.land_lnot_diag. apply Z.land_0_r. }
  assert (Z.land z m + Z.land z (Z.lnot m) = z).
  { rewrite Z.add_nocarry_lxor, Z.lxor_lor by done.
    by rewrite <- Z.land_lor_distr_r, Z.lor_lnot_diag, Z.land_m1_r. }
  assert (0 <= Z.land z (Z.lnot m)) by (apply Z.land_nonneg; auto). lia.
Qed.

Lemma keeps_with_window {A} M dev min (f : Z * shared_window -> host W A) Q :
  dev_open dev M ->
  (forall r w, r <> 0 -> keeps M (f (r, w)) Q) ->
  (forall w, min <= win_size w -> window_in w M -> moves (with_win w M) M (f (0, w)) Q) ->
  keeps M (open_shared_window dev min ≫= f) Q.
Proof.
  intros Hd Hfail Hok h0 Hh0. apply hsafe_bind. unfold open_shared_window.
  apply hsafe_bind. eapply hsafe_mono; [| apply (keeps_read_reg M dev SHARED_BASE); [done | reg_offset | done]].
  intros wb h1 [Hh1 Hb]. specialize (Hb (or_introl eq_refl)).
  apply hsafe_bind. eapply hsafe_mono; [| apply (keeps_read_reg M dev SHARED_SIZE); [done | reg_offset | done]].
  intros sz h2 [Hh2 Hz]. specialize (Hz (or_intror eq_refl)).
  destruct (Z.ltb_spec sz min); [by apply Hfail |].
  set (driver := bool_decide _).
  destruct (driver && _).
  { apply hsafe_bind. simpl. by apply Hfail. }
  set (mask := u64 (page_size dev - 1)). set (off := if driver then 0 else Z.land wb mask).
  assert (0 <= off < 2 ^ 32) as Ho.
  { subst off. unfold is_u32 in Hb. pose proof (land_le wb mask ltac:(lia)). destruct driver; lia. }
  unfold is_u32 in Hz. rewrite (wrap_small 64 (off + sz)) by lia.
  apply hsafe_bind. unfold hsafe at 1, mmap. set (mb := if driver then 0 else _).
  pose proof (sf_mmap (off + sz) (fd dev) mb (os h2)) as Hm.
  destruct (os_mmap (off + sz) (fd dev) mb (os h2)) as [r w']. unfold result.
  destruct Hm as [[Hr Hw]|[Hr Hw]]; destruct (Z.ltb_spec r 0); try lia.
  - simpl. apply Hfail; [done |]. unfold maps_of in *. simpl. by rewrite Hw.
  - destruct (Z.eqb_spec r (-1)); [lia |]. apply Hok; simpl; [done | |].
    + split; [done |]. intros k len Hk Hn. simpl in *. exists r, (off + sz). split; [by left |]. lia.
    + unfold maps_of in *. simpl. rewrite Hw. by f_equal.
Qed.

(** ** Vector addition *)

Lemma seqZ_in n (j : nat) i : seqZ 0 n !! j = Some i -> 0 <= i < n.
Proof. intros H. apply lookup_seqZ in H. lia. Qed.

Section vector.
Context (M : list (Z * Z)) (w : shared_window) (Hw : window_in w M).
Context (in0 in1 : list Z) (n : Z).
Context (Hn : 0 <= n <= TENSOR_MAX_ELEMENTS) (Hsize : OUTPUT_OFFSET + n * 4 <= win_size w).
Context (H0 : n <= Z.of_nat (length in0)) (H1 : n <= Z.of_nat (length in1)).

Lemma win_word k : 0 <= k -> k + 4 <= win_size w -> mapped (with_win w M) (win_bytes w + k) 4.
Proof. intros. by apply Hw. Qed.

Lemma tensor_word o i :
  o = INPUT0_OFFSET \/ o = INPUT1_OFFSET \/ o = OUTPUT_OFFSET -> 0 <= i < n ->
  mapped (with_win w M) (win_bytes w + o + 4 * i) 4.
Proof.
  unfold INPUT0_OFFSET, INPUT1_OFFSET, OUTPUT_OFFSET, TENSOR_MAX_ELEMENTS in *. intros Ho Hi.
  rewrite <- Z.add_assoc. apply win_word; lia.
Qed.

Lemma field_word f : mapped (with_win w M) (field_addr (win_bytes w) f) 4.
Proof.
  unfold field_addr, COMMAND_OFFSET, OUTPUT_OFFSET in *. rewrite Z.add_0_r.
  apply win_word; destruct f; simpl; lia.
Qed.

Lemma keeps_fill_tensors : keeps (with_win w M) (fill_tensors (win_bytes w) in0 in1 n) any.
Proof.
  apply (keeps_each _ (fun _ => any)); [done |]. intros j i [] Hi _. apply seqZ_in in Hi.
  eapply keeps_then; [apply keeps_at; lia |]. intros x.
  eapply keeps_then; [apply keeps_st32, tensor_word; auto |]. intros _.
  eapply keeps_then; [apply keeps_at; lia |]. intros y.
  eapply keeps_then; [apply keeps_st32, tensor_word; auto |]. intros _.
  apply keeps_st32, tensor_word; auto.
Qed.

Lemma keeps_fill_command op : keeps (with_win w M) (fill_command (win_bytes w) op n) any.
Proof.
  apply (keeps_each _ (fun _ => any)); [done |]. intros j [f v] [] _ _. apply keeps_st32, field_word.
Qed.

Lemma keeps_check_output valid :
  keeps (with_win w M) (check_output (win_bytes w) in0 in1 n valid) any.
Proof.
  apply (keeps_each _ (fun _ => any)); [done |]. intros j i [c v] Hi _. apply seqZ_in in Hi.
  eapply keeps_then; [apply keeps_at; lia |]. intros x.
  eapply keeps_then; [apply keeps_at; lia |]. intros y.
  do 2 (eapply keeps_then; [eapply keeps_any, keeps_ld32, tensor_word; auto |]; intros ?).
  by apply keeps_ret.
Qed.

Lemma moves_collect op expected r st :
  moves (with_win w M) M (collect_vector_add w op in0 in1 n expected r st) any.
Proof.
  unfold collect_vector_add.
  eapply moves_then; [apply keeps_get_errno |]. intros e.
  do 4 (eapply moves_then; [eapply keeps_any, keeps_ld32, field_word |]; intros ?).
  eapply moves_then; [apply keeps_check_output |]. intros [c v].
  eapply moves_then; [by apply moves_close |]. intros _.
  destruct (negb (r =? 0)); [apply keeps_errno_ret |].
  case_match; [apply keeps_errno_ret | by apply keeps_ret].
Qed.

End vector.

Lemma keeps_submit M turns dev entry op in0 in1 n expected polls :
  dev_open dev M -> 0 <= n -> n <= Z.of_nat (length in0) -> n <= Z.of_nat (length in1) ->
  keeps M (submit_vector_add turns dev entry op in0 in1 n expected polls) any.
Proof.
  intros Hd Hn H0 H1. unfold submit_vector_add. case_match eqn:E; [apply keeps_errno_ret |].
  apply orb_false_iff in E as [[_ E]%orb_false_iff _]. apply Z.ltb_ge in E.
  apply keeps_with_window; [done | |].
  - intros r w Hr. apply Z.eqb_neq in Hr. rewrite Hr. by apply keeps_ret.
  - intros w Hs Hw. cbn [negb Z.eqb].
    eapply moves_then; [apply keeps_memset0 |].
    { apply Hw; unfold COMMAND_OFFSET, COMMAND_SIZE, OUTPUT_OFFSET in *; lia. }
    intros _. eapply moves_then; [by apply keeps_fill_tensors |].
    intros _. eapply moves_then; [by eapply keeps_fill_command |].
    intros _. eapply moves_then; [by apply keeps_run, dev_open_cons |]. intros [r st].
    by apply moves_collect.
Qed.

(** ** Model files *)

Lemma model_range_iff size off n :
  0 <= off -> 0 <= size < 2 ^ 32 ->
  model_range_valid size off n = true <-> off <= size /\ off + n <= size.
Proof.
  intros Ho Hs. unfold model_range_valid. rewrite andb_true_iff, !Z.leb_le.
  split; intros [H1 H2]; (split; [done |]); rewrite wrap_small in * by lia; lia.
Qed.

Lemma keeps_file_words M file off n :
  Forall is_byte file -> 0 <= off -> 0 <= n -> off + 4 * n <= Z.of_nat (length file) ->
  keeps M (file_words file off n) (fun l => Z.of_nat (length l) = n).
Proof.
  intros Hb Ho Hn Hl. unfold file_words.
  eapply keeps_mono; [| apply (keeps_each _ (fun i l => length l = i))].
  - intros l El. rewrite El, length_seqZ. lia.
  - done.
  - intros i z l Hi El. apply lookup_seqZ in Hi.
    eapply keeps_then; [eapply keeps_any, keeps_file_u32; [done | lia | lia] |]. intros v. apply keeps_ret.
    rewrite length_app, El. simpl. lia.
Qed.

Lemma keeps_read_file M turns d size file received :
  Forall is_byte file -> 0 <= received -> Z.of_nat (length file) = received ->
  received <= size < 2 ^ 32 ->
  keeps M (read_file turns d size file received) (fun r => match r with
    | inr f => Z.of_nat (length f) = size /\ Forall is_byte f | inl _ => True end).
Proof.
  revert file received. induction turns as [|turns IH]; intros file received Hb Hr Hf Hs;
    cbn [read_file]; (destruct (Z.leb_spec size received); [apply keeps_ret; split; [lia | done] |]);
    [apply keeps_hang |].
  intros h Hh. pose proof (sf_read d (size - received) (os h)) as H'. unfold hsafe.
  destruct (os_read d (size - received) (os h)) as [[r bs] w]. destruct H' as [Hw Hlen].
  unfold result, mbind, host_bind. unfold maps_of in Hh. rewrite Hh in Hw.
  destruct (Z.ltb_spec r 0); simpl; [by split |].
  destruct (Z.leb_spec r 0); [simpl; by split |].
  destruct (Hlen ltac:(lia)) as (Hle & Hbs & Hby). rewrite wrap_small by lia.
  apply IH; [by apply Forall_app | lia | rewrite length_app; lia | lia | done].
Qed.

(** A file as it was read. *)
Definition file_ok (f : Z * list Z) : Prop :=
  0 <= f.1 < 2 ^ 32 /\ Z.of_nat (length f.2) = f.1 /\ Forall is_byte f.2.

Definition loaded (r : option (Z * list Z)) : Prop :=
  match r with Some f => file_ok f | None => True end.

Lemma keeps_load_model M path : keeps M (load_model path) loaded.
Proof.
  unfold load_model. eapply keeps_then; [apply keeps_open_ |]. intros d.
  destruct (d <? 0); [by apply keeps_ret |]. eapply keeps_then; [apply keeps_ask |].
  assert (forall e, keeps M (close_ d;; set_errno e;; mret None) loaded) as Hout.
  { intros e. eapply keeps_then; [apply keeps_close_ |]. intros _.
    eapply keeps_then; [apply keeps_set_errno |]. intros _. by apply keeps_ret. }
  intros [e|size]; [apply Hout |]. destruct (Z.ltb_spec size 0); [apply Hout |].
  destruct (Z.ltb_spec UINT32_MAX size); [apply Hout |]. cbn [orb].
  eapply keeps_then; [apply keeps_ask |]. intros [|]; [| apply Hout]. cbn [negb].
  eapply keeps_bind; [apply keeps_read_file; [constructor | simpl; lia ..] |].
  intros [e|file] Hf; [apply Hout |].
  eapply keeps_then; [apply keeps_close_ |]. intros _. apply keeps_ret. split; [simpl; lia | done].
Qed.

Section file.
Context (size : Z) (file : list Z) (Hf : file_ok (size, file)).

Lemma keeps_word M off : 0 <= off -> off + 4 <= size -> keeps M (file_u32 file off) is_u32.
Proof. destruct Hf as (H1 & H2 & H3). simpl in *. intros. apply keeps_file_u32; [done | lia | lia]. Qed.

Lemma keeps_check_header M :
  keeps M (check_header file size) (fun r => match r with
    | Some (count, off) => 0 <= off /\ 0 <= count /\ off + MODEL_COMMAND_SIZE * count <= size
    | None => True end).
Proof.
  unfold check_header, MODEL_HEADER_SIZE. destruct (Z.ltb_spec size 32); [by apply keeps_ret |].
  do 6 (eapply keeps_bind; [apply keeps_word; lia |]; intros ? ?). rename a3 into count, a4 into off.
  case_match eqn:E; [by apply keeps_ret |]. apply keeps_ret.
  apply orb_false_iff in E as [E Er]. apply negb_false_iff in Er.
  apply orb_false_iff in E as [E _]. apply orb_false_iff in E as [_ Ec]. apply Z.ltb_ge in Ec.
  unfold MODEL_MAX_COMMANDS, MODEL_COMMAND_SIZE, is_u32 in *. destruct Hf as (Hs & _). simpl in Hs.
  apply model_range_iff in Er as [_ Er]; [| lia | lia]. rewrite wrap_small in Er by lia. lia.
Qed.

Lemma keeps_model_command M turns dev entry polls off :
  dev_open dev M -> 0 <= off -> off + MODEL_COMMAND_SIZE <= size ->
  keeps M (model_command turns dev entry polls file size off) any.
Proof.
  unfold MODEL_COMMAND_SIZE. intros Hd H1 H2. pose proof Hf as (Hs & Hl & Hb). simpl in Hs, Hl, Hb.
  unfold model_command.
  do 5 (eapply keeps_bind; [apply keeps_word; lia |]; intros ? ?).
  rename a0 into n, a1 into i0, a2 into i1. unfold is_u32 in *.
  case_match eqn:E; [apply keeps_errno_ret |].
  apply orb_false_iff in E as [E E1]. apply negb_false_iff in E1.
  apply orb_false_iff in E as [E E0]. apply negb_false_iff in E0.
  do 2 (apply orb_false_iff in E as [E _]). apply orb_false_iff in E as [_ En].
  apply Z.ltb_ge in En. unfold TENSOR_MAX_ELEMENTS in En.
  apply model_range_iff in E0 as [_ E0]; [| lia | lia].
  apply model_range_iff in E1 as [_ E1]; [| lia | lia].
  rewrite wrap_small in E0, E1 by lia.
  eapply keeps_bind; [apply keeps_file_words; [done | lia | lia | lia] |]. intros l0 L0.
  eapply keeps_bind; [apply keeps_file_words; [done | lia | lia | lia] |]. intros l1 L1. simpl in L0, L1.
  eapply keeps_then; [apply keeps_submit; [done | lia | lia | lia] |]. intros [r v].
  by apply keeps_ret.
Qed.

Lemma keeps_model_commands M turns dev entry polls offsets r :
  dev_open dev M -> Forall (fun off => 0 <= off /\ off + MODEL_COMMAND_SIZE <= size) offsets ->
  keeps M (model_commands turns dev entry polls file size offsets r) any.
Proof.
  intros Hd. revert r. induction offsets as [|off offsets IH]; intros r H; cbn [model_commands].
  - by apply keeps_ret.
  - apply Forall_cons_1 in H as [[H1 H2] H].
    eapply keeps_then; [by apply keeps_model_command |]. intros [v|]; [by apply IH | by apply keeps_ret].
Qed.

End file.

Lemma keeps_run_model_file M turns dev entry path polls :
  dev_open dev M -> keeps M (run_model_file turns dev entry path polls) any.
Proof.
  intros Hd. unfold run_model_file. eapply keeps_bind; [apply keeps_load_model |].
  intros [[size file]|] Hf; [| by apply keeps_ret]. simpl in Hf.
  eapply keeps_bind; [by apply keeps_check_header |].
  intros [[count off]|] Hc; [| apply keeps_errno_ret]. destruct Hc as (Ho & Hn & Hs).
  eapply keeps_then; [by apply keeps_get_info |]. intros before.
  eapply keeps_then; [apply keeps_clock |]. intros t0.
  eapply keeps_then; [apply keeps_model_commands; [done | done |] |].
  { apply Forall_fmap, Forall_seqZ. unfold MODEL_COMMAND_SIZE in *. intros i Hi. simpl. lia. }
  intros [[] r]; [| by apply keeps_ret]. cbn [negb].
  eapply keeps_then; [by apply keeps_get_info |]. intros after. cbn zeta.
  case_match; [apply keeps_errno_ret |].
  eapply keeps_then; [| intros t1; by apply keeps_ret].
  destruct t0; [apply keeps_clock | by apply keeps_ret].
Qed.

End safe.

(** The runtime is memory safe on every model file.  Whatever bytes the
    file has, however the reads are split, whatever the device or the driver
    answers, and at whatever step a system call fails: [run_model_file] never
    accesses memory outside a live mapping or a byte outside the file or its
    input arrays; and when it returns, every shared window it mapped has been
    unmapped again. *)
Theorem model_file_safe {W} {HO : OS W} {HM : OSMaps W} (HS : OSSafe W) turns dev entry path polls
    (h : hst W) (Hd : dev_open dev (os_maps (os h))) :
  match run_model_file turns dev entry path polls h with
  | Ret (_, h') => os_maps (os h') = os_maps (os h)
  | Undef => False
  | _ => True
  end.
Proof.
  pose proof (keeps_run_model_file _ turns dev entry path polls Hd h eq_refl) as H.
  unfold hsafe in H. destruct (run_model_file turns dev entry path polls h) as [[r h']| | |];
    [by destruct H | done ..].
Qed.

(** ** A world *)

(** A process with one file, a device whose registers all read as 0x1000, and
    memory that may be accessed where it is mapped. *)
Record files := { f_maps : list (Z * Z); f_file : list Z; f_pos : nat }.

Definition in_maps (M : list (Z * Z)) (a n : Z) : bool :=
  existsb (fun '(b, m) => (b <=? a) && (a + n <=? b + m)) M.

#[export] Instance files_os : OS files := {|
  os_pagesize _ := 4096;
  os_getenv _ _ := None;
  os_open _ w := (4, {| f_maps := f_maps w; f_file := f_file w; f_pos := 0 |});
  os_close _ w := w;
  os_ioctl _ _ _ w := (- ENOTTY, NoOut, w);
  os_poll _ _ w := (0, 0, w);
  os_mmap len _ _ w :=
    (0x80000000, {| f_maps := (0x80000000, len) :: f_maps w; f_file := f_file w; f_pos := f_pos w |});
  os_munmap _ _ w := (0, {| f_maps := tail (f_maps w); f_file := f_file w; f_pos := f_pos w |});
  os_load32 a w := if in_maps (f_maps w) a 4 then Ret (0x1000, w) else Undef;
  os_store32 a _ w := if in_maps (f_maps w) a 4 then Ret w else Undef;
  os_memset0 a n w := if in_maps (f_maps w) a n then Ret w else Undef;
  os_fstat_size _ w := inr (Z.of_nat (length (f_file w)));
  os_read _ n w :=
    let bs := take (Z.to_nat n) (drop (f_pos w) (u8 <$> f_file w)) in
    (Z.of_nat (length bs), bs,
     {| f_maps := f_maps w; f_file := f_file w; f_pos := f_pos w + length bs |});
  os_malloc _ _ := true;
  os_clock w := (Some (0, 0), w) |}.

#[export] Instance files_maps : OSMaps files := f_maps.

Lemma in_maps_true M a n : mapped M a n -> in_maps M a n = true.
Proof.
  intros (b & m & Hin & H1 & H2). apply existsb_exists. exists (b, m). split; [done |].
  apply andb_true_iff. by rewrite !Z.leb_le.
Qed.

Lemma files_safe : OSSafe files.
Proof.
  split; try done.
  - intros a w H. simpl. rewrite in_maps_true by done. unfold is_u32. split; [lia | done].
  - intros a v w H. simpl. by rewrite in_maps_true.
  - intros a n w H. simpl. by rewrite in_maps_true.
  - intros len d off w. simpl. right. split; [lia | done].
  - intros a n w M H. unfold os_maps, files_maps in *. simpl. by rewrite H.
  - intros w _. by exists 12.
  - intros d n w. simpl. split; [done |]. intros H. rewrite length_take, length_drop in *.
    split; [lia |]. split; [lia |]. apply Forall_take, Forall_drop, Forall_fmap.
    apply Forall_forall. intros x _. apply (wrap_range 8). lia.
Qed.

(** One command, adding one word. *)
Definition sample_file : list Z :=
  concat (le_bytes 4 <$> [MODEL_MAGIC; MODEL_VERSION; MODEL_HEADER_SIZE; 72; 1; 32; 0; 0;
                          OPCODE_VECTOR_ADD_U32; 1; 64; 68; 12; 0; 0; 0; 7; 5]).

Definition sample_process : hst files :=
  {| errno := 0; os := {| f_maps := [(0x10000, 4096)]; f_file := sample_file; f_pos := 0 |} |}.

Definition sample_mem_dev : device :=
  {| fd := 3; page_size := 4096; mapping := 0x10000; page_base := 0x1d030000; base := 0x1d000000;
     dev_transport := TRANSPORT_DEVMEM; dev_abi_version := 0; dev_features := 0 |}.

Lemma model_file_safe_witness :
  match run_model_file 1 sample_mem_dev 0 [] 2 sample_process with
  | Ret (_, h') => f_maps (os h') = [(0x10000, 4096)]
  | Undef => False
  | _ => True
  end.
Proof.
  apply (model_file_safe files_safe 1 sample_mem_dev 0 [] 2 sample_process).
  right. split.
  - exists 0x10000, 4096. split; [by left |]. simpl. lia.
  - vm_compute. intuition congruence.
Defined.
