(* ===== verification/MobilenetMain.v ===== *)
(** * The mailbox the inference firmware leaves

    [main] of the inference firmware on every path, against a contract for
    TensorFlow Lite Micro, and the condition under which the host's
    [mobilenet_test] accepts the mailbox. *)

From Stdlib Require Import SpecFloat.
From S2P Require Import KernelDriver Firmware HostRuntime.
From S2P Require Import Prelude Axi CustomMac Operator FixedPoint Kernels KernelSpec.
From S2P Require Import KernelsFloat HybridDispatch KernelFrame EnvParse Bridge BridgeSpec.
From S2P Require Import HybridSubmit Mobilenet MobilenetConv MobilenetHybrid MobilenetSpec.

(** ** Programs that return *)

Definition reaches {A} (p : fw A) (m : machine) (Q : A -> machine -> Prop) : Prop :=
  exists a m', p m = Ret (a, m') /\ Q a m'.

Lemma reaches_bind {A B} (p : fw A) (f : A -> fw B) m Q :
  reaches p m (fun a m1 => reaches (f a) m1 Q) -> reaches (p ≫= f) m Q.
Proof. intros (a & m1 & E & H). unfold reaches. by rewrite (run_bind _ _ _ _ _ E). Qed.

Lemma reaches_mono {A} (p : fw A) m (Q Q' : A -> machine -> Prop) :
  (forall a m', Q a m' -> Q' a m') -> reaches p m Q -> reaches p m Q'.
Proof. intros H (a & m' & E & Hq). exists a, m'. auto. Qed.

Lemma reaches_ret {A} (a : A) m (Q : A -> machine -> Prop) : Q a m -> reaches (mret a) m Q.
Proof. by exists a, m. Qed.

(** ** The mailbox *)

Abbreviation MB := OPENNPUX_CORAL_MOBILENET_MAILBOX_OFFSET.

(** The twenty words of the structure. *)
Definition fields (m : machine) : list Z := word (local_extmem (m_handle m)) MB <$> seqZ 0 20.

(** [m] differs from [m0] in the mailbox alone, which holds [ws]. *)
Record mailed (m0 : machine) (ws : list Z) (m : machine) : Prop := {
  ml_ok : machine_ok m;
  ml_fields : fields m = ws;
  ml_tcm : m_tcm m = m_tcm m0;
  ml_settings : settings (m_handle m) = settings (m_handle m0);
  ml_kept : forall j, ~ (MB <= j < MB + 80) ->
    buf_at (local_extmem (m_handle m)) j = buf_at (local_extmem (m_handle m0)) j }.

Lemma mailed_refl m : machine_ok m -> mailed m (fields m) m.
Proof. by split. Qed.

Lemma mailed_length m0 ws m : mailed m0 ws m -> length ws = 20%nat.
Proof. intros [_ <- _ _ _]. done. Qed.

(** Writing the words from [i] on. *)
Lemma fields_blit b i v :
  0 <= i < 20 ->
  (word (buf_blit b (MB + 4 * i) (le_bytes 4 v)) MB <$> seqZ 0 20)
    = <[Z.to_nat i := u32 v]> (word b MB <$> seqZ 0 20).
Proof.
  intros Hi. apply list_eq. intros k.
  destruct (decide (k < 20)%nat) as [Hk|Hk].
  - rewrite list_lookup_fmap, lookup_seqZ_lt by lia. cbn [fmap option_fmap option_map].
    rewrite word_blit_word. destruct (Z.eqb_spec (0 + Z.of_nat k) i) as [E|E].
    + replace k with (Z.to_nat i) by lia. rewrite list_lookup_insert_eq; [done |].
      rewrite length_fmap, length_seqZ. lia.
    + rewrite list_lookup_insert_ne by lia. by rewrite list_lookup_fmap, lookup_seqZ_lt by lia.
  - rewrite !lookup_ge_None_2; [done | |]; rewrite ?length_insert, length_fmap, length_seqZ; lia.
Qed.

Lemma blit_app mp off l1 l2 :
  blit mp off (l1 ++ l2) = blit (blit mp (off + Z.of_nat (length l1)) l2) off l1.
Proof.
  revert off. induction l1 as [|x l1 IH]; intros off; cbn [app length blit].
  - by rewrite Z.add_0_r.
  - rewrite IH. do 3 f_equal. lia.
Qed.

Lemma le_bytes_8 v : le_bytes 8 v = le_bytes 4 v ++ le_bytes 4 (Z.shiftr v 32).
Proof.
  rewrite Z.shiftr_div_pow2 by lia. change (2 ^ 32) with (256 * 256 * 256 * 256).
  cbn [le_bytes app]. by rewrite <- !Z.div_div by lia.
Qed.

Lemma fields_blit64 b i v :
  0 <= i < 19 ->
  (word (buf_blit b (MB + 4 * i) (le_bytes 8 v)) MB <$> seqZ 0 20)
    = <[Z.to_nat i := u32 v]>
        (<[Z.to_nat (i + 1) := u32 (Z.shiftr v 32)]> (word b MB <$> seqZ 0 20)).
Proof.
  intros Hi. rewrite le_bytes_8. unfold buf_blit. rewrite blit_app, length_le_bytes.
  change (Buf (buf_len b) (blit (blit ?mp ?o ?l) ?o' ?l')) with
    (buf_blit (buf_blit b o l) o' l').
  rewrite fields_blit by lia. f_equal.
  replace (MB + 4 * i + Z.of_nat 4) with (MB + 4 * (i + 1)) by lia.
  by rewrite fields_blit by lia.
Qed.

Lemma mailed_write m0 ws m i bs ws' :
  mailed m0 ws m -> 0 <= i -> 4 * i + Z.of_nat (length bs) <= 80 -> Forall is_byte bs ->
  (word (buf_blit (local_extmem (m_handle m)) (MB + 4 * i) bs) MB <$> seqZ 0 20) = ws' ->
  exists m', mem_write (kExtmemBase + MB + 4 * i) bs m = Ret (tt, m') /\ mailed m0 ws' m'.
Proof.
  intros [Hm Hf Ht Hs Hk] H0 H1 Hb Hw.
  eexists. split; [apply mem_write_extmem; [done | unfold_layout; lia..] |].
  replace (kExtmemBase + MB + 4 * i - kExtmemBase) with (MB + 4 * i) by lia.
  split; [| exact Hw | done | exact Hs |].
  - apply set_local_ok; [done | apply Hm | apply buf_bytes_blit; [apply Hm | done]].
  - intros j Hj. cbn [set_local with_bridge m_handle with_extmem local_extmem].
    rewrite buf_at_blit, decide_False by lia. by apply Hk.
Qed.

Lemma reaches_put {B} m0 ws m off i v (k : unit -> fw B) Q :
  mailed m0 ws m -> off = 4 * i -> 0 <= i < 20 ->
  (forall m', mailed m0 (<[Z.to_nat i := u32 v]> ws) m' -> reaches (k tt) m' Q) ->
  reaches (mailbox_put off v ≫= k) m Q.
Proof.
  intros Hd -> Hi Hk.
  destruct (mailed_write m0 ws m i (le_bytes 4 v) (<[Z.to_nat i := u32 v]> ws) Hd)
    as (m' & E & Hd'); [lia | rewrite length_le_bytes; lia | apply le_bytes_byte | |].
  { rewrite fields_blit by done. f_equal. apply Hd. }
  apply reaches_bind. exists tt, m'. split; [exact E | by apply Hk].
Qed.

Lemma reaches_put64 {B} m0 ws m off i v (k : unit -> fw B) Q :
  mailed m0 ws m -> off = 4 * i -> 0 <= i < 19 ->
  (forall m', mailed m0 (<[Z.to_nat i := u32 v]>
     (<[Z.to_nat (i + 1) := u32 (Z.shiftr v 32)]> ws)) m' -> reaches (k tt) m' Q) ->
  reaches (mailbox_put64 off v ≫= k) m Q.
Proof.
  intros Hd -> Hi Hk.
  destruct (mailed_write m0 ws m i (le_bytes 8 v) (<[Z.to_nat i := u32 v]>
     (<[Z.to_nat (i + 1) := u32 (Z.shiftr v 32)]> ws)) Hd)
    as (m' & E & Hd'); [lia | rewrite length_le_bytes; lia | apply le_bytes_byte | |].
  { rewrite fields_blit64 by done. do 2 f_equal. apply Hd. }
  apply reaches_bind. exists tt, m'. split; [exact E | by apply Hk].
Qed.

Lemma reaches_mark {R : Runtime} {B} highmem expf m0 ws m v (k : unit -> fw B) Q :
  mailed m0 ws m -> (forall m', mailed m0 ws m' -> reaches (k tt) m' Q) ->
  reaches (MarkProgress highmem expf v ≫= k) m Q.
Proof.
  intros [Hm Hf Ht Hs Hk] Hn. destruct (mark_progress highmem expf v m) as (c & ps & E).
  apply reaches_bind. eexists tt, _. split; [exact E |]. apply Hn.
  split; [by apply marked_ok | exact Hf | exact Ht | exact Hs | exact Hk].
Qed.

(** Storing word [i], and words [i] and [i + 1]. *)
Ltac put m Hd i :=
  eapply (reaches_put _ _ m _ i); [exact Hd | reflexivity | done |]; clear m Hd; intros m Hd.
Ltac put64 m Hd i :=
  eapply (reaches_put64 _ _ m _ i); [exact Hd | reflexivity | done |]; clear m Hd; intros m Hd.
Ltac mark m Hd :=
  eapply (reaches_mark _ _ _ _ m); [exact Hd |]; clear m Hd; intros m Hd.

(** An edit of the execution descriptor. *)
Lemma reaches_edit {B} m0 ws m f (k : unit -> fw B) Q :
  mailed m0 ws m -> (forall d, descriptor_wf d -> descriptor_wf (f d)) ->
  (forall m', mailed m' ws m' -> execution m' = f (execution m) ->
     settings (m_handle m') = settings (m_handle m) -> m_tcm m' = m_tcm m ->
     (forall j, own m j 1 -> byte_at m' j = byte_at m j) -> reaches (k tt) m' Q) ->
  reaches (edit_execution f ≫= k) m Q.
Proof.
  intros [Hm Hf Ht Hs Hk] Hwf Hn. apply reaches_bind. unfold edit_execution, reaches.
  rewrite (run_bind _ _ _ _ _ (get_descriptor_ok m CORAL_EXECUTION_DESCRIPTOR_OFFSET Hm
    ltac:(done) ltac:(done))).
  destruct (put_descriptor_own m CORAL_EXECUTION_DESCRIPTOR_OFFSET (f (execution m)) Hm)
    as (E & Hm' & El & Hb & Hx); [apply Hwf, load_descriptor_wf, Hm | done | done |].
  eexists tt, _. split; [exact E |]. apply Hn; [| exact El | done | done | exact Hb].
  split; [exact Hm' | | done | done | done]. rewrite <- Hf. apply list_fmap_ext. intros i x Hi.
  apply lookup_seqZ in Hi. unfold word. f_equal. apply buf_slice_ext. intros j Hj.
  apply Hx. unfold_layout. lia.
Qed.

(** What the mailbox does not change. *)
Lemma mailed_own m0 ws m j :
  machine_ok m0 -> mailed m0 ws m -> own m0 j 1 -> byte_at m j = byte_at m0 j.
Proof.
  intros Hm0 [Hm _ Ht _ Hk] Ho. unfold byte_at. rewrite Ht.
  destruct (in_extmem j 1) eqn:E; [| done]. unfold in_extmem in E. pose proof (mk_tcm _ Hm0).
  unfold own in Ho. apply Hk. unfold_layout. lia.
Qed.

Lemma mailed_bytes m0 ws m a n :
  machine_ok m0 -> mailed m0 ws m -> own m0 a n -> bytes_at m a n = bytes_at m0 a n.
Proof.
  intros Hm0 Hd Ho. apply bytes_at_ext. intros i Hi. apply (mailed_own _ _ _ _ Hm0 Hd).
  unfold own in *. lia.
Qed.

Lemma mailed_read m0 ws m a n :
  machine_ok m0 -> mailed m0 ws m -> 0 < n -> own m0 a n ->
  mem_read a n m = Ret (bytes_at m0 a n, m).
Proof.
  intros Hm0 Hd Hn Ho. rewrite <- (mailed_bytes _ _ _ _ _ Hm0 Hd Ho).
  apply mem_read_own; [apply Hd | done |]. unfold own in *. by rewrite (ml_tcm _ _ _ Hd).
Qed.

Lemma mailed_execution m0 ws m : mailed m0 ws m -> execution m = execution m0.
Proof.
  intros [_ _ _ _ Hk]. apply load_descriptor_ext. intros j Hj. apply Hk. unfold_layout. lia.
Qed.

Lemma reaches_execution {B} m0 ws m (k : coral_operator_descriptor -> fw B) Q :
  mailed m0 ws m -> reaches (k (execution m0)) m Q ->
  reaches (get_descriptor CORAL_EXECUTION_DESCRIPTOR_OFFSET ≫= k) m Q.
Proof.
  intros Hd Hk. apply reaches_bind. exists (execution m0), m. split; [| done].
  rewrite <- (mailed_execution _ _ _ Hd). apply get_descriptor_ok; [apply Hd | done | done].
Qed.

(** ** Reporting the results *)

(** The words of a byte of the output, and of a completed inference. *)
Definition output_word (b : Z) : Z := u32 (i8 b).

Definition reported (e : coral_operator_descriptor) (bs : list Z) : list Z :=
  [OPENNPUX_CORAL_MOBILENET_MAGIC; OPENNPUX_CORAL_MOBILENET_VERSION; MAILBOX_COMPLETE;
   MAILBOX_ERROR_NONE; u32 (d_modeled_cycles e); u32 (Z.shiftr (d_modeled_cycles e) 32);
   OPENNPUX_CORAL_MOBILENET_OUTPUT_COUNT] ++
  (output_word <$> take 5 bs) ++
  [Fnv1a32 bs; u32 (Z.of_nat (length bs));
   u32 (d_operation_count e); u32 (Z.shiftr (d_operation_count e) 32);
   u32 (d_bytes_read e); u32 (Z.shiftr (d_bytes_read e) 32);
   u32 (d_bytes_written e); u32 (Z.shiftr (d_bytes_written e) 32)].

Section report.
Context (m0 : machine) (Hm0 : machine_ok m0) (output : TfLiteTensor).
Context (Ho : own m0 (tt_data output) (tt_bytes output)).
Context (Hn : OPENNPUX_CORAL_MOBILENET_OUTPUT_COUNT <= tt_bytes output < 2 ^ 32).

Definition put_outputs (ws : list Z) (i : Z) : list Z :=
  foldl (fun ws j => <[Z.to_nat (7 + j) := output_word (byte_at m0 (tt_data output + j))]> ws)
    ws (seqZ 0 i).

Lemma reaches_outputs {B} ws m (k : unit -> fw B) Q :
  mailed m0 ws m -> (forall m', mailed m0 (put_outputs ws 5) m' -> reaches (k tt) m' Q) ->
  reaches ((fun m => forZ OPENNPUX_CORAL_MOBILENET_OUTPUT_COUNT (fun i m =>
     '(v, m) ← mem_read (tt_data output + i) 1 m;
     '(_, m) ← put_output i (i8 (le_val v)) m; Ret m) m ≫= fun m => Ret (tt, m)) ≫= k) m Q.
Proof.
  intros Hd Hk. apply reaches_bind.
  destruct (forZ_ret (fun i m => mailed m0 (put_outputs ws i) m) OPENNPUX_CORAL_MOBILENET_OUTPUT_COUNT
    (fun i m => '(v, m) ← mem_read (tt_data output + i) 1 m;
                '(_, m) ← put_output i (i8 (le_val v)) m; Ret m) m) as (m' & E & Hd');
    [done | exact Hd | |].
  - intros i m1 Hi Hd1. unfold OPENNPUX_CORAL_MOBILENET_OUTPUT_COUNT in *.
    assert (own m0 (tt_data output + i) 1) as Ho1 by (unfold own in *; lia).
    rewrite (mailed_read _ _ _ _ 1 Hm0 Hd1 ltac:(lia) Ho1). cbn [mbind res_bind].
    change (bytes_at m0 (tt_data output + i) 1) with [byte_at m0 (tt_data output + i)].
    replace (le_val _) with (byte_at m0 (tt_data output + i)) by (cbn [le_val foldr]; lia).
    destruct (reaches_put m0 (put_outputs ws i) m1 (28 + 4 * i) (7 + i)
      (i8 (byte_at m0 (tt_data output + i))) (fun _ => mret tt)
      (fun _ m' => mailed m0 (put_outputs ws (i + 1)) m') Hd1) as ([] & m2 & E2 & Hd2);
      [lia | lia | |].
    + intros m' Hd'. apply reaches_ret. unfold put_outputs.
      rewrite seqZ_snoc, foldl_app by lia. exact Hd'.
    + unfold mbind, fw_bind in E2. unfold put_output.
      destruct (mailbox_put _ _ m1) as [[[] m3]| | |]; [| done..]. injection E2 as <-.
      by exists m3.
  - exists tt, m'. rewrite E. split; [done | by apply Hk].
Qed.

Lemma execution_edit_wf d state error :
  descriptor_wf d -> is_u32 state -> is_u32 error -> descriptor_wf (set_state_error d state error).
Proof. intros Hd Hs He. apply set_outcome_wf; [done | done | done | apply Hd]. Qed.

Lemma with_written_wf n d : descriptor_wf d -> is_u64 n -> descriptor_wf (with_written n d).
Proof.
  intros Hd Hw. pose proof (wf_u32 _ Hd) as Hu. pose proof (wf_u64 _ Hd) as H64.
  rewrite !List.Forall_cons_iff in Hu. rewrite !List.Forall_cons_iff in H64.
  apply set_outcome_wf; [done | tauto | tauto |]. rewrite !List.Forall_cons_iff. tauto.
Qed.

Lemma fnv_u32 bs : u32 (Fnv1a32 bs) = Fnv1a32 bs.
Proof.
  assert (forall h, 0 <= h < 2 ^ 32 -> 0 <= fnv_loop h bs < 2 ^ 32) as H.
  { induction bs as [|b bs IH]; intros h Hh; [done |]. cbn [fnv_loop]. apply IH.
    apply wrap_range. lia. }
  apply wrap_small. by apply H.
Qed.

Lemma first_outputs :
  take 5 (bytes_at m0 (tt_data output) (tt_bytes output)) =
    (fun j => byte_at m0 (tt_data output + j)) <$> [0; 1; 2; 3; 4].
Proof.
  unfold OPENNPUX_CORAL_MOBILENET_OUTPUT_COUNT in Hn. unfold bytes_at.
  replace (tt_bytes output) with (5 + (tt_bytes output - 5)) by lia.
  rewrite seqZ_app, fmap_app, take_app_length' by (lia || done).
  change (seqZ (tt_data output) 5) with ((fun j => j + tt_data output) <$> seqZ 0 5).
  rewrite <- list_fmap_compose. change (seqZ 0 5) with [0; 1; 2; 3; 4].
  apply list_fmap_ext. intros _ j _. cbn. f_equal. lia.
Qed.

Lemma report_ok ws m mode :
  mailed m0 ws m -> (exists state rest, ws = OPENNPUX_CORAL_MOBILENET_MAGIC ::
    OPENNPUX_CORAL_MOBILENET_VERSION :: state :: MAILBOX_ERROR_NONE :: rest) ->
  reaches (report output mode) m (fun rc m' => rc = 0 /\ machine_ok m' /\
    fields m' = reported (execution m0) (bytes_at m0 (tt_data output) (tt_bytes output)) /\
    d_state (execution m') = CORAL_OPERATOR_STATE_COMPLETE /\
    d_error (execution m') = CORAL_OPERATOR_ERROR_NONE).
Proof.
  intros Hd Hws. pose proof (mailed_length _ _ _ Hd) as Hl. pose proof Hn as Hn1.
  unfold OPENNPUX_CORAL_MOBILENET_OUTPUT_COUNT in Hn1.
  unfold report. rewrite (wrap_small 32 (tt_bytes output)) by lia.
  apply (reaches_outputs ws); [exact Hd |]. clear m Hd. intros m Hd.
  apply reaches_bind. eexists _, m. split; [apply (mailed_read _ _ _ _ _ Hm0 Hd); [lia | exact Ho] |].
  put m Hd 12. put m Hd 13. apply (reaches_execution m0 _ m _ _ Hd).
  put64 m Hd 14. put64 m Hd 16. put64 m Hd 18. put m Hd 4. put m Hd 5. put m Hd 6. put m Hd 2.
  rewrite !wrap_wrap, fnv_u32 in Hd by lia.
  match type of Hd with mailed _ ?w _ => assert (w = reported (execution m0)
    (bytes_at m0 (tt_data output) (tt_bytes output))) as Ew end.
  { unfold reported, put_outputs. rewrite first_outputs, length_bytes_at, Z2Nat.id by lia.
    destruct Hws as (state & rest & ->). cbn [length] in Hl. injection Hl as Hl.
    do 16 (destruct rest as [|? rest]; [discriminate Hl |]). destruct rest; [| discriminate Hl].
    reflexivity. }
  rewrite Ew in Hd.
  assert (forall m1, mailed m1 (reported (execution m0)
      (bytes_at m0 (tt_data output) (tt_bytes output))) m1 ->
    reaches (edit_execution (fun d => set_state_error d CORAL_OPERATOR_STATE_COMPLETE
          CORAL_OPERATOR_ERROR_NONE);; mret 0) m1 (fun rc m' => rc = 0 /\ machine_ok m' /\
      fields m' = reported (execution m0) (bytes_at m0 (tt_data output) (tt_bytes output)) /\
      d_state (execution m') = CORAL_OPERATOR_STATE_COMPLETE /\
      d_error (execution m') = CORAL_OPERATOR_ERROR_NONE)) as Hlast.
  { intros m1 Hd1. eapply reaches_edit; [exact Hd1 | |].
    - intros d Hw. by apply execution_edit_wf.
    - intros m2 [Hm2 Hf2 _ _ _] Ee _ _ _. apply reaches_ret. by rewrite Ee. }
  destruct (mode =? CORAL_OPERATOR_MODE_RTL).
  - eapply reaches_edit; [exact Hd | |].
    + intros d Hw. by apply with_written_wf.
    + intros m1 Hd1 _ _ _ _. by apply Hlast.
  - apply reaches_bind, reaches_ret, Hlast. by split; try apply Hd.
Qed.

End report.

(** ** The steps of [main] *)

Lemma mailed_clock m0 ws m k : mailed m0 ws m -> mailed m0 ws (at_clock k m).
Proof. intros [Hm Hf Ht Hs Hk]. split; try done. destruct Hm. by split. Qed.

(** Outside the mailbox a machine may take the place of another. *)
Lemma mailed_fresh m0 ws m : mailed m0 ws m -> mailed m ws m.
Proof. intros [Hm Hf _ _ _]. by split. Qed.

Lemma fields_kept m m' :
  (forall j, MB <= j < MB + 80 ->
     buf_at (local_extmem (m_handle m')) j = buf_at (local_extmem (m_handle m)) j) ->
  fields m' = fields m.
Proof.
  intros H. apply list_fmap_ext. intros i x Hi. apply lookup_seqZ in Hi. unfold word. f_equal.
  apply buf_slice_ext. intros j Hj. apply H. lia.
Qed.

Lemma reaches_own_write {B} m0 ws m a bs (k : unit -> fw B) Q (p : fw unit) :
  mailed m0 ws m -> (0 < length bs)%nat -> own m a (Z.of_nat (length bs)) -> Forall is_byte bs ->
  (forall m', mem_write a bs m = Ret (tt, m') -> p m = Ret (tt, m')) ->
  (forall m', mailed m' ws m' -> reaches (k tt) m' Q) -> reaches (p ≫= k) m Q.
Proof.
  intros Hd Hl Ho Hb Hp Hk.
  destruct (mem_write_own m a bs (ml_ok _ _ _ Hd) Hl Ho Hb) as (m' & E & Hm' & _ & _ & Hby).
  apply reaches_bind. exists tt, m'. split; [by apply Hp |]. apply Hk. split; try done.
  rewrite <- (ml_fields _ _ _ Hd). apply fields_kept. intros j Hj.
  pose proof (mk_tcm _ (ml_ok _ _ _ Hd)). rewrite <- !extmem_byte by (unfold_layout; lia).
  rewrite Hby, decide_False; [done |]. unfold own in Ho. unfold_layout. lia.
Qed.

Lemma initial_execution_wf mode :
  is_u32 mode ->
  descriptor_wf (InitializeOperatorDescriptor CORAL_OPERATOR_OP_PARTIAL_MOBILENET mode).
Proof.
  intros Hm. destruct (initial_wf true) as [_ H2 H3 H4 H5]. split; [| done..].
  repeat (apply List.Forall_cons; [first [exact Hm | done] |]). apply List.Forall_nil.
Qed.

Lemma reaches_init {B} m0 ws m mode (k : unit -> fw B) Q :
  mailed m0 ws m -> is_u32 mode ->
  (forall m', mailed m' ws m' ->
     execution m' = InitializeOperatorDescriptor CORAL_OPERATOR_OP_PARTIAL_MOBILENET mode ->
     reaches (k tt) m' Q) ->
  reaches (init_descriptor CORAL_EXECUTION_DESCRIPTOR_OFFSET CORAL_OPERATOR_OP_PARTIAL_MOBILENET mode
        ≫= k) m Q.
Proof.
  intros Hd Hmode Hk. pose proof (ml_ok _ _ _ Hd) as Hm. apply reaches_bind.
  unfold init_descriptor. set (zs := replicate _ 0).
  pose proof (mem_write_extmem m (kExtmemBase + CORAL_EXECUTION_DESCRIPTOR_OFFSET) zs Hm
    ltac:(done) ltac:(done)) as E. unfold reaches. rewrite (run_bind _ _ _ _ _ E).
  set (m1 := set_local _ m). assert (machine_ok m1) as Hm1.
  { apply set_local_ok; [done | apply Hm | apply buf_bytes_blit; [apply Hm |]].
    by apply Forall_replicate. }
  destruct (put_descriptor_own m1 CORAL_EXECUTION_DESCRIPTOR_OFFSET _ Hm1
    (initial_execution_wf mode Hmode)) as (Ep & Hm2 & El & _ & Hx); [done | done |].
  eexists tt, _. split; [exact Ep |]. apply Hk; [| exact El]. split; try done.
  rewrite <- (ml_fields _ _ _ Hd). apply fields_kept. intros j Hj.
  rewrite Hx by (unfold_layout; lia). unfold m1, zs.
  cbn [set_local with_bridge m_handle with_extmem local_extmem].
  rewrite buf_at_blit, length_replicate, decide_False; [done |]. unfold_layout. lia.
Qed.

Section registers.
Context {R : Runtime} (highmem : bool).

Lemma reaches_mode {B} m0 ws m (k : Z -> fw B) Q :
  mailed m0 ws m ->
  (forall m' mode, mailed m0 ws m' -> is_u32 mode -> reaches (k mode) m' Q) ->
  reaches (OperatorMode highmem ≫= k) m Q.
Proof.
  intros Hd Hk. pose proof (ml_ok _ _ _ Hd) as Hm. apply reaches_bind.
  eexists _, _. split; [apply operator_mode_ok, Hm |]. apply Hk; [by apply mailed_clock | apply Hm].
Qed.

Lemma reaches_mask {B} m0 ws m (k : Z -> fw B) Q :
  mailed m0 ws m -> (forall m' mask, mailed m0 ws m' -> reaches (k mask) m' Q) ->
  reaches (SampledRtlMask highmem ≫= k) m Q.
Proof.
  intros Hd Hk. pose proof (ml_ok _ _ _ Hd) as Hm. apply reaches_bind.
  eexists _, _. split; [apply sampled_mask_ok, Hm |]. apply Hk. by apply mailed_clock.
Qed.

Lemma reaches_cycle {B} m0 ws m (k : Z -> fw B) Q :
  mailed m0 ws m -> (forall m' c, mailed m0 ws m' -> reaches (k c) m' Q) ->
  reaches (mcycle_read ≫= k) m Q.
Proof.
  intros Hd Hk. apply reaches_bind. eexists _, _. split; [reflexivity |].
  apply Hk. exact (mailed_clock _ _ _ (S (m_clock m)) Hd).
Qed.

End registers.

(** ** The library during one run *)

(** What the library answers. *)
Record library_run := {
  lr_allocate : TfLiteStatus; lr_input : option TfLiteTensor;
  lr_invoke : TfLiteStatus; lr_output : option TfLiteTensor }.

(** A call that returns, leaves the machine in order and the mailbox alone. *)
Definition returns {A} (p : fw A) (a : A) (P : machine -> machine -> Prop) : Prop :=
  forall m, machine_ok m -> exists m', p m = Ret (a, m') /\ machine_ok m' /\
    fields m' = fields m /\ P m m'.

(** The data of a tensor is the program's. *)
Definition tensor_own (o : option TfLiteTensor) (m : machine) : Prop :=
  forall t, o = Some t -> own m (tt_data t) (tt_bytes t) /\ 0 <= tt_bytes t < 2 ^ 32.

(** The interpreter keeps to its arena, and asking for the output computes
    nothing. *)
Class MicroLaws {T : Tflm} {L : MicroLibrary} (lr : library_run) : Prop := {
  allocate_ok i : returns (AllocateTensors i) (lr_allocate lr) (fun _ _ => True);
  input_ok i : returns (interpreter_input i 0) (lr_input lr)
                 (fun _ m' => tensor_own (lr_input lr) m');
  invoke_ok i : returns (Invoke i) (lr_invoke lr) (fun _ _ => True);
  output_ok i : returns (interpreter_output i 0) (lr_output lr)
                  (fun m m' => execution m' = execution m /\ tensor_own (lr_output lr) m') }.

Lemma reaches_call {A B} (p : fw A) a P m0 ws m (k : A -> fw B) Q :
  returns p a P -> mailed m0 ws m ->
  (forall m', p m = Ret (a, m') -> mailed m' ws m' -> P m m' -> reaches (k a) m' Q) ->
  reaches (p ≫= k) m Q.
Proof.
  intros Hr Hd Hk. destruct (Hr m (ml_ok _ _ _ Hd)) as (m' & E & Hm' & Hf & HP).
  apply reaches_bind. exists a, m'. split; [done |]. apply Hk; [done | | done].
  rewrite <- (ml_fields _ _ _ Hd), <- Hf. by apply mailed_refl.
Qed.

Section main.
Context {T : Tflm} {R : Runtime} {RL : RuntimeLaws} {L : MicroLibrary}.
Context (highmem : bool) (expf : spec_float -> spec_float).
Context (lr : library_run) {LL : MicroLaws lr}.

(** The error code of a run, zero for a run that completes. *)
Definition inference_verdict : Z :=
  if negb (bool_decide (lr_invoke lr = kTfLiteOk)) then MAILBOX_ERROR_INVOKE
  else match lr_output lr with
       | None => MAILBOX_ERROR_OUTPUT
       | Some output =>
           if tt_bytes output <? OPENNPUX_CORAL_MOBILENET_OUTPUT_COUNT
           then MAILBOX_ERROR_OUTPUT else MAILBOX_ERROR_NONE
       end.

Definition verdict : Z :=
  if negb (bool_decide ((RegisterOps highmem expf resolver_new).1 = kTfLiteOk))
     || negb (bool_decide (lr_allocate lr = kTfLiteOk))
  then MAILBOX_ERROR_ALLOCATE
  else match lr_input lr with
       | None => MAILBOX_ERROR_INPUT
       | Some input =>
           if (tt_data input =? 0) || (tt_bytes input =? 0) then MAILBOX_ERROR_INPUT
           else inference_verdict
       end.

(** The mailbox begins with the magic, the version, a state and an error. *)
Definition opened (state error : Z) (ws : list Z) : Prop :=
  exists rest, ws = OPENNPUX_CORAL_MOBILENET_MAGIC :: OPENNPUX_CORAL_MOBILENET_VERSION ::
    state :: error :: rest.

(** The counters of the execution descriptor. *)
Definition counters_of (d : coral_operator_descriptor) : list Z :=
  [d_operation_count d; d_bytes_read d; d_bytes_written d].

(** A completed run: one call of [Invoke], started with the counters at zero,
    whose counters and output are in the mailbox. *)
Definition completed_run (m' : machine) : Prop :=
  exists i m1 m2 m3 output,
    Invoke i m1 = Ret (kTfLiteOk, m2) /\ counters_of (execution m1) = [0; 0; 0] /\
    lr_output lr = Some output /\
    OPENNPUX_CORAL_MOBILENET_OUTPUT_COUNT <= tt_bytes output < 2 ^ 32 /\
    counters_of (execution m3) = counters_of (execution m2) /\
    fields m' = reported (execution m3) (bytes_at m3 (tt_data output) (tt_bytes output)) /\
    d_state (execution m') = CORAL_OPERATOR_STATE_COMPLETE /\
    d_error (execution m') = CORAL_OPERATOR_ERROR_NONE.

Definition main_post (rc : Z) (m' : machine) : Prop :=
  machine_ok m' /\
  if verdict =? 0 then rc = 0 /\ completed_run m'
  else rc = -1 /\ opened MAILBOX_ERROR verdict (fields m').

Lemma reaches_fail m0 ws m state error code :
  mailed m0 ws m -> opened state error ws -> code = verdict -> 0 < code < 2 ^ 32 ->
  reaches (Fail code) m main_post.
Proof.
  intros Hd (rest & ->) Hv Hc. put m Hd 3. put m Hd 2. apply reaches_ret.
  split; [apply Hd |]. rewrite <- Hv. replace (code =? 0) with false by lia. split; [done |].
  exists rest. rewrite (ml_fields _ _ _ Hd). rewrite (wrap_small 32 code) by lia. reflexivity.
Qed.

Lemma reaches_exec_fail m0 ws m state error code :
  mailed m0 ws m -> opened state error ws -> code = verdict -> 0 < code < 2 ^ 32 ->
  reaches (execution_failed;; Fail code) m main_post.
Proof.
  intros Hd Hw Hv Hc. eapply reaches_edit; [exact Hd | |].
  - intros d Hwf. by apply execution_edit_wf.
  - intros m1 Hd1 _ _ _ _. by eapply reaches_fail.
Qed.

Lemma with_flags_wf flags d : descriptor_wf d -> is_u32 flags -> descriptor_wf (with_flags flags d).
Proof.
  intros [H1 H2 H3 H4 H5] Hf. split; try done. cbn. rewrite !List.Forall_cons_iff in H1 |- *. tauto.
Qed.

Lemma set_cycles_wf d n : descriptor_wf d -> is_u64 n -> descriptor_wf (set_cycles d n).
Proof.
  intros Hd Hw. pose proof (wf_u32 _ Hd) as Hu. pose proof (wf_u64 _ Hd) as H64.
  rewrite !List.Forall_cons_iff in Hu. rewrite !List.Forall_cons_iff in H64.
  apply set_outcome_wf; [done | tauto | tauto |]. rewrite !List.Forall_cons_iff. tauto.
Qed.

(** The end of a run, from the output on. *)
Lemma reaches_finish ws m i m1 m2 state mode :
  mailed m ws m -> opened state MAILBOX_ERROR_NONE ws -> verdict = inference_verdict ->
  Invoke i m1 = Ret (kTfLiteOk, m2) -> lr_invoke lr = kTfLiteOk ->
  counters_of (execution m1) = [0; 0; 0] ->
  counters_of (execution m) = counters_of (execution m2) ->
  reaches (output ← interpreter_output i 0;
      match output with
      | Some output =>
          if tt_bytes output <? OPENNPUX_CORAL_MOBILENET_OUTPUT_COUNT
          then execution_failed;; Fail MAILBOX_ERROR_OUTPUT
          else report output mode
      | None => execution_failed;; Fail MAILBOX_ERROR_OUTPUT
      end) m main_post.
Proof.
  intros Hd Hw Hv Hi Hok Hc1 Hc2. unfold inference_verdict in Hv.
  rewrite Hok, bool_decide_true in Hv by done. cbn [negb] in Hv.
  eapply reaches_call; [apply output_ok | exact Hd |]. intros m3 _ Hd3 [Ee Ho].
  destruct (lr_output lr) as [output|] eqn:Eo; [| by eapply reaches_exec_fail].
  destruct (Ho output eq_refl) as [Hown Hsize].
  destruct (Z.ltb_spec (tt_bytes output) OPENNPUX_CORAL_MOBILENET_OUTPUT_COUNT);
    [by eapply reaches_exec_fail |].
  eapply reaches_mono; [| eapply (report_ok m3 (ml_ok _ _ _ Hd3) output Hown); [lia | exact Hd3 |]].
  - intros rc m' (-> & Hm' & Hf & Hst & He). split; [exact Hm' |]. rewrite Hv.
    split; [done |]. exists i, m1, m2, m3, output. rewrite <- Ee in Hc2. split_and!; (done || lia).
  - destruct Hw as (rest & ->). by exists state, rest.
Qed.

Lemma reaches_inference ws m i state :
  mailed m ws m -> opened state MAILBOX_ERROR_NONE ws -> verdict = inference_verdict ->
  reaches (run_inference highmem expf i) m main_post.
Proof.
  intros Hd Hw Hv. unfold run_inference.
  eapply reaches_cycle; [exact Hd |]. clear Hd. intros m1 start Hd.
  mark m1 Hd. eapply reaches_mode; [exact Hd |]. clear m1 Hd. intros m1 mode Hd Hmode.
  eapply reaches_mask; [exact Hd |]. clear m1 Hd. intros m1 mask Hd.
  eapply reaches_init; [exact Hd | exact Hmode |]. clear m1 Hd. intros m1 Hd E1.
  eapply reaches_edit; [exact Hd | intros d Hwf; by apply with_flags_wf |].
  intros m2 Hd2 E2 _ _ _. eapply reaches_edit; [exact Hd2 | |].
  { intros d Hwf. apply execution_edit_wf; [done | done |]. pose proof (wf_u32 _ Hwf) as Hu.
    rewrite !List.Forall_cons_iff in Hu. tauto. }
  intros m3 Hd3 E3 _ _ _.
  assert (counters_of (execution m3) = [0; 0; 0]) as Hc by (by rewrite E3, E2, E1).
  eapply reaches_call; [apply invoke_ok | exact Hd3 |]. intros m4 Ei Hd4 _.
  destruct (bool_decide (lr_invoke lr = kTfLiteOk)) eqn:Eok; cbn [negb];
    [| eapply reaches_exec_fail; [exact Hd4 | exact Hw | | done];
       unfold inference_verdict in Hv; by rewrite Eok in Hv].
  apply bool_decide_eq_true in Eok. rewrite Eok in Ei.
  eapply reaches_mark; [exact Hd4 |]. intros m5 Hd5.
  eapply reaches_cycle; [exact Hd5 |]. clear m5 Hd5. intros m5 finish Hd5.
  pose proof (mailed_execution _ _ _ Hd5) as E5. cbv zeta.
  assert (forall m6, mailed m6 ws m6 ->
    counters_of (execution m6) = counters_of (execution m4) -> reaches _ m6 main_post) as Hlast
    by (intros m6 Hd6 Hc6; exact (reaches_finish ws m6 i m3 m4 state mode Hd6 Hw Hv Ei Eok Hc Hc6)).
  destruct (_ || _).
  - eapply reaches_edit; [exact Hd5 | |].
    + intros d Hwf. apply set_cycles_wf; [done |]. apply wrap_range. lia.
    + intros m6 Hd6 E6 _ _ _. apply Hlast; [exact Hd6 |]. by rewrite E6, E5.
  - apply reaches_bind, reaches_ret, Hlast; [exact (mailed_fresh _ _ _ Hd5) | by rewrite E5].
Qed.

(** [main], on every path. *)
Lemma main_runs m : machine_ok m -> reaches (main highmem expf) m main_post.
Proof.
  intros Hm. pose proof (mailed_refl m Hm) as Hd. pose proof (mailed_length _ _ _ Hd) as Hl.
  unfold main. set (m0 := m) in Hd at 1. generalize dependent (fields m). clearbody m0. clear Hm.
  intros ws Hd Hl. mark m Hd. put m Hd 0. put m Hd 1. put m Hd 2. put m Hd 3. put m Hd 6. mark m Hd.
  match type of Hd with mailed _ ?w _ => set (ws1 := w) in Hd end.
  assert (opened MAILBOX_STARTED MAILBOX_ERROR_NONE ws1) as Hw.
  { do 7 (destruct ws as [|? ws]; [discriminate Hl |]). eexists. reflexivity. }
  clearbody ws1. pose proof (eq_refl verdict) as Hv. unfold verdict in Hv at 2.
  destruct (RegisterOps highmem expf resolver_new) as [sr resolver]. cbn [fst] in Hv.
  destruct (bool_decide (sr = kTfLiteOk)); cbn [negb orb] in Hv |- *; [| by eapply reaches_fail].
  mark m Hd. eapply reaches_call; [apply allocate_ok | exact Hd |]. intros m1 _ Hd1 _.
  destruct (bool_decide (lr_allocate lr = kTfLiteOk)); cbn [negb] in Hv |- *; [| by eapply reaches_fail].
  eapply reaches_mark; [exact Hd1 |]. intros m2 Hd2.
  eapply reaches_call; [apply input_ok | exact Hd2 |]. intros m3 _ Hd3 Ho.
  destruct (lr_input lr) as [input|]; [| by eapply reaches_fail].
  destruct (_ || _) eqn:E; [by eapply reaches_fail |].
  destruct (Ho input eq_refl) as [Hown Hs].
  eapply (reaches_own_write _ _ _ (tt_data input) (replicate (Z.to_nat (tt_bytes input)) (0 mod 256)));
    [exact Hd3 | rewrite length_replicate; lia | rewrite length_replicate, Z2Nat.id by lia; exact Hown
    | by apply Forall_replicate | intros m'; apply memset_ok |].
  intros m4 Hd4. eapply reaches_mark; [exact Hd4 |]. intros m5 Hd5.
  put m5 Hd5 2. destruct Hw as (rest & ->).
  eapply reaches_inference; [exact (mailed_fresh _ _ _ Hd5) | | exact Hv]. exists rest. reflexivity.
Qed.

End main.

(** ** What the host makes of it *)

(** The host's check, on the words of the mailbox. *)
Definition host_accepts (ws : list Z) : bool :=
  mailbox_valid (ws !!! 0%nat) (if ws !!! 0%nat =? MOBILENET_MAGIC then ws !!! 1%nat else 0)
    (ws !!! 2%nat) (ws !!! 3%nat) (ws !!! 6%nat) (ws !!! 13%nat).

Lemma opened_rejected error ws : opened MAILBOX_ERROR error ws -> host_accepts ws = false.
Proof. intros (rest & ->). done. Qed.

Lemma reported_accepted e m a n :
  OPENNPUX_CORAL_MOBILENET_OUTPUT_COUNT <= n < 2 ^ 32 ->
  host_accepts (reported e (bytes_at m a n)) = true.
Proof.
  intros Hn. unfold OPENNPUX_CORAL_MOBILENET_OUTPUT_COUNT in Hn.
  pose proof (length_bytes_at m a n) as Hl. set (bs := bytes_at m a n) in *.
  assert (length bs = 5 + Z.to_nat (n - 5))%nat as Hb by lia.
  unfold host_accepts, reported.
  assert (u32 (Z.of_nat (length bs)) <> 0) as Hz by (rewrite wrap_small; lia).
  do 5 (destruct bs as [|? bs]; [discriminate Hb |]). cbn -[u32 Fnv1a32 Z.of_nat length].
  unfold mailbox_valid. cbn -[u32 Fnv1a32 Z.of_nat length]. apply negb_true_iff, Z.eqb_neq, Hz.
Qed.


(** A library whose network does nothing. *)
#[export] Instance idle_library : MicroLibrary (T := sample_tflm) := {
  Register_CONV_2D := fun _ _ => mret kTfLiteOk;
  Register_DEPTHWISE_CONV_2D := fun _ _ => mret kTfLiteOk;
  Resolver := unit; resolver_new := ();
  AddConv2D := fun _ r => (kTfLiteOk, r); AddDepthwiseConv2D := fun _ r => (kTfLiteOk, r);
  AddBuiltin := fun _ r => (kTfLiteOk, r);
  Interpreter := unit; MicroInterpreter := fun _ _ _ => ();
  AllocateTensors := fun _ => mret kTfLiteOk;
  interpreter_input := fun _ _ => mret (Some {| tt_data := 0x20000100; tt_bytes := 4 |});
  interpreter_output := fun _ _ => mret (Some {| tt_data := 0x20000200; tt_bytes := 8 |});
  Invoke := fun _ => mret kTfLiteOk; tensor_arena := kExtmemBase }.

Definition idle_run : library_run :=
  {| lr_allocate := kTfLiteOk; lr_input := Some {| tt_data := 0x20000100; tt_bytes := 4 |};
     lr_invoke := kTfLiteOk; lr_output := Some {| tt_data := 0x20000200; tt_bytes := 8 |} |}.

#[export] Instance idle_laws : MicroLaws (L := idle_library) idle_run.
Proof.
  assert (forall a n m, 0x20000000 <= a -> a + n <= 0x20400000 -> own m a n) as Hown
    by (intros a n m H1 H2; by left).
  split; intros i m Hm; exists m; split_and!; try done.
  - intros t [= <-]. split; [by apply Hown | done].
  - intros t [= <-]. split; [by apply Hown | done].
Qed.

