(* ===== verification/Tools.v ===== *)
(** * The command-line tools ([runtime/host/tools])

    [coralctl.c] over the host runtime, and [mmio32.c], which accesses one
    32-bit word of physical memory, over the system calls.  A run returns the
    exit code and the printed lines; arguments are byte strings.  Printing
    leaves [errno] as it is. *)

From Stdlib Require Import Ascii String.
From S2P Require Import Prelude Firmware KernelDriver HostRuntime.

(** ** Printed lines *)

Inductive value :=
| Num (v : Z)
| Str (s : string)
| Arg (s : list Z)      (** an argument of the command line *)
| Unset.                (** a member of an object that was never written *)

Inductive line :=
| Out (format : string) (values : list value)      (** [printf] *)
| Err (format : string) (values : list value).     (** [fprintf(stderr, ...)] and [perror] *)

Definition c_string (s : string) : list Z :=
  (fun c => Z.of_nat (nat_of_ascii c)) <$> list_ascii_of_string s.

Definition transport_name (t : transport) : string :=
  match t with
  | TRANSPORT_DEVMEM => "devmem"
  | TRANSPORT_DRIVER => "driver"
  | TRANSPORT_UNKNOWN => "unknown"
  end.

Definition backend_name (b : backend) : string :=
  match b with
  | BACKEND_IS_STAGE_A => "stage-a"
  | BACKEND_IS_VERILATED => "verilated-coral"
  | BACKEND_UNKNOWN => "unknown"
  end.

(** ** Commands of coralctl *)

Inductive command :=
| command_info | command_run | command_dma_test | command_vector_add | command_vector_add_custom
| command_model_run | command_mobilenet_test | command_mem_info | command_mem_clear
| command_mem_read32 | command_mem_write32.

#[export] Instance command_eq_dec : EqDecision command.
Proof. solve_decision. Defined.

Definition command_names : list (string * command) :=
  [("info", command_info); ("run", command_run); ("dma-test", command_dma_test);
   ("vector-add", command_vector_add); ("vector-add-custom", command_vector_add_custom);
   ("model-run", command_model_run); ("mobilenet-test", command_mobilenet_test);
   ("mem-info", command_mem_info); ("mem-clear", command_mem_clear);
   ("mem-read32", command_mem_read32); ("mem-write32", command_mem_write32)]%string.

(** The [strcmp]s of [main]; the names are different. *)
Definition parse_command (arg : list Z) : option command :=
  snd <$> List.find (fun '(name, _) => str_eqb arg (c_string name)) command_names.

(** The test of the number of arguments, negated. *)
Definition argc_ok (c : command) (argc : Z) : bool :=
  match c with
  | command_info | command_mem_info | command_mem_clear => argc <=? 3
  | command_run => argc <=? 5
  | command_dma_test | command_mobilenet_test => argc <=? 4
  | command_vector_add | command_vector_add_custom | command_model_run => (3 <=? argc) && (argc <=? 5)
  | command_mem_read32 => (3 <=? argc) && (argc <=? 4)
  | command_mem_write32 => (4 <=? argc) && (argc <=? 5)
  end.

(** The variables that the arguments set before the device is opened. *)
Record settings := {
  set_base : Z; shared_offset : Z; shared_value : Z; vector_elements : Z; model_path : list Z }.

Definition DEFAULT_BASE : Z := 0x1d000000.

Definition usage (prog : list Z) : list line :=
  [Err "usage: %s info|run|dma-test|vector-add|vector-add-custom|model-run|mobilenet-test|mem-info|mem-clear|mem-read32|mem-write32"
     [Arg prog]].

Section tools.
Context {W : Type} `{HO : OS W}.

(** [argv[i]]; behind the last one there is a null pointer. *)
Definition argv_at (argv : list (list Z)) (i : Z) : host W (list Z) := fun h =>
  match (if i <? 0 then None else argv !! Z.to_nat i) with Some s => Ret (s, h) | None => Undef end.

(** [opennpux_coral_parse_u64] with its effect on [errno]. *)
Definition parse_arg (text : list Z) : host W (option Z) :=
  set_errno (if strtoull_overflows text then ERANGE else 0);;
  mret (parse_u64 text).

(** The optional base address at [argv[i]]: the error line, or the base. *)
Definition base_argument (argv : list (list Z)) (i : Z) : host W (line + Z) :=
  if Z.of_nat (length argv) <=? i then mret (inr DEFAULT_BASE) else
  text ← argv_at argv i;
  v ← parse_arg text;
  mret (match v with Some b => inr b | None => inl (Err "invalid base address: %s" [Arg text]) end).

Definition with_base (b : line + Z) (s : Z -> settings) : line + settings :=
  match b with inl l => inl l | inr b => inr (s b) end.

Definition plain_settings (b : Z) : settings :=
  {| set_base := b; shared_offset := 0; shared_value := 0; vector_elements := 0; model_path := [] |}.

(** The arguments of [mem-read32] and [mem-write32]. *)
Definition mem_arguments (write : bool) (argv : list (list Z)) : host W (line + settings) :=
  text ← argv_at argv 2;
  v ← parse_arg text;
  match v with
  | None => mret (inl (Err "invalid shared offset: %s" [Arg text]))
  | Some offset =>
      w ← (if write then
             text ← argv_at argv 3;
             v ← parse_arg text;
             mret (match v with
                   | Some x => if UINT32_MAX <? x then inl (Err "invalid 32-bit value: %s" [Arg text]) else inr x
                   | None => inl (Err "invalid 32-bit value: %s" [Arg text])
                   end)
           else mret (inr 0));
      match w with
      | inl l => mret (inl l)
      | inr x =>
          b ← base_argument argv (if write then 4 else 3);
          mret (with_base b (fun b =>
            {| set_base := b; shared_offset := offset; shared_value := x; vector_elements := 0; model_path := [] |}))
      end
  end.

Definition vector_arguments (argv : list (list Z)) : host W (line + settings) :=
  text ← argv_at argv 2;
  v ← parse_arg text;
  match v with
  | Some n =>
      if (n =? 0) || (TENSOR_MAX_ELEMENTS <? n)
      then mret (inl (Err "invalid vector element count: %s" [Arg text])) else
      b ← base_argument argv 3;
      mret (with_base b (fun b =>
        {| set_base := b; shared_offset := 0; shared_value := 0; vector_elements := n; model_path := [] |}))
  | None => mret (inl (Err "invalid vector element count: %s" [Arg text]))
  end.

Definition model_arguments (argv : list (list Z)) : host W (line + settings) :=
  path ← argv_at argv 2;
  b ← base_argument argv 3;
  mret (with_base b (fun b =>
    {| set_base := b; shared_offset := 0; shared_value := 0; vector_elements := 0; model_path := path |})).

Definition parse_arguments (c : command) (argv : list (list Z)) : host W (line + settings) :=
  match c with
  | command_mem_read32 => mem_arguments false argv
  | command_mem_write32 => mem_arguments true argv
  | command_model_run => model_arguments argv
  | command_vector_add | command_vector_add_custom => vector_arguments argv
  | _ => b ← base_argument argv 2; mret (with_base b plain_settings)
  end.

(** ** The commands *)

Definition print_info (dev : device) (info : coral_info) : list line :=
  let i := ci_ioc info in
  [Out "base=0x%08x" [Num (info_base i)];
   Out "transport=%s" [Str (transport_name (dev_transport dev))];
   Out "backend_id=0x%08x" [Num (info_backend_id i)];
   Out "backend=%s" [Str (backend_name (ci_backend info))];
   Out "firmware_entry=0x%08x" [Num (info_firmware_entry i)];
   Out "shared_base=0x%08x" [Num (info_shared_base i)];
   Out "shared_size=0x%08x" [Num (info_shared_size i)];
   Out "dma_requests=%u" [Num (info_dma_requests i)];
   Out "dma_completions=%u" [Num (info_dma_completions i)];
   Out "dma_errors=%u" [Num (info_dma_errors i)];
   Out "dma_state=0x%08x" [Num (info_dma_state i)];
   Out "reset_control=0x%08x" [Num (info_reset_control i)];
   Out "status=0x%08x" [Num (info_status i)];
   Out "driver_abi=%u" [Num (ci_abi_version info)];
   Out "driver_features=0x%08x" [Num (ci_features info)]].

Definition print_mem_info (dev : device) : host W (Z * list line) :=
  '(r, w) ← open_shared_window dev 0;
  if negb (r =? 0) then mret (1, []) else
  let lines := [Out "shared_base=0x%08x" [Num (win_base w)];
                Out "shared_size=0x%08x" [Num (win_size w)];
                Out "shared_words=%u" [Num (win_size w / 4)]] in
  close_shared_window w;;
  mret (0, lines).

(** What the two word commands say after a failure. *)
Definition word_failure (offset e : Z) : list line :=
  if e =? EINVAL then [Err "shared window offset must be 32-bit aligned" []]
  else if e =? ERANGE then [Err "shared window offset 0x%x is outside the shared window" [Num offset]]
  else [].

Definition print_read_shared_u32 (dev : device) (offset : Z) : host W (Z * list line) :=
  '(r, v) ← read_shared_u32 dev offset;
  if negb (r =? 0) then e ← get_errno; mret (1, word_failure offset e) else
  mret (0, [Out "shared[0x%08x]=0x%08x" [Num offset; Num (default 0 v)]]).

Definition print_write_shared_u32 (dev : device) (offset v : Z) : host W (Z * list line) :=
  r ← write_shared_u32 dev offset v;
  if negb (r =? 0) then e ← get_errno; mret (1, word_failure offset e) else
  mret (0, [Out "shared[0x%08x]=0x%08x" [Num offset; Num v]]).

(** What the three commands that run a program print first. *)
Definition run_lines (dev : device) (info : coral_info) (entry : Z) : list line :=
  [Out "transport=%s" [Str (transport_name (dev_transport dev))];
   Out "backend=%s" [Str (backend_name (ci_backend info))];
   Out "entry=0x%08x" [Num entry]].

Definition no_halt : line := Err "Coral NPU did not halt within the poll limit" [].

Definition print_run (turns : nat) (dev : device) (entry polls : Z) : host W (Z * list line) :=
  info ← get_info dev;
  '(r, st) ← run turns dev entry polls;
  let lines := run_lines dev info entry ++ [Out "status=0x%08x" [Num (default 0 st)]] in
  if negb (r =? 0) then
    e ← get_errno;
    mret (1, lines ++ [if e =? ETIMEDOUT then no_halt else Err "Coral NPU reported an execution fault" []])
  else mret (0, lines).

Definition member {A} (r : option A) (f : A -> Z) : value :=
  match r with Some a => Num (f a) | None => Unset end.

Definition print_dma_test (turns : nat) (dev : device) (entry polls : Z) : host W (Z * list line) :=
  info ← get_info dev;
  '(r, result) ← dma_test turns dev entry polls;
  let lines := run_lines dev info entry ++
    [Out "status=0x%08x" [member result dt_status];
     Out "dma_result=%u" [member result dt_result];
     Out "dma_magic=0x%08x" [member result dt_magic];
     Out "dma_requests=%u" [member result dt_requests];
     Out "dma_completions=%u" [member result dt_completions];
     Out "dma_errors=%u" [member result dt_errors];
     Out "dma_state=0x%08x" [member result dt_state]] in
  if negb (r =? 0) then
    e ← get_errno;
    mret (1, lines ++ (if e =? ETIMEDOUT then [no_halt] else []) ++
               [Err "Coral coherent DMA smoke failed" []])
  else mret (0, lines ++ [Out "dma_test=PASS" []]).

Definition print_vector_add (turns : nat) (dev : device) (entry op n polls : Z) : host W (Z * list line) :=
  info ← get_info dev;
  '(r, result) ← vector_add_test turns dev entry op n polls;
  let lines := run_lines dev info entry ++
    [Out "opcode=%u" [member result va_opcode];
     Out "command_status=%u" [member result va_status];
     Out "command_error=%u" [member result va_error_code];
     Out "completed_elements=%u" [member result va_completed_elements];
     Out "element_count=%u" [member result va_element_count];
     Out "output_checksum=0x%08x" [member result va_checksum];
     Out "accelerator_cycles=%u" [member result va_accelerator_cycles]] in
  if negb (r =? 0) then mret (1, lines ++ [Err "Coral vector-add command failed" []])
  else mret (0, lines ++ [Out "vector_add=PASS" []]).

Definition print_model_run (turns : nat) (dev : device) (entry : Z) (path : list Z) (polls : Z)
    : host W (Z * list line) :=
  '(r, result) ← run_model_file turns dev entry path polls;
  let lines :=
    [Out "model_commands=%u" [Num (mo_command_count result)];
     Out "completed_commands=%u" [Num (mo_completed_commands result)];
     Out "model_checksum=0x%08x" [Num (mo_output_checksum result)];
     Out "accelerator_cycles=%u" [Num (mo_accelerator_cycles result)];
     Out "model_dma_requests=%u" [Num (mo_dma_requests result)];
     Out "model_dma_completions=%u" [Num (mo_dma_completions result)];
     Out "model_dma_errors=%u" [Num (mo_dma_errors result)];
     Out "host_elapsed_ns=%u" [Num (mo_host_elapsed_ns result)]] in
  if negb (r =? 0) then e ← get_errno; mret (1, lines ++ [Err "model-run: %m" [Num e]])
  else mret (0, lines ++ [Out "model_run=PASS" []]).

(** The members of the zeroed result, which a failure to open the window leaves. *)
Definition mobilenet_member (r : option mobilenet_result) (f : mobilenet_result -> Z) : value :=
  Num (match r with Some a => f a | None => 0 end).

(** The loop over the outputs: at most five, at most as many as are counted. *)
Definition output_lines (r : option mobilenet_result) : host W (list line) :=
  let count := match r with Some a => mn_output_count a | None => 0 end in
  let output := match r with Some a => mn_output a | None => replicate 5 0 end in
  each (fun i l => v ← at_ output i;
                   mret (l ++ [Out "%s%d" [Str (if i =? 0 then "" else ","); Num v]]))
    (seqZ 0 (Z.min count MOBILENET_OUTPUT_COUNT)) [].

Definition print_mobilenet_test (turns : nat) (dev : device) (entry polls : Z) : host W (Z * list line) :=
  '(r, result) ← mobilenet_test turns dev entry polls;
  outputs ← output_lines result;
  let m := mobilenet_member result in
  let lines :=
    [Out "mobilenet_prepare=mailbox-only" [];
     Out "mobilenet_run=started" [];
     Out "status=0x%08x" [m mn_device_status];
     Out "mobilenet_state=0x%08x" [m mn_state];
     Out "mobilenet_error=%u" [m mn_error_code];
     Out "mobilenet_npu_cycles=%u" [m mn_npu_cycles];
     Out "mobilenet_output_checksum=0x%08x" [m mn_output_checksum];
     Out "mobilenet_output_bytes=%u" [m mn_output_bytes];
     Out "mobilenet_operation_count=%u" [m mn_operation_count];
     Out "mobilenet_bytes_read=%u" [m mn_bytes_read];
     Out "mobilenet_bytes_written=%u" [m mn_bytes_written];
     Out "mobilenet_dma_requests=%u" [m mn_dma_requests];
     Out "mobilenet_dma_completions=%u" [m mn_dma_completions];
     Out "mobilenet_dma_errors=%u" [m mn_dma_errors];
     Out "mobilenet_output=" []] ++ outputs ++ [Out "" []] in
  if negb (r =? 0) then e ← get_errno; mret (1, lines ++ [Err "mobilenet-test: %m" [Num e]])
  else mret (0, lines ++ [Out "mobilenet_test=PASS" []]).

(** ** [main] of coralctl *)

(** [opennpux_coral_close] before every return with an open device. *)
Definition closing (dev : device) (p : host W (Z * list line)) : host W (Z * list line) :=
  r ← p;
  coral_close dev;;
  mret r.

(** The position of the poll count. *)
Definition poll_arg (c : command) : Z :=
  match c with command_mobilenet_test | command_dma_test => 3 | _ => 4 end.

(** The entry point, which only [run] takes as an argument. *)
Definition entry_argument (c : command) (argv : list (list Z)) (entry : Z) : host W (line + Z) :=
  if bool_decide (c = command_run) && (4 <=? Z.of_nat (length argv)) then
    text ← argv_at argv 3;
    v ← parse_arg text;
    mret (match v with Some e => inr e | None => inl (Err "invalid entry address: %s" [Arg text]) end)
  else mret (inr entry).

Definition poll_argument (c : command) (argv : list (list Z)) : host W (line + Z) :=
  let polls := if bool_decide (c = command_run) then 1000 else 100000 in
  if poll_arg c <? Z.of_nat (length argv) then
    text ← argv_at argv (poll_arg c);
    v ← parse_arg text;
    mret (match v with
          | Some p => if p =? 0 then inl (Err "invalid poll count: %s" [Arg text]) else inr p
          | None => inl (Err "invalid poll count: %s" [Arg text])
          end)
  else mret (inr polls).

(** The commands that run a program. *)
Definition run_command (turns : nat) (c : command) (s : settings) (dev : device) (entry polls : Z)
    : host W (Z * list line) :=
  match c with
  | command_run => print_run turns dev entry polls
  | command_model_run => print_model_run turns dev entry (model_path s) polls
  | command_mobilenet_test => print_mobilenet_test turns dev entry polls
  | command_vector_add_custom =>
      print_vector_add turns dev entry OPCODE_VECTOR_ADD_CUSTOM_U32 (u32 (vector_elements s)) polls
  | command_vector_add =>
      print_vector_add turns dev entry OPCODE_VECTOR_ADD_U32 (u32 (vector_elements s)) polls
  | _ => print_dma_test turns dev entry polls
  end.

(** From [opennpux_coral_get_info] to the end. *)
Definition launch (turns : nat) (c : command) (s : settings) (argv : list (list Z)) (dev : device)
    : host W (Z * list line) :=
  info ← get_info dev;
  e ← entry_argument c argv (info_firmware_entry (ci_ioc info));
  match e with
  | inl l => mret (2, [l])
  | inr entry =>
      p ← poll_argument c argv;
      match p with
      | inl l => mret (2, [l])
      | inr polls => run_command turns c s dev (u32 entry) polls
      end
  end.

Definition clear_command (dev : device) : host W (Z * list line) :=
  r ← clear_shared_window dev;
  mret (if r =? 0 then (0, [Out "shared_clear=PASS" []]) else (1, [])).

(** One command on an open device. *)
Definition dispatch (turns : nat) (c : command) (s : settings) (argv : list (list Z)) (dev : device)
    : host W (Z * list line) :=
  match c with
  | command_info => info ← get_info dev; mret (0, print_info dev info)
  | command_mem_info => print_mem_info dev
  | command_mem_clear => clear_command dev
  | command_mem_read32 => print_read_shared_u32 dev (shared_offset s)
  | command_mem_write32 => print_write_shared_u32 dev (shared_offset s) (u32 (shared_value s))
  | _ => launch turns c s argv dev
  end.

Definition coralctl_main (turns : nat) (argv : list (list Z)) : host W (Z * list line) :=
  let argc := Z.of_nat (length argv) in
  let refuse := (2, usage (default [] (head argv))) in
  if (argc <? 2) || (6 <? argc) then mret refuse else
  name ← argv_at argv 1;
  match parse_command name with
  | None => mret refuse
  | Some c =>
      if negb (argc_ok c argc) then mret refuse else
      a ← parse_arguments c argv;
      match a with
      | inl l => mret (2, [l])
      | inr s =>
          '(r, dev) ← coral_open (set_base s);
          if negb (r =? 0) then mret (1, []) else
          closing dev (dispatch turns c s argv dev)
      end
  end.

(** ** [main] of mmio32 *)

Definition mmio_usage (prog : list Z) : list line := [Err "usage: %s read|write" [Arg prog]].

(** The access itself, with the page mapped. *)
Definition mmio_access (write : option Z) (reg : Z) : host W (list line) :=
  match write with
  | None => v ← ld32 reg; mret [Out "0x%08x" [Num v]]
  | Some v => st32 reg v;; mret []
  end.

(** From [sysconf] to the end. *)
Definition mmio_page (addr : Z) (write : option Z) : host W (Z * list line) :=
  page_size ← ask os_pagesize;
  if page_size <=? 0 then e ← get_errno; mret (1, [Err "sysconf(_SC_PAGESIZE): %m" [Num e]]) else
  let page_mask := u64 (page_size - 1) in
  let page_base := Z.land addr (UINT64_MAX - page_mask) in
  let page_offset := Z.land addr page_mask in
  d ← open_ DEVMEM_PATH;
  if d <? 0 then e ← get_errno; mret (1, [Err "open(/dev/mem): %m" [Num e]]) else
  m ← mmap page_size d page_base;
  if m =? -1 then e ← get_errno; close_ d;; mret (1, [Err "mmap(/dev/mem): %m" [Num e]]) else
  lines ← mmio_access write (m + page_offset);
  r ← munmap m page_size;
  if negb (r =? 0) then e ← get_errno; close_ d;; mret (1, lines ++ [Err "munmap: %m" [Num e]]) else
  close_ d;;
  mret (0, lines).

Definition mmio32_main (argv : list (list Z)) : host W (Z * list line) :=
  let argc := Z.of_nat (length argv) in
  let refuse := (2, mmio_usage (default [] (head argv))) in
  if negb (argc =? 3) && negb (argc =? 4) then mret refuse else
  name ← argv_at argv 1;
  let do_read := str_eqb name (c_string "read") in
  let do_write := str_eqb name (c_string "write") in
  if negb do_read && negb do_write then mret refuse else
  if (do_read && negb (argc =? 3)) || (do_write && negb (argc =? 4)) then mret refuse else
  text ← argv_at argv 2;
  a ← parse_arg text;
  match a with
  | None => mret (2, [Err "invalid address: %s" [Arg text]])
  | Some addr =>
      if do_write then
        text ← argv_at argv 3;
        v ← parse_arg text;
        match v with
        | None => mret (2, [Err "invalid value: %s" [Arg text]])
        | Some v => mmio_page addr (Some v)
        end
      else mmio_page addr None
  end.

End tools.
