(* ===== verification/ToolsSpec.v ===== *)
(** * What the command-line tools guarantee

    Memory safety and clean-up on every command line; where mmio32 leaves the
    page it has mapped. *)

From Stdlib Require Import String.
From S2P Require Import Prelude EnvParse Firmware KernelDriver HostRuntime HostSafe Tools.

Lemma parse_u64_range text v : parse_u64 text = Some v -> 0 <= v <= UINT64_MAX.
Proof.
  unfold parse_u64. pose proof (strtoull_range text) as H. destruct (strtoull text) as [x rest].
  case_match; [done |]. intros [= <-]. done.
Qed.

(** ** Safety *)

Section safe.
Context {W : Type} {HO : OS W} {HM : OSMaps W} {HS : OSSafe W}.

(** Steps of the tools that do not depend on the mappings. *)
Lemma keeps_argv M argv i : 0 <= i < Z.of_nat (length argv) -> keeps M (argv_at argv i) any.
Proof.
  intros Hi h Hh. unfold hsafe, argv_at. destruct (Z.ltb_spec i 0); [lia |].
  destruct (lookup_lt_is_Some_2 argv (Z.to_nat i)) as [s ->]; [lia | done].
Qed.

Lemma keeps_parse M text : keeps M (parse_arg text) (fun v => forall x, v = Some x -> 0 <= x <= UINT64_MAX).
Proof.
  eapply keeps_then; [apply keeps_set_errno |]. intros _. apply keeps_ret.
  intros x. apply parse_u64_range.
Qed.

Lemma keeps_base_argument M argv i : 0 <= i -> keeps M (base_argument argv i) any.
Proof.
  intros Hi. unfold base_argument. destruct (Z.leb_spec (Z.of_nat (length argv)) i); [by apply keeps_ret |].
  eapply keeps_then; [by apply keeps_argv |]. intros text.
  eapply keeps_then; [eapply keeps_any, keeps_parse |]. intros v. by apply keeps_ret.
Qed.

(** What the later steps rely on. *)
Definition settings_ok (r : line + settings) : Prop :=
  match r with inl _ => True | inr s => 0 <= shared_offset s end.

Lemma settings_base b f : (forall x, 0 <= shared_offset (f x)) -> settings_ok (with_base b f).
Proof. by destruct b; simpl. Qed.

Lemma keeps_mem_arguments M (write : bool) argv :
  (if write then 4 else 3) <= Z.of_nat (length argv) -> keeps M (mem_arguments write argv) settings_ok.
Proof.
  intros Hl. unfold mem_arguments. eapply keeps_then; [apply keeps_argv; destruct write; lia |].
  intros text. eapply keeps_bind; [apply keeps_parse |]. intros [off|] Hv; [| by apply keeps_ret].
  specialize (Hv off eq_refl). eapply keeps_then.
  { destruct write; [| by apply keeps_ret]. eapply keeps_then; [apply keeps_argv; lia |]. intros t2.
    eapply keeps_then; [eapply keeps_any, keeps_parse |]. intros v. by apply keeps_ret. }
  intros [l|x]; [by apply keeps_ret |].
  eapply keeps_then; [apply keeps_base_argument; by destruct write |]. intros b. apply keeps_ret.
  apply settings_base. intros y. simpl. lia.
Qed.

Lemma keeps_parse_arguments M c argv :
  argc_ok c (Z.of_nat (length argv)) = true -> keeps M (parse_arguments c argv) settings_ok.
Proof.
  intros Hc. destruct c; cbn [argc_ok parse_arguments] in *;
    repeat match goal with H : _ && _ = true |- _ => apply andb_true_iff in H as [?%Z.leb_le ?%Z.leb_le] end;
    try (by apply keeps_mem_arguments);
    try (eapply keeps_then; [by apply keeps_base_argument |]; intros b; apply keeps_ret;
         apply settings_base; done);
    (eapply keeps_then; [apply keeps_argv; lia |]; intros text).
  1,2: eapply keeps_then; [eapply keeps_any, keeps_parse |]; intros [n|]; [| by apply keeps_ret];
       case_match; [by apply keeps_ret |].
  all: eapply keeps_then; [by apply keeps_base_argument |]; intros b; apply keeps_ret;
       apply settings_base; done.
Qed.

(** An exit code of the tools. *)
Definition code_ok (r : Z * list line) : Prop := r.1 = 0 \/ r.1 = 1 \/ r.1 = 2.

Ltac finish := apply keeps_ret; unfold code_ok; repeat case_match; simpl; by auto.

(** *** The shared window *)

(** The continuation of a window that could not be opened returns. *)
Ltac window_failed :=
  intros r w Hr; rewrite (proj2 (Z.eqb_neq r 0)) by done; finish.

Lemma window_word M w k : window_in w M -> 0 <= k -> k + 4 <= win_size w ->
  mapped (with_win w M) (win_bytes w + k) 4.
Proof. intros [_ H]. apply H. Qed.

Lemma keeps_print_mem_info M dev : dev_open dev M -> keeps M (print_mem_info dev) code_ok.
Proof.
  intros Hd. apply keeps_with_window; [done | window_failed |].
  intros w _ Hw. eapply moves_then; [by apply moves_close |]. intros _. finish.
Qed.

Lemma keeps_clear M dev : dev_open dev M -> keeps M (clear_command dev) code_ok.
Proof.
  intros Hd. eapply keeps_then; [| intros r; finish].
  apply keeps_with_window; [done | window_failed |].
  intros w _ Hw. eapply moves_then.
    { apply keeps_memset0. rewrite <- (Z.add_0_r (win_bytes w)). apply Hw; lia. }
    intros _. eapply moves_then; [by apply moves_close |]. intros _. by apply keeps_ret.
Qed.

(** The check admits the words of the window only. *)
Lemma access_checked size offset :
  0 <= offset -> check_shared_u32_access size offset = 0 -> offset + 4 <= size.
Proof.
  intros H0. unfold check_shared_u32_access. case_match; [done |].
  destruct (Z.ltb_spec UINT32_MAX offset) as [|H1]; [done |].
  rewrite wrap_small by lia. destruct (Z.ltb_spec size (offset + 4)); [done | lia].
Qed.

Lemma keeps_read_word M dev offset :
  dev_open dev M -> 0 <= offset -> keeps M (read_shared_u32 dev offset) any.
Proof.
  intros Hd H0. apply keeps_with_window; [done | window_failed |].
  intros w _ Hw. cbn [negb Z.eqb]. destruct (Z.eqb_spec (check_shared_u32_access (win_size w) offset) 0) as [E|];
      cbn [negb].
    + apply access_checked in E; [| done].
      eapply moves_then; [eapply keeps_any, keeps_ld32; by apply window_word |]. intros v.
      eapply moves_then; [by apply moves_close |]. intros _. by apply keeps_ret.
    + eapply moves_then; [apply keeps_set_errno |]. intros _.
      eapply moves_then; [by apply moves_close |]. intros _. by apply keeps_ret.
Qed.

Lemma keeps_write_word M dev offset v :
  dev_open dev M -> 0 <= offset -> keeps M (write_shared_u32 dev offset v) any.
Proof.
  intros Hd H0. apply keeps_with_window; [done | window_failed |].
  intros w _ Hw. cbn [negb Z.eqb]. destruct (Z.eqb_spec (check_shared_u32_access (win_size w) offset) 0) as [E|];
      cbn [negb].
    + apply access_checked in E; [| done].
      eapply moves_then; [apply keeps_st32; by apply window_word |]. intros _.
      eapply moves_then; [by apply moves_close |]. intros _. by apply keeps_ret.
    + eapply moves_then; [apply keeps_set_errno |]. intros _.
      eapply moves_then; [by apply moves_close |]. intros _. by apply keeps_ret.
Qed.

(** *** The self tests *)

Lemma keeps_vector_add_test M turns dev entry op n polls :
  dev_open dev M -> 0 <= n -> keeps M (vector_add_test turns dev entry op n polls) any.
Proof.
  intros Hd Hn. unfold vector_add_test. case_match; [apply keeps_errno_ret |].
  eapply keeps_then; [apply keeps_submit; [done | done | |] |].
  1,2: rewrite length_fmap, length_seqZ; lia.
  intros [r v]. by apply keeps_ret.
Qed.

Lemma keeps_dma_test M turns dev entry polls :
  dev_open dev M -> keeps M (dma_test turns dev entry polls) any.
Proof.
  intros Hd. apply keeps_with_window; [done | window_failed |].
  intros w Hs Hw. cbn [negb Z.eqb].
    assert (mapped (with_win w M) (win_bytes w) 4) as H0
      by (rewrite <- (Z.add_0_r (win_bytes w)); apply window_word; [done | lia ..]).
    assert (dev_open dev (with_win w M)) as Hd' by (by apply dev_open_cons).
    eapply moves_then; [by apply keeps_st32 |]. intros _.
    do 2 (eapply moves_then; [apply keeps_st32, window_word; [done | lia ..] |]; intros _).
    eapply moves_then; [by apply keeps_run |]. intros [r st].
    eapply moves_then; [eapply keeps_any, keeps_ld32; done |]. intros v.
    eapply moves_then; [eapply keeps_any, keeps_ld32, window_word; [done | lia ..] |]. intros m.
    do 4 (eapply moves_then; [eapply keeps_any, keeps_read_reg; [done | reg_offset] |]; intros ?).
    eapply moves_then; [apply keeps_get_errno |]. intros e.
    eapply moves_then; [by apply moves_close |]. intros _.
    case_match; [apply keeps_errno_ret |]. case_match; [apply keeps_errno_ret | by apply keeps_ret].
Qed.

(** Whatever count the mailbox holds, the result has five outputs. *)
Definition five_outputs (r : Z * option mobilenet_result) : Prop :=
  match r.2 with Some m => length (mn_output m) = 5%nat | None => True end.

Lemma keeps_ld64 M a : mapped M a 4 -> mapped M (a + 4) 4 -> keeps M (ld64 a) any.
Proof.
  intros H0 H4. eapply keeps_then; [eapply keeps_any, keeps_ld32; done |]. intros lo.
  eapply keeps_then; [eapply keeps_any, keeps_ld32; done |]. intros hi. by apply keeps_ret.
Qed.

Lemma keeps_outputs M a (n : nat) :
  (forall i, 0 <= i < Z.of_nat n -> mapped M (a + 4 * i) 4) ->
  keeps M (each (fun i l => v ← ld32 (a + 4 * i); mret (l ++ [i32 v])) (seqZ 0 (Z.of_nat n)) [])
    (fun l => length l = n).
Proof.
  intros Hm. eapply keeps_mono; [| apply (keeps_each M (fun i l => length l = i))]; [| done |].
  - intros l. by rewrite length_seqZ, Nat2Z.id.
  - intros i k l Hk Hl. apply seqZ_in in Hk.
    eapply keeps_then; [eapply keeps_any, keeps_ld32; by apply Hm |]. intros v. apply keeps_ret.
    rewrite length_app. simpl. lia.
Qed.

Lemma moves_bind {A B} M M' (p : host W A) (f : A -> host W B) P Q :
  keeps M p P -> (forall a, P a -> moves M M' (f a) Q) -> moves M M' (p ≫= f) Q.
Proof.
  intros Hp Hf h Hh. apply hsafe_bind. eapply hsafe_mono; [| by apply Hp].
  intros a h' [Hm Ha]. by apply (Hf a Ha).
Qed.

Lemma keeps_mobilenet_test M turns dev entry polls :
  dev_open dev M -> keeps M (mobilenet_test turns dev entry polls) five_outputs.
Proof.
  intros Hd. apply keeps_with_window; [done | window_failed |].
  intros w Hs Hw. cbn [negb Z.eqb]. unfold MOBILENET_MAILBOX_OFFSET, MOBILENET_MAILBOX_SIZE in *.
  set (mb := win_bytes w + 0x400000).
  assert (forall k, 0 <= k -> k + 4 <= 80 -> mapped (with_win w M) (mb + k) 4) as Hk.
  { intros k H0 H4. subst mb. rewrite <- Z.add_assoc. apply window_word; [done | lia ..]. }
  assert (mapped (with_win w M) mb 4) as H0 by (rewrite <- (Z.add_0_r mb); by apply Hk).
  assert (dev_open dev (with_win w M)) as Hd' by (by apply dev_open_cons).
  eapply moves_then; [apply keeps_memset0, Hw; lia |]. intros _.
  eapply moves_then; [by apply keeps_get_info |]. intros before.
  eapply moves_then; [by apply keeps_run |]. intros [r st].
  eapply moves_then; [apply keeps_get_errno |]. intros e.
  do 3 (eapply moves_then; [eapply keeps_any, keeps_ld32, Hk; lia |]; intros ?).
  eapply moves_bind.
  { apply (keeps_outputs _ (mb + 28) 5). intros i Hi. rewrite <- Z.add_assoc. apply Hk; lia. }
  intros output Ho.
  do 2 (eapply moves_then; [eapply keeps_any, keeps_ld32, Hk; lia |]; intros ?).
  do 3 (eapply moves_then; [apply keeps_ld64; [apply Hk; lia | rewrite <- Z.add_assoc; apply Hk; lia] |]; intros ?).
  do 2 (eapply moves_then; [eapply keeps_any, keeps_ld32, Hk; lia |]; intros ?).
  eapply moves_then; [eapply keeps_any, keeps_ld32, H0 |]. intros m.
  eapply moves_then; [destruct (m =? MOBILENET_MAGIC); [eapply keeps_any, keeps_ld32, Hk; lia | by apply keeps_ret] |].
  intros v. eapply moves_then; [by apply keeps_get_info |]. intros after.
  eapply moves_then; [by apply moves_close |]. intros _. cbn zeta.
  case_match; [| case_match]; try (by apply keeps_ret);
    (eapply keeps_then; [apply keeps_set_errno |]; intros _; by apply keeps_ret).
Qed.

Lemma keeps_output_lines M r n : five_outputs (n, r) -> keeps M (output_lines r) any.
Proof.
  intros H5. unfold output_lines, five_outputs in *. simpl in H5.
  apply (keeps_each M (fun _ => any)); [done |]. intros j i l Hi _. apply seqZ_in in Hi.
  unfold MOBILENET_OUTPUT_COUNT in Hi.
  eapply keeps_then; [apply keeps_at; destruct r; [rewrite H5 | simpl]; lia |].
  intros v. by apply keeps_ret.
Qed.

(** *** One command *)

(** Reading [errno] for the message before the end. *)
Ltac finish_errno := eapply keeps_then; [apply keeps_get_errno |]; intros ?; finish.

Lemma keeps_print_run M turns dev entry polls :
  dev_open dev M -> keeps M (print_run turns dev entry polls) code_ok.
Proof.
  intros Hd. eapply keeps_then; [by apply keeps_get_info |]. intros i.
  eapply keeps_then; [by apply keeps_run |]. intros [r st]. case_match; [finish_errno | finish].
Qed.

Lemma keeps_run_command M turns c s dev entry polls :
  dev_open dev M -> keeps M (run_command turns c s dev entry polls) code_ok.
Proof.
  intros Hd.
  assert (forall op, keeps M (print_vector_add turns dev entry op (u32 (vector_elements s)) polls) code_ok) as Hv.
  { intros op. eapply keeps_then; [by apply keeps_get_info |]. intros i.
    eapply keeps_then; [apply keeps_vector_add_test; [done | apply (wrap_range 32); lia] |].
    intros [r v]. case_match; finish. }
  assert (keeps M (print_dma_test turns dev entry polls) code_ok) as Hdma.
  { eapply keeps_then; [by apply keeps_get_info |]. intros i.
    eapply keeps_then; [by apply keeps_dma_test |]. intros [r v]. case_match; [finish_errno | finish]. }
  destruct c; cbn [run_command]; try done.
  - by apply keeps_print_run.
  - eapply keeps_then; [by apply keeps_run_model_file |]. intros [r v]. case_match; [finish_errno | finish].
  - eapply keeps_bind; [by apply keeps_mobilenet_test |]. intros [r v] H5.
    eapply keeps_then; [by eapply keeps_output_lines |]. intros l. case_match; [finish_errno | finish].
Qed.

Lemma keeps_launch M turns c s argv dev :
  dev_open dev M -> keeps M (launch turns c s argv dev) code_ok.
Proof.
  intros Hd. eapply keeps_then; [by apply keeps_get_info |]. intros i.
  assert (forall text (f : option Z -> line + Z), keeps M (parse_arg text ≫= fun v => mret (f v)) any) as Hp.
  { intros text f. eapply keeps_then; [eapply keeps_any, keeps_parse |]. intros v. by apply keeps_ret. }
  eapply keeps_then.
  { unfold entry_argument. destruct (bool_decide _); [| by apply keeps_ret]. cbn [andb].
    destruct (Z.leb_spec 4 (Z.of_nat (length argv))); [| by apply keeps_ret].
    eapply keeps_then; [apply keeps_argv; lia |]. intros text. apply Hp. }
  intros [l|entry]; [finish |]. eapply keeps_then.
  { unfold poll_argument. destruct (Z.ltb_spec (poll_arg c) (Z.of_nat (length argv))); [| by apply keeps_ret].
    eapply keeps_then; [apply keeps_argv; destruct c; simpl in *; lia |]. intros text. apply Hp. }
  intros [l|polls]; [finish | by apply keeps_run_command].
Qed.

Lemma keeps_dispatch M turns c s argv dev :
  dev_open dev M -> 0 <= shared_offset s -> keeps M (dispatch turns c s argv dev) code_ok.
Proof.
  intros Hd Ho. destruct c; cbn [dispatch]; try (by apply keeps_launch).
  - eapply keeps_then; [by apply keeps_get_info |]. intros i. finish.
  - by apply keeps_print_mem_info.
  - by apply keeps_clear.
  - eapply keeps_then; [by apply keeps_read_word |]. intros [r v]. case_match; [finish_errno | finish].
  - eapply keeps_then; [by apply keeps_write_word |]. intros r. case_match; [finish_errno | finish].
Qed.

(** *** Opening and closing *)

(** The mappings with an open device. *)
Definition dev_maps (dev : device) (M : list (Z * Z)) : list (Z * Z) :=
  if mapping dev =? 0 then M else (mapping dev, page_size dev) :: M.

Definition opened (M : list (Z * Z)) (r : Z * device) (h : hst W) : Prop :=
  if r.1 =? 0 then maps_of h = dev_maps r.2 M /\ dev_open r.2 (dev_maps r.2 M) else maps_of h = M.

Lemma open_driver_opened M dev d : forall h, maps_of h = M -> hsafe (open_driver dev d) (opened M) h.
Proof.
  intros h Hh. assert (keeps M (open_driver dev d) (fun r => r.1 = 0 -> mapping r.2 = 0 /\
    dev_transport r.2 = TRANSPORT_DRIVER)) as Hk.
  { eapply keeps_then; [eapply keeps_any, keeps_ioctl |]. intros [r out]. destruct (r =? 0).
    - cbn zeta. set (c := match out with OutCaps c => c | _ => _ end).
      destruct (negb (caps_abi_version c =? _)); [| by apply keeps_ret].
      eapply keeps_then; [apply keeps_close_ |]. intros _.
      eapply keeps_then; [apply keeps_set_errno |]. intros _. by apply keeps_ret.
    - eapply keeps_then; [apply keeps_get_errno |]. intros e. case_match; [| by apply keeps_ret].
      eapply keeps_then; [apply keeps_close_ |]. intros _. by apply keeps_ret. }
  eapply hsafe_mono; [| by apply Hk]. intros [r dev'] h' [Hm Hr]. unfold opened, dev_maps. simpl in *.
  destruct (Z.eqb_spec r 0) as [E|]; [| done]. destruct (Hr E) as [-> Ht]. split; [done | by left].
Qed.

Lemma land_page csr k : 0 <= k <= 64 -> 0 <= csr < 2 ^ 64 ->
  Z.land csr (UINT64_MAX - u64 (2 ^ k - 1)) = csr / 2 ^ k * 2 ^ k.
Proof.
  intros Hk Hc. pose proof (Z.pow_pos_nonneg 2 k ltac:(lia) ltac:(lia)).
  pose proof (Z.pow_le_mono_r 2 k 64 ltac:(lia) ltac:(lia)). rewrite wrap_small by lia.
  replace (UINT64_MAX - (2 ^ k - 1)) with (Z.shiftl (Z.ones (64 - k)) k).
  2: { rewrite Z.shiftl_mul_pow2, Z.ones_equiv by lia.
       assert (2 ^ 64 = 2 ^ (64 - k) * 2 ^ k) as E by (rewrite <- Z.pow_add_r by lia; f_equal; lia).
       change UINT64_MAX with (2 ^ 64 - 1). lia. }
  rewrite <- Z.shiftl_mul_pow2, <- Z.shiftr_div_pow2 by lia. apply Z.bits_inj'. intros n Hn.
  rewrite Z.land_spec, !Z.shiftl_spec by lia. destruct (Z.lt_ge_cases n k).
  { rewrite !(Z.testbit_neg_r _ (n - k)) by lia. apply andb_false_r. }
  rewrite Z.shiftr_spec, Z.testbit_ones_nonneg by lia. replace (n - k + k) with n by lia.
  destruct (Z.ltb_spec (n - k) (64 - k)); [apply andb_true_r |]. rewrite andb_false_r. symmetry.
  destruct (Z.eq_dec csr 0) as [->|]; [apply Z.bits_0 |]. apply Z.bits_above_log2; [lia |].
  apply Z.lt_le_trans with 64; [| lia]. apply Z.log2_lt_pow2; lia.
Qed.

Lemma open_devmem_opened M dev k :
  page_size dev = 2 ^ k -> 12 <= k < 64 -> forall h, maps_of h = M -> hsafe (open_devmem dev) (opened M) h.
Proof.
  intros Hps Hk h Hh. apply hsafe_bind. eapply hsafe_mono; [| by apply (keeps_open_ M)].
  intros d h1 [Hh1 _]. destruct (d <? 0); [done |].
  set (csr := u64 (base dev + RESET_CONTROL)).
  assert (0 <= csr < 2 ^ 64) as Hc by (apply (wrap_range 64); lia).
  rewrite Hps, land_page by lia. set (pbase := csr / 2 ^ k * 2 ^ k).
  assert (0 < 2 ^ k) as H2 by (apply Z.pow_pos_nonneg; lia).
  assert (2 ^ 12 <= 2 ^ k) as H12 by (apply Z.pow_le_mono_r; lia).
  pose proof (Z.div_mod csr (2 ^ k) ltac:(lia)). pose proof (Z.mod_pos_bound csr (2 ^ k) H2).
  pose proof (Z.div_pos csr (2 ^ k) ltac:(lia) H2).
  assert (2 ^ 64 = 2 ^ (64 - k) * 2 ^ k) as E64 by (rewrite <- Z.pow_add_r by lia; f_equal; lia).
  assert (csr / 2 ^ k < 2 ^ (64 - k)) as Hq by (apply Z.div_lt_upper_bound; lia).
  assert (pbase + 2 ^ k <= 2 ^ 64 - 4096 \/ pbase + 2 ^ k = 2 ^ 64) as Hend.
  { destruct (Z.eq_dec (csr / 2 ^ k) (2 ^ (64 - k) - 1)) as [E|E]; [right | left]; subst pbase; nia. }
  apply hsafe_bind. unfold hsafe at 1, mmap. pose proof (sf_mmap (2 ^ k) d pbase (os h1)) as Hm.
  destruct (os_mmap (2 ^ k) d pbase (os h1)) as [r w']. unfold result.
  destruct Hm as [[Hr Hw]|[Hr Hw]]; destruct (Z.ltb_spec r 0); try lia.
  - cbn [Z.eqb]. apply hsafe_bind. eapply hsafe_mono; [| apply (keeps_close_ M)].
    + intros ? h2 [Hh2 _]. done.
    + unfold maps_of in *. cbn [os set_os]. congruence.
  - destruct (Z.eqb_spec r (-1)); [lia |]. unfold hsafe, opened, dev_maps. simpl.
    destruct (Z.eqb_spec r 0); [lia |]. fold (maps_of h1) in Hw. rewrite Hh1 in Hw.
    split; [exact Hw |].
    right. simpl. fold csr. split; [exists r, (2 ^ k); split; [by left | lia] |].
    subst pbase. split; [lia |]. split; [lia |]. split; [lia | done].
Qed.

Lemma hsafe_ask {A B} (q : W -> A) (f : A -> host W B) Q h :
  hsafe (f (q (os h))) Q h -> hsafe (ask q ≫= f) Q h.
Proof. done. Qed.

Lemma coral_open_opened M b : forall h, maps_of h = M -> hsafe (coral_open b) (opened M) h.
Proof.
  intros h Hh. apply hsafe_ask. destruct (Z.leb_spec (os_pagesize (os h)) 0) as [|Hps]; [exact Hh |].
  destruct (sf_page (os h) Hps) as (k & Hk & Ek). do 2 apply hsafe_ask. cbn zeta.
  assert (forall h', maps_of h' = M -> hsafe (open_devmem
    {| fd := -1; page_size := os_pagesize (os h); mapping := 0; page_base := 0; base := b;
       dev_transport := TRANSPORT_UNKNOWN; dev_abi_version := 0; dev_features := 0 |}) (opened M) h') as Hd
    by (by apply (open_devmem_opened M _ k)).
  set (forced := match os_getenv n_transport (os h) with Some f => str_eqb f n_devmem | None => false end).
  destruct forced; [by apply Hd |].
  apply hsafe_bind. eapply hsafe_mono; [| by apply (keeps_open_ M)]. intros d h1 [Hh1 _].
  destruct (0 <=? d); [by apply open_driver_opened |].
  set (only := match os_getenv n_transport (os h) with Some f => str_eqb f n_driver | None => false end).
  destruct only; [exact Hh1 | by apply Hd].
Qed.

Lemma moves_coral_close dev M : moves (dev_maps dev M) M (coral_close dev) any.
Proof.
  unfold coral_close. apply (moves_then _ M).
  - unfold dev_maps. destruct (mapping dev =? 0); cbn [negb]; [by apply keeps_ret |].
    eapply moves_then; [| intros r; by apply keeps_ret].
    intros h Hh. eapply hsafe_mono; [| by apply moves_munmap]. by intros r h' [? _].
  - intros _. eapply moves_then; [| intros _; by apply keeps_ret].
    destruct (0 <=? fd dev); [apply keeps_close_ | by apply keeps_ret].
Qed.

Lemma keeps_main M turns argv : keeps M (coralctl_main turns argv) code_ok.
Proof.
  unfold coralctl_main.
  destruct (Z.ltb_spec (Z.of_nat (length argv)) 2); [finish |].
  destruct (6 <? _); cbn [orb]; [finish |].
  eapply keeps_then; [apply keeps_argv; lia |]. intros name.
  destruct (parse_command name) as [c|]; [| finish].
  destruct (argc_ok c _) eqn:Ec; cbn [negb]; [| finish].
  eapply keeps_bind; [by apply keeps_parse_arguments |]. intros [l|s] Hs; [finish |]. simpl in Hs.
  intros h Hh. apply hsafe_bind. eapply hsafe_mono; [| by apply coral_open_opened].
  intros [r dev] h1 Ho. unfold opened in Ho. simpl in Ho. destruct (r =? 0); cbn [negb].
  - destruct Ho as [Hm Hd]. unfold closing. apply hsafe_bind.
    eapply hsafe_mono; [| by apply (keeps_dispatch (dev_maps dev M) turns c s argv dev)].
    intros res h2 [Hm2 Hc]. apply hsafe_bind. eapply hsafe_mono; [| by apply moves_coral_close].
    intros _ h3 [Hm3 _]. done.
  - split; [done |]. unfold code_ok. simpl. auto.
Qed.

(** *** mmio32 *)

(** The four bytes at [addr] lie in one page. *)
Definition in_page (addr : Z) (w : W) : Prop :=
  Z.land addr (u64 (os_pagesize w - 1)) + 4 <= os_pagesize w.

Lemma mmio_page_safe addr write (h : hst W) :
  0 <= addr -> in_page addr (os h) ->
  hsafe (mmio_page addr write) (fun r h' => maps_of h' = maps_of h /\ code_ok r) h.
Proof.
  intros Ha Hin. unfold mmio_page. apply hsafe_ask. unfold in_page in Hin.
  set (ps := os_pagesize (os h)) in *. destruct (ps <=? 0).
  { apply (keeps_then (maps_of h)); [apply keeps_get_errno | | done]. intros e. finish. }
  set (off := Z.land addr (u64 (ps - 1))) in *. pose proof (land_le addr (u64 (ps - 1)) Ha) as Hoff.
  revert Hoff. fold off. intros Hoff.
  apply hsafe_bind. eapply hsafe_mono; [| by apply (keeps_open_ (maps_of h))]. intros d h1 [Hh1 _].
  destruct (d <? 0).
  { apply (keeps_then (maps_of h)); [apply keeps_get_errno | | done]. intros e. finish. }
  apply hsafe_bind. unfold hsafe at 1, mmap. set (pb := Z.land addr _).
  pose proof (sf_mmap ps d pb (os h1)) as Hm. destruct (os_mmap ps d pb (os h1)) as [m w']. unfold result.
  destruct Hm as [[Hr Hw]|[Hr Hw]]; destruct (Z.ltb_spec m 0); try lia.
  { cbn [Z.eqb]. apply (keeps_then (maps_of h)); [apply keeps_get_errno | | unfold maps_of in *; simpl; congruence].
    intros e. eapply keeps_then; [apply keeps_close_ |]. intros _. finish. }
  destruct (Z.eqb_spec m (-1)); [lia |].
  assert (mapped ((m, ps) :: maps_of h) (m + off) 4) as Hmap by (exists m, ps; split; [by left | lia]).
  apply (moves_then ((m, ps) :: maps_of h) ((m, ps) :: maps_of h)).
  - unfold mmio_access. destruct write as [v|].
    + eapply keeps_then; [by apply keeps_st32 |]. intros _. by apply keeps_ret.
    + eapply keeps_then; [eapply keeps_any, keeps_ld32; done |]. intros v. by apply keeps_ret.
  - intros lines h2 Hh2. apply hsafe_bind. eapply hsafe_mono; [| by apply moves_munmap].
    intros r h3 [Hh3 ->]. cbn [negb Z.eqb].
    apply (keeps_then (maps_of h)); [apply keeps_close_ | | done]. intros _. finish.
  - unfold maps_of in *. simpl. by rewrite Hw, Hh1.
Qed.

Lemma hsafe_argv argv i (f : list Z -> host W (Z * list line)) Q h :
  0 <= i -> (forall s, argv !! Z.to_nat i = Some s -> hsafe (f s) Q h) -> i < Z.of_nat (length argv) ->
  hsafe (argv_at argv i ≫= f) Q h.
Proof.
  intros Hi Hf Hl. destruct (lookup_lt_is_Some_2 argv (Z.to_nat i)) as [s Es]; [lia |].
  apply hsafe_bind. unfold hsafe at 1, argv_at. destruct (Z.ltb_spec i 0); [lia |]. rewrite Es.
  by apply Hf.
Qed.

Lemma mmio32_hsafe argv (h : hst W) :
  (forall text addr, argv !! 2%nat = Some text -> parse_u64 text = Some addr -> in_page addr (os h)) ->
  hsafe (mmio32_main argv) (fun r h' => maps_of h' = maps_of h /\ code_ok r) h.
Proof.
  intros Hin. set (done_ := fun (r : Z * list line) (h' : hst W) => maps_of h' = maps_of h /\ code_ok r).
  assert (forall l h', maps_of h' = maps_of h -> hsafe (mret (2, l)) done_ h') as Hret.
  { intros l h' Hh. split; [done |]. unfold code_ok. simpl. auto. }
  unfold mmio32_main. destruct (Z.eqb_spec (Z.of_nat (length argv)) 3) as [H3|H3];
    destruct (Z.eqb_spec (Z.of_nat (length argv)) 4) as [H4|H4]; cbn [negb andb]; try lia; try (by apply Hret).
  all: apply hsafe_argv; [lia | | lia]; intros name _; cbn zeta;
    destruct (str_eqb name (c_string "read")), (str_eqb name (c_string "write"));
    cbn [negb andb orb]; try (by apply Hret).
  all: apply hsafe_argv; [lia | | lia]; intros text Ht; apply hsafe_bind; unfold hsafe at 1, parse_arg;
    simpl; destruct (parse_u64 text) as [addr|] eqn:Ea; [| by apply Hret].
  all: pose proof (parse_u64_range _ _ Ea); specialize (Hin text addr Ht Ea).
  1: apply (mmio_page_safe addr None); [lia | done].
  apply hsafe_argv; [lia | | lia]; intros t2 _; apply hsafe_bind; unfold hsafe at 1, parse_arg; simpl.
  destruct (parse_u64 t2) as [v|]; [| by apply Hret]. apply (mmio_page_safe addr (Some v)); [lia | done].
Qed.

End safe.



(** Mmio32 is safe where its word lies in one page.  On every command line whose address does not
    lie in the last three bytes of a page, whatever system call fails: the tool accesses no memory outside
    the page it maps, gives the page back, and exits with 0, 1 or 2. *)
Theorem mmio32_safe {W} {HO : OS W} {HM : OSMaps W} (HS : OSSafe W) argv (h : hst W)
    (Hin : forall text addr, argv !! 2%nat = Some text -> parse_u64 text = Some addr -> in_page addr (os h)) :
  match mmio32_main argv h with
  | Ret ((code, _), h') => os_maps (os h') = os_maps (os h) /\ (code = 0 \/ code = 1 \/ code = 2)
  | Undef => False
  | _ => True
  end.
Proof.
  pose proof (mmio32_hsafe argv h Hin) as H. unfold hsafe in H.
  by destruct (mmio32_main argv h) as [[[code l] h']| | |].
Qed.

Definition mmio_line (address : string) : list (list Z) :=
  c_string <$> ["mmio32"; "read"; address]%string.

Lemma mmio32_safe_witness :
  match mmio32_main (mmio_line "0x1d030ffc") sample_process with
  | Ret ((code, _), h') => f_maps (os h') = [(0x10000, 4096)] /\ (code = 0 \/ code = 1 \/ code = 2)
  | Undef => False
  | _ => True
  end.
Proof.
  apply (mmio32_safe files_safe). intros text addr [= <-] Ea. vm_compute in Ea. injection Ea as <-.
  vm_compute. discriminate.
Defined.

#[local] Arguments mmio_access : simpl never.

(** The tool does not check that the word lies in the page it maps.  With nothing else mapped, reading
    any address in the last three bytes of a page accesses memory behind the mapping. *)
Theorem mmio32_crosses_page (text : list Z) addr e f :
  parse_u64 text = Some addr -> 4092 < Z.land addr 4095 ->
  mmio32_main [c_string "mmio32"; c_string "read"; text]
    {| errno := e; os := {| f_maps := []; f_file := f; f_pos := 0 |} |} = Undef.
Proof.
  intros Ea Ho. set (w := {| f_maps := []; f_file := f; f_pos := 0 |}).
  set (e' := if strtoull_overflows text then ERANGE else 0).
  transitivity ((match parse_u64 text with
                 | None => mret (2, [Err "invalid address: %s" [Arg text]])
                 | Some addr => mmio_page addr None
                 end) {| errno := e'; os := w |}); [reflexivity |].
  assert (in_maps [(0x80000000, 4096)] (0x80000000 + Z.land addr (u64 (4096 - 1))) 4 = false) as Em.
  { unfold in_maps. cbn [existsb]. change (u64 (4096 - 1)) with 4095.
    destruct (Z.leb_spec (0x80000000 + Z.land addr 4095 + 4) (0x80000000 + 4096)); [lia |].
    by rewrite andb_false_r. }
  assert (forall h : hst files, f_maps (os h) = [(0x80000000, 4096)] ->
    mmio_access None (0x80000000 + Z.land addr (u64 (4096 - 1))) h = Undef) as Ha.
  { intros h Hh. unfold mmio_access, mbind, host_bind, ld32. simpl. by rewrite Hh, Em. }
  rewrite Ea. unfold mmio_page, mbind, host_bind. simpl. by rewrite Ha.
Qed.

Lemma mmio32_crosses_page_witness :
  mmio32_main (mmio_line "0x1d030ffe")
    {| errno := 0; os := {| f_maps := []; f_file := []; f_pos := 0 |} |} = Undef.
Proof.
  apply (mmio32_crosses_page (c_string "0x1d030ffe") 0x1d030ffe 0 []); [vm_compute; reflexivity | done].
Defined.
