(* ===== verification/ToolsRun.v ===== *)
(** * Runs of the command-line tool

    On a machine whose device runs the command firmware: the words written
    with [mem-write32] are read back, and [vector-add] passes. *)

From Stdlib Require Import String.
From S2P Require Import Prelude EnvParse Axi CustomMac Words Firmware FirmwareSpec KernelDriver HostRuntime HostSpec Tools.

Section run.
Context {W : Type} {HO : OS W} {HC : CommandWorld W}.
Context (dev : device) (lat : nat -> nat) (wbase wsize entry : Z) (latency : nat).
Context {HL : CommandLaws dev lat wbase wsize entry latency}.

(** ** Words of the window *)

(** A word the check admits. *)
Definition word_offset (off : Z) : Prop := 0 <= off /\ Z.land off 3 = 0 /\ off + 4 <= wsize.

Lemma word_offset_ok off : word_offset off -> check_shared_u32_access wsize off = 0.
Proof.
  intros (H0 & H3 & H4). destruct (cl_size dev lat wbase wsize entry latency) as [[_ Hs] _]. unfold check_shared_u32_access.
  rewrite H3. cbn [Z.eqb negb]. destruct (Z.ltb_spec UINT32_MAX off); [lia |].
  rewrite wrap_small by lia. by destruct (Z.ltb_spec wsize (off + 4)); [lia |].
Qed.

(** The error numbers of the check. *)
Lemma word_offset_bad off : 0 <= off -> ~ word_offset off ->
  let e := check_shared_u32_access wsize off in e <> 0 /\ word_failure off e <> [].
Proof.
  intros H0 Hn. destruct (cl_size dev lat wbase wsize entry latency) as [[_ Hs] _]. unfold check_shared_u32_access.
  destruct (Z.eqb_spec (Z.land off 3) 0) as [H3|H3]; [| done]. cbn [negb].
  destruct (Z.ltb_spec UINT32_MAX off); [done |]. rewrite wrap_small by lia.
  destruct (Z.ltb_spec wsize (off + 4)); [done |]. destruct Hn. split; [done | lia].
Qed.

Lemma word_offset_of off : 0 <= off -> check_shared_u32_access wsize off = 0 -> word_offset off.
Proof.
  intros H0 E. destruct (decide (Z.land off 3 = 0 /\ off + 4 <= wsize)) as [[? ?]|Hn]; [done |].
  destruct (word_offset_bad off H0) as [He _]; [| done]. intros (_ & ? & ?). by apply Hn.
Qed.

Lemma hwp_read_word off h :
  cw_window (os h) = None -> 0 <= off ->
  hwp (print_read_shared_u32 dev off) (fun r h' => cw_window (os h') = None /\
    cw_shared (os h') = cw_shared (os h) /\
    (word_offset off -> r = (0, [Out "shared[0x%08x]=0x%08x" [Num off; Num (word (cw_shared (os h)) off)]])) /\
    (~ word_offset off -> r.1 = 1 /\ r.2 <> [])) h.
Proof.
  intros Hw H0. destruct (cl_size dev lat wbase wsize entry latency) as [_ Hs]. unfold CORAL_EXTMEM_SIZE in Hs.
  apply hwp_bind, hwp_bind. eapply (hwp_open_window dev lat wbase wsize entry latency); [done | done | done | lia |].
  intros w h1 H1 Hof. cbn [Z.eqb negb]. pose proof Hof as (_ & Ez & _).
  rewrite Ez. destruct (Z.eqb_spec (check_shared_u32_access wsize off) 0) as [E|E]; cbn [negb].
  - pose proof (word_offset_of off H0 E) as Ho.
    apply hwp_bind. eapply (hwp_ld32 dev lat wbase wsize entry latency); [done | done | apply Ho |].
    apply hwp_bind. eapply (hwp_close_window dev lat wbase wsize entry latency); [done | done |]. intros h2 Hw2 Hb2 He2.
    apply hwp_ret, hwp_ret. by split_and!.
  - assert (~ word_offset off) as Ho by (intros Ho; by rewrite word_offset_ok in E).
    apply hwp_bind, hwp_errno. apply hwp_bind.
    eapply (hwp_close_window dev lat wbase wsize entry latency); [done | exact H1 |]. intros h2 Hw2 Hb2 He2.
    apply hwp_ret. cbn [Z.eqb negb]. apply hwp_bind, hwp_get_errno, hwp_ret. rewrite He2.
    split_and!; [done | done | done |]. intros _. split; [done |]. by apply word_offset_bad.
Qed.

Lemma hwp_write_word off v h :
  cw_window (os h) = None -> 0 <= off ->
  hwp (print_write_shared_u32 dev off v) (fun r h' => cw_window (os h') = None /\
    (word_offset off -> r = (0, [Out "shared[0x%08x]=0x%08x" [Num off; Num v]]) /\
       cw_shared (os h') = put (cw_shared (os h)) off (u32 v)) /\
    (~ word_offset off -> r.1 = 1 /\ r.2 <> [] /\ cw_shared (os h') = cw_shared (os h))) h.
Proof.
  intros Hw H0. destruct (cl_size dev lat wbase wsize entry latency) as [_ Hs]. unfold CORAL_EXTMEM_SIZE in Hs.
  apply hwp_bind, hwp_bind. eapply (hwp_open_window dev lat wbase wsize entry latency); [done | done | done | lia |].
  intros w h1 H1 Hof. cbn [Z.eqb negb]. pose proof Hof as (_ & Ez & _).
  rewrite Ez. destruct (Z.eqb_spec (check_shared_u32_access wsize off) 0) as [E|E]; cbn [negb].
  - pose proof (word_offset_of off H0 E) as Ho.
    apply hwp_bind. eapply (hwp_st32 dev lat wbase wsize entry latency); [done | done | apply Ho |]. intros h2 H2.
    apply hwp_bind. eapply (hwp_close_window dev lat wbase wsize entry latency); [done | done |].
    intros h3 Hw3 Hb3 _. apply hwp_ret, hwp_ret. by split_and!.
  - assert (~ word_offset off) as Ho by (intros Ho; by rewrite word_offset_ok in E).
    apply hwp_bind, hwp_errno. apply hwp_bind.
    eapply (hwp_close_window dev lat wbase wsize entry latency); [done | exact H1 |]. intros h2 Hw2 Hb2 He2.
    apply hwp_ret. cbn [Z.eqb negb]. apply hwp_bind, hwp_get_errno, hwp_ret. rewrite He2.
    split_and!; [done | done |]. intros _. split; [done |]. split; [by apply word_offset_bad | done].
Qed.

(** ** Vector addition from the command line *)

Definition info_regs : list Z :=
  [BACKEND_ID; FIRMWARE_ENTRY; SHARED_BASE; SHARED_SIZE; DMA_REQUESTS; DMA_COMPLETIONS; DMA_ERRORS;
   DMA_STATE; RESET_CONTROL; STATUS].

(** The same memory, unit and window. *)
Definition same_world (h h' : hst W) : Prop :=
  cw_shared (os h') = cw_shared (os h) /\ cw_unit (os h') = cw_unit (os h) /\
  cw_window (os h') = cw_window (os h).

(** Reading the registers has no effect on them, and the entry register holds
    the entry point of the firmware. *)
Class InfoLaws : Prop := {
  il_regs : forall off, In off info_regs -> exists a, reg_ptr dev off = Some a;
  il_load : forall off a w, In off info_regs -> reg_ptr dev off = Some a ->
    exists v w', os_load32 a w = Ret (v, w') /\ cw_shared w' = cw_shared w /\ cw_unit w' = cw_unit w /\
      cw_window w' = cw_window w /\ (off = FIRMWARE_ENTRY -> v = entry) }.

Context {HI : InfoLaws}.

Lemma hwp_info_reg off (Q : Z -> hst W -> Prop) h :
  In off info_regs ->
  (forall v h', same_world h h' -> (off = FIRMWARE_ENTRY -> v = entry) -> Q v h') ->
  hwp (read_reg dev off) Q h.
Proof.
  intros Hin HQ. rewrite (read_reg_devmem dev lat wbase wsize entry latency).
  destruct (il_regs off Hin) as [a Ea]. rewrite Ea.
  destruct (il_load off a (os h) Hin Ea) as (v & w' & E & Hs & Hu & Hw & He).
  unfold hwp, ld32. rewrite E. simpl. by apply HQ.
Qed.

Lemma same_world_trans h1 h2 h3 : same_world h1 h2 -> same_world h2 h3 -> same_world h1 h3.
Proof. unfold same_world. intros (? & ? & ?) (? & ? & ?). split_and!; congruence. Qed.

Lemma hwp_get_info (Q : coral_info -> hst W -> Prop) h :
  (forall i h', same_world h h' -> info_firmware_entry (ci_ioc i) = entry -> Q i h') ->
  hwp (get_info dev) Q h.
Proof.
  intros HQ. unfold get_info. rewrite (cl_devmem dev lat wbase wsize entry latency).
  apply hwp_bind, hwp_info_reg; [simpl; tauto |]. intros v1 h1 S1 _.
  apply hwp_bind, hwp_info_reg; [simpl; tauto |]. intros v2 h2 S2 E2. specialize (E2 eq_refl).
  pose proof (same_world_trans _ _ _ S1 S2) as S. clear S1 S2.
  do 8 (apply hwp_bind, hwp_info_reg; [simpl; tauto |]; intros ?v ?h' ?S' _;
        match goal with A : same_world h ?x, B : same_world ?x _ |- _ =>
          pose proof (same_world_trans _ _ _ A B); clear A B end).
  apply hwp_ret. by apply HQ.
Qed.

Definition test_in0 (n : nat) : list Z := (fun i => u32 (i + 1)) <$> seqZ 0 (Z.of_nat n).
Definition test_in1 (n : nat) : list Z := (fun i => u32 (u32 (i + 1) * 2)) <$> seqZ 0 (Z.of_nat n).

Lemma seqZ_seq n : seqZ 0 (Z.of_nat n) = Z.of_nat <$> seq 0 n.
Proof. unfold seqZ. rewrite Nat2Z.id. apply list_fmap_ext. intros i x _. lia. Qed.

Lemma triple_sum (f : nat -> Z) (m : nat) :
  (m <= 256)%nat -> (forall i, (i < m)%nat -> f i = 3 * (Z.of_nat i + 1)) ->
  foldl (fun c i => u32 (c + f i)) 0 (seq 0 m) = 3 * (Z.of_nat m * (Z.of_nat m + 1) / 2).
Proof.
  induction m as [|m IH]; intros Hm Hf; [done |].
  rewrite seq_S, foldl_app. simpl foldl at 1. rewrite IH by (auto || lia). rewrite Hf by lia.
  replace (Z.of_nat (S m) * (Z.of_nat (S m) + 1)) with
    (Z.of_nat m * (Z.of_nat m + 1) + (Z.of_nat m + 1) * 2) by lia.
  rewrite Z.div_add by lia. change (Z.of_nat (0 + m)) with (Z.of_nat m).
  pose proof (Z.div_le_mono (Z.of_nat m * (Z.of_nat m + 1)) (256 * 257) 2 ltac:(lia) ltac:(nia)).
  pose proof (Z.div_pos (Z.of_nat m * (Z.of_nat m + 1)) 2 ltac:(nia) ltac:(lia)).
  change (256 * 257 / 2) with 32896 in *. rewrite wrap_small; lia.
Qed.

Lemma foldl_over_map {A B C} (g : B -> C) (f : A -> C -> A) a (l : list B) :
  foldl f a (g <$> l) = foldl (fun a b => f a (g b)) a l.
Proof. revert a. induction l as [|b l IH]; intros a; [done |]. apply IH. Qed.

(** The checksum of the self test. *)
Lemma test_checksum n : (n <= 256)%nat ->
  vector_checksum (test_in0 n) (test_in1 n) n = 3 * (Z.of_nat n * (Z.of_nat n + 1) / 2) /\
  foldl (fun c i => u32 (c + u32 (u32 (i + 1) + u32 (u32 (i + 1) * 2)))) 0 (seqZ 0 (Z.of_nat n))
    = 3 * (Z.of_nat n * (Z.of_nat n + 1) / 2).
Proof.
  intros Hn. split.
  - apply (triple_sum (fun i => u32 (test_in0 n !!! i + test_in1 n !!! i))); [done |]. intros i Hi.
    rewrite (list_lookup_total_correct (test_in0 n) i (u32 (Z.of_nat i + 1))),
      (list_lookup_total_correct (test_in1 n) i (u32 (u32 (Z.of_nat i + 1) * 2)))
      by (unfold test_in0, test_in1; by rewrite list_lookup_fmap, lookup_seqZ_lt by lia).
    rewrite !(wrap_small 32 (Z.of_nat i + 1)) by lia.
    rewrite (wrap_small 32 ((Z.of_nat i + 1) * 2)), wrap_small by lia. lia.
  - rewrite seqZ_seq, foldl_over_map.
    apply (triple_sum (fun i => u32 (u32 (Z.of_nat i + 1) + u32 (u32 (Z.of_nat i + 1) * 2)))); [done |].
    intros i Hi. rewrite !(wrap_small 32 (Z.of_nat i + 1)) by lia.
    rewrite (wrap_small 32 ((Z.of_nat i + 1) * 2)), wrap_small by lia. lia.
Qed.

(** What [vector-add] prints. *)
Definition pass_lines (backend : string) (op : Z) (n : nat) : list line :=
  [Out "transport=%s" [Str "devmem"]; Out "backend=%s" [Str backend]; Out "entry=0x%08x" [Num entry];
   Out "opcode=%u" [Num op]; Out "command_status=%u" [Num COMMAND_COMPLETE];
   Out "command_error=%u" [Num COMMAND_ERROR_NONE];
   Out "completed_elements=%u" [Num (Z.of_nat n)]; Out "element_count=%u" [Num (Z.of_nat n)];
   Out "output_checksum=0x%08x" [Num (3 * (Z.of_nat n * (Z.of_nat n + 1) / 2))];
   Out "accelerator_cycles=%u" [Num (if op =? OPCODE_VECTOR_ADD_CUSTOM_U32 then 3 * Z.of_nat n else 0)];
   Out "vector_add=PASS" []].

Lemma hwp_vector_add turns op (n : nat) polls c h :
  (forall k, (1 <= lat k)%nat) -> 0 <= entry < 2 ^ 32 -> Z.of_nat latency < polls ->
  cw_window (os h) = None -> CORAL_EXTMEM_SIZE <= buf_len (cw_shared (os h)) ->
  buf_bytes (cw_shared (os h)) -> idle (cw_unit (os h)) c -> 0 <= c < 2 ^ 32 ->
  op = OPCODE_VECTOR_ADD_U32 \/ op = OPCODE_VECTOR_ADD_CUSTOM_U32 -> (1 <= n <= 256)%nat ->
  hwp (print_vector_add turns dev entry op (Z.of_nat n) polls)
    (fun r _ => exists backend, r = (0, pass_lines backend op n)) h.
Proof.
  intros Hlat He Hp Hw Hb Hy Hi Hc Hop Hn. apply hwp_bind, hwp_get_info.
  intros info h1 (Es & Eu & Ew) _. rewrite <- Es in Hb, Hy. rewrite <- Eu in Hi. rewrite <- Ew in Hw.
  apply hwp_bind. unfold vector_add_test. unfold TENSOR_MAX_ELEMENTS.
  destruct (Z.eqb_spec (Z.of_nat n) 0); [lia |]. destruct (Z.ltb_spec 256 (Z.of_nat n)); [lia |]. cbn [orb].
  destruct (test_checksum n ltac:(lia)) as [Ec ->]. fold (test_in0 n) (test_in1 n).
  apply hwp_bind. eapply hwp_mono;
    [| apply (hwp_submit dev lat wbase wsize entry latency turns op (test_in0 n) (test_in1 n) n _ polls c);
       try done].
  - intros [r v] h2 (E1 & E2 & E3 & E4 & E5 & E6 & E7 & Hr & _). rewrite Ec, Z.eqb_refl in Hr. subst r.
    apply hwp_ret. cbn [Z.eqb negb]. apply hwp_ret. exists (backend_name (ci_backend info)).
    unfold run_lines, pass_lines, member. by rewrite (cl_devmem dev lat wbase wsize entry latency), E1, E2, E3, E4, E5, E6, E7, Ec.
  - unfold test_in0. rewrite length_fmap, length_seqZ. lia.
  - unfold test_in1. rewrite length_fmap, length_seqZ. lia.
  - apply Forall_fmap, List.Forall_forall. intros x _. apply (wrap_range 32). lia.
  - apply Forall_fmap, List.Forall_forall. intros x _. apply (wrap_range 32). lia.
Qed.

Lemma hwp_argv argv i t (Q : list Z -> hst W -> Prop) h :
  0 <= i -> argv !! Z.to_nat i = Some t -> Q t h -> hwp (argv_at argv i) Q h.
Proof. intros Hi E HQ. unfold hwp, argv_at. destruct (Z.ltb_spec i 0); [lia |]. by rewrite E. Qed.

Lemma hwp_parse text v (Q : option Z -> hst W -> Prop) h :
  parse_u64 text = Some v -> Q (Some v) {| errno := 0; os := os h |} -> hwp (parse_arg text) Q h.
Proof.
  intros E HQ. unfold parse_arg. apply hwp_bind, hwp_errno, hwp_ret. rewrite E.
  unfold parse_u64 in E. destruct (strtoull text). by destruct (strtoull_overflows text).
Qed.

Lemma hwp_coral_close (Q : device -> hst W -> Prop) h :
  (forall d h', Q d h') -> hwp (coral_close dev) Q h.
Proof.
  intros HQ. unfold coral_close. apply hwp_bind.
  assert (hwp (if negb (mapping dev =? 0) then munmap (mapping dev) (page_size dev);; mret tt else mret tt)
    (fun _ _ => True) h) as H1.
  { destruct (negb _); [| done]. apply (hwp_munmap _ _ (fun _ => True)). done. }
  eapply hwp_mono; [| exact H1]. intros [] h1 _. apply hwp_bind. destruct (0 <=? fd dev).
  - unfold hwp at 1, close_. apply hwp_ret, HQ.
  - apply hwp_ret, hwp_ret, HQ.
Qed.

Lemma hwp_main turns prog (custom : bool) text (n : nat) c h h1 :
  (forall k, (1 <= lat k)%nat) -> 0 <= entry < 2 ^ 32 -> Z.of_nat latency < 100000 ->
  parse_u64 text = Some (Z.of_nat n) -> (1 <= n <= 256)%nat ->
  coral_open DEFAULT_BASE {| errno := 0; os := os h |} = Ret ((0, dev), h1) ->
  cw_window (os h1) = None -> CORAL_EXTMEM_SIZE <= buf_len (cw_shared (os h1)) ->
  buf_bytes (cw_shared (os h1)) -> idle (cw_unit (os h1)) c -> 0 <= c < 2 ^ 32 ->
  hwp (coralctl_main turns [prog; c_string (if custom then "vector-add-custom" else "vector-add"); text])
    (fun r _ => exists backend, r = (0, pass_lines backend
       (if custom then OPCODE_VECTOR_ADD_CUSTOM_U32 else OPCODE_VECTOR_ADD_U32) n)) h.
Proof.
  intros Hlat He Hl Ht Hn Ho Hw Hb Hy Hi Hc.
  set (cmd := if custom then command_vector_add_custom else command_vector_add).
  set (name := c_string (if custom then "vector-add-custom" else "vector-add")).
  set (argv := [prog; name; text]). assert (Z.of_nat (length argv) = 3) as El by done.
  assert (parse_command name = Some cmd) as Ec by (by destruct custom).
  unfold coralctl_main. cbn zeta. rewrite El. change ((3 <? 2) || (6 <? 3)) with false.
  apply hwp_bind. eapply (hwp_argv _ _ name); [lia | done |]. rewrite Ec.
  assert (argc_ok cmd 3 = true) as -> by (by destruct custom). cbn [negb].
  apply hwp_bind. assert (parse_arguments cmd argv = vector_arguments argv) as -> by (by destruct custom).
  unfold vector_arguments. apply hwp_bind. eapply (hwp_argv _ _ text); [lia | done |].
  apply hwp_bind. eapply hwp_parse; [done |]. unfold TENSOR_MAX_ELEMENTS.
  destruct (Z.eqb_spec (Z.of_nat n) 0); [lia |]. destruct (Z.ltb_spec 256 (Z.of_nat n)); [lia |]. cbn [orb].
  apply hwp_bind. unfold base_argument. rewrite El. change (3 <=? 3) with true.
  apply hwp_ret, hwp_ret. cbn [with_base]. apply hwp_bind. unfold hwp at 1. cbn [set_base]. rewrite Ho.
  cbn [Z.eqb negb]. set (s := {| set_base := _ |}). unfold closing. apply hwp_bind.
  assert (dispatch turns cmd s argv dev = launch turns cmd s argv dev) as -> by (by destruct custom).
  unfold launch. apply hwp_bind, hwp_get_info. intros info h2 (Es & Eu & Ew) ->.
  assert (entry_argument cmd argv entry = mret (inr entry)) as -> by (by destruct custom).
  assert (poll_argument cmd argv = mret (inr 100000)) as -> by (by destruct custom).
  apply hwp_bind, hwp_ret, hwp_bind, hwp_ret.
  rewrite (wrap_small 32 entry) by lia.
  assert (run_command turns cmd s dev entry 100000 =
    print_vector_add turns dev entry (if custom then OPCODE_VECTOR_ADD_CUSTOM_U32 else OPCODE_VECTOR_ADD_U32)
      (u32 (Z.of_nat n)) 100000) as -> by (by destruct custom).
  rewrite (wrap_small 32 (Z.of_nat n)) by lia. eapply hwp_mono.
  2: apply (hwp_vector_add turns _ n 100000 c h2); try done; [by rewrite Ew | by rewrite Es | by rewrite Es | by rewrite Eu |
       destruct custom; auto].
  intros r h3 Hr. apply hwp_bind, hwp_coral_close. intros d h4. by apply hwp_ret.
Qed.


End run.

(** A word written with mem-write32 is read back by mem-read32.  On a machine that maps the shared
    window as documented, for an aligned offset inside the window both commands exit with 0 and print the
    written value, and no other byte of the window changes; for every other offset the write exits with 1,
    prints why, and changes nothing. *)
Theorem word_commands_roundtrip {W} {HO : OS W} {HC : CommandWorld W} dev lat wbase wsize entry latency
    (HL : CommandLaws dev lat wbase wsize entry latency) off v (h : hst W)
    (Hw : cw_window (os h) = None) (Ho : 0 <= off) (Hv : 0 <= v < 2 ^ 32) :
  exists r1 h1, print_write_shared_u32 dev off v h = Ret (r1, h1) /\
  (word_offset wsize off ->
     let said := (0, [Out "shared[0x%08x]=0x%08x" [Num off; Num v]]) in
     r1 = said /\ cw_shared (os h1) = put (cw_shared (os h)) off v /\
     exists h2, print_read_shared_u32 dev off h1 = Ret (said, h2) /\ cw_shared (os h2) = cw_shared (os h1)) /\
  (~ word_offset wsize off -> r1.1 = 1 /\ r1.2 <> [] /\ cw_shared (os h1) = cw_shared (os h)).
Proof.
  pose proof (hwp_write_word dev lat wbase wsize entry latency off v h Hw Ho) as H1. unfold hwp in H1.
  destruct (print_write_shared_u32 dev off v h) as [[r1 h1]| | |]; try done. exists r1, h1. split; [done |].
  destruct H1 as (Hw1 & Hgood & Hbad). split; [| exact Hbad]. intros Hoff.
  destruct (Hgood Hoff) as [-> E1]. rewrite wrap_small in E1 by lia. split; [done |]. split; [done |].
  pose proof (hwp_read_word dev lat wbase wsize entry latency off h1 Hw1 Ho) as H2. unfold hwp in H2.
  destruct (print_read_shared_u32 dev off h1) as [[r2 h2]| | |]; try done.
  destruct H2 as (_ & E2 & Hr & _). exists h2. rewrite (Hr Hoff). split; [| done].
  rewrite E1, <- (wrap_small 32 v) by lia. by rewrite word_put_u32.
Qed.


(** ** The plain machine *)

Definition plain_process : hst plain :=
  {| errno := 0; os := {| p_mem := buf_new CORAL_EXTMEM_SIZE; p_unit := custom_mac_init mac_reset;
                          p_open := false; p_left := 0 |} |}.

Lemma plain_info : InfoLaws (W := plain) plain_dev 0.
Proof.
  split.
  - intros off H. simpl in H. repeat destruct H as [<-|H]; try done; by eexists.
  - intros off a w H Ha. simpl in H.
    repeat destruct H as [<-|H]; try done; injection Ha as <-; simpl;
      try (by eexists _, _; split_and!; try done); destruct (p_left w); by eexists _, _; split_and!.
Qed.

Lemma word_commands_roundtrip_witness :
  exists r1 h1 h2, print_write_shared_u32 plain_dev 0x10 0xdeadbeef plain_process = Ret (r1, h1) /\
    r1.1 = 0 /\ print_read_shared_u32 plain_dev 0x10 h1
      = Ret ((0, [Out "shared[0x%08x]=0x%08x" [Num 0x10; Num 0xdeadbeef]]), h2).
Proof.
  destruct (word_commands_roundtrip plain_dev p_lat 0x20000000 0x1000 0 1 plain_laws 0x10 0xdeadbeef
    plain_process eq_refl ltac:(lia) ltac:(lia)) as (r1 & h1 & E & Hgood & _).
  destruct Hgood as (-> & _ & h2 & E2 & _); [by vm_compute; split_and! |].
  eexists _, h1, h2. split; [exact E |]. by split.
Defined.

