(* ===== verification/AddrRange.v ===== *)
(** * Address ranges ([base/addr_range.hh])

    A range of addresses, plain or interleaved: of an interleaved range only
    the addresses belong to it whose selector, the parities of the address
    under the masks, is the range's match value.  The bit functions of gem5's
    [base/bitfield.hh] are a class. *)

From stdpp Require Import sorting.
From S2P Require Import Prelude.

(** ** Bit functions *)

Class Bitfield := {
  ctz64 : Z -> Z;
  popCount : Z -> Z;
  bits : Z -> Z -> Z;                          (** [bits(val, bit)] *)
  insertBits : Z -> Z -> Z -> Z -> Z           (** [insertBits(val, first, last, bit_val)] *) }.

(** [insertBits(val, bit, bit_val)]. *)
Definition insertBit {HB : Bitfield} (val bit bit_val : Z) : Z := insertBits val bit bit bit_val.

(** [1ULL << n]. *)
Definition shl_1ULL (n : Z) : res Z := undef_unless (n <? 64);; Ret (2 ^ n).

(** ** Construction *)

Record AddrRange := { r_start : Z; r_end : Z; masks : list Z; intlvMatch : Z }.

#[export] Instance AddrRange_eq_dec : EqDecision AddrRange.
Proof. solve_decision. Defined.

Definition num_masks (r : AddrRange) : Z := Z.of_nat (length (masks r)).

Definition AddrRange_default : AddrRange :=
  {| r_start := 1; r_end := 0; masks := []; intlvMatch := 0 |}.

(** [AddrRange(start, end)]. *)
Definition AddrRange_plain (start end_ : Z) : AddrRange :=
  {| r_start := start; r_end := end_; masks := []; intlvMatch := 0 |}.

(** [AddrRange(start, end, masks, match)]. *)
Definition AddrRange_masks (start end_ : Z) (ms : list Z) (match_ : Z) : res AddrRange :=
  (if bool_decide (ms = []) then Ret tt
   else bound ← shl_1ULL (Z.of_nat (length ms)); fatal_if (bound <=? match_));;
  Ret {| r_start := start; r_end := end_; masks := ms; intlvMatch := match_ |}.

(** The mask of step [i] of the older constructor. *)
Definition legacy_mask (intlv_high_bit xor_high_bit i : Z) : res Z :=
  mask ← shl_1ULL (u8 (intlv_high_bit - i));
  if xor_high_bit =? 0 then Ret mask
  else bit2 ← shl_1ULL (u8 (xor_high_bit - i)); Ret (Z.lor mask bit2).

(** [AddrRange(start, end, intlv_high_bit, xor_high_bit, intlv_bits, match)]. *)
Definition AddrRange_legacy (start end_ intlv_high_bit xor_high_bit intlv_bits match_ : Z)
    : res AddrRange :=
  (if intlv_bits =? 0 then Ret tt
   else bound ← shl_1ULL intlv_bits; fatal_if (bound <=? match_));;
  (if negb (intlv_bits =? 0) && negb (xor_high_bit =? 0) then
     if xor_high_bit =? intlv_high_bit then Fatal
     else if intlv_high_bit <? xor_high_bit
     then fatal_if (xor_high_bit - intlv_high_bit <? intlv_bits)
     else fatal_if (intlv_high_bit - xor_high_bit <? intlv_bits)
   else Ret tt);;
  ms ← forZ intlv_bits (fun i ms =>
         mask ← legacy_mask intlv_high_bit xor_high_bit i;
         Ret (<[Z.to_nat (intlv_bits - i - 1) := mask]> ms)) (replicate (Z.to_nat intlv_bits) 0);
  Ret {| r_start := start; r_end := end_; masks := ms; intlvMatch := match_ |}.

Definition RangeEx (start end_ : Z) : AddrRange := AddrRange_plain start end_.
Definition RangeIn (start end_ : Z) : AddrRange := AddrRange_plain start (u64 (end_ + 1)).
Definition RangeSize (start size : Z) : AddrRange := AddrRange_plain start (u64 (start + size)).

(** ** Queries *)

Section queries.
Context {HB : Bitfield}.
Implicit Types (r e : AddrRange).

Definition interleaved r : bool := 0 <? num_masks r.

(** [size()]: shifting by 64 or more is undefined. *)
Definition size r : res Z :=
  undef_unless (num_masks r <? 64);;
  Ret (Z.shiftr (u64 (r_end r - r_start r)) (num_masks r)).

(** [auto combined_mask = 0] makes it an [int]: each step converts it to 64
    bits and truncates the result again. *)
Definition combined_mask r : Z :=
  foldl (fun c m => i32 (u32 (Z.lor (u64 c) m))) 0 (masks r).

Definition granularity r : res Z :=
  if interleaved r then shl_1ULL (u8 (ctz64 (u64 (combined_mask r)))) else size r.

Definition stripes r : res Z := n ← shl_1ULL (num_masks r); Ret (u32 n).

Definition valid r : bool := r_start r <=? r_end r.

Definition mergesWith r e : bool :=
  (r_start e =? r_start r) && (r_end e =? r_end r) && bool_decide (masks e = masks r).

(** The selector of [a], an [int]; [i] counts the masks. *)
Fixpoint select (i : Z) (ms : list Z) (a sel : Z) : res Z :=
  match ms with
  | [] => Ret sel
  | m :: ms =>
      undef_unless (i <? 32);;
      select (i + 1) ms a (Z.lor sel (i32 (Z.shiftl (popCount (Z.land a m) mod 2) i)))
  end.

Definition contains r (a : Z) : res bool :=
  if (r_start r <=? a) && (a <? r_end r) then
    sel ← select 0 (masks r) a 0; Ret (sel =? intlvMatch r)
  else Ret false.

Definition intersects r e : res bool :=
  if (r_end e <=? r_start r) || (r_end r <=? r_start e) then Ret false
  else if negb (interleaved r) && negb (interleaved e) then Ret true
  else
    n ← size e;
    if n =? 1 then contains r (r_start e)
    else if mergesWith r e then Ret (intlvMatch r =? intlvMatch e)
    else Fatal.

Definition isSubset r e : res bool :=
  if interleaved r then Fatal
  else if interleaved e then
    first ← contains e (r_start r);
    if negb first then Ret false else
    last ← contains e (u64 (r_end r - 1));
    if negb last then Ret false else
    n ← size r; g ← granularity e; Ret (n <=? g)
  else if r_end r <=? r_start r then Ret ((r_start e <=? r_start r) && (r_end e =? 0))
  else if r_end e <=? r_start e then Ret (r_start e <=? r_start r)
  else Ret ((r_start e <=? r_start r) && (r_end r <=? r_end e)).

(** [operator<]. *)
Definition range_lt r e : bool :=
  if negb (r_start r =? r_start e) then r_start r <? r_start e
  else if interleaved r && interleaved e then intlvMatch r <? intlvMatch e
  else interleaved r.

(** [operator&]. *)
Definition range_and r e : res AddrRange :=
  fatal_if (interleaved r || interleaved e);;
  let start := Z.max (r_start r) (r_start e) in
  let end_ := Z.min (r_end r) (r_end e) in
  Ret (if end_ <=? start then AddrRange_plain 0 0 else AddrRange_plain start end_).

(** The constructor from a collection of ranges: the loop over the matches. *)
Fixpoint merge_loop r (l : list AddrRange) (match_ : Z) : res unit :=
  match l with
  | [] => Ret tt
  | e :: l =>
      fatal_if (negb (mergesWith r e));;
      fatal_if (negb (intlvMatch e =? match_));;
      merge_loop r l (u8 (match_ + 1))
  end.

Definition AddrRange_merge (l : list AddrRange) : res AddrRange :=
  match l with
  | [] => Ret AddrRange_default
  | r :: _ =>
      let count := Z.of_nat (length l) in
      if 1 <? count then
        n ← shl_1ULL (num_masks r);
        fatal_if (negb (count =? n));;
        merge_loop r l 0;;
        Ret (AddrRange_plain (r_start r) (r_end r))
      else Ret r
  end.

(** ** Interleaving bits *)

(** The lowest bits of the masks, sorted. *)
Definition masks_lsb r : list Z := merge_sort Z.le (ctz64 <$> masks r).

Fixpoint remove_loop (i : Z) (lsbs : list Z) (a : Z) : Z :=
  match lsbs with
  | [] => a
  | intlv_bit :: lsbs =>
      remove_loop (i + 1) lsbs
        (if 0 <? intlv_bit then insertBits (Z.shiftr a 1) (u32 (intlv_bit - i - 1)) 0 a
         else Z.shiftr a 1)
  end.

Definition removeIntlvBits r (a : Z) : Z :=
  if interleaved r then remove_loop 0 (masks_lsb r) a else a.

Fixpoint add_loop (lsbs : list Z) (a : Z) : Z :=
  match lsbs with
  | [] => a
  | intlv_bit :: lsbs =>
      add_loop lsbs
        (if 0 <? intlv_bit then insertBits (u64 (Z.shiftl a 1)) (intlv_bit - 1) 0 a
         else u64 (Z.shiftl a 1))
  end.

(** [~(1 << lsb)], an [int], where it meets 64-bit operands. *)
Definition not_lsb (lsb : Z) : res Z :=
  undef_unless (lsb <? 32);; Ret (u64 (Z.lnot (i32 (Z.shiftl 1 lsb)))).

(** The second loop: the lowest bit of each mask is set as the match asks. *)
Fixpoint match_loop (match_ i : Z) (ms : list Z) (a : Z) : res Z :=
  match ms with
  | [] => Ret a
  | m :: ms =>
      let lsb := ctz64 m in
      let intlv_bit := bits match_ i in
      others ← not_lsb lsb;
      let masked := Z.land (Z.land a m) others in
      match_loop match_ (i + 1) ms (insertBit a lsb (Z.lxor intlv_bit (popCount masked)))
  end.

Definition addIntlvBits r (a : Z) : res Z :=
  if interleaved r then match_loop (intlvMatch r) 0 (masks r) (add_loop (masks_lsb r) a)
  else Ret a.

Definition MaxAddr : Z := 2 ^ 64 - 1.

Definition getOffset r (a : Z) : Z :=
  if (r_start r <=? a) && (a <? r_end r) then
    if interleaved r then u64 (removeIntlvBits r a - removeIntlvBits r (r_start r))
    else a - r_start r
  else MaxAddr.

(** ** Exclusion *)

(** [std::list::sort], which is stable. *)
Fixpoint range_insert r (l : list AddrRange) : list AddrRange :=
  match l with
  | [] => [r]
  | e :: l' => if range_lt e r then e :: range_insert r l' else r :: l
  end.
Definition range_sort (l : list AddrRange) : list AddrRange := foldr range_insert [] l.

Fixpoint exclude_loop r (sorted : list AddrRange) (next_start : Z) (ranges : list AddrRange)
    : res (list AddrRange) :=
  match sorted with
  | [] =>
      Ret (if next_start <? r_end r then ranges ++ [AddrRange_plain next_start (r_end r)] else ranges)
  | e :: sorted =>
      fatal_if (interleaved e);;       (* assert *)
      meets ← intersects r e;
      if negb meets then exclude_loop r sorted next_start ranges
      else if r_start e <=? next_start then
        if r_end e <? r_end r
        then exclude_loop r sorted (if next_start <? r_end e then r_end e else next_start) ranges
        else Ret ranges
      else
        let ranges := ranges ++ [AddrRange_plain next_start (r_start e)] in
        if r_end e <? r_end r then exclude_loop r sorted (r_end e) ranges else Ret ranges
  end.

Definition exclude r (exclude_ranges : list AddrRange) : res (list AddrRange) :=
  fatal_if (interleaved r);;           (* assert *)
  exclude_loop r (range_sort exclude_ranges) (r_start r) [].

(** [exclude] of a list of ranges, and [operator-]. *)
Fixpoint exclude_each (base to_exclude : list AddrRange) : res (list AddrRange) :=
  match base with
  | [] => Ret []
  | r :: base => l ← exclude r to_exclude; rest ← exclude_each base to_exclude; Ret (l ++ rest)
  end.
Definition exclude_list (base to_exclude : list AddrRange) : res (list AddrRange) :=
  exclude_each base (range_sort to_exclude).

End queries.
