(* ===== verification/AddrRangeSpec.v ===== *)
(** * What address ranges guarantee

    Exclusion is set difference; interleaved ranges partition their span and
    merge back to it; removing the interleaving bits is a bijection. *)

From stdpp Require Import sorting.
From S2P Require Import Prelude AddrRange.

(** ** Exclusion *)

(** Neither interleaved nor carrying a match value. *)
Definition plain (r : AddrRange) : Prop := masks r = [] /\ intlvMatch r = 0.

Definition spans (r : AddrRange) (a : Z) : Prop := r_start r <= a < r_end r.

Lemma plain_interleaved r : plain r -> interleaved r = false.
Proof. intros [E _]. unfold interleaved, num_masks. by rewrite E. Qed.

Lemma contains_plain {HB : Bitfield} r a :
  plain r -> contains r a = Ret (bool_decide (spans r a)).
Proof.
  intros [E M]. unfold contains, spans. rewrite E, M. simpl.
  case_bool_decide as H.
  - destruct (Z.leb_spec (r_start r) a); [| lia]. by destruct (Z.ltb_spec a (r_end r)); [| lia].
  - destruct (Z.leb_spec (r_start r) a); [| done]. by destruct (Z.ltb_spec a (r_end r)); [lia |].
Qed.

Lemma contains_plain_iff {HB : Bitfield} r a :
  plain r -> contains r a = Ret true <-> spans r a.
Proof. intros H. rewrite contains_plain by done. case_bool_decide; split; by (intros [=] || auto). Qed.

Lemma intersects_plain {HB : Bitfield} r e :
  plain r -> plain e ->
  intersects r e = Ret (negb ((r_end e <=? r_start r) || (r_end r <=? r_start e))).
Proof.
  intros Hr He. unfold intersects. rewrite !plain_interleaved by done. by destruct (_ || _).
Qed.

Abbreviation starts_before := (fun r e : AddrRange => r_start r <= r_start e).

Lemma range_insert_perm r l : range_insert r l ≡ₚ r :: l.
Proof.
  induction l as [|e l IH]; [done |]. simpl. case_match; [| done]. rewrite IH. constructor.
Qed.

Lemma range_sort_perm l : range_sort l ≡ₚ l.
Proof. induction l as [|r l IH]; [done |]. simpl. by rewrite range_insert_perm, IH. Qed.

Lemma range_lt_start r e : range_lt r e = true -> r_start r <= r_start e.
Proof. unfold range_lt. destruct (Z.eqb_spec (r_start r) (r_start e)); simpl; lia. Qed.

Lemma range_lt_false r e : range_lt e r = false -> r_start r <= r_start e.
Proof. unfold range_lt. destruct (Z.eqb_spec (r_start e) (r_start r)); simpl; lia. Qed.

Lemma range_insert_sorted r l :
  StronglySorted starts_before l -> StronglySorted starts_before (range_insert r l).
Proof.
  induction 1 as [|e l Hl IH He]; simpl; [by repeat constructor |].
  destruct (range_lt e r) eqn:E.
  - constructor; [done |]. rewrite range_insert_perm. constructor; [by apply range_lt_start | done].
  - apply range_lt_false in E. constructor; [by constructor |]. constructor; [done |].
    eapply Forall_impl; [| exact He]. simpl. lia.
Qed.

Lemma range_sort_sorted l : StronglySorted starts_before (range_sort l).
Proof. induction l as [|r l IH]; [constructor |]. by apply range_insert_sorted. Qed.

(** Non-empty plain ranges in order, all before [bound]. *)
Definition tidy (bound : Z) (l : list AddrRange) : Prop :=
  StronglySorted (fun x y => r_end x <= r_start y) l /\
  Forall (fun x => plain x /\ r_start x < r_end x /\ r_end x <= bound) l.

Lemma tidy_snoc bound bound' l s e :
  tidy bound l -> bound <= s -> s < e -> e <= bound' -> tidy bound' (l ++ [AddrRange_plain s e]).
Proof.
  intros [H1 H2] Hs He Hb. split.
  - induction H1 as [|x l Hl IH Hx]; simpl; [by repeat constructor |].
    apply Forall_cons_1 in H2 as [(_ & Hx2 & Hx3) H2]. constructor; [by apply IH |].
    apply Forall_app. split; [done |]. constructor; [simpl; lia | done].
  - apply Forall_app. split; [| by repeat constructor].
    eapply Forall_impl; [| exact H2]. intros x (? & ? & ?). split; [done | lia].
Qed.

Lemma tidy_weaken bound bound' l : tidy bound l -> bound <= bound' -> tidy bound' l.
Proof.
  intros [H1 H2] H. split; [done |]. eapply Forall_impl; [| exact H2]. intros x (? & ? & ?). split; [done | lia].
Qed.

Definition covered (l : list AddrRange) (a : Z) : Prop := Exists (fun x => spans x a) l.

Definition free (l : list AddrRange) (a : Z) : Prop := Forall (fun e => ~ spans e a) l.

Lemma covered_snoc l s e a : covered (l ++ [AddrRange_plain s e]) a <-> covered l a \/ s <= a < e.
Proof. unfold covered. rewrite Exists_app, Exists_cons, Exists_nil. unfold spans at 2. simpl. tauto. Qed.

Lemma free_cons e l a : free (e :: l) a <-> ~ (r_start e <= a < r_end e) /\ free l a.
Proof. apply List.Forall_cons_iff. Qed.

Lemma exclude_loop_spec {HB : Bitfield} r sorted next ranges :
  plain r -> Forall (fun e => plain e /\ r_start e <= r_end e) sorted ->
  StronglySorted starts_before sorted -> r_start r <= next -> tidy next ranges ->
  exists rs, exclude_loop r sorted next ranges = Ret rs /\ (exists bound, tidy bound rs) /\
    forall a, covered rs a <->
      covered ranges a \/ (next <= a < r_end r /\ free sorted a).
Proof.
  intros Hr Hl Hs. revert next ranges.
  induction Hs as [|e sorted Hs IH He]; intros next ranges Hn Ht; simpl.
  { eexists. split; [done |]. destruct (Z.ltb_spec next (r_end r)) as [H|H].
    - split; [exists (r_end r); eapply tidy_snoc; [done | lia ..] |]. intros a.
      rewrite covered_snoc. pose proof (List.Forall_nil (fun e => ~ spans e a)). unfold free. tauto.
    - split; [by exists next |]. intros a. split; [auto |]. intros [?|[? _]]; [done | lia]. }
  apply Forall_cons_1 in Hl as [[Hpe Hve] Hl]. specialize (IH Hl).
  rewrite plain_interleaved, intersects_plain by done. cbn [fatal_if mbind res_bind].
  destruct (_ || _) eqn:Em; cbn [negb].
  { destruct (IH next ranges Hn Ht) as (rs & E & Hb & Hc). exists rs. split; [done |]. split; [done |].
    intros a. rewrite Hc, free_cons. intuition lia. }
  assert (r_start r < r_end e /\ r_start e < r_end r) as [M1 M2] by lia. clear Em.
  assert (forall a, a < r_start e -> free sorted a) as Hlow.
  { intros a Ha. eapply Forall_impl; [| exact He]. unfold spans. simpl. lia. }
  destruct (Z.leb_spec (r_start e) next), (Z.ltb_spec (r_end e) (r_end r)).
  - destruct (IH (if next <? r_end e then r_end e else next) ranges) as (rs & E & Hb & Hc).
    + destruct (Z.ltb_spec next (r_end e)); lia.
    + eapply tidy_weaken; [done |]. destruct (Z.ltb_spec next (r_end e)); lia.
    + exists rs. split; [done |]. split; [done |]. intros a. rewrite Hc, free_cons.
      destruct (Z.ltb_spec next (r_end e)); intuition lia.
  - exists ranges. split; [done |]. split; [by exists next |]. intros a.
    rewrite free_cons. intuition lia.
  - destruct (IH (r_end e) (ranges ++ [AddrRange_plain next (r_start e)])) as (rs & E & Hb & Hc).
    + lia.
    + eapply tidy_snoc; [done | lia ..].
    + exists rs. split; [done |]. split; [done |]. intros a. specialize (Hlow a).
      rewrite Hc, covered_snoc, free_cons. destruct (Z_lt_le_dec a (r_start e)); intuition lia.
  - eexists. split; [done |]. split; [exists (r_start e); eapply tidy_snoc; [done | lia ..] |].
    intros a. specialize (Hlow a). rewrite covered_snoc, free_cons.
    destruct (Z_lt_le_dec a (r_start e)); intuition lia.
Qed.


(** ** Bits *)

(** What [base/bitfield.hh] documents of its functions on 64-bit values. *)
Class BitfieldLaws (HB : Bitfield) : Prop := {
  ctz64_spec v : 0 < v < 2 ^ 64 ->
    0 <= ctz64 v < 64 /\ Z.testbit v (ctz64 v) = true /\
    forall i, 0 <= i < ctz64 v -> Z.testbit v i = false;
  popCount_spec v : 0 <= v < 2 ^ 64 ->
    popCount v = Z.of_nat (length (List.filter (Z.testbit v) (seqZ 0 64)));
  bits_spec v b : 0 <= v -> 0 <= b < 64 -> bits v b = Z.b2z (Z.testbit v b);
  insertBits_spec v first last w :
    0 <= v < 2 ^ 64 -> 0 <= w -> 0 <= last <= first -> first < 64 ->
    0 <= insertBits v first last w < 2 ^ 64 /\
    forall i, 0 <= i -> Z.testbit (insertBits v first last w) i =
      if (last <=? i) && (i <=? first) then Z.testbit w (i - last) else Z.testbit v i }.

Definition is_u64 (v : Z) : Prop := 0 <= v < 2 ^ 64.

Lemma u64_bits_above v i : is_u64 v -> 64 <= i -> Z.testbit v i = false.
Proof.
  intros Hv Hi. rewrite <- (Z.mod_small v (2 ^ 64)) by exact Hv. apply Z.mod_pow2_bits_high. lia.
Qed.

Lemma bits_lt v n : 0 <= v -> 0 <= n -> (forall i, n <= i -> Z.testbit v i = false) -> v < 2 ^ n.
Proof.
  intros Hv Hn H. destruct (decide (v = 0)) as [->|]; [by apply Z.pow_pos_nonneg; lia |].
  apply Z.log2_lt_pow2; [lia |]. destruct (Z_lt_le_dec (Z.log2 v) n) as [|Hl]; [done |].
  specialize (H _ Hl). rewrite Z.bit_log2 in H by lia. done.
Qed.

Lemma u64_eq u v :
  is_u64 u -> is_u64 v -> (forall i, 0 <= i < 64 -> Z.testbit u i = Z.testbit v i) -> u = v.
Proof.
  intros Hu Hv H. apply Z.bits_inj'. intros i Hi. destruct (Z_lt_le_dec i 64); [by apply H |].
  by rewrite !u64_bits_above.
Qed.

Lemma is_u64_land u v : is_u64 u -> 0 <= v -> is_u64 (Z.land u v).
Proof.
  intros Hu Hv. assert (0 <= Z.land u v) by (apply Z.land_nonneg; unfold is_u64 in *; lia).
  split; [done |]. apply bits_lt; [done | done |]. intros i Hi.
  by rewrite Z.land_spec, u64_bits_above.
Qed.

(** The parity of the one bits. *)
Definition parity_on (l : list Z) (v : Z) : bool :=
  foldr (fun i acc => xorb (Z.testbit v i) acc) false l.
Definition parity (v : Z) : bool := parity_on (seqZ 0 64) v.

Lemma odd_filter v l : Z.odd (Z.of_nat (length (List.filter (Z.testbit v) l))) = parity_on l v.
Proof.
  induction l as [|i l IH]; [done |]. cbn [List.filter parity_on foldr]. fold (parity_on l v).
  rewrite <- IH. destruct (Z.testbit v i); [| by rewrite xorb_false_l].
  cbn [length]. rewrite Nat2Z.inj_succ, Z.odd_succ, <- Z.negb_odd. by destruct (Z.odd _).
Qed.

Lemma odd_popCount {HB : Bitfield} {HL : BitfieldLaws HB} v :
  is_u64 v -> Z.odd (popCount v) = parity v.
Proof. intros Hv. rewrite popCount_spec by exact Hv. apply odd_filter. Qed.

Lemma parity_on_differ u v p l :
  NoDup l -> (forall i, i ∈ l -> i <> p -> Z.testbit u i = Z.testbit v i) ->
  xorb (parity_on l u) (parity_on l v) =
    if decide (p ∈ l) then xorb (Z.testbit u p) (Z.testbit v p) else false.
Proof.
  induction l as [|i l IH]; intros Hnd H; [by rewrite decide_False by apply not_elem_of_nil |].
  apply list.NoDup_cons in Hnd as [Hi Hnd]. cbn [parity_on foldr]. fold (parity_on l u) (parity_on l v).
  specialize (IH Hnd (fun j Hj => H j (list_elem_of_further _ _ _ Hj))).
  destruct (decide (i = p)) as [->|Hip].
  - rewrite decide_False in IH by done. rewrite decide_True by left.
    apply xorb_eq in IH. rewrite IH. by destruct (Z.testbit u p), (Z.testbit v p), (parity_on l v).
  - rewrite (H i) by (done || left). transitivity (xorb (parity_on l u) (parity_on l v)).
    { by destruct (Z.testbit v i), (parity_on l u), (parity_on l v). }
    rewrite IH.
    apply decide_ext. rewrite elem_of_cons. split; [auto | by intros [->|?]].
Qed.

Lemma parity_differ u v p :
  0 <= p < 64 -> (forall i, 0 <= i < 64 -> i <> p -> Z.testbit u i = Z.testbit v i) ->
  xorb (parity u) (parity v) = xorb (Z.testbit u p) (Z.testbit v p).
Proof.
  intros Hp H. unfold parity. rewrite (parity_on_differ u v p).
  - rewrite decide_True; [done |]. apply elem_of_seqZ. lia.
  - apply NoDup_seqZ.
  - intros i Hi. apply elem_of_seqZ in Hi. apply H. lia.
Qed.

Lemma parity_ext u v :
  (forall i, 0 <= i < 64 -> Z.testbit u i = Z.testbit v i) -> parity u = parity v.
Proof.
  intros H. apply xorb_eq. rewrite (parity_differ u v 0) by (lia || auto).
  rewrite H by lia. apply xorb_nilpotent.
Qed.

(** ** Selection *)

(** The masks are 64-bit values with some bit set. *)
Definition masks_ok (ms : list Z) : Prop := Forall (fun m => 0 < m < 2 ^ 64) ms.

Lemma select_spec {HB : Bitfield} {HL : BitfieldLaws HB} i ms a sel :
  0 <= i -> i + Z.of_nat (length ms) <= 31 -> masks_ok ms -> is_u64 a -> 0 <= sel ->
  exists s, select i ms a sel = Ret s /\ 0 <= s /\
    forall j, 0 <= j -> Z.testbit s j =
      orb (Z.testbit sel j)
        ((i <=? j) && match ms !! Z.to_nat (j - i) with
                      | Some m => parity (Z.land a m) | None => false end).
Proof.
  revert i sel. induction ms as [|m ms IH]; intros i sel Hi Hl Hm Ha Hs; simpl.
  { exists sel. split; [done |]. split; [done |]. intros j Hj. by rewrite andb_false_r, orb_false_r. }
  apply Forall_cons_1 in Hm as [Hm Hms]. simpl in Hl.
  destruct (Z.ltb_spec i 32); [| lia]. cbn [undef_unless mbind res_bind].
  assert (is_u64 (Z.land a m)) as Hu by (apply is_u64_land; [done | lia]).
  rewrite Zmod_odd, odd_popCount by done. fold (Z.b2z (parity (Z.land a m))).
  set (b := parity (Z.land a m)).
  assert (i32 (Z.shiftl (Z.b2z b) i) = Z.shiftl (Z.b2z b) i) as ->.
  { apply swrap_small; [done |]. rewrite Z.shiftl_mul_pow2 by done.
    assert (2 ^ i <= 2 ^ 30) by (apply Z.pow_le_mono_r; lia).
    assert (0 < 2 ^ i) by (apply Z.pow_pos_nonneg; lia). destruct b; simpl Z.b2z; lia. }
  assert (0 <= Z.shiftl (Z.b2z b) i) by (apply Z.shiftl_nonneg; destruct b; simpl; lia).
  destruct (IH (i + 1) (Z.lor sel (Z.shiftl (Z.b2z b) i))) as (s & E & Hs' & Hb); try done; try lia.
  { by apply Z.lor_nonneg. }
  exists s. split; [done |]. split; [done |]. intros j Hj.
  rewrite Hb, Z.lor_spec, Z.shiftl_spec, <- orb_assoc by done. f_equal.
  destruct (Z.lt_trichotomy j i) as [Hji|[->|Hji]].
  - rewrite Z.testbit_neg_r by lia. destruct (Z.leb_spec i j), (Z.leb_spec (i + 1) j); lia || done.
  - rewrite Z.sub_diag, Z.b2z_bit0. destruct (Z.leb_spec i i), (Z.leb_spec (i + 1) i); try lia.
    by rewrite orb_false_r.
  - destruct (Z.leb_spec i j), (Z.leb_spec (i + 1) j); try lia.
    replace (Z.to_nat (j - i)) with (Datatypes.S (Z.to_nat (j - (i + 1)))) by lia. simpl.
    replace (Z.testbit (Z.b2z b) (j - i)) with false; [done |]. symmetry.
    apply Z.bits_above_log2; destruct b; simpl; lia.
Qed.

(** Up to eight masks, the width of [intlvMatch]. *)
Definition range_ok (r : AddrRange) : Prop :=
  (length (masks r) <= 8)%nat /\ masks_ok (masks r).

(** The selector is a number of as many bits as there are masks. *)
Lemma selector {HB : Bitfield} {HL : BitfieldLaws HB} ms a :
  (length ms <= 8)%nat -> masks_ok ms -> is_u64 a ->
  exists s, select 0 ms a 0 = Ret s /\ 0 <= s < 2 ^ Z.of_nat (length ms) /\
    forall (k : nat) m, ms !! k = Some m -> Z.testbit s (Z.of_nat k) = parity (Z.land a m).
Proof.
  intros Hl Hm Ha. destruct (select_spec 0 ms a 0) as (s & E & Hs & Hb); try done; [lia |].
  exists s. split; [done |]. split; [split; [done |]; apply bits_lt; [done | lia |] |].
  - intros i Hi. rewrite Hb, Z.bits_0 by lia. rewrite lookup_ge_None_2 by lia.
    by rewrite andb_false_r.
  - intros k m Hk. rewrite Hb, Z.bits_0, Z.sub_0_r, Nat2Z.id, Hk by lia.
    by destruct (Z.leb_spec 0 (Z.of_nat k)); [| lia].
Qed.

Lemma contains_selector {HB : Bitfield} r a s :
  select 0 (masks r) a 0 = Ret s ->
  contains r a = Ret true <-> spans r a /\ s = intlvMatch r.
Proof.
  intros E. unfold contains, spans. rewrite E. cbn [mbind res_bind].
  destruct (Z.leb_spec (r_start r) a), (Z.ltb_spec a (r_end r)), (Z.eqb_spec s (intlvMatch r));
    cbn [andb]; split; intuition (congruence || lia).
Qed.

(** ** Merging *)

Lemma merge_loop_inv r l k :
  0 <= k -> k + Z.of_nat (length l) <= 256 -> merge_loop r l (u8 k) = Ret tt ->
  forall (i : nat) e, l !! i = Some e ->
    e = {| r_start := r_start r; r_end := r_end r; masks := masks r;
           intlvMatch := k + Z.of_nat i |}.
Proof.
  revert k. induction l as [|x l IH]; intros k Hk Hl H i e Hi; [done |]. simpl in H, Hl.
  destruct (negb (mergesWith r x)) eqn:Em; [done |]. cbn [fatal_if mbind res_bind] in H.
  destruct (negb (intlvMatch x =? u8 k)) eqn:Ei; [done |]. cbn [fatal_if mbind res_bind] in H.
  destruct i as [|i]; simpl in Hi.
  - injection Hi as <-. unfold mergesWith in Em. apply negb_false_iff in Em, Ei.
    apply andb_true_iff in Em as [Em E3]. apply andb_true_iff in Em as [E1 E2].
    apply Z.eqb_eq in E1, E2, Ei. apply bool_decide_eq_true_1 in E3.
    rewrite wrap_small in Ei by lia. destruct x. simpl in *. subst. f_equal. lia.
  - replace (k + Z.of_nat (Datatypes.S i)) with (k + 1 + Z.of_nat i) by lia.
    apply IH; [lia | lia | | done].
    rewrite (wrap_small 8 k) in H by lia. done.
Qed.

(** C18: interleaved ranges partition their span.  Whenever the constructor that
    merges a collection of ranges accepts two or more of them (with at most
    eight masks, the width of the match value), an address lies in the merged
    range exactly if it lies in one of the collection, and never in two. *)
Theorem merge_exact {HB : Bitfield} {HL : BitfieldLaws HB} l r a
  (Hn : (2 <= length l)%nat) (Hok : Forall range_ok l) (Ha : is_u64 a)
  (Hm : AddrRange_merge l = Ret r) :
  (contains r a = Ret true <-> exists e, In e l /\ contains e a = Ret true) /\
  forall e1 e2, In e1 l -> In e2 l -> contains e1 a = Ret true -> contains e2 a = Ret true -> e1 = e2.
Proof.
  destruct l as [|x l']; [simpl in Hn; lia |]. unfold AddrRange_merge in Hm.
  set (l := x :: l') in *. apply Forall_inv in Hok as [Hx8 Hxm].
  destruct (Z.ltb_spec 1 (Z.of_nat (length l))) as [_|]; [| lia].
  unfold shl_1ULL in Hm. destruct (Z.ltb_spec (num_masks x) 64) as [_|H]; [| unfold num_masks in H; lia].
  cbn [undef_unless mbind res_bind] in Hm.
  destruct (Z.eqb_spec (Z.of_nat (length l)) (2 ^ num_masks x)) as [El|]; [| done].
  cbn [negb fatal_if mbind res_bind] in Hm.
  destruct (merge_loop x l 0) as [[]| | |] eqn:Eloop; try done. injection Hm as <-.
  assert (2 ^ num_masks x <= 2 ^ 8) as Hn8 by (apply Z.pow_le_mono_r; unfold num_masks; lia).
  assert (forall (i : nat) e, l !! i = Some e -> e =
    {| r_start := r_start x; r_end := r_end x; masks := masks x; intlvMatch := Z.of_nat i |}) as Hl.
  { apply (merge_loop_inv x l 0); [done | lia | done]. }
  destruct (selector (masks x) a Hx8 Hxm Ha) as (s & Es & Hs & _).
  assert (forall e, In e l -> contains e a = Ret true <-> spans x a /\ s = intlvMatch e) as He.
  { intros e Hin. apply list_elem_of_In, list_elem_of_lookup in Hin as [i Hi].
    rewrite (contains_selector e a s); rewrite (Hl i e Hi); done. }
  split.
  - rewrite contains_plain_iff by done. split.
    + intros Hsp. unfold num_masks in El. destruct (lookup_lt_is_Some_2 l (Z.to_nat s)) as [e Hi]; [lia |].
      exists e. assert (In e l) as Hin by (apply list_elem_of_In; by eapply list_elem_of_lookup_2).
      split; [done |]. apply He; [done |]. rewrite (Hl _ _ Hi). simpl. split; [done | lia].
    + intros (e & Hin & Hc). apply He in Hc as [Hsp _]; done.
  - intros e1 e2 H1 H2 C1 C2. apply He in C1 as [_ S1], C2 as [_ S2]; try done.
    apply list_elem_of_In, list_elem_of_lookup in H1 as [i1 H1], H2 as [i2 H2].
    rewrite (Hl _ _ H1) in S1 |- *. rewrite (Hl _ _ H2) in S2 |- *. simpl in *. f_equal. lia.
Qed.

(** ** Removing and adding bits *)

(** Where bit [i] comes from when bit [p] is removed, and when it is added. *)
Definition skip (p i : Z) : Z := if i <? p then i else i + 1.
Definition squeeze (p i : Z) : Z := if i <? p then i else i - 1.

Fixpoint skips (k : Z) (ps : list Z) (i : Z) : Z :=
  match ps with [] => i | p :: ps => skip (p - k) (skips (k + 1) ps i) end.
Fixpoint squeezes (ps : list Z) (i : Z) : Z :=
  match ps with [] => i | p :: ps => squeeze p (squeezes ps i) end.

Ltac index := unfold skip, squeeze in *; repeat match goal with
  | |- context [?a <? ?b] => destruct (Z.ltb_spec a b) end; try lia.

Lemma skips_squeeze p k ps i :
  StronglySorted Z.lt ps -> Forall (fun q => p < q - k) ps ->
  skips (k + 1) ps (squeeze p i) = squeeze p (skips k ps i).
Proof.
  intros Hs. revert k. induction Hs as [|q ps Hs IH Hq]; intros k Hp; [done |].
  apply Forall_cons_1 in Hp as [Hpq Hp]. simpl. rewrite IH.
  - generalize (skips (k + 1) ps i). intros j. index.
  - eapply Forall_impl; [| exact Hq]. simpl. lia.
Qed.

Lemma skips_skip p k ps i :
  StronglySorted Z.lt ps -> Forall (fun q => p < q - k) ps ->
  skip p (skips (k + 1) ps i) = skips k ps (skip p i).
Proof.
  intros Hs. revert k. induction Hs as [|q ps Hs IH Hq]; intros k Hp; [done |].
  apply Forall_cons_1 in Hp as [Hpq Hp]. simpl. rewrite <- IH.
  - generalize (skips (k + 1 + 1) ps i). intros j. index.
  - eapply Forall_impl; [| exact Hq]. simpl. lia.
Qed.

Lemma sorted_above p ps : Forall (Z.lt p) ps -> Forall (fun q => p < q - 0) ps.
Proof. intros H. eapply Forall_impl; [| exact H]. simpl. lia. Qed.

Lemma skips_squeezes ps i :
  StronglySorted Z.lt ps -> i ∉ ps -> skips 0 ps (squeezes ps i) = i.
Proof.
  induction 1 as [|p ps Hs IH Hp]; intros Hi; [done |]. apply not_elem_of_cons in Hi as [Hip Hi].
  simpl. rewrite (skips_squeeze p 0) by (done || by apply sorted_above). rewrite IH by done. index.
Qed.

Lemma squeezes_skips ps i : StronglySorted Z.lt ps -> squeezes ps (skips 0 ps i) = i.
Proof.
  intros Hs. revert i. induction Hs as [|p ps Hs IH Hp]; intros i; [done |]. simpl.
  rewrite Z.sub_0_r, (skips_skip p 0) by (done || by apply sorted_above). rewrite IH. index.
Qed.

Lemma skips_avoid ps i : StronglySorted Z.lt ps -> skips 0 ps i ∉ ps.
Proof.
  intros Hs. revert i. induction Hs as [|p ps Hs IH Hp]; intros i; [apply not_elem_of_nil |].
  apply not_elem_of_cons. simpl. rewrite Z.sub_0_r. split.
  - generalize (skips (0 + 1) ps i). intros j. index.
  - rewrite (skips_skip p 0) by (done || by apply sorted_above). apply IH.
Qed.

Lemma skips_bounds k ps i :
  i <= skips k ps i <= i + Z.of_nat (length ps).
Proof.
  revert k. induction ps as [|p ps IH]; intros k; simpl; [lia |]. specialize (IH (k + 1)).
  revert IH. generalize (skips (k + 1) ps i). intros j Hj. index.
Qed.

Lemma skips_high k ps i :
  Forall (fun p => p < 64) ps -> 64 - k - Z.of_nat (length ps) <= i ->
  skips k ps i = i + Z.of_nat (length ps).
Proof.
  intros Hp. revert k. induction Hp as [|p ps Hp Hps IH]; intros k Hi; simpl in *; [lia |].
  rewrite IH by lia. index.
Qed.

Lemma squeezes_range ps i :
  Forall (fun p => 1 <= p) ps -> 0 <= i < 64 -> 0 <= squeezes ps i < 64.
Proof.
  intros Hp Hi. induction Hp as [|p ps Hp Hps IH]; simpl; [done |].
  revert IH. generalize (squeezes ps i). intros j Hj. index.
Qed.

Section bits.
Context {HB : Bitfield} {HL : BitfieldLaws HB}.

Lemma remove_loop_bits k ps a :
  0 <= k -> StronglySorted Z.lt ps -> Forall (fun p => k < p < 64) ps -> is_u64 a ->
  is_u64 (remove_loop k ps a) /\
  forall i, 0 <= i -> Z.testbit (remove_loop k ps a) i = Z.testbit a (skips k ps i).
Proof.
  intros Hk Hs. revert k a Hk. induction Hs as [|p ps Hs IH Hp]; intros k a Hk Hr Ha; [done |].
  apply Forall_cons_1 in Hr as [Hpr Hr]. simpl. destruct (Z.ltb_spec 0 p); [| lia].
  rewrite wrap_small by lia.
  assert (is_u64 (Z.shiftr a 1)) as Hsh.
  { unfold is_u64 in *. rewrite Z.shiftr_div_pow2 by lia. change (2 ^ 1) with 2.
    split; [apply Z.div_pos; lia |]. apply Z.div_lt_upper_bound; lia. }
  destruct (insertBits_spec (Z.shiftr a 1) (p - k - 1) 0 a) as [Hu Hb];
    [exact Hsh | unfold is_u64 in Ha; lia | lia | lia |].
  destruct (IH (k + 1) (insertBits (Z.shiftr a 1) (p - k - 1) 0 a)) as [Hu' Hb']; [lia | | done |].
  { rewrite List.Forall_forall in Hp, Hr |- *. intros q Hq. specialize (Hp q Hq). specialize (Hr q Hq). lia. }
  split; [done |]. intros i Hi. rewrite Hb' by done. pose proof (skips_bounds (k + 1) ps i).
  rewrite Hb by lia. rewrite Z.sub_0_r, Z.shiftr_spec by lia. unfold skip.
  destruct (Z.leb_spec 0 (skips (k + 1) ps i)); [| lia].
  destruct (Z.leb_spec (skips (k + 1) ps i) (p - k - 1)), (Z.ltb_spec (skips (k + 1) ps i) (p - k));
    try lia; done.
Qed.

Lemma add_loop_bits ps a :
  Forall (fun p => 0 < p < 64) ps -> is_u64 a ->
  is_u64 (add_loop ps a) /\
  forall i, 0 <= i < 64 -> Z.testbit (add_loop ps a) i = Z.testbit a (squeezes ps i).
Proof.
  intros Hr. revert a. induction Hr as [|p ps Hp Hr IH]; intros a Ha; [done |]. simpl.
  destruct (Z.ltb_spec 0 p); [| lia].
  assert (is_u64 (u64 (Z.shiftl a 1))) as Hsh by (apply wrap_range; lia).
  destruct (insertBits_spec (u64 (Z.shiftl a 1)) (p - 1) 0 a) as [Hu Hb];
    [exact Hsh | unfold is_u64 in Ha; lia | lia | lia |].
  destruct (IH (insertBits (u64 (Z.shiftl a 1)) (p - 1) 0 a) Hu) as [Hu' Hb'].
  split; [done |]. intros i Hi. rewrite Hb' by done.
  assert (0 <= squeezes ps i < 64) as Hsq.
  { apply squeezes_range; [| done]. eapply Forall_impl; [| exact Hr]. simpl. lia. }
  rewrite Hb, Z.sub_0_r by lia. destruct (Z.leb_spec 0 (squeezes ps i)); [| lia]. unfold squeeze.
  destruct (Z.leb_spec (squeezes ps i) (p - 1)), (Z.ltb_spec (squeezes ps i) p); try lia; [done |].
  cbn [andb]. unfold wrap. rewrite Z.mod_pow2_bits_low, Z.shiftl_spec by lia. done.
Qed.

(** A mask has none of the lowest bits of the masks behind it. *)
Definition separate (ms : list Z) : Prop :=
  StronglySorted (fun m m' => Z.testbit m (ctz64 m') = false) ms.

Abbreviation lsbs_of ms := (ctz64 <$> ms).

Lemma not_lsb_spec lsb :
  0 <= lsb <= 30 ->
  exists o, not_lsb lsb = Ret o /\ is_u64 o /\
    forall i, 0 <= i < 64 -> Z.testbit o i = negb (i =? lsb).
Proof.
  intros Hl. unfold not_lsb. destruct (Z.ltb_spec lsb 32); [| lia]. cbn [undef_unless mbind res_bind].
  eexists. split; [done |]. split; [apply wrap_range; lia |]. intros i Hi.
  unfold wrap. rewrite Z.mod_pow2_bits_low, Z.lnot_spec by lia. f_equal.
  rewrite swrap_small.
  - rewrite Z.shiftl_1_l. destruct (Z.eqb_spec i lsb) as [->|]; [apply Z.pow2_bits_true; lia |].
    apply Z.pow2_bits_false. lia.
  - lia.
  - rewrite Z.shiftl_1_l. assert (2 ^ lsb <= 2 ^ 30) by (apply Z.pow_le_mono_r; lia).
    assert (0 < 2 ^ lsb) by (apply Z.pow_pos_nonneg; lia). lia.
Qed.

(** One step of the second loop: the parity under the mask is as asked. *)
Lemma match_step match_ i m a :
  0 <= match_ -> 0 <= i < 64 -> 0 < m < 2 ^ 64 -> ctz64 m <= 30 -> is_u64 a ->
  exists o, not_lsb (ctz64 m) = Ret o /\
    let a' := insertBit a (ctz64 m) (Z.lxor (bits match_ i) (popCount (Z.land (Z.land a m) o))) in
    is_u64 a' /\ parity (Z.land a' m) = Z.testbit match_ i /\
    forall j, 0 <= j -> j <> ctz64 m -> Z.testbit a' j = Z.testbit a j.
Proof.
  intros Hma Hi Hm Hl Ha. destruct (ctz64_spec m Hm) as (Hr & Ht & _).
  destruct (not_lsb_spec (ctz64 m)) as (o & Eo & Ho & Hob); [lia |]. exists o. split; [done |].
  set (masked := Z.land (Z.land a m) o).
  assert (is_u64 masked) as Hmk.
  { apply is_u64_land; [apply is_u64_land; [done | lia] | unfold is_u64 in Ho; lia]. }
  rewrite bits_spec by done. set (w := Z.lxor _ _).
  assert (0 <= w) as Hw.
  { apply Z.lxor_nonneg. rewrite popCount_spec by exact Hmk.
    split; intros _; [apply Nat2Z.is_nonneg | by destruct (Z.testbit match_ i)]. }
  assert (Z.testbit w 0 = xorb (Z.testbit match_ i) (parity masked)) as Hw0.
  { unfold w. rewrite Z.lxor_spec, Z.b2z_bit0, Z.bit0_odd, odd_popCount by done. done. }
  unfold insertBit.
  destruct (insertBits_spec a (ctz64 m) (ctz64 m) w) as [Hu Hb]; [exact Ha | done | lia | lia |].
  assert (forall j, 0 <= j -> j <> ctz64 m ->
    Z.testbit (insertBits a (ctz64 m) (ctz64 m) w) j = Z.testbit a j) as Hother.
  { intros j Hj Hne. rewrite Hb by done.
    by destruct (Z.leb_spec (ctz64 m) j), (Z.leb_spec j (ctz64 m)); try lia. }
  cbn zeta. split; [done |]. split; [| done].
  set (a' := insertBits a (ctz64 m) (ctz64 m) w) in *.
  assert (Z.testbit masked (ctz64 m) = false) as Hmf.
  { unfold masked. rewrite !Z.land_spec, Hob, Z.eqb_refl by lia. by rewrite andb_false_r. }
  assert (Z.testbit (Z.land a' m) (ctz64 m) = xorb (Z.testbit match_ i) (parity masked)) as Hat.
  { rewrite Z.land_spec, Ht, andb_true_r, Hb by lia. by rewrite Z.leb_refl, Z.sub_diag. }
  assert (xorb (parity (Z.land a' m)) (parity masked) = xorb (Z.testbit match_ i) (parity masked)) as E.
  { rewrite (parity_differ (Z.land a' m) masked (ctz64 m)), Hat, Hmf; [apply xorb_false_r | done |].
    intros j Hj Hne. unfold masked. rewrite !Z.land_spec, Hother, Hob by lia.
    destruct (Z.eqb_spec j (ctz64 m)); [done |]. by rewrite andb_true_r. }
  revert E. generalize (parity (Z.land a' m)) (parity masked) (Z.testbit match_ i).
  by intros [] [] [].
Qed.

Lemma match_loop_spec match_ i ms a :
  0 <= match_ -> 0 <= i -> i + Z.of_nat (length ms) <= 64 -> masks_ok ms -> separate ms ->
  Forall (fun m => ctz64 m <= 30) ms -> is_u64 a ->
  exists a', match_loop match_ i ms a = Ret a' /\ is_u64 a' /\
    (forall j, 0 <= j -> j ∉ lsbs_of ms -> Z.testbit a' j = Z.testbit a j) /\
    forall (k : nat) m, ms !! k = Some m -> parity (Z.land a' m) = Z.testbit match_ (i + Z.of_nat k).
Proof.
  intros Hma. revert i a. induction ms as [|m ms IH]; intros i a Hi Hl Hok Hsep H30 Ha; simpl.
  { by exists a. }
  apply Forall_cons_1 in Hok as [Hm Hok], H30 as [Hm30 H30]. apply StronglySorted_inv in Hsep as [Hsep Hml].
  simpl in Hl. destruct (match_step match_ i m a) as (o & -> & Hu & Hpar & Hoth); try done; [lia |].
  cbn [mbind res_bind]. cbn zeta in Hu, Hpar, Hoth. set (a1 := insertBit _ _ _) in *.
  destruct (IH (i + 1) a1) as (a' & E & Hu' & Hoth' & Hpar'); try done; [lia | lia |].
  exists a'. split; [done |]. split; [done |]. split.
  - intros j Hj Hnin. apply not_elem_of_cons in Hnin as [Hjm Hnin]. by rewrite Hoth', Hoth.
  - intros [|k] mk Hk; simpl in Hk.
    + injection Hk as <-. rewrite Z.add_0_r, <- Hpar. apply parity_ext. intros j Hj.
      rewrite !Z.land_spec. destruct (decide (j ∈ lsbs_of ms)) as [Hin|Hnin]; [| by rewrite Hoth' by (done || lia)].
      apply list_elem_of_fmap in Hin as (m' & -> & Hm'). rewrite List.Forall_forall in Hml.
      rewrite Hml, !andb_false_r; [done |]. by apply list_elem_of_In.
    + rewrite (Hpar' k mk Hk). f_equal. lia.
Qed.

(** The lowest bits are determined by the parities. *)
Lemma parities_determine ms a b :
  masks_ok ms -> separate ms ->
  (forall j, 0 <= j < 64 -> j ∉ lsbs_of ms -> Z.testbit a j = Z.testbit b j) ->
  (forall m, m ∈ ms -> parity (Z.land a m) = parity (Z.land b m)) ->
  forall j, 0 <= j < 64 -> Z.testbit a j = Z.testbit b j.
Proof.
  induction ms as [|m ms IH]; intros Hok Hsep Hout Hpar; [intros j Hj; apply Hout; [done | apply not_elem_of_nil] |].
  apply Forall_cons_1 in Hok as [Hm Hok]. apply StronglySorted_inv in Hsep as [Hsep Hml].
  destruct (ctz64_spec m Hm) as (Hr & Ht & _).
  apply (IH Hok Hsep); [| intros m' Hm'; apply Hpar; by right].
  intros j Hj Hnin. destruct (decide (j = ctz64 m)) as [->|Hne].
  - apply xorb_eq. pose proof (parity_differ (Z.land a m) (Z.land b m) (ctz64 m) Hr) as HP.
    rewrite !Z.land_spec, Ht, !andb_true_r in HP. rewrite <- HP.
    + rewrite (Hpar m) by left. apply xorb_nilpotent.
    + intros i Hi Him. rewrite !Z.land_spec. destruct (decide (i ∈ lsbs_of ms)) as [Hin|Hin].
      * apply list_elem_of_fmap in Hin as (m' & -> & Hm'). rewrite List.Forall_forall in Hml.
        rewrite Hml, !andb_false_r; [done |]. by apply list_elem_of_In.
      * rewrite (Hout i Hi); [done |]. by apply not_elem_of_cons.
  - apply Hout; [done |]. by apply not_elem_of_cons.
Qed.

(** The lowest bits are distinct, so sorted strictly. *)
Lemma lsbs_nodup ms : masks_ok ms -> separate ms -> NoDup (lsbs_of ms).
Proof.
  intros Hok Hsep. induction Hsep as [|m ms Hsep IH Hml]; [constructor |].
  apply Forall_cons_1 in Hok as [Hm Hok]. apply list.NoDup_cons. split; [| by apply IH].
  intros Hin. apply list_elem_of_fmap in Hin as (m' & E & Hm'). rewrite List.Forall_forall in Hml.
  apply list_elem_of_In in Hm'. specialize (Hml m' Hm'). rewrite <- E in Hml.
  destruct (ctz64_spec m Hm) as (_ & Ht & _). congruence.
Qed.

Lemma masks_lsb_sorted r :
  masks_ok (masks r) -> separate (masks r) ->
  StronglySorted Z.lt (masks_lsb r) /\ masks_lsb r ≡ₚ lsbs_of (masks r).
Proof.
  intros Hok Hsep. pose proof (merge_sort_Permutation Z.le (lsbs_of (masks r))) as HP.
  split; [| exact HP]. assert (NoDup (masks_lsb r)) as Hnd.
  { unfold masks_lsb. rewrite HP. by apply lsbs_nodup. }
  assert (StronglySorted Z.le (masks_lsb r)) as Hs by (apply StronglySorted_merge_sort; tc_solve).
  clear HP. induction Hs as [|p ps Hs IH Hp]; [constructor |]. apply list.NoDup_cons in Hnd as [Hpn Hnd].
  constructor; [by apply IH |]. rewrite List.Forall_forall in Hp |- *. intros q Hq. specialize (Hp q Hq).
  assert (p <> q); [| lia]. intros ->. apply Hpn. by apply list_elem_of_In.
Qed.

(** A range whose interleaving bits can be taken out and put back: the masks
    are separate, and their lowest bits between 1 and 30, within an [int]. *)
Record striped (r : AddrRange) : Prop := {
  st_some : masks r <> [];
  st_ok : range_ok r;
  st_separate : separate (masks r);
  st_lsbs : Forall (fun m => 1 <= ctz64 m <= 30) (masks r);
  st_match : 0 <= intlvMatch r < 2 ^ num_masks r }.

Lemma striped_interleaved r : masks r <> [] -> interleaved r = true.
Proof. unfold interleaved, num_masks. by destruct (masks r). Qed.

Lemma striped_lsbs r :
  striped r -> StronglySorted Z.lt (masks_lsb r) /\ Forall (fun p => 0 < p < 64) (masks_lsb r) /\
    length (masks_lsb r) = length (masks r) /\ forall j, j ∈ masks_lsb r <-> j ∈ lsbs_of (masks r).
Proof.
  intros [_ [_ Hok] Hsep Hl _]. destruct (masks_lsb_sorted r Hok Hsep) as [Hs HP].
  split; [done |]. split; [| split; [by rewrite HP, length_fmap | intros j; by rewrite HP]].
  rewrite HP. apply Forall_fmap. eapply Forall_impl; [| exact Hl]. simpl. lia.
Qed.

Lemma removeIntlvBits_spec r a :
  striped r -> is_u64 a ->
  0 <= removeIntlvBits r a < 2 ^ (64 - num_masks r) /\
  forall i, 0 <= i -> Z.testbit (removeIntlvBits r a) i = Z.testbit a (skips 0 (masks_lsb r) i).
Proof.
  intros Hr Ha. destruct (striped_lsbs r Hr) as (Hs & Hp & Hlen & _).
  destruct Hr as [Hne [H8 _] _ _ _]. unfold removeIntlvBits. rewrite striped_interleaved by done.
  destruct (remove_loop_bits 0 (masks_lsb r) a) as [[H0 _] Hb]; [lia | done .. |].
  split; [| done]. split; [done |]. apply bits_lt; [done | unfold num_masks; lia |]. intros i Hi.
  unfold num_masks in Hi. rewrite Hb by lia. apply u64_bits_above; [done |]. rewrite skips_high; [lia | | lia].
  eapply Forall_impl; [| exact Hp]. simpl. lia.
Qed.

Lemma addIntlvBits_spec r b :
  striped r -> is_u64 b ->
  exists a, addIntlvBits r b = Ret a /\ is_u64 a /\
    (forall j, 0 <= j < 64 -> j ∉ masks_lsb r -> Z.testbit a j = Z.testbit b (squeezes (masks_lsb r) j)) /\
    forall (k : nat) m, masks r !! k = Some m ->
      parity (Z.land a m) = Z.testbit (intlvMatch r) (Z.of_nat k).
Proof.
  intros Hr Hb. destruct (striped_lsbs r Hr) as (Hs & Hp & Hlen & Hin).
  destruct Hr as [Hne [H8 Hok] Hsep Hl Hm]. unfold addIntlvBits. rewrite striped_interleaved by done.
  destruct (add_loop_bits (masks_lsb r) b Hp Hb) as [Hu Hbits].
  destruct (match_loop_spec (intlvMatch r) 0 (masks r) (add_loop (masks_lsb r) b))
    as (a & E & Ha & Hout & Hpar); try done; [lia | lia | |].
  { eapply Forall_impl; [| exact Hl]. simpl. lia. }
  exists a. split; [done |]. split; [done |]. split; [| done].
  intros j Hj Hnin. rewrite Hout; [by apply Hbits | lia | by rewrite <- Hin].
Qed.

Lemma selects_iff r a s :
  striped r -> is_u64 a -> select 0 (masks r) a 0 = Ret s ->
  s = intlvMatch r <-> forall (k : nat) m, masks r !! k = Some m ->
    parity (Z.land a m) = Z.testbit (intlvMatch r) (Z.of_nat k).
Proof.
  intros [_ [H8 Hok] _ _ Hm] Ha E. destruct (selector (masks r) a H8 Hok Ha) as (s' & E' & Hs & Hb).
  rewrite E in E'. injection E' as <-. fold (num_masks r) in Hs. split.
  - intros -> k m Hk. by rewrite (Hb k m Hk).
  - intros H. apply Z.bits_inj'. intros i Hi. unfold num_masks in *.
    destruct (masks r !! Z.to_nat i) as [m|] eqn:Ei.
    + rewrite <- (Z2Nat.id i) by done. by rewrite (Hb _ m Ei), (H _ m Ei).
    + apply lookup_ge_None in Ei. rewrite <- (Z.mod_small s (2 ^ Z.of_nat (length (masks r)))) by done.
      rewrite <- (Z.mod_small (intlvMatch r) (2 ^ Z.of_nat (length (masks r)))) by done.
      by rewrite !Z.mod_pow2_bits_high by lia.
Qed.

End bits.


(** ** Subsets *)

Lemma select_ext {HB : Bitfield} i ms a b sel :
  (forall m, In m ms -> Z.land a m = Z.land b m) -> select i ms a sel = select i ms b sel.
Proof.
  revert i sel. induction ms as [|m ms IH]; intros i sel H; [done |]. simpl.
  rewrite (H m) by (by left). destruct (i <? 32); [| done]. cbn [undef_unless mbind res_bind].
  apply IH. intros m' Hm'. apply H. by right.
Qed.

(** The low half of [combined_mask] is that of the union of the masks. *)
Lemma combined_low r i :
  0 <= i < 32 -> Z.testbit (combined_mask r) i = existsb (fun m => Z.testbit m i) (masks r).
Proof.
  intros Hi. unfold combined_mask.
  assert (forall x, Z.testbit (i32 (u32 x)) i = Z.testbit x i) as Hx.
  { intros x. unfold swrap. replace (32 - 1) with 31 by lia.
    rewrite <- (Z.mod_pow2_bits_low (_ - _) 32) by lia.
    rewrite Zminus_mod_idemp_l, Z.add_simpl_r, Z.mod_pow2_bits_low by lia.
    unfold wrap. by rewrite Z.mod_pow2_bits_low by lia. }
  assert (forall l c, Z.testbit (foldl (fun c m => i32 (u32 (Z.lor (u64 c) m))) c l) i =
    Z.testbit c i || existsb (fun m => Z.testbit m i) l) as Hl.
  { induction l as [|m l IH]; intros c; simpl; [by rewrite orb_false_r |].
    rewrite IH, Hx, Z.lor_spec, orb_assoc. unfold wrap. by rewrite Z.mod_pow2_bits_low by lia. }
  rewrite Hl, Z.bits_0. done.
Qed.

(** The granularity is the distance of the lowest mask bit. *)
Lemma granularity_spec {HB : Bitfield} {HL : BitfieldLaws HB} r g :
  masks_ok (masks r) -> Exists (fun m => m mod 2 ^ 32 <> 0) (masks r) -> granularity r = Ret g ->
  exists k, 0 <= k < 32 /\ g = 2 ^ k /\
    forall m i, In m (masks r) -> 0 <= i < k -> Z.testbit m i = false.
Proof.
  intros Hok Hlow. unfold granularity.
  assert (interleaved r = true) as ->.
  { unfold interleaved, num_masks. destruct Hlow; done. }
  set (c := u64 (combined_mask r)).
  assert (forall i, 0 <= i < 32 -> Z.testbit c i = existsb (fun m => Z.testbit m i) (masks r)) as Hc.
  { intros i Hi. unfold c, wrap. rewrite Z.mod_pow2_bits_low by lia. by apply combined_low. }
  assert (exists i, 0 <= i < 32 /\ Z.testbit c i = true) as (i0 & Hi0 & Ht0).
  { rewrite Exists_exists in Hlow. destruct Hlow as (m & Hm & Hmod).
    assert (0 < m mod 2 ^ 32 < 2 ^ 32) as Hr by (pose proof (Z.mod_pos_bound m (2 ^ 32)); lia).
    exists (Z.log2 (m mod 2 ^ 32)). pose proof (Z.log2_nonneg (m mod 2 ^ 32)).
    assert (Z.log2 (m mod 2 ^ 32) < 32) by (apply Z.log2_lt_pow2; lia).
    split; [lia |]. rewrite Hc by lia. apply List.existsb_exists. exists m. split; [done |].
    rewrite <- (Z.mod_pow2_bits_low m 32) by lia. apply Z.bit_log2. lia. }
  assert (0 <= c < 2 ^ 64) as Hcr by (apply wrap_range; lia).
  assert (0 < c < 2 ^ 64) as Hc0.
  { split; [| lia]. destruct (decide (c = 0)) as [E|]; [| lia]. rewrite E, Z.bits_0 in Ht0. done. }
  destruct (ctz64_spec c Hc0) as (Hk & Htk & Hmin).
  assert (ctz64 c < 32).
  { destruct (Z_lt_le_dec i0 (ctz64 c)) as [Hlt|]; [| lia]. rewrite Hmin in Ht0 by lia. done. }
  rewrite wrap_small by lia. unfold shl_1ULL. destruct (Z.ltb_spec (ctz64 c) 64); [| lia].
  intros [= <-]. exists (ctz64 c). split; [lia |]. split; [done |]. intros m i Hm Hi.
  specialize (Hmin i Hi). rewrite Hc in Hmin by lia. apply not_true_is_false. intros Ht.
  assert (existsb (fun m => Z.testbit m i) (masks r) = true); [| congruence].
  apply List.existsb_exists. by exists m.
Qed.

Lemma same_granule {HB : Bitfield} r k a b :
  0 <= k -> 0 <= a -> 0 <= b ->
  (forall m i, In m (masks r) -> 0 <= i < k -> Z.testbit m i = false) ->
  Z.shiftr a k = Z.shiftr b k -> select 0 (masks r) a 0 = select 0 (masks r) b 0.
Proof.
  intros Hk Ha Hb Hm E. apply select_ext. intros m Hin. apply Z.bits_inj'. intros i Hi.
  rewrite !Z.land_spec. destruct (Z_lt_le_dec i k).
  - by rewrite (Hm m i Hin), !andb_false_r by lia.
  - f_equal. replace i with (i - k + k) by lia. rewrite <- !Z.shiftr_spec by lia. by rewrite E.
Qed.

(** A positive subset test is sound.  If [isSubset] answers true for a plain
    non-empty range and a range that is non-empty and plain, or interleaved with
    some mask bit below 32, every address of the first is in the second, also
    where the first crosses a boundary of the stripes. *)
Theorem subset_sound {HB : Bitfield} {HL : BitfieldLaws HB} r e a
  (Hr : plain r) (Hs : 0 <= r_start r < r_end r) (Ht : r_end r < 2 ^ 64)
  (He : plain e /\ r_start e < r_end e \/
        masks_ok (masks e) /\ Exists (fun m => m mod 2 ^ 32 <> 0) (masks e))
  (Hsub : isSubset r e = Ret true) (Ha : contains r a = Ret true) : contains e a = Ret true.
Proof.
  apply contains_plain_iff in Ha; [| done]. unfold isSubset in Hsub. rewrite plain_interleaved in Hsub by done.
  destruct He as [[He Hne]|[Hok Hlow]].
  - rewrite plain_interleaved in Hsub by done. apply contains_plain_iff; [done |].
    destruct (Z.leb_spec (r_end r) (r_start r)); [lia |].
    destruct (Z.leb_spec (r_end e) (r_start e)); [lia |].
    injection Hsub as Hsub. unfold spans in *. lia.
  - assert (interleaved e = true) as Hie.
    { unfold interleaved, num_masks. destruct Hlow; done. }
    rewrite Hie in Hsub. rewrite wrap_small in Hsub by lia.
    apply bind_ret_inv in Hsub as ([] & C1 & Hsub); [| done]. cbn [negb] in Hsub.
    apply bind_ret_inv in Hsub as ([] & C2 & Hsub); [| done]. cbn [negb] in Hsub.
    apply bind_ret_inv in Hsub as (n & En & Hsub). apply bind_ret_inv in Hsub as (g & Eg & [= Hng]).
    destruct (granularity_spec e g Hok Hlow Eg) as (k & Hk & -> & Hm).
    assert (n = r_end r - r_start r) as ->.
    { unfold size, num_masks in En. rewrite (proj1 Hr) in En. simpl in En. injection En as <-.
      rewrite Z.shiftr_0_r. apply wrap_small. lia. }
    assert (Z.shiftr a k = Z.shiftr (r_start r) k \/ Z.shiftr a k = Z.shiftr (r_end r - 1) k) as Hcase.
    { unfold spans in Ha. rewrite !Z.shiftr_div_pow2 by lia. assert (0 < 2 ^ k) by (apply Z.pow_pos_nonneg; lia).
      pose proof (Z.div_mod (r_start r) (2 ^ k)). pose proof (Z.mod_pos_bound (r_start r) (2 ^ k)).
      pose proof (Z.div_mod (r_end r - 1) (2 ^ k)). pose proof (Z.mod_pos_bound (r_end r - 1) (2 ^ k)).
      pose proof (Z.div_mod a (2 ^ k)). pose proof (Z.mod_pos_bound a (2 ^ k)).
      nia. }
    unfold spans in Ha. unfold contains in *.
    destruct ((r_start e <=? r_start r) && _) eqn:B1; [| done].
    destruct ((r_start e <=? r_end r - 1) && _) eqn:B2; [| done].
    destruct ((r_start e <=? a) && (a <? r_end e)) eqn:B3; [| lia].
    destruct Hcase as [E|E]; [rewrite (same_granule e k a (r_start r)) | rewrite (same_granule e k a (r_end r - 1))];
      try lia; try done.
Qed.

(** ** The older constructor *)

(** The mask of selector bit [j]: one bit of each field. *)
Definition field_bits (high xhigh n j : Z) : Z :=
  let bit1 := 2 ^ (high - (n - 1) + j) in
  if xhigh =? 0 then bit1 else Z.lor bit1 (2 ^ (xhigh - (n - 1) + j)).

Lemma shl_1ULL_inv n v : shl_1ULL n = Ret v -> n < 64 /\ v = 2 ^ n.
Proof. unfold shl_1ULL. destruct (Z.ltb_spec n 64); [| done]. by intros [= <-]. Qed.

(** A bit number that wrapped around is too large to shift by. *)
Lemma shl_u8_inv h i v :
  0 <= h < 256 -> 0 <= i < 64 -> shl_1ULL (u8 (h - i)) = Ret v -> 0 <= h - i < 64 /\ v = 2 ^ (h - i).
Proof.
  intros Hh Hi H. apply shl_1ULL_inv in H as [Hlt ->]. destruct (Z_lt_le_dec h i).
  - unfold wrap in Hlt. rewrite <- (Z.mod_unique_pos (h - i) (2 ^ 8) (-1) (h - i + 256)) in Hlt; lia.
  - rewrite wrap_small in * by lia. lia.
Qed.

Lemma legacy_mask_inv h x n i v :
  0 <= h < 256 -> 0 <= x < 256 -> 0 <= i < n -> n <= 64 -> legacy_mask h x i = Ret v ->
  0 <= h - i < 64 /\ (x <> 0 -> 0 <= x - i < 64) /\ v = field_bits h x n (n - i - 1).
Proof.
  intros Hh Hx Hi Hn H. unfold legacy_mask in H. apply bind_ret_inv in H as (b1 & E1 & H).
  apply shl_u8_inv in E1 as [H1 ->]; [| lia | lia]. unfold field_bits.
  replace (h - (n - 1) + (n - i - 1)) with (h - i) by lia.
  replace (x - (n - 1) + (n - i - 1)) with (x - i) by lia.
  destruct (Z.eqb_spec x 0); [injection H as <-; split; [done |]; by split |].
  apply bind_ret_inv in H as (b2 & E2 & [= <-]). apply shl_u8_inv in E2 as [H2 ->]; [| lia | lia]. done.
Qed.

Lemma legacy_inv s e h x n m r :
  0 <= h < 256 -> 0 <= x < 256 -> 0 <= n <= 8 -> AddrRange_legacy s e h x n m = Ret r ->
  r_start r = s /\ r_end r = e /\ intlvMatch r = m /\ masks r = field_bits h x n <$> seqZ 0 n /\
  (0 < n -> m < 2 ^ n /\ n - 1 <= h < 64 /\ (x <> 0 -> n - 1 <= x < 64 /\ n <= Z.abs (x - h))).
Proof.
  intros Hh Hx Hn H. unfold AddrRange_legacy in H.
  apply bind_ret_inv in H as ([] & E1 & H). apply bind_ret_inv in H as ([] & E2 & H).
  apply bind_ret_inv in H as (ms & E3 & [= <-]). cbn [r_start r_end intlvMatch masks].
  do 3 (split; [done |]).
  apply (forZ_inv (fun k ms => length ms = Z.to_nat n /\
    (0 < k -> 0 <= h - (k - 1) /\ h < 64 /\ (x <> 0 -> 0 <= x - (k - 1) /\ x < 64)) /\
    forall j : nat, n - k <= Z.of_nat j < n -> ms !! j = Some (field_bits h x n (Z.of_nat j)))) in E3
    as (Hlen & Hbits & Hms); [| lia | |].
  - split.
    + apply list_eq. intros j. rewrite list_lookup_fmap. destruct (decide (Z.of_nat j < n)).
      * rewrite Hms, lookup_seqZ_lt by lia. simpl. by rewrite Z.add_0_l.
      * rewrite lookup_seqZ_ge by lia. apply lookup_ge_None_2. lia.
    + intros Hn0. destruct (Z.eqb_spec n 0); [lia |].
      apply bind_ret_inv in E1 as (b & Eb & E1). apply shl_1ULL_inv in Eb as [_ ->].
      unfold fatal_if in E1. destruct (Z.leb_spec (2 ^ n) m); [done |].
      destruct (Hbits Hn0) as (B1 & B2 & B3). split; [done |]. split; [lia |]. intros Hx0.
      destruct (B3 Hx0) as [B4 B5]. split; [lia |]. destruct (Z.eqb_spec x 0); [done |].
      cbn [negb andb] in E2. destruct (Z.eqb_spec x h); [done |].
      destruct (Z.ltb_spec h x); unfold fatal_if in E2.
      * destruct (Z.ltb_spec (x - h) n); [done | lia].
      * destruct (Z.ltb_spec (h - x) n); [done | lia].
  - split; [apply length_replicate |]. split; [lia |]. lia.
  - intros i l l' Hi (Hl & Hb & Hj) H. apply bind_ret_inv in H as (v & Ev & [= <-]).
    apply (legacy_mask_inv h x n) in Ev as (V1 & V2 & ->); [| lia | lia | lia | lia].
    split; [by rewrite length_insert |]. split.
    + intros _. destruct (Z_lt_le_dec 0 i) as [Hi0|].
      * destruct (Hb Hi0) as (B1 & B2 & B3). split; [lia |]. split; [lia |].
        intros Hx0. specialize (B3 Hx0). specialize (V2 Hx0). lia.
      * assert (i = 0) as -> by lia. split; [lia |]. split; [lia |]. intros Hx0. specialize (V2 Hx0). lia.
    + intros j Hjr. destruct (decide (j = Z.to_nat (n - i - 1))) as [->|Hne].
      * rewrite list_lookup_insert_eq by lia. do 2 f_equal. lia.
      * rewrite list_lookup_insert_ne by done. apply Hj. lia.
Qed.

Lemma parity_pow2 a p : 0 <= p < 64 -> parity (Z.land a (2 ^ p)) = Z.testbit a p.
Proof.
  intros Hp. transitivity (xorb (parity (Z.land a (2 ^ p))) (parity 0)); [by rewrite xorb_false_r |].
  rewrite (parity_differ _ 0 p Hp).
  - by rewrite Z.land_spec, Z.pow2_bits_true, andb_true_r, Z.bits_0, xorb_false_r by lia.
  - intros i Hi Hne. by rewrite Z.land_spec, Z.pow2_bits_false, andb_false_r, Z.bits_0 by lia.
Qed.

Lemma parity_two a p q :
  0 <= p < 64 -> 0 <= q < 64 -> p <> q ->
  parity (Z.land a (Z.lor (2 ^ p) (2 ^ q))) = xorb (Z.testbit a p) (Z.testbit a q).
Proof.
  intros Hp Hq Hne. rewrite <- (parity_pow2 a p) by done.
  assert (xorb (parity (Z.land a (Z.lor (2 ^ p) (2 ^ q)))) (parity (Z.land a (2 ^ p))) = Z.testbit a q) as <-.
  { rewrite (parity_differ _ _ q Hq).
    - rewrite !Z.land_spec, Z.lor_spec, (Z.pow2_bits_true q), (Z.pow2_bits_false p q) by lia.
      by rewrite orb_true_r, andb_true_r, andb_false_r, xorb_false_r.
    - intros i Hi Hiq. by rewrite !Z.land_spec, Z.lor_spec, (Z.pow2_bits_false q), orb_false_r by lia. }
  generalize (parity (Z.land a (2 ^ p))) (parity (Z.land a (Z.lor (2 ^ p) (2 ^ q)))). by intros [] [].
Qed.

(** [a[high : high - n + 1]]. *)
Definition bit_field (a high n : Z) : Z := Z.land (Z.shiftr a (high - (n - 1))) (Z.ones n).

Lemma bit_field_spec a high n i :
  0 <= n <= high + 1 -> 0 <= i ->
  Z.testbit (bit_field a high n) i = (i <? n) && Z.testbit a (high - (n - 1) + i).
Proof.
  intros Hn Hi. unfold bit_field. rewrite Z.land_spec, Z.shiftr_spec, Z.testbit_ones by lia.
  destruct (Z.leb_spec 0 i); [| lia]. rewrite andb_comm. do 2 f_equal. lia.
Qed.

(** The constructor with bit numbers means what its description says.  If it
    accepts its arguments (at most eight bits of interleaving), the range holds
    the addresses between start and end whose field of [intlv_bits] bits ending
    at [intlv_high_bit], exclusive-or the one ending at [xor_high_bit] where
    that is not 0, is the match value. *)
Theorem legacy_contains {HB : Bitfield} {HL : BitfieldLaws HB} s e h x n m r a
  (Hh : 0 <= h < 256) (Hx : 0 <= x < 256) (Hn : 1 <= n <= 8) (Hm : 0 <= m) (Ha : is_u64 a)
  (Hr : AddrRange_legacy s e h x n m = Ret r) :
  contains r a = Ret true <->
  s <= a < e /\ Z.lxor (bit_field a h n) (if x =? 0 then 0 else bit_field a x n) = m.
Proof.
  apply legacy_inv in Hr as (<- & <- & <- & Ems & Hb); [| lia | lia | lia].
  destruct Hb as (Hm2 & Hh2 & Hx2); [lia |].
  assert (masks_ok (masks r)) as Hok.
  { rewrite Ems. apply Forall_fmap, Forall_seqZ. intros j Hj. unfold field_bits. simpl.
    assert (0 < 2 ^ (h - (n - 1) + j) < 2 ^ 64) as P1.
    { split; [apply Z.pow_pos_nonneg; lia | apply Z.pow_lt_mono_r; lia]. }
    destruct (Z.eqb_spec x 0); [done |].
    assert (0 < 2 ^ (x - (n - 1) + j) < 2 ^ 64) as P2.
    { split; [apply Z.pow_pos_nonneg; lia | apply Z.pow_lt_mono_r; lia]. }
    assert (Z.log2 (Z.lor (2 ^ (h - (n - 1) + j)) (2 ^ (x - (n - 1) + j))) < 64).
    { rewrite Z.log2_lor by lia. rewrite !Z.log2_pow2 by lia. lia. }
    assert (0 <= Z.lor (2 ^ (h - (n - 1) + j)) (2 ^ (x - (n - 1) + j))) by (apply Z.lor_nonneg; lia).
    assert (Z.lor (2 ^ (h - (n - 1) + j)) (2 ^ (x - (n - 1) + j)) <> 0).
    { rewrite Z.lor_eq_0_iff. lia. }
    split; [lia |]. apply Z.log2_lt_pow2; lia. }
  assert (length (masks r) = Z.to_nat n) as Hlen by (rewrite Ems, length_fmap, length_seqZ; done).
  destruct (selector (masks r) a) as (sel & Es & Hs & Hsel); [lia | done | done |].
  rewrite (contains_selector r a sel Es). unfold spans.
  enough (sel = Z.lxor (bit_field a h n) (if x =? 0 then 0 else bit_field a x n)) as -> by done.
  apply Z.bits_inj'. intros i Hi. rewrite Z.lxor_spec, bit_field_spec by lia.
  destruct (Z.ltb_spec i n).
  - rewrite <- (Z2Nat.id i) at 1 by done. rewrite (Hsel _ (field_bits h x n i)).
    2: { rewrite Ems, list_lookup_fmap, lookup_seqZ_lt by lia. simpl. do 2 f_equal. lia. }
    unfold field_bits. cbn [andb]. destruct (Z.eqb_spec x 0).
    + rewrite parity_pow2, Z.bits_0, xorb_false_r by lia. done.
    + rewrite parity_two, bit_field_spec by lia. by destruct (Z.ltb_spec i n); [| lia].
  - rewrite Hlen, Z2Nat.id in Hs by lia. rewrite <- (Z.mod_small sel (2 ^ n)) by done.
    rewrite Z.mod_pow2_bits_high by lia. destruct (Z.eqb_spec x 0); [by rewrite Z.bits_0 |].
    rewrite bit_field_spec by lia. by destruct (Z.ltb_spec i n); [lia |].
Qed.

(** ** An instance of the bit functions *)

Definition field_mask (first last : Z) : Z := Z.shiftl (Z.ones (first - last + 1)) last.

#[export] Instance plain_bitfield : Bitfield := {|
  ctz64 v := match list_find (fun i => Z.testbit v i = true) (seqZ 0 64) with
             | Some (k, _) => Z.of_nat k | None => 64 end;
  popCount v := Z.of_nat (length (List.filter (Z.testbit v) (seqZ 0 64)));
  bits v b := Z.b2z (Z.testbit v b);
  insertBits v first last w :=
    Z.lor (Z.ldiff v (field_mask first last)) (Z.land (Z.shiftl w last) (field_mask first last)) |}.

Lemma field_mask_spec first last i :
  0 <= last <= first -> 0 <= i ->
  Z.testbit (field_mask first last) i = (last <=? i) && (i <=? first).
Proof.
  intros Hl Hi. unfold field_mask. rewrite Z.shiftl_spec by done.
  destruct (Z.leb_spec last i).
  - rewrite Z.testbit_ones by lia. destruct (Z.leb_spec 0 (i - last)); [| lia].
    destruct (Z.ltb_spec (i - last) (first - last + 1)), (Z.leb_spec i first); lia || done.
  - by rewrite Z.testbit_neg_r by lia.
Qed.

#[export] Instance plain_bitfield_laws : BitfieldLaws plain_bitfield.
Proof.
  split; try done.
  - intros v Hv. cbn [ctz64 plain_bitfield].
    destruct (list_find _ (seqZ 0 64)) as [[k x]|] eqn:E.
    + apply list_find_Some in E as (Hk & Hx & Hmin). apply lookup_seqZ in Hk as [-> Hk].
      rewrite Z.add_0_l in *. split; [lia |]. split; [done |]. intros i Hi.
      apply not_true_is_false. intros Ht. apply (Hmin (Z.to_nat i) i); [| lia | done].
      apply lookup_seqZ. lia.
    + apply list_find_None in E. exfalso. assert (v = 0); [| lia].
      apply u64_eq; [unfold is_u64; lia | done |]. intros i Hi. rewrite Z.bits_0.
      rewrite List.Forall_forall in E. apply not_true_is_false. apply E.
      apply list_elem_of_In, elem_of_seqZ. lia.
  - intros v first last w Hv Hw Hl Hf. cbn [insertBits plain_bitfield].
    assert (forall i, 0 <= i -> Z.testbit (Z.lor (Z.ldiff v (field_mask first last))
        (Z.land (Z.shiftl w last) (field_mask first last))) i =
      if (last <=? i) && (i <=? first) then Z.testbit w (i - last) else Z.testbit v i) as Hb.
    { intros i Hi. rewrite Z.lor_spec, Z.ldiff_spec, Z.land_spec, Z.shiftl_spec, field_mask_spec by done.
      by destruct ((last <=? i) && (i <=? first)); cbn [negb]; rewrite ?andb_true_r, ?andb_false_r, ?orb_false_r, ?orb_false_l. }
    split; [| done].
    assert (0 <= field_mask first last) as Hm.
    { apply Z.shiftl_nonneg. rewrite Z.ones_equiv.
      assert (0 < 2 ^ (first - last + 1)) by (apply Z.pow_pos_nonneg; lia). lia. }
    assert (0 <= Z.lor (Z.ldiff v (field_mask first last))
                   (Z.land (Z.shiftl w last) (field_mask first last))) as H0.
    { apply Z.lor_nonneg. split; [apply Z.ldiff_nonneg; lia | apply Z.land_nonneg; auto]. }
    split; [done |]. apply bits_lt; [done | done |]. intros i Hi. rewrite Hb by lia.
    destruct (Z.leb_spec i first); [lia |]. rewrite andb_false_r. by apply u64_bits_above.
Qed.

(** ** Widths *)

(** A range at its widths: 64-bit bounds and masks, an 8-bit match value that an
    interleaved range can select. *)
Record typed (r : AddrRange) : Prop := {
  ty_start : is_u64 (r_start r);
  ty_end : is_u64 (r_end r);
  ty_masks : Forall is_u64 (masks r);
  ty_match : 0 <= intlvMatch r < 256;
  ty_select : masks r <> [] -> intlvMatch r < 2 ^ num_masks r }.

(** The ranges a program can make out of arguments of the right types. *)
Inductive made : AddrRange -> Prop :=
| made_default : made AddrRange_default
| made_masks s e ms m r : is_u64 s -> is_u64 e -> Forall is_u64 ms -> 0 <= m < 256 ->
    AddrRange_masks s e ms m = Ret r -> made r
| made_legacy s e h x n m r : is_u64 s -> is_u64 e -> 0 <= h < 256 -> 0 <= x < 256 -> 0 <= n < 256 ->
    0 <= m < 256 -> AddrRange_legacy s e h x n m = Ret r -> made r
| made_in s e : is_u64 s -> is_u64 e -> made (RangeIn s e)
| made_size s z : is_u64 s -> is_u64 z -> made (RangeSize s z)
| made_merge l r : (forall x, x ∈ l -> made x) -> AddrRange_merge l = Ret r -> made r
| made_and r e r' : made r -> made e -> range_and r e = Ret r' -> made r'
| made_exclude {HB : Bitfield} r l rs r' : made r -> (forall x, x ∈ l -> made x) -> exclude r l = Ret rs -> r' ∈ rs -> made r'.

Lemma typed_plain s e : is_u64 s -> is_u64 e -> typed (AddrRange_plain s e).
Proof. intros Hs He. by split. Qed.

Lemma typed_legacy s e h x n m r :
  is_u64 s -> is_u64 e -> 0 <= n < 256 -> 0 <= m < 256 -> AddrRange_legacy s e h x n m = Ret r -> typed r.
Proof.
  intros Hs He Hn Hm H. unfold AddrRange_legacy in H.
  apply bind_ret_inv in H as ([] & E1 & H). apply bind_ret_inv in H as ([] & _ & H).
  apply bind_ret_inv in H as (ms & E3 & [= <-]).
  apply (forZ_inv (fun _ ms => length ms = Z.to_nat n /\ Forall is_u64 ms)) in E3 as [Hlen Hms]; [| lia | |].
  - split; try done. intros Hne. unfold num_masks. simpl in *. rewrite Hlen, Z2Nat.id by lia.
    destruct (Z.eqb_spec n 0) as [->|]; [by destruct ms |].
    apply bind_ret_inv in E1 as (b & Eb & E1). apply shl_1ULL_inv in Eb as [_ ->].
    unfold fatal_if in E1. by destruct (Z.leb_spec (2 ^ n) m).
  - split; [apply length_replicate |]. apply Forall_replicate. unfold is_u64. lia.
  - intros i l l' Hi [Hl HF] H. apply bind_ret_inv in H as (v & Ev & [= <-]).
    split; [by rewrite length_insert |]. apply Forall_insert; [done |]. unfold legacy_mask in Ev.
    assert (forall k b, shl_1ULL (u8 k) = Ret b -> is_u64 b) as Hshl.
    { intros k b Eb. apply shl_1ULL_inv in Eb as [Hk ->]. pose proof (wrap_range 8 k ltac:(lia)).
      split; [lia |]. apply Z.pow_lt_mono_r; lia. }
    apply bind_ret_inv in Ev as (b1 & E1' & Ev). apply Hshl in E1'.
    destruct (x =? 0); [by injection Ev as <- |].
    apply bind_ret_inv in Ev as (b2 & E2' & [= <-]). apply Hshl in E2'. unfold is_u64 in *.
    split; [apply Z.lor_nonneg; lia |]. apply bits_lt; [apply Z.lor_nonneg; lia | lia |].
    intros j Hj. rewrite Z.lor_spec, !u64_bits_above; [done | unfold is_u64; lia ..].
Qed.

Lemma typed_exclude_loop {HB : Bitfield} r sorted next ranges rs :
  typed r -> Forall typed sorted -> is_u64 next -> Forall typed ranges ->
  exclude_loop r sorted next ranges = Ret rs -> Forall typed rs.
Proof.
  intros Hr Hs. revert next ranges. induction Hs as [|e sorted He Hs IH]; intros next ranges Hn Hl E; simpl in E.
  { injection E as <-. case_match; [| done]. apply Forall_app. split; [done |]. constructor; [| done].
    apply typed_plain; [done | apply Hr]. }
  apply bind_ret_inv in E as ([] & _ & E). apply bind_ret_inv in E as (meets & _ & E).
  destruct (negb meets); [by eapply IH |].
  assert (Forall typed (ranges ++ [AddrRange_plain next (r_start e)])) as Hl2.
  { apply Forall_app. split; [done |]. constructor; [| done]. apply typed_plain; [done | apply He]. }
  destruct (r_start e <=? next), (r_end e <? r_end r).
  - eapply IH; [| exact Hl | exact E]. destruct (next <? r_end e); [apply He | done].
  - by injection E as <-.
  - eapply IH; [| exact Hl2 | exact E]. apply He.
  - by injection E as <-.
Qed.

Lemma typed_default : typed AddrRange_default.
Proof. split; try done; unfold is_u64; simpl; lia. Qed.

Lemma typed_and r e r' : typed r -> typed e -> range_and r e = Ret r' -> typed r'.
Proof.
  intros [[? ?] [? ?] _ _ _] [[? ?] [? ?] _ _ _] E. unfold range_and in E.
  apply bind_ret_inv in E as ([] & _ & [= <-]). case_match; apply typed_plain; unfold is_u64; lia.
Qed.

Lemma typed_merge l r : (forall x, x ∈ l -> typed x) -> AddrRange_merge l = Ret r -> typed r.
Proof.
  intros Hl E. destruct l as [|r0 l]; [injection E as <-; apply typed_default |].
  specialize (Hl r0 ltac:(left)). unfold AddrRange_merge in E. case_match; [| by injection E as <-].
  apply bind_ret_inv in E as (b & _ & E). apply bind_ret_inv in E as ([] & _ & E).
  apply bind_ret_inv in E as ([] & _ & [= <-]). apply typed_plain; apply Hl.
Qed.

Lemma typed_exclude {HB : Bitfield} r l rs r' :
  typed r -> (forall x, x ∈ l -> typed x) -> exclude r l = Ret rs -> r' ∈ rs -> typed r'.
Proof.
  intros Hr Hl E Hin. unfold exclude in E. apply bind_ret_inv in E as ([] & _ & E).
  apply typed_exclude_loop in E; [| done | | apply Hr | constructor].
  - eapply List.Forall_forall in E; [exact E | by apply list_elem_of_In].
  - apply List.Forall_forall. intros x Hx. apply list_elem_of_In in Hx. rewrite range_sort_perm in Hx. by apply Hl.
Qed.

Lemma typed_masks s e ms m r :
  is_u64 s -> is_u64 e -> Forall is_u64 ms -> 0 <= m < 256 -> AddrRange_masks s e ms m = Ret r -> typed r.
Proof.
  intros Hs He Hms Hm E. unfold AddrRange_masks in E. apply bind_ret_inv in E as ([] & E1 & [= <-]).
  split; try done. simpl. intros Hne. rewrite bool_decide_eq_false_2 in E1 by done.
  apply bind_ret_inv in E1 as (b & Eb & E1). apply shl_1ULL_inv in Eb as [_ ->].
  unfold fatal_if in E1. unfold num_masks. simpl. by destruct (Z.leb_spec (2 ^ Z.of_nat (length ms)) m).
Qed.

(** C32: every range stays at its widths.  Starting from 64-bit addresses and masks and 8-bit bit numbers and
    match values, whatever constructors, merges, intersections and exclusions are applied: the bounds
    and masks are 64-bit values, the match value has 8 bits, and an interleaved range has a match
    value that its masks can select. *)
Theorem ranges_typed r (H : made r) : typed r.
Proof.
  induction H as [|s e ms m r ? ? ? ? E|s e h x n m r ? ? ? ? ? ? E|s e|s z|l r ? IH E|r e r' ? IHr ? IHe E
    |HB r l rs r' ? IHr ? IHl E].
  - apply typed_default.
  - by apply (typed_masks s e ms m).
  - by apply (typed_legacy s e h x n m).
  - apply typed_plain; [done | apply (wrap_range 64); lia].
  - apply typed_plain; [done | apply (wrap_range 64); lia].
  - by apply (typed_merge l).
  - by apply (typed_and r e).
  - by apply (typed_exclude r l rs).
Qed.

(** Two bits of interleaving, each hashed with a higher one. *)
Definition sample_range : AddrRange :=
  {| r_start := 0; r_end := 0x10000; masks := [0x140; 0x280]; intlvMatch := 2 |}.

Lemma sample_striped : striped sample_range.
Proof.
  split; [done | | | |].
  - split; [simpl; lia |]. by repeat constructor.
  - by repeat constructor.
  - repeat constructor; by vm_compute.
  - done.
Qed.



Definition sample_stripe (k : Z) : AddrRange :=
  {| r_start := 0; r_end := 0x10000; masks := [0x140; 0x280]; intlvMatch := k |}.

Lemma merge_exact_witness :
  contains (AddrRange_plain 0 0x10000) 0x1083 = Ret true <->
  exists e, In e (sample_stripe <$> [0; 1; 2; 3]) /\ contains e 0x1083 = Ret true.
Proof.
  apply (merge_exact (sample_stripe <$> [0; 1; 2; 3])).
  - simpl. lia.
  - repeat constructor; simpl; lia.
  - done.
  - by vm_compute.
Defined.

(** Across the boundary of two stripes with the same selector. *)
Lemma subset_sound_witness : contains (sample_stripe 1) 0x140 = Ret false /\
  contains {| r_start := 0; r_end := 0x1000; masks := [0xc0]; intlvMatch := 1 |} 0x7f = Ret true.
Proof.
  split; [by vm_compute |].
  apply (subset_sound (AddrRange_plain 0x7c 0x84)); [done | simpl; lia | simpl; lia | | by vm_compute ..].
  right. split; [by repeat constructor |]. by left.
Defined.

Lemma legacy_contains_witness :
  contains (sample_stripe 2) 0x1083 = Ret true <->
  0 <= 0x1083 < 0x10000 /\ Z.lxor (bit_field 0x1083 7 2) (bit_field 0x1083 9 2) = 2.
Proof.
  apply (legacy_contains 0 0x10000 7 9 2 2); [lia .. | done | by vm_compute].
Defined.

Lemma ranges_typed_witness : exists r, AddrRange_legacy 0 0x1000 7 12 2 3 = Ret r /\ typed r.
Proof.
  eexists. split; [reflexivity |]. apply ranges_typed.
  apply (made_legacy 0 0x1000 7 12 2 3); unfold is_u64; try lia. reflexivity.
Defined.
