(* ===== verification/Ndp.v ===== *)
(** * The near-data processing device ([ndp/ndp.cc], [ndp_dev_a/ndp_dev_a.cc])

    The base class [NDP] splits a burst into packets, keeps at most [maxReqs]
    of them in flight and reassembles the answers; [NDPDevA] searches, counts
    or maximises over the words it has read.  A pointer is a heap block and an
    offset.  The memory behind [dmaPort] is the environment: [accept] says
    whether it takes the n-th packet offered to it, and the packets it has
    taken wait in [sent] until it answers.  gem5's [Packet::getOffset], the
    offset of an address in its block, is a parameter. *)

From S2P Require Import Prelude AddrRange.

(** ** Data *)

Abbreviation ptr := (Z * Z)%type (only parsing).

(** [BurstRequest] with its pending [SubRequest]s. *)
Record burst := {
  b_range : AddrRange; b_data : ptr; b_write : bool; b_subs : list (AddrRange * ptr) }.

(** A packet on [dmaPort]. *)
Record packet := { p_addr : Z; p_size : Z; p_write : bool; p_bytes : list Z }.

Definition p_range (p : packet) : AddrRange := RangeSize (p_addr p) (p_size p).

(** A packet of the CPU: [setRaw] and [getRaw] are of 64 bits. *)
Record cpu_packet := { c_addr : Z; c_read : bool; c_write : bool; c_raw : Z }.

(** The events the device schedules, with their delay in cycles. *)
Inductive event := SendTimingResp (p : cpu_packet) | AttemptMemoryRequest | WriteBackResults.

(** The base class; [S] is the state of the subclass. *)
Record ndp (S : Type) := {
  flyReqs : Z; dmaActv : bool;
  pendingRequests : list burst; pendingReqPackets : list packet;
  heap : gmap Z buf; heap_next : Z;
  events : list (Z * event);
  sent : list packet;      (** taken by the memory, not yet answered *)
  offers : nat;            (** packets offered to the memory so far *)
  sub : S }.
Arguments flyReqs {S} n.
Arguments dmaActv {S} n.
Arguments pendingRequests {S} n.
Arguments pendingReqPackets {S} n.
Arguments heap {S} n.
Arguments heap_next {S} n.
Arguments events {S} n.
Arguments sent {S} n.
Arguments offers {S} n.
Arguments sub {S} n.

(** The parameters of the object and of its surroundings. *)
Record config := {
  ndpCtrl : AddrRange; ndpData : AddrRange; mmioOnly : bool;
  maxRSze : Z; maxReqs : Z;
  accept : nat -> bool;
  getOffset : Z -> Z -> Z }.

Section base.
Context {S : Type} (cf : config).
Implicit Types (n : ndp S).

Definition set_dma (fly : Z) (actv : bool) n : ndp S :=
  {| flyReqs := fly; dmaActv := actv; pendingRequests := pendingRequests n;
     pendingReqPackets := pendingReqPackets n; heap := heap n; heap_next := heap_next n;
     events := events n; sent := sent n; offers := offers n; sub := sub n |}.
Definition set_packets (l s : list packet) (k : nat) n : ndp S :=
  {| flyReqs := flyReqs n; dmaActv := dmaActv n; pendingRequests := pendingRequests n;
     pendingReqPackets := l; heap := heap n; heap_next := heap_next n; events := events n;
     sent := s; offers := k; sub := sub n |}.
Definition set_requests (l : list burst) n : ndp S :=
  {| flyReqs := flyReqs n; dmaActv := dmaActv n; pendingRequests := l;
     pendingReqPackets := pendingReqPackets n; heap := heap n; heap_next := heap_next n;
     events := events n; sent := sent n; offers := offers n; sub := sub n |}.
Definition set_heap (h : gmap Z buf) (next : Z) n : ndp S :=
  {| flyReqs := flyReqs n; dmaActv := dmaActv n; pendingRequests := pendingRequests n;
     pendingReqPackets := pendingReqPackets n; heap := h; heap_next := next;
     events := events n; sent := sent n; offers := offers n; sub := sub n |}.
Definition set_events (l : list (Z * event)) n : ndp S :=
  {| flyReqs := flyReqs n; dmaActv := dmaActv n; pendingRequests := pendingRequests n;
     pendingReqPackets := pendingReqPackets n; heap := heap n; heap_next := heap_next n;
     events := l; sent := sent n; offers := offers n; sub := sub n |}.
Definition set_sub (s : S) n : ndp S :=
  {| flyReqs := flyReqs n; dmaActv := dmaActv n; pendingRequests := pendingRequests n;
     pendingReqPackets := pendingReqPackets n; heap := heap n; heap_next := heap_next n;
     events := events n; sent := sent n; offers := offers n; sub := s |}.

(** [schedule(new EventFunctionWrapper(...), clockEdge(Cycles(delay)))]. *)
Definition schedule (delay : Z) (e : event) n : ndp S := set_events (events n ++ [(delay, e)]) n.

(** Heap blocks: allocation, reading, writing, freeing. *)
Definition alloc (bytes : Z) n : Z * ndp S :=
  (heap_next n, set_heap (<[heap_next n := buf_new bytes]> (heap n)) (heap_next n + 1) n).
Definition heap_read (p : ptr) (k : Z) n : res (list Z) :=
  match heap n !! p.1 with Some b => buf_read b p.2 k | None => Undef end.
Definition heap_write (p : ptr) (bs : list Z) n : res (ndp S) :=
  match heap n !! p.1 with
  | Some b => b' ← buf_write b p.2 bs; Ret (set_heap (<[p.1 := b']> (heap n)) (heap_next n) n)
  | None => Undef
  end.
Definition heap_free (id : Z) n : res (ndp S) :=
  match heap n !! id with
  | Some _ => Ret (set_heap (delete id (heap n)) (heap_next n) n)
  | None => Undef
  end.

(** ** Memory requests *)

Definition sendData n : res (ndp S) :=
  if flyReqs n =? maxReqs cf then Ret (set_dma (flyReqs n) false n) else
  match pendingReqPackets n with
  | [] => Undef     (* front() of an empty list *)
  | pkt :: rest =>
      let taken := accept cf (offers n) in
      if taken then
        let n1 := set_packets rest (sent n ++ [pkt]) (offers n + 1) n in
        let n2 := set_dma (u64 (flyReqs n1 + 1)) (dmaActv n1) n1 in
        match rest with
        | [] => Ret (set_dma (flyReqs n2) false n2)
        | _ => Ret (schedule 1 AttemptMemoryRequest n2)
        end
      else Ret (set_packets (pendingReqPackets n) (sent n) (offers n + 1) n)
  end.

(** The sub-requests of a burst: address, size and data of each.  [k] counts
    the loop's turns; the loop ends when [saddr] reaches the end. *)
Fixpoint chunks (turns : nat) (addr size : Z) (data : ptr) (k : Z) : res (list (Z * Z * ptr)) :=
  let saddr := u64 (addr + k * maxRSze cf) in
  if saddr <? u64 (addr + size) then
    match turns with
    | O => Hang
    | Datatypes.S turns =>
        let ssize := if size <? u64 (k * maxRSze cf + maxRSze cf) then size mod maxRSze cf
                     else maxRSze cf in
        rest ← chunks turns addr size data (k + 1);
        Ret ((saddr, ssize, (data.1, data.2 + k * maxRSze cf)) :: rest)
    end
  else Ret [].

(** The packet of a sub-request; a write carries a copy of the data. *)
Definition chunk_packet (write : bool) n (c : Z * Z * ptr) : res packet :=
  let '(saddr, ssize, sdata) := c in
  bs ← (if write then heap_read sdata ssize n else Ret []);
  Ret {| p_addr := saddr; p_size := ssize; p_write := write; p_bytes := bs |}.

Fixpoint chunk_packets (write : bool) n (l : list (Z * Z * ptr)) : res (list packet) :=
  match l with
  | [] => Ret []
  | c :: l => p ← chunk_packet write n c; ps ← chunk_packets write n l; Ret (p :: ps)
  end.

(** The loop makes at most one turn a byte, unless [maxRSze] is 0. *)
Definition accessMemory (addr size : Z) (write : bool) (data : ptr) n : res (ndp S) :=
  cs ← chunks (Z.to_nat size) addr size data 0;
  ps ← chunk_packets write n cs;
  let req := {| b_range := RangeSize addr size; b_data := data;
                b_write := write;
                b_subs := (fun '(a, s, d) => (RangeSize a s, d)) <$> cs |} in
  let n1 := set_packets (pendingReqPackets n ++ ps) (sent n) (offers n) n in
  let n2 := set_requests (pendingRequests n1 ++ [req]) n1 in
  if dmaActv n2 then Ret n2 else sendData (set_dma (flyReqs n2) true n2).

(** [popPendingSubRequest]: the data pointer and what is left. *)
Fixpoint popPendingSubRequest (r : AddrRange) (l : list (AddrRange * ptr))
    : option (ptr * list (AddrRange * ptr)) :=
  match l with
  | [] => None
  | (r', d) :: l =>
      if decide (r' = r) then Some (d, l)
      else '(d', l') ← popPendingSubRequest r l; Some (d', (r', d) :: l')
  end.

End base.

(** ** The virtual methods *)

(** What a subclass overrides. *)
Class NDPMethods (S : Type) := {
  readPI : Z -> ndp S -> res (Z * ndp S);
  writePI : config -> Z -> Z -> ndp S -> res (ndp S);
  recvData : config -> Z -> option ptr -> Z -> ndp S -> res (ndp S);
  (** The event a subclass schedules. *)
  writeBackResults : ndp S -> res (ndp S) }.

Section device.
Context {S : Type} {HV : NDPMethods S} (cf : config).
Implicit Types (n : ndp S).

(** The loop of [memCallback] over the pending requests: [before] have been
    passed.  A request that is complete is handed to [recvData], which may add
    requests behind the others, and removed; then the loop is left. *)
Fixpoint match_requests (pkt : packet) (before after : list burst) n : res (ndp S) :=
  match after with
  | [] => Ret (set_requests before n)
  | b :: after =>
      let skip b n := match_requests pkt (before ++ [b]) after n in
      if Bool.eqb (b_write b) (p_write pkt) then
        match popPendingSubRequest (p_range pkt) (b_subs b) with
        | None => skip b n
        | Some (d, subs) =>
            let b' := {| b_range := b_range b; b_data := b_data b; b_write := b_write b;
                         b_subs := subs |} in
            n1 ← (if p_write pkt then Ret n
                  else heap_write (d.1, d.2 + getOffset cf (p_addr pkt) (p_size pkt)) (p_bytes pkt) n);
            match subs with
            | [] =>
                z ← size (b_range b);
                n2 ← recvData cf (r_start (b_range b))
                       (if b_write b then None else Some (b_data b)) z
                       (set_requests (before ++ b' :: after) n1);
                Ret (set_requests (before ++ drop (Datatypes.S (length before)) (pendingRequests n2)) n2)
            | _ => skip b' n1
            end
        end
      else skip b n
  end.

Definition memCallback (pkt : packet) n : res (ndp S) :=
  n1 ← match_requests pkt [] (pendingRequests n) n;
  let n2 := set_dma (u64 (flyReqs n1 - 1)) (dmaActv n1) n1 in
  if negb (dmaActv n2) && negb (match pendingReqPackets n2 with [] => true | _ => false end)
  then sendData cf (set_dma (flyReqs n2) true n2) else Ret n2.

(** ** The CPU's side *)

Definition handleRequest (pkt : cpu_packet) n : res (ndp S) :=
  let ridx := u64 (c_addr pkt - r_start (ndpCtrl cf)) / 8 in
  '(pkt', n1) ←
    (if c_read pkt then
       '(v, n1) ← readPI ridx n;
       Ret ({| c_addr := c_addr pkt; c_read := c_read pkt; c_write := c_write pkt; c_raw := v |}, n1)
     else if c_write pkt then n1 ← writePI cf ridx (c_raw pkt) n; Ret (pkt, n1)
     else Fatal);
  Ret (schedule 1 (SendTimingResp pkt') n1).

(** The bodies of the scheduled events; a response is taken by the CPU. *)
Definition fire (e : event) n : res (ndp S) :=
  match e with
  | SendTimingResp _ => Ret n
  | AttemptMemoryRequest => sendData cf n
  | WriteBackResults => writeBackResults n
  end.

(** [MemSidePort::recvReqRetry] of the DMA port. *)
Definition recvReqRetry n : res (ndp S) := sendData cf n.

(** Where [CPUSidePort::recvTimingReq] sends a request. *)
Inductive target := ToDevice | ToMemory.
Definition recvTimingReq {HB : Bitfield} (addr : Z) : res target :=
  ctrl ← contains (ndpCtrl cf) addr;
  if (ctrl : bool) then Ret ToDevice else
  data ← contains (ndpData cf) addr;
  Ret (if (data : bool) then ToMemory else ToMemory).

(** The ranges the device answers to; [mem] are those of the memory port. *)
Definition getAddrRanges (mem : list AddrRange) : list AddrRange :=
  if mmioOnly cf then [ndpCtrl cf] else mem.

End device.

(** ** [NDPDevA] *)

Record dev_a := {
  scaleFactor : Z; pi_addr_data : Z; pi_data_size : Z; pi_data_skey : Z; pi_cmmd_code : Z;
  pi_stat_rgst : Z; pi_last_rslt : Z; has_operands : bool; operands : Z }.

Definition dev_a_init : dev_a :=
  {| scaleFactor := 0; pi_addr_data := 0; pi_data_size := 0; pi_data_skey := 0;
     pi_cmmd_code := 0; pi_stat_rgst := 1; pi_last_rslt := 0; has_operands := false;
     operands := 0 |}.

Section dev_a.
Implicit Types (n : ndp dev_a) (d : dev_a).

Definition set_rslt (v : Z) d : dev_a :=
  {| scaleFactor := scaleFactor d; pi_addr_data := pi_addr_data d; pi_data_size := pi_data_size d;
     pi_data_skey := pi_data_skey d; pi_cmmd_code := pi_cmmd_code d;
     pi_stat_rgst := pi_stat_rgst d; pi_last_rslt := v; has_operands := has_operands d;
     operands := operands d |}.
Definition set_stat (st : Z) (has : bool) d : dev_a :=
  {| scaleFactor := scaleFactor d; pi_addr_data := pi_addr_data d; pi_data_size := pi_data_size d;
     pi_data_skey := pi_data_skey d; pi_cmmd_code := pi_cmmd_code d; pi_stat_rgst := st;
     pi_last_rslt := pi_last_rslt d; has_operands := has; operands := operands d |}.
Definition set_scale (v : Z) d : dev_a :=
  {| scaleFactor := v; pi_addr_data := pi_addr_data d; pi_data_size := pi_data_size d;
     pi_data_skey := pi_data_skey d; pi_cmmd_code := pi_cmmd_code d;
     pi_stat_rgst := pi_stat_rgst d; pi_last_rslt := pi_last_rslt d;
     has_operands := has_operands d; operands := operands d |}.
Definition set_operands (v : Z) d : dev_a :=
  {| scaleFactor := scaleFactor d; pi_addr_data := pi_addr_data d; pi_data_size := pi_data_size d;
     pi_data_skey := pi_data_skey d; pi_cmmd_code := pi_cmmd_code d;
     pi_stat_rgst := pi_stat_rgst d; pi_last_rslt := pi_last_rslt d;
     has_operands := has_operands d; operands := v |}.
Definition set_args (a z k c : Z) d : dev_a :=
  {| scaleFactor := scaleFactor d; pi_addr_data := a; pi_data_size := z; pi_data_skey := k;
     pi_cmmd_code := c; pi_stat_rgst := pi_stat_rgst d; pi_last_rslt := pi_last_rslt d;
     has_operands := has_operands d; operands := operands d |}.

(** The 64-bit words of a block. *)
Definition words64 (b : buf) (size : Z) : res (list Z) :=
  bs ← buf_read b 0 (8 * size);
  Ret ((fun i => le_val (take 8 (drop (8 * i) bs))) <$> seq 0 (Z.to_nat size)).

(** The loops; the index is an [int]. *)
Fixpoint compare_n_hit (l : list Z) (skey i : Z) : res (option Z) :=
  match l with
  | [] => Ret None
  | v :: l => if v =? skey then Ret (Some i) else i' ← signed 32 (i + 1); compare_n_hit l skey i'
  end.
Fixpoint compare_n_count (l : list Z) (skey i c : Z) : res Z :=
  match l with
  | [] => Ret c
  | v :: l =>
      i' ← signed 32 (i + 1);
      compare_n_count l skey i' (if v =? skey then u64 (c + 1) else c)
  end.
Fixpoint compare_n_max (l : list Z) (i m : Z) : res Z :=
  match l with
  | [] => Ret m
  | v :: l => i' ← signed 32 (i + 1); compare_n_max l i' (if m <? v then v else m)
  end.

(** The command on the operands: the cycles it takes and the device. *)
Definition compute (ws : list Z) d : res (Z * dev_a) :=
  if pi_cmmd_code d =? 0 then
    hit ← compare_n_hit ws (pi_data_skey d) 0;
    match hit with
    | Some i => Ret (i, set_rslt 1 d)
    | None => Ret (pi_data_size d, d)
    end
  else if pi_cmmd_code d =? 1 then
    c ← compare_n_count ws (pi_data_skey d) 0 0; Ret (pi_data_size d, set_rslt c d)
  else if pi_cmmd_code d =? 2 then
    match ws with
    | [] => Undef     (* data[0] *)
    | w :: ws => m ← compare_n_max ws 1 w; Ret (pi_data_size d, set_rslt m d)
    end
  else Fatal.

Definition process_fsm (cf : config) n : res (ndp dev_a) :=
  let d := sub n in
  if negb (has_operands d) then
    if 2 ^ 63 <=? 8 * pi_data_size d then Fatal else   (* std::bad_array_new_length *)
    let '(id, n1) := alloc (8 * pi_data_size d) n in
    accessMemory cf (pi_addr_data d) (u64 (pi_data_size d * 8)) false (id, 0)
      (set_sub (set_operands id d) n1)
  else
    match heap n !! operands d with
    | None => Undef
    | Some b =>
        ws ← words64 b (pi_data_size d);
        '(cycles, d1) ← compute ws d;
        Ret (schedule (u64 (cycles * scaleFactor d1)) WriteBackResults (set_sub d1 n))
    end.

Definition dev_a_readPI (ridx : Z) n : res (Z * ndp dev_a) :=
  if ridx =? 5 then Ret (pi_stat_rgst (sub n), n)
  else if ridx =? 6 then Ret (pi_last_rslt (sub n), n)
  else Fatal.

Definition dev_a_writePI (cf : config) (ridx data : Z) n : res (ndp dev_a) :=
  let d := sub n in
  if pi_stat_rgst d =? 0 then Fatal else
  let args a z k c := Ret (set_sub (set_args a z k c d) n) in
  if ridx =? 0 then args data (pi_data_size d) (pi_data_skey d) (pi_cmmd_code d)
  else if ridx =? 1 then args (pi_addr_data d) data (pi_data_skey d) (pi_cmmd_code d)
  else if ridx =? 2 then args (pi_addr_data d) (pi_data_size d) data (pi_cmmd_code d)
  else if ridx =? 3 then args (pi_addr_data d) (pi_data_size d) (pi_data_skey d) data
  else if ridx =? 4 then
    process_fsm cf (set_sub (set_scale data (set_stat 0 (has_operands d) d)) n)
  else Fatal.

Definition dev_a_recvData (cf : config) (addr : Z) (data : option ptr) (size : Z) n : res (ndp dev_a) :=
  process_fsm cf (set_sub (set_stat (pi_stat_rgst (sub n)) true (sub n)) n).

(** The event [writeBackResultsEvent]. *)
Definition dev_a_writeBack n : res (ndp dev_a) :=
  n1 ← heap_free (operands (sub n)) n;
  Ret (set_sub (set_stat 1 false (sub n1)) n1).

#[export] Instance dev_a_methods : NDPMethods dev_a := {|
  readPI := dev_a_readPI; writePI := dev_a_writePI; recvData := dev_a_recvData;
  writeBackResults := dev_a_writeBack |}.

End dev_a.
