(* ===== verification/NdpSpec.v ===== *)
(** * What the near-data processing device guarantees

    A burst is split into chunks that tile it; whatever order the memory
    answers in, however often it refuses a packet, and however many packets
    may be in flight, [NDPDevA] receives its operands and computes its command
    on them. *)

From S2P Require Import Prelude AddrRange Ndp.

(** ** Chunks *)

(** The [i]-th chunk of a burst of [size] bytes in steps of [R]. *)
Definition nth_chunk (R addr size : Z) (data : ptr) (i : Z) : Z * Z * ptr :=
  (addr + i * R, Z.min R (size - i * R), (data.1, data.2 + i * R)).

Definition chunk_list (R addr size : Z) (data : ptr) : list (Z * Z * ptr) :=
  nth_chunk R addr size data <$> seqZ 0 ((size + R - 1) / R).

Lemma chunks_from cf turns addr size data k :
  let R := maxRSze cf in
  0 < R -> 0 <= addr -> 0 <= size -> addr + size + R < 2 ^ 64 -> 0 <= k -> k * R <= size + R ->
  (size + R - 1) / R - k <= Z.of_nat turns ->
  chunks cf turns addr size data k =
    Ret (nth_chunk R addr size data <$> seqZ k ((size + R - 1) / R - k)).
Proof.
  intros R HR Ha Hs Hw Hk HkR. revert k Hk HkR.
  assert (forall k, 0 <= k -> k * R < size <-> k < (size + R - 1) / R) as Hiff.
  { intros k Hk. rewrite <- (Z.le_succ_l k), <- Z.le_succ_l. split; intros H.
    - apply Z.div_le_lower_bound; nia.
    - pose proof (Z.mul_div_le (size + R - 1) R HR). nia. }
  induction turns as [|turns IH]; intros k Hk HkR Ht; cbn [chunks]; fold R.
  all: rewrite (wrap_small 64 (addr + size)) by lia; rewrite wrap_small by lia.
  all: destruct (Z.ltb_spec (addr + k * R) (addr + size)) as [H|H].
  - assert (k < (size + R - 1) / R) by (apply Hiff; lia). lia.
  - rewrite seqZ_nil; [done |]. assert (~ k < (size + R - 1) / R); [| lia].
    rewrite <- Hiff by done. lia.
  - assert (k < (size + R - 1) / R) as Hlt by (apply Hiff; lia).
    rewrite IH by nia. simpl. rewrite (seqZ_cons k) by lia. cbn [fmap list_fmap].
    unfold nth_chunk at 2. rewrite wrap_small by nia.
    replace (Z.succ k) with (k + 1) by lia.
    replace (Z.pred ((size + R - 1) / R - k)) with ((size + R - 1) / R - (k + 1)) by lia.
    do 4 f_equal. destruct (Z.ltb_spec size (k * R + R)) as [Hl|Hl]; [| lia].
    rewrite Z.min_r by lia. symmetry. apply Z.mod_unique_pos with (q := k); nia.
  - rewrite seqZ_nil; [done |]. assert (~ k < (size + R - 1) / R); [| lia].
    rewrite <- Hiff by done. lia.
Qed.

(** ** The environment *)

#[export] Instance cpu_packet_eq_dec : EqDecision cpu_packet.
Proof. solve_decision. Defined.
#[export] Instance event_eq_dec : EqDecision event.
Proof. solve_decision. Defined.

(** How often an event is scheduled. *)
Definition ev_count (e : event) (l : list (Z * event)) : nat :=
  length (List.filter (fun x => bool_decide (x.2 = e)) l).

Lemma ev_count_app e l1 l2 : ev_count e (l1 ++ l2) = (ev_count e l1 + ev_count e l2)%nat.
Proof. unfold ev_count. by rewrite List.filter_app, length_app. Qed.

Lemma ev_count_cons e x l :
  ev_count e (x :: l) = ((if decide (x.2 = e) then 1 else 0) + ev_count e l)%nat.
Proof. unfold ev_count. simpl. case_bool_decide; case_decide; done. Qed.

Definition set_sent {S} (l : list packet) (n : ndp S) : ndp S :=
  set_packets (pendingReqPackets n) l (offers n) n.

(** What the memory [mem] answers. *)
Definition answer (mem : Z -> Z) (p : packet) : packet :=
  {| p_addr := p_addr p; p_size := p_size p; p_write := p_write p;
     p_bytes := if p_write p then p_bytes p else mem <$> seqZ (p_addr p) (p_size p) |}.

(** What may happen next, and its outcome: an event fires, the memory answers
    any packet it has taken, or asks again for the one it refused. *)
Inductive acts {S} {HV : NDPMethods S} (cf : config) (mem : Z -> Z) (n : ndp S)
    : res (ndp S) -> Prop :=
| act_event l1 x e l2 :
    events n = l1 ++ (x, e) :: l2 -> acts cf mem n (fire cf e (set_events (l1 ++ l2) n))
| act_answer l1 p l2 :
    sent n = l1 ++ p :: l2 -> acts cf mem n (memCallback cf (answer mem p) (set_sent (l1 ++ l2) n))
| act_retry :
    dmaActv n = true -> ev_count AttemptMemoryRequest (events n) = 0%nat ->
    acts cf mem n (recvReqRetry cf n).

(** The states the device can reach. *)
Inductive runs {S} {HV : NDPMethods S} (cf : config) (mem : Z -> Z) (n : ndp S) : ndp S -> Prop :=
| runs_start : runs cf mem n n
| runs_step n1 n2 : runs cf mem n n1 -> acts cf mem n1 (Ret n2) -> runs cf mem n n2.

(** ** One burst of reads *)

Definition pk (c : Z * Z * ptr) : packet :=
  {| p_addr := c.1.1; p_size := c.1.2; p_write := false; p_bytes := [] |}.
Definition sb (c : Z * Z * ptr) : AddrRange * ptr := (RangeSize c.1.1 c.1.2, c.2).

Lemma pop_chunk l1 c l2 :
  NoDup ((fun c : Z * Z * ptr => c.1.1) <$> (l1 ++ c :: l2)) ->
  popPendingSubRequest (RangeSize c.1.1 c.1.2) (sb <$> (l1 ++ c :: l2)) =
    Some (c.2, sb <$> (l1 ++ l2)).
Proof.
  induction l1 as [|x l1 IH]; intros Hnd; cbn [app] in *; rewrite !fmap_cons in *;
    unfold sb at 1; cbn [popPendingSubRequest].
  - by rewrite decide_True.
  - apply list.NoDup_cons in Hnd as [Hx Hnd]. rewrite decide_False.
    + rewrite IH by done. done.
    + intros [= E]. apply Hx. rewrite fmap_app, fmap_cons, E. apply elem_of_app. right. by left.
Qed.

Section burst.
Context {S : Type} (cf : config) (mem : Z -> Z) (id addr size : Z).
Context (HR : 0 < maxRSze cf) (Hq : 1 <= maxReqs cf < 2 ^ 64).
Context (Haddr : 0 <= addr) (Hsize : 0 < size) (Htop : addr + size + maxRSze cf < 2 ^ 64).
Context (Hmem : forall a, is_byte (mem a)).
(** The chunks start where their block does. *)
Context (Hoff : Forall (fun c : Z * Z * ptr => getOffset cf c.1.1 c.1.2 = 0)
                  (chunk_list (maxRSze cf) addr size (id, 0))).
Implicit Types (n : ndp S) (fly todo : list (Z * Z * ptr)).

Definition the_chunks : list (Z * Z * ptr) := chunk_list (maxRSze cf) addr size (id, 0).

Definition the_burst (l : list (Z * Z * ptr)) : burst :=
  {| b_range := RangeSize addr size; b_data := (id, 0); b_write := false; b_subs := sb <$> l |}.

(** The block [b] holds the memory's bytes, but for the chunks [l]. *)
Definition loaded_but (l : list (Z * Z * ptr)) (b : buf) : Prop :=
  buf_len b = size /\ buf_bytes b /\
  forall i, 0 <= i < size ->
    buf_at b i = mem (addr + i) \/ exists c, c ∈ l /\ c.1.1 <= addr + i < c.1.1 + c.1.2.

(** Sending: asleep because nothing is left or all slots are taken; or awake. *)
Definition dma_ok n todo : Prop :=
  let a := ev_count AttemptMemoryRequest (events n) in
  if dmaActv n then (a <= 1)%nat /\ todo <> []
  else a = 0%nat /\ (todo = [] \/ flyReqs n = maxReqs cf).

Record loading n fly todo : Prop := {
  ld_requests : pendingRequests n = [the_burst (fly ++ todo)];
  ld_sent : sent n = pk <$> fly;
  ld_packets : pendingReqPackets n = pk <$> todo;
  ld_fly : flyReqs n = Z.of_nat (length fly);
  ld_max : flyReqs n <= maxReqs cf;
  ld_heap : exists b, heap n !! id = Some b /\ loaded_but (fly ++ todo) b;
  ld_sub : sublist (fly ++ todo) the_chunks;
  ld_some : fly ++ todo <> [] }.

(** A chunk lies in the burst, and its data in the block. *)
Lemma chunk_facts c :
  c ∈ the_chunks -> addr <= c.1.1 /\ c.1.1 + c.1.2 <= addr + size /\ 0 < c.1.2 /\
    c.2 = (id, c.1.1 - addr) /\ getOffset cf c.1.1 c.1.2 = 0.
Proof.
  intros Hc. unfold the_chunks in Hc. pose proof (proj1 (Forall_forall _ _) Hoff c) as Ho.
  rewrite <- list_elem_of_In in Ho. specialize (Ho Hc).
  unfold chunk_list in Hc. apply list_elem_of_fmap in Hc as (i & -> & Hi).
  apply elem_of_seqZ in Hi. unfold nth_chunk in *. simpl in *.
  pose proof (Z.mul_div_le (size + maxRSze cf - 1) (maxRSze cf) HR).
  assert (i * maxRSze cf < size) by nia.
  split; [nia |]. split; [lia |]. split; [lia |]. split; [f_equal; lia | done].
Qed.

Lemma chunks_nodup l : sublist l the_chunks -> NoDup ((fun c : Z * Z * ptr => c.1.1) <$> l).
Proof.
  intros Hl. eapply sublist_NoDup; [| apply fmap_sublist, Hl].
  unfold the_chunks, chunk_list. rewrite <- list_fmap_compose. apply NoDup_fmap_2_strong.
  - intros i j Hi Hj E. simpl in E. nia.
  - apply NoDup_seqZ.
Qed.

(** What a step of the burst leaves alone. *)
Definition same_rest n n' : Prop :=
  sub n' = sub n /\
  ev_count WriteBackResults (events n') = ev_count WriteBackResults (events n).

Lemma send_loading n fly todo :
  loading n fly todo -> dmaActv n = true -> todo <> [] ->
  ev_count AttemptMemoryRequest (events n) = 0%nat ->
  exists n' fly' todo', sendData cf n = Ret n' /\ loading n' fly' todo' /\ dma_ok n' todo' /\
    same_rest n n'.
Proof.
  intros [Hr Hs Hp Hf Hm Hh Hsub Hne] Ha Ht Hev. unfold sendData.
  destruct (Z.eqb_spec (flyReqs n) (maxReqs cf)) as [E|E].
  - eexists _, fly, todo. split; [done |]. split; [by split |]. split; [| done].
    split; [done | by right].
  - destruct todo as [|c rest]; [done |]. rewrite fmap_cons in Hp. rewrite Hp.
    destruct (accept cf (offers n)).
    + assert (loading (set_dma (u64 (flyReqs n + 1)) (dmaActv n)
        (set_packets (pk <$> rest) (sent n ++ [pk c]) (offers n + 1) n)) (fly ++ [c]) rest) as HL.
      { split; simpl; rewrite <- ?app_assoc; try done.
        - rewrite Hs, fmap_app. done.
        - rewrite wrap_small, length_app by lia. simpl. lia.
        - rewrite wrap_small; lia. }
      destruct rest as [|c' rest]; rewrite ?fmap_cons.
      * eexists _, (fly ++ [c]), []. split; [done |]. split; [by destruct HL; split |].
        split; [| done]. split; [done | by left].
      * eexists _, (fly ++ [c]), (c' :: rest). split; [done |].
        split; [by destruct HL; split |]. split.
        -- unfold dma_ok. simpl. rewrite Ha, ev_count_app, Hev. simpl.
           rewrite ev_count_cons. simpl. done.
        -- split; [done |]. simpl. rewrite ev_count_app, ev_count_cons. simpl. unfold ev_count at 2.
           simpl. lia.
    + eexists _, fly, (c :: rest). split; [done |]. split; [by split; simpl; rewrite ?fmap_cons |].
      split; [| done]. unfold dma_ok. simpl. rewrite Ha, Hev. split; [lia | done].
Qed.

(** An answer writes its chunk. *)
Lemma load_chunk l1 c l2 b :
  loaded_but (l1 ++ c :: l2) b -> c ∈ the_chunks ->
  let bs := mem <$> seqZ c.1.1 c.1.2 in
  exists b', buf_write b (c.1.1 - addr) bs = Ret b' /\ loaded_but (l1 ++ l2) b'.
Proof.
  intros (Hl & Hb & Hi) Hc. destruct (chunk_facts c Hc) as (H1 & H2 & H3 & _). clear Hc.
  destruct c as [[a z] d]. simpl in *. set (bs := mem <$> seqZ a z).
  assert (Z.of_nat (length bs) = z) as Hlen.
  { subst bs. rewrite length_fmap, length_seqZ. lia. }
  rewrite buf_write_ret by lia. eexists. split; [done |]. split; [done |]. split.
  - apply buf_bytes_blit; [done |]. apply Forall_fmap, Forall_forall. intros x _. apply Hmem.
  - intros i Hir. rewrite buf_at_blit. case_decide as Hin.
    + left. subst bs. rewrite list_lookup_total_alt, list_lookup_fmap, lookup_seqZ_lt by lia.
      simpl. f_equal. lia.
    + destruct (Hi i Hir) as [?|(c' & Hc' & Hr)]; [by left | right]. exists c'. split; [| done].
      apply elem_of_app in Hc' as [?|Hc']; [apply elem_of_app; auto |].
      apply elem_of_cons in Hc' as [->|?]; [simpl in Hr; lia | apply elem_of_app; auto].
Qed.

Lemma sublist_drop_mid l1 (c : Z * Z * ptr) l2 l :
  sublist (l1 ++ c :: l2) l -> sublist (l1 ++ l2) l.
Proof.
  intros H. etrans; [| done]. apply sublist_app; [done |]. by apply sublist_cons.
Qed.

Lemma burst_size : AddrRange.size (RangeSize addr size) = Ret size.
Proof.
  unfold AddrRange.size. simpl. rewrite Z.shiftr_0_r, (wrap_small 64 (addr + size)) by lia.
  rewrite Z.add_simpl_l, wrap_small by lia. done.
Qed.

End burst.

(** An answer to the burst, for any subclass. *)
Section answers.
Context {S : Type} {HV : NDPMethods S} (cf : config) (mem : Z -> Z) (id addr size : Z).
Context (HR : 0 < maxRSze cf) (Hq : 1 <= maxReqs cf < 2 ^ 64).
Context (Haddr : 0 <= addr) (Hsize : 0 < size) (Htop : addr + size + maxRSze cf < 2 ^ 64).
Context (Hmem : forall a, is_byte (mem a)).
Context (Hoff : Forall (fun c : Z * Z * ptr => getOffset cf c.1.1 c.1.2 = 0)
                  (chunk_list (maxRSze cf) addr size (id, 0))).
Implicit Types (n : ndp S) (fly todo : list (Z * Z * ptr)).

(** Matching an answer: the chunk is written, and its sub-request gone. *)
Lemma match_burst n l1 c l2 todo :
  loading cf mem id addr size n (l1 ++ c :: l2) todo ->
  exists b', loaded_but mem addr size (l1 ++ l2 ++ todo) b' /\
    let n1 := set_heap (<[id := b']> (heap n)) (heap_next n) (set_sent (pk <$> (l1 ++ l2)) n) in
    match_requests cf (answer mem (pk c)) [] (pendingRequests n) (set_sent (pk <$> (l1 ++ l2)) n) =
      match l1 ++ l2 ++ todo with
      | [] => n2 ← recvData cf addr (Some (id, 0)) size
                     (set_requests [the_burst id addr size []] n1);
              Ret (set_requests (drop 1 (pendingRequests n2)) n2)
      | l => Ret (set_requests [the_burst id addr size l] n1)
      end.
Proof.
  intros [Hr Hs Hp Hf Hm (b & Hb & Hlb) Hsub Hne].
  assert (c ∈ the_chunks cf id addr size) as Hc.
  { eapply elem_of_sublist; [| exact Hsub]. rewrite <- app_assoc. apply elem_of_app. right. by left. }
  edestruct (chunk_facts cf id addr size) with (c := c) as (H1 & H2 & H3 & H4 & H5); try eassumption.
  rewrite <- app_assoc in *. cbn [app] in *.
  edestruct (load_chunk cf mem id addr size) with (l1 := l1) (c := c) (l2 := l2 ++ todo) (b := b)
    as (b' & Ew & Hlb'); try eassumption.
  exists b'. split; [done |]. cbn zeta. rewrite Hr. cbn [match_requests the_burst b_write
    b_subs answer pk p_write Bool.eqb].
  change (p_range (answer mem (pk c))) with (RangeSize c.1.1 c.1.2).
  rewrite pop_chunk by (eapply chunks_nodup; eassumption).
  change (p_addr (answer mem (pk c))) with c.1.1. change (p_size (answer mem (pk c))) with c.1.2.
  change (p_bytes (answer mem (pk c))) with (mem <$> seqZ c.1.1 c.1.2).
  cbn [b_range b_data the_burst RangeSize r_start r_end].
  rewrite H5, H4, Z.add_0_r. unfold heap_write. cbn [fst snd].
  change (heap (set_sent (pk <$> (l1 ++ l2)) n)) with (heap n). rewrite Hb, Ew. cbn [mbind res_bind].
  destruct (l1 ++ l2 ++ todo) as [|x l]; [| done].
  cbn [fmap list_fmap app]. rewrite (burst_size cf addr size) by lia. done.
Qed.

Lemma answer_loading n l1 c l2 todo :
  loading cf mem id addr size n (l1 ++ c :: l2) todo -> dma_ok cf n todo ->
  l1 ++ l2 ++ todo <> [] ->
  exists n' fly' todo',
    memCallback cf (answer mem (pk c)) (set_sent (pk <$> (l1 ++ l2)) n) = Ret n' /\
    loading cf mem id addr size n' fly' todo' /\ dma_ok cf n' todo' /\ same_rest n n'.
Proof.
  intros HL Hd Hne. destruct (match_burst n l1 c l2 todo HL) as (b' & Hb' & Em).
  destruct HL as [Hr Hs Hp Hf Hm (b & Hb & Hlb) Hsub _].
  rewrite length_app in Hf. simpl in Hf. rewrite <- app_assoc in Hsub. simpl in Hsub.
  unfold memCallback. change (pendingRequests (set_sent _ n)) with (pendingRequests n).
  rewrite Em. destruct (l1 ++ l2 ++ todo) as [|x l] eqn:El; [done |]. cbn [mbind res_bind].
  set (n2 := set_dma _ _ _).
  assert (loading cf mem id addr size n2 (l1 ++ l2) todo) as HL2.
  { split; simpl; rewrite <- ?app_assoc, ?El; try done.
    - rewrite wrap_small, length_app by lia. lia.
    - rewrite wrap_small; lia.
    - exists b'. by rewrite lookup_insert_eq.
    - rewrite <- El. by eapply sublist_drop_mid. }
  unfold dma_ok in Hd. change (dmaActv n2) with (dmaActv n).
  change (pendingReqPackets n2) with (pendingReqPackets n). rewrite Hp.
  destruct (dmaActv n) eqn:Ed; cbn [negb andb].
  - exists n2, (l1 ++ l2), todo. split; [done |]. split; [done |]. split; [| done].
    unfold dma_ok. change (dmaActv n2) with (dmaActv n). by rewrite Ed.
  - destruct Hd as [Ha Hd]. destruct todo as [|t todo].
    + exists n2, (l1 ++ l2), []. split; [done |]. split; [done |]. split; [| done].
      unfold dma_ok. change (dmaActv n2) with (dmaActv n). rewrite Ed. auto.
    + rewrite fmap_cons. cbn [negb].
      edestruct (send_loading (S := S) cf mem id addr size) with (n := set_dma (flyReqs n2) true n2)
        (fly := l1 ++ l2) (todo := t :: todo) as (n' & fly' & todo' & E & HL' & Hd' & Hsame);
        try eassumption; try done.
      { by destruct HL2; split. }
      exists n', fly', todo'. done.
Qed.

(** The last answer hands the block to the subclass. *)
Lemma answer_last n c (n2 : buf -> ndp S) :
  loading cf mem id addr size n [c] [] -> dma_ok cf n [] ->
  (forall b', loaded_but mem addr size [] b' ->
     recvData cf addr (Some (id, 0)) size
       (set_requests [the_burst id addr size []]
          (set_heap (<[id := b']> (heap n)) (heap_next n) (set_sent [] n))) = Ret (n2 b') /\
     pendingRequests (n2 b') = [the_burst id addr size []] /\
     pendingReqPackets (n2 b') = [] /\ flyReqs (n2 b') = flyReqs n) ->
  exists b', loaded_but mem addr size [] b' /\
    memCallback cf (answer mem (pk c)) (set_sent [] n) =
      Ret (set_dma 0 (dmaActv (n2 b')) (set_requests [] (n2 b'))).
Proof.
  intros HL Hd Hrecv. destruct (match_burst n [] c [] [] HL) as (b' & Hb' & Em).
  destruct (Hrecv b' Hb') as (Er & Ep & Eq & Ef). exists b'. split; [done |].
  destruct HL as [_ _ _ Hf _ _ _ _].
  unfold memCallback. change (pendingRequests (set_sent [] n)) with (pendingRequests n).
  cbn [app] in Em. change (pk <$> []) with (@nil packet) in Em. rewrite Em, Er. cbn [mbind res_bind].
  rewrite Ep. cbn [drop]. change (pendingReqPackets (set_dma _ _ _)) with (pendingReqPackets (n2 b')).
  rewrite Eq, andb_false_r. cbn [flyReqs set_requests set_dma dmaActv].
  rewrite Ef, Hf. done.
Qed.

End answers.

(** ** The commands *)

(** The [cnt] words from [addr]. *)
Definition mem_words (mem : Z -> Z) (addr : Z) (cnt : nat) : list Z :=
  (fun i => le_val (mem <$> seqZ (addr + 8 * Z.of_nat i) 8)) <$> seq 0 cnt.

Lemma words_loaded mem addr (cnt : nat) b :
  loaded_but mem addr (8 * Z.of_nat cnt) [] b -> words64 b (Z.of_nat cnt) = Ret (mem_words mem addr cnt).
Proof.
  intros (Hl & _ & Hi). unfold words64. rewrite buf_read_ret by lia. cbn [mbind res_bind].
  f_equal. rewrite Nat2Z.id. apply list_fmap_ext. intros k x Hk. apply lookup_seq in Hk as [-> Hk].
  cbn [plus]. f_equal. apply list_eq. intros j. destruct (decide (j < 8)%nat).
  - rewrite lookup_take_lt, lookup_drop by lia. rewrite lookup_buf_slice by lia.
    rewrite list_lookup_fmap, lookup_seqZ_lt by lia.
    replace (0 + Z.of_nat (8 * k + j)) with (8 * Z.of_nat k + Z.of_nat j) by lia.
    destruct (Hi (8 * Z.of_nat k + Z.of_nat j)) as [E|(c & Hc & _)]; [lia | | by apply elem_of_nil in Hc].
    rewrite E. cbn. do 2 f_equal. lia.
  - rewrite lookup_take_ge by lia. symmetry. apply lookup_ge_None_2.
    rewrite length_fmap, length_seqZ. lia.
Qed.

Lemma hit_spec l key i :
  0 <= i -> i + Z.of_nat (length l) < 2 ^ 31 ->
  exists r, compare_n_hit l key i = Ret r /\
    (if bool_decide (key ∈ l) then is_Some r else r = None).
Proof.
  revert i. induction l as [|v l IH]; intros i Hi Hl; simpl in *; [by exists None |].
  destruct (Z.eqb_spec v key) as [->|Hv].
  - exists (Some i). split; [done |]. rewrite bool_decide_eq_true_2; [by eexists | by left].
  - rewrite signed_ret by lia. cbn [mbind res_bind].
    destruct (IH (i + 1)) as (r & E & Hr); [lia | lia |]. exists r. split; [done |].
    replace (bool_decide (key ∈ v :: l)) with (bool_decide (key ∈ l)); [done |].
    apply bool_decide_ext. rewrite elem_of_cons. split; [auto | by intros [->|?]].
Qed.

(** How often [key] occurs. *)
Definition occurrences (key : Z) (l : list Z) : Z :=
  Z.of_nat (length (List.filter (Z.eqb key) l)).

Lemma count_spec l key i c :
  0 <= i -> i + Z.of_nat (length l) < 2 ^ 31 -> 0 <= c <= i ->
  compare_n_count l key i c = Ret (c + occurrences key l).
Proof.
  unfold occurrences. revert i c. induction l as [|v l IH]; intros i c Hi Hl Hc; simpl in *.
  - f_equal. lia.
  - rewrite signed_ret by lia. cbn [mbind res_bind]. rewrite (Z.eqb_sym key v).
    destruct (v =? key); simpl; rewrite ?wrap_small by lia; rewrite IH by lia; f_equal; lia.
Qed.

Lemma max_spec l i m :
  0 <= i -> i + Z.of_nat (length l) < 2 ^ 31 -> compare_n_max l i m = Ret (foldl Z.max m l).
Proof.
  revert i m. induction l as [|v l IH]; intros i m Hi Hl; simpl in *; [done |].
  rewrite signed_ret by lia. cbn [mbind res_bind]. rewrite IH by lia. do 2 f_equal.
  destruct (Z.ltb_spec m v); lia.
Qed.

(** What [pi_last_rslt] should hold after a command on the words. *)
Definition command_result (d : dev_a) (ws : list Z) : Z :=
  if pi_cmmd_code d =? 0 then
    if bool_decide (pi_data_skey d ∈ ws) then 1 else pi_last_rslt d
  else if pi_cmmd_code d =? 1 then occurrences (pi_data_skey d) ws
  else match ws with [] => 0 | w :: ws => foldl Z.max w ws end.

Lemma compute_spec ws d :
  ws <> [] -> Z.of_nat (length ws) < 2 ^ 31 -> 0 <= pi_cmmd_code d <= 2 ->
  exists cycles, compute ws d = Ret (cycles, set_rslt (command_result d ws) d).
Proof.
  intros Hne Hl Hc. unfold compute, command_result.
  destruct (Z.eqb_spec (pi_cmmd_code d) 0); [| destruct (Z.eqb_spec (pi_cmmd_code d) 1);
    [| destruct (Z.eqb_spec (pi_cmmd_code d) 2); [| lia]]].
  - destruct (hit_spec ws (pi_data_skey d) 0) as (r & -> & Hr); [lia | lia |].
    cbn [mbind res_bind]. case_bool_decide.
    + destruct Hr as [i ->]. by eexists.
    + subst r. eexists. by destruct d.
  - rewrite count_spec by lia. cbn [mbind res_bind]. by eexists.
  - destruct ws as [|w ws]; [done |]. simpl in Hl. rewrite max_spec by lia. by eexists.
Qed.

(** ** [NDPDevA] from start to result *)

Lemma getOffset_aligned (a z k : Z) :
  0 <= k -> a mod 2 ^ k = 0 -> 0 < z <= 2 ^ k -> Z.land a (z - 1) = 0.
Proof.
  intros Hk Ha Hz. apply Z.bits_inj'. intros i Hi. rewrite Z.land_spec, Z.bits_0.
  destruct (Z_lt_le_dec i k).
  - replace (Z.testbit a i) with (Z.testbit (a mod 2 ^ k) i) by (apply Z.mod_pow2_bits_low; lia).
    by rewrite Ha, Z.bits_0.
  - destruct (decide (z - 1 = 0)) as [->|]; [by rewrite Z.bits_0, andb_false_r |].
    rewrite (Z.bits_above_log2 (z - 1)), andb_false_r; [done | lia |].
    apply Z.log2_lt_pow2; [lia |]. apply Z.lt_le_trans with (2 ^ k); [lia |].
    apply Z.pow_le_mono_r; lia.
Qed.

Section run.
Context (cf : config) (mem : Z -> Z) (n0 : ndp dev_a) (scale k : Z) (cnt : nat).
Local Abbreviation d0 := (sub n0).
Local Abbreviation addr := (pi_addr_data (sub n0)).
Local Abbreviation size := (8 * Z.of_nat cnt).

(** The device is ready and its registers hold the arguments of a command. *)
Record ready : Prop := {
  rd_stat : pi_stat_rgst d0 = 1;
  rd_operands : has_operands d0 = false;
  rd_size : pi_data_size d0 = Z.of_nat cnt;
  rd_cmd : 0 <= pi_cmmd_code d0 <= 2;
  rd_requests : pendingRequests n0 = [];
  rd_packets : pendingReqPackets n0 = [];
  rd_sent : sent n0 = [];
  rd_fly : flyReqs n0 = 0;
  rd_dma : dmaActv n0 = false;
  rd_attempts : ev_count AttemptMemoryRequest (events n0) = 0%nat;
  rd_results : ev_count WriteBackResults (events n0) = 0%nat }.

(** The surroundings: a positive number of slots, packets of a power of two,
    operands aligned to it, [getOffset] as gem5 documents it. *)
Record surroundings : Prop := {
  su_reqs : 1 <= maxReqs cf < 2 ^ 64;
  su_pow : 0 <= k /\ maxRSze cf = 2 ^ k;
  su_cnt : 1 <= Z.of_nat cnt < 2 ^ 31;
  su_addr : 0 <= addr /\ addr mod 2 ^ k = 0;
  su_top : addr + size + maxRSze cf < 2 ^ 64;
  su_mem : forall a, is_byte (mem a);
  su_offset : forall a z, getOffset cf a z = Z.land a (z - 1) }.

Context (Hready : ready) (Hsu : surroundings).

Local Abbreviation id := (heap_next n0).

(** The device while it loads. *)
Definition started : dev_a := set_operands id (set_scale scale (set_stat 0 false d0)).
(** The value the command leaves. *)
Definition expected : Z := command_result d0 (mem_words mem addr cnt).

Definition dma_idle (n : ndp dev_a) : Prop :=
  pendingRequests n = [] /\ sent n = [] /\ pendingReqPackets n = [] /\ flyReqs n = 0 /\
  dmaActv n = false /\ ev_count AttemptMemoryRequest (events n) = 0%nat.

Inductive dev_state (n : ndp dev_a) : Prop :=
| dev_loading fly todo :
    loading cf mem id addr size n fly todo -> dma_ok cf n todo -> sub n = started ->
    ev_count WriteBackResults (events n) = 0%nat -> dev_state n
| dev_computed :
    dma_idle n -> sub n = set_rslt expected (set_stat 0 true started) ->
    ev_count WriteBackResults (events n) = 1%nat -> is_Some (heap n !! id) -> dev_state n
| dev_done :
    dma_idle n -> pi_stat_rgst (sub n) = 1 -> pi_last_rslt (sub n) = expected ->
    ev_count WriteBackResults (events n) = 0%nat -> dev_state n.

Lemma chunks_aligned :
  Forall (fun c : Z * Z * ptr => getOffset cf c.1.1 c.1.2 = 0)
    (chunk_list (maxRSze cf) addr size (id, 0)).
Proof.
  destruct Hsu as [_ [Hk ->] Hc [Ha Hm] _ _ Ho]. apply Forall_forall. intros c Hin.
  apply list_elem_of_In, list_elem_of_fmap in Hin as (i & -> & Hi). apply elem_of_seqZ in Hi.
  assert (0 < 2 ^ k) as HP by (apply Z.pow_pos_nonneg; lia).
  pose proof (Z.mul_div_le (size + 2 ^ k - 1) (2 ^ k) HP). simpl. rewrite Ho.
  apply (getOffset_aligned _ _ k); [done | | nia]. rewrite Z.mod_add by lia. done.
Qed.

Lemma chunk_packets_read (n : ndp dev_a) l : chunk_packets false n l = Ret (pk <$> l).
Proof. induction l as [|[[a z] p] l IH]; [done |]. simpl. by rewrite IH. Qed.

Lemma subs_sb (l : list (Z * Z * ptr)) : (fun '(a, s, d) => (RangeSize a s, d)) <$> l = sb <$> l.
Proof. apply list_fmap_ext. by intros i [[a s] d] _. Qed.

Lemma start_dev : exists n1, writePI cf 4 scale n0 = Ret n1 /\ dev_state n1.
Proof.
  destruct Hready as [Hst Hop Hsz Hcmd Hreq Hpkt Hsent Hfly Hdma Hatt Hres].
  pose proof Hsu as [Hq [Hk HR] Hc [Ha Hm] Ht Hb Ho].
  assert (0 < maxRSze cf) as HR0 by (rewrite HR; apply Z.pow_pos_nonneg; lia).
  cbn [writePI dev_a_methods]. unfold dev_a_writePI. rewrite Hst. cbn [Z.eqb].
  unfold process_fsm. cbn [sub set_sub has_operands set_scale set_stat pi_data_size pi_addr_data].
  rewrite Hop, Hsz. cbn [negb]. destruct (Z.leb_spec (2 ^ 63) (8 * Z.of_nat cnt)); [lia |].
  cbn [alloc]. unfold accessMemory.
  rewrite (Z.mul_comm (Z.of_nat cnt) 8), wrap_small by lia.
  rewrite chunks_from; [| lia | lia | lia | lia | lia | lia |].
  2: { rewrite Z2Nat.id, Z.sub_0_r by lia. apply Z.div_le_upper_bound; nia. }
  rewrite Z.sub_0_r. cbn [mbind res_bind]. rewrite chunk_packets_read. cbn [mbind res_bind].
  rewrite subs_sb.
  set (n1 := set_requests _ _).
  replace (dmaActv n1) with false by (by rewrite <- Hdma).
  assert (loading cf mem id addr size (set_dma (flyReqs n1) true n1) []
    (the_chunks cf id addr size)) as HL1.
  { split; cbn [app]; try done.
    - subst n1. simpl. by rewrite Hreq.
    - subst n1. simpl. by rewrite Hpkt.
    - subst n1. simpl. lia.
    - exists (buf_new size). subst n1. simpl. rewrite lookup_insert_eq. split; [done |].
      split; [done |]. split; [apply buf_bytes_new |]. intros i Hi. right.
      exists (nth_chunk (maxRSze cf) addr size (id, 0) (i / maxRSze cf)).
      pose proof (Z.div_mod i (maxRSze cf)). pose proof (Z.mod_pos_bound i (maxRSze cf) HR0).
      split; [| simpl; nia]. apply list_elem_of_fmap. eexists. split; [done |].
      apply elem_of_seqZ. split; [apply Z.div_pos; lia |]. rewrite Z.add_0_l.
      apply Z.div_lt_upper_bound; [lia |].
      pose proof (Z.div_mod (size + maxRSze cf - 1) (maxRSze cf)).
      pose proof (Z.mod_pos_bound (size + maxRSze cf - 1) (maxRSze cf) HR0). lia.
    - intros E. apply (f_equal length) in E. unfold the_chunks, chunk_list in E.
      rewrite length_fmap, length_seqZ in E. simpl in E.
      assert (1 <= (size + maxRSze cf - 1) / maxRSze cf); [| lia].
      apply Z.div_le_lower_bound; lia. }
  pose proof (su_reqs Hsu) as Hq'.
  edestruct (send_loading (S := dev_a) cf mem id addr size) with (n := set_dma (flyReqs n1) true n1)
    (fly := @nil (Z * Z * ptr)) (todo := the_chunks cf id addr size)
    as (n2 & fly & todo & E & HL & Hd & Hs & He); try eassumption; try done.
  { apply (ld_some _ _ _ _ _ _ _ _ HL1). }
  exists n2. split; [done |]. eapply dev_loading; [done | done | | by rewrite He].
  rewrite Hs. subst n1. simpl. done.
Qed.

(** ** Every step keeps it *)

Lemma idle_step n n' :
  pendingRequests n' = pendingRequests n -> sent n' = sent n ->
  pendingReqPackets n' = pendingReqPackets n -> flyReqs n' = flyReqs n -> dmaActv n' = dmaActv n ->
  (ev_count AttemptMemoryRequest (events n') <= ev_count AttemptMemoryRequest (events n))%nat ->
  dma_idle n -> dma_idle n'.
Proof.
  intros E1 E2 E3 E4 E5 E6 (H1 & H2 & H3 & H4 & H5 & H6). unfold dma_idle.
  rewrite E1, E2, E3, E4, E5. do 5 (split; [done |]). lia.
Qed.

Lemma last_answer n c :
  loading cf mem id addr size n [c] [] -> dma_ok cf n [] -> sub n = started ->
  ev_count WriteBackResults (events n) = 0%nat ->
  exists n', memCallback cf (answer mem (pk c)) (set_sent [] n) = Ret n' /\ dev_state n'.
Proof.
  intros HL Hd Hsub Hwb. pose proof Hsu as [Hq [Hk HR] Hc [Ha Hm] Ht Hb Ho].
  pose proof Hready as [Hst Hop Hsz Hcmd _ _ _ _ _ _ _].
  assert (0 < maxRSze cf) as HR0 by (rewrite HR; apply Z.pow_pos_nonneg; lia).
  assert (0 < size) as Hsize0 by lia. pose proof chunks_aligned as Hal.
  set (ws := mem_words mem addr cnt).
  assert (length ws = cnt) as Hlen by (subst ws; unfold mem_words; by rewrite length_fmap, length_seq).
  destruct (compute_spec ws (set_stat 0 true started)) as (cycles & Ec).
  { intros E. rewrite E in Hlen. simpl in Hlen. lia. }
  { lia. }
  { done. }
  pose (fin := fun b' => schedule (u64 (cycles * scale)) WriteBackResults
    (set_sub (set_rslt expected (set_stat 0 true started))
      (set_requests [the_burst id addr size []]
         (set_heap (<[id := b']> (heap n)) (heap_next n) (set_sent [] n))))).
  edestruct (answer_last (S := dev_a) cf mem id addr size) with (n := n) (c := c) (n2 := fin)
    as (b' & Hb' & E); try eassumption.
  { intros b' Hb'. split; [| split; [done |]; split; [exact (ld_packets _ _ _ _ _ _ _ _ HL) | done]].
    cbn [recvData dev_a_methods]. unfold dev_a_recvData, process_fsm.
    cbn [sub set_sub set_requests set_heap set_sent set_packets heap]. rewrite Hsub.
    cbn [has_operands set_stat pi_stat_rgst started set_operands set_scale negb operands pi_data_size].
    rewrite lookup_insert_eq, Hsz, (words_loaded mem addr cnt b' Hb'). cbn [mbind res_bind].
    change (compute (mem_words mem addr cnt) _) with (compute ws (set_stat 0 true started)).
    rewrite Ec. done. }
  eexists. split; [done |]. apply dev_computed.
  - unfold dma_ok in Hd. split; [done |]. split; [done |].
    split; [exact (ld_packets _ _ _ _ _ _ _ _ HL) |]. split; [done |]. simpl.
    destruct (dmaActv n); [by destruct Hd |]. split; [done |]. rewrite ev_count_app.
    destruct Hd as [-> _]. done.
  - done.
  - simpl. rewrite ev_count_app, Hwb. done.
  - simpl. rewrite lookup_insert_eq. by eexists.
Qed.

Lemma ev_count_mid e x e' l1 l2 :
  ev_count e (l1 ++ (x, e') :: l2) =
    ((if decide (e' = e) then 1 else 0) + ev_count e (l1 ++ l2))%nat.
Proof. rewrite !ev_count_app, ev_count_cons. simpl. lia. Qed.

(** Sending again, when the event fires or the memory asks. *)
Lemma resend n fly todo :
  loading cf mem id addr size n fly todo -> todo <> [] -> dmaActv n = true -> sub n = started ->
  ev_count AttemptMemoryRequest (events n) = 0%nat ->
  ev_count WriteBackResults (events n) = 0%nat ->
  exists n', sendData cf n = Ret n' /\ dev_state n'.
Proof.
  intros HL Hne Ha Hsub Hev Hwb. pose proof Hsu as [Hq [Hk HR] Hc [Hadr Hm] Ht Hb Ho].
  assert (0 < maxRSze cf) as HR0 by (rewrite HR; apply Z.pow_pos_nonneg; lia).
  assert (0 < size) as Hsize0 by lia.
  edestruct (send_loading (S := dev_a) cf mem id addr size) with (n := n) (fly := fly) (todo := todo)
    as (n2 & fly' & todo' & E & HL' & Hd & Hs & He); try eassumption.
  exists n2. split; [done |]. eapply dev_loading; [done | done | by rewrite Hs | by rewrite He].
Qed.

Lemma loading_events (n : ndp dev_a) l fly todo :
  loading cf mem id addr size n fly todo -> loading cf mem id addr size (set_events l n) fly todo.
Proof. intros []. by split. Qed.

Lemma loading_act n fly todo r :
  loading cf mem id addr size n fly todo -> dma_ok cf n todo -> sub n = started ->
  ev_count WriteBackResults (events n) = 0%nat -> acts cf mem n r ->
  exists n', r = Ret n' /\ dev_state n'.
Proof.
  intros HL Hd Hsub Hwb Hact. pose proof Hsu as [Hq [Hk HR] Hc [Hadr Hm] Ht Hb Ho].
  assert (0 < maxRSze cf) as HR0 by (rewrite HR; apply Z.pow_pos_nonneg; lia).
  assert (0 < size) as Hsize0 by lia. pose proof chunks_aligned as Hal.
  destruct Hact as [l1 x e l2 Ee | l1 p l2 Es | Ha Hev].
  - rewrite Ee, ev_count_mid in Hwb. unfold dma_ok in Hd. rewrite Ee, ev_count_mid in Hd.
    destruct e as [q| |]; cbn [fire]; simpl in *.
    + eexists. split; [done |]. eapply dev_loading; [by apply loading_events | done | done | done].
    + destruct (dmaActv n) eqn:Ea; [| lia]. destruct Hd as [Hcnt Hne].
      eapply resend; [by apply loading_events | done | done | done | simpl; lia | done].
    + lia.
  - pose proof (ld_sent _ _ _ _ _ _ _ _ HL) as Efly. rewrite Es in Efly. symmetry in Efly.
    apply fmap_app_inv in Efly as (f1 & f2' & E1 & E2 & ->). symmetry in E2.
    destruct f2' as [|c f2]; [done |]. injection E2 as E2 E3. subst l1 p l2.
    rewrite <- fmap_app. destruct (decide (f1 ++ f2 ++ todo = [])) as [E0|E0].
    + apply app_nil in E0 as [-> E0]. apply app_nil in E0 as [-> ->]. by apply last_answer.
    + edestruct (answer_loading (S := dev_a) cf mem id addr size) with (n := n) (l1 := f1) (c := c)
        (l2 := f2) (todo := todo) as (n2 & fly' & todo' & E & HL' & Hd' & Hs & He); try eassumption.
      exists n2. split; [done |]. eapply dev_loading; [done | done | by rewrite Hs | by rewrite He].
  - unfold dma_ok in Hd. rewrite Ha in Hd. destruct Hd as [_ Hne]. by eapply resend.
Qed.

Lemma dev_act n r : dev_state n -> acts cf mem n r -> exists n', r = Ret n' /\ dev_state n'.
Proof.
  intros [fly todo HL Hd Hsub Hwb | Hi Hsub Hwb Hh | Hi Hst Hr Hwb] Hact; [by eapply loading_act | |];
    pose proof Hi as (_ & Hs & _ & _ & Ha & Hev);
    destruct Hact as [l1 x e l2 Ee | l1 p l2 Es | Ha' _]; try congruence;
    try (rewrite Hs in Es; by destruct l1);
    rewrite Ee, ev_count_mid in Hwb, Hev.
  - destruct e as [q| |]; simpl in *; [| lia |].
    + eexists. split; [done |]. apply dev_computed; [| done | done | done].
      apply (idle_step n); [done .. | | exact Hi]. simpl. rewrite Ee, ev_count_mid. simpl. lia.
    + unfold dev_a_writeBack, heap_free. cbn [sub set_events heap]. rewrite Hsub.
      cbn [operands set_rslt set_stat started set_operands]. destruct Hh as [b ->].
      cbn [mbind res_bind]. eexists. split; [done |]. apply dev_done; [| done | | simpl; lia].
      * apply (idle_step n); [done .. | | exact Hi]. simpl. rewrite Ee, ev_count_mid. simpl. lia.
      * simpl. by rewrite Hsub.
  - destruct e as [q| |]; simpl in *; [| lia | lia].
    eexists. split; [done |]. apply dev_done; [| done | done | done].
    apply (idle_step n); [done .. | | exact Hi]. simpl. rewrite Ee, ev_count_mid. simpl. lia.
Qed.

(** While the command runs, something can happen. *)
Lemma dev_progress n : dev_state n -> pi_stat_rgst (sub n) <> 1 -> exists r, acts cf mem n r.
Proof.
  assert (forall e m, ev_count e (events m) <> 0%nat -> exists r, acts cf mem (m : ndp dev_a) r) as Hev.
  { intros e m He. destruct (List.filter (fun x => bool_decide (x.2 = e)) (events m)) as [|[y e'] l] eqn:E.
    - unfold ev_count in He. by rewrite E in He.
    - assert (In (y, e') (events m)) as Hin.
      { apply (List.filter_In (fun x => bool_decide (x.2 = e))). rewrite E. by left. }
      apply list_elem_of_In, list_elem_of_split in Hin as (l1 & l2 & El). eexists. by eapply act_event. }
  intros [fly todo HL Hd Hsub Hwb | Hi Hsub Hwb Hh | Hi Hst Hr Hwb] Hstat.
  - unfold dma_ok in Hd. destruct (dmaActv n) eqn:Ea.
    + destruct (decide (ev_count AttemptMemoryRequest (events n) = 0%nat)) as [E0|E0];
        [eexists; by apply act_retry | by eapply Hev].
    + destruct HL as [_ Hs _ Hf _ _ _ Hne]. destruct fly as [|c fly].
      * destruct Hd as [_ [->| E]]; [done |]. destruct Hsu as [Hq _ _ _ _ _ _]. simpl in Hf. lia.
      * eexists. eapply (act_answer _ _ _ []). exact Hs.
  - eapply (Hev WriteBackResults). by rewrite Hwb.
  - done.
Qed.

End run.

(** ** Every schedule ends *)

(** What is left to do: a packet to send costs its offer and its answer. *)
Definition work {S} (n : ndp S) : nat :=
  (5 * length (pendingReqPackets n) + 3 * length (sent n) + length (events n) +
   Nat.b2n (dmaActv n))%nat.

Lemma send_work {S} cf (n n' : ndp S) :
  sendData cf n = Ret n' ->
  (work n' <= work n)%nat /\
  (dmaActv n = true -> work n' = work n ->
   accept cf (offers n) = false /\ offers n' = Datatypes.S (offers n)).
Proof.
  unfold sendData, work. destruct (flyReqs n =? maxReqs cf).
  { intros [= <-]. simpl. split; [destruct (dmaActv n); simpl; lia |]. intros ->. simpl. lia. }
  destruct (pendingReqPackets n) as [|p l] eqn:Ep; [done |].
  destruct (accept cf (offers n)) eqn:Ea.
  - destruct l as [|p' l]; intros [= <-]; simpl; rewrite ?length_app; simpl;
      destruct (dmaActv n); simpl; (split; [lia | intros; lia]).
  - intros [= <-]. simpl. split; [lia |]. intros. split; [done | lia].
Qed.

(** What answering and computing leave alone. *)
Definition same_dma {S} (n n' : ndp S) : Prop :=
  pendingReqPackets n' = pendingReqPackets n /\ sent n' = sent n /\ dmaActv n' = dmaActv n.

Lemma recv_work cf a d z (n n' : ndp dev_a) :
  dev_a_recvData cf a d z n = Ret n' ->
  same_dma n n' /\ length (events n') = Datatypes.S (length (events n)).
Proof.
  unfold dev_a_recvData, process_fsm. cbn [sub set_sub has_operands set_stat negb heap].
  destruct (heap n !! _) as [b|]; [| done]. intros H.
  apply bind_ret_inv in H as (ws & _ & H). apply bind_ret_inv in H as ([c d1] & _ & H).
  injection H as <-. simpl. rewrite length_app. simpl. split; [done | lia].
Qed.

Lemma match_work cf pkt before after (n n' : ndp dev_a) :
  match_requests cf pkt before after n = Ret n' ->
  same_dma n n' /\ (length (events n') <= Datatypes.S (length (events n)))%nat.
Proof.
  revert before n. induction after as [|b after IH]; intros before n H; simpl in H.
  { injection H as <-. simpl. split; [done | lia]. }
  destruct (Bool.eqb _ _); [| by eapply IH].
  destruct (popPendingSubRequest _ _) as [[d subs]|]; [| by eapply IH].
  apply bind_ret_inv in H as (n1 & E1 & H).
  assert (same_dma n n1 /\ events n1 = events n) as [(S1 & S2 & S3) Hev].
  { destruct (p_write pkt); [by injection E1 as <- |]. unfold heap_write in E1.
    destruct (heap n !! _); [| done]. apply bind_ret_inv in E1 as (b' & _ & [= <-]). done. }
  unfold same_dma. rewrite <- S1, <- S2, <- S3, <- Hev.
  destruct subs as [|x subs]; [| by eapply IH].
  apply bind_ret_inv in H as (z & _ & H). apply bind_ret_inv in H as (n2 & E2 & [= <-]).
  apply recv_work in E2 as [(T1 & T2 & T3) T4].
  simpl in *. rewrite T1, T2, T3, T4. split; [done | lia].
Qed.

(** An action does some of it, unless the memory refuses a packet again. *)
Lemma act_work cf mem (n n' : ndp dev_a) :
  acts cf mem n (Ret n') ->
  (work n' < work n)%nat \/
  work n' = work n /\ accept cf (offers n) = false /\ offers n' = Datatypes.S (offers n).
Proof.
  intros H. remember (Ret n') as r eqn:Er. destruct H as [l1 x e l2 Ee | l1 p l2 Es | Ha _].
  - assert (work n = Datatypes.S (work (set_events (l1 ++ l2) n))) as ->.
    { unfold work. simpl. rewrite Ee, !length_app. simpl. lia. }
    left. apply Nat.lt_succ_r. destruct e; simpl in Er.
    + by injection Er as <-.
    + by apply send_work in Er as [? _].
    + unfold dev_a_writeBack, heap_free in Er. destruct (heap _ !! _); [| done].
      by injection Er as <-.
  - left. unfold memCallback in Er. apply bind_ret_inv in Er as (n1 & E1 & H).
    apply match_work in E1 as [(S1 & S2 & S3) S4]. simpl in *.
    assert (work n1 + 2 <= work n)%nat as Hw.
    { unfold work. rewrite S1, S2, S3, Es, !length_app. simpl. lia. }
    destruct (_ && _); [| injection H as <-; unfold work in *; simpl in *; lia].
    apply send_work in H as [H _]. unfold work in *. simpl in *.
    destruct (dmaActv n1); simpl in *; lia.
  - apply send_work in Er as [Hle Heq].
    destruct (decide (work n' = work n)) as [E|E]; [right; by destruct (Heq Ha E) | left; lia].
Qed.

Lemma runs_end cf mem (n : ndp dev_a) :
  (forall i, exists j, (i <= j)%nat /\ accept cf j = true) ->
  Acc (fun n2 n1 => acts cf mem n1 (Ret n2)) n.
Proof.
  intros Hfair. remember (work n) as w eqn:Ew. revert n Ew.
  induction w as [w IHw] using lt_wf_ind. intros n Ew.
  destruct (Hfair (offers n)) as (j & Hj & Haj). remember (j - offers n)%nat as g eqn:Eg.
  revert n Ew Hj Eg. induction g as [|g IHg]; intros n Ew Hj Eg; constructor; intros n' Hact;
    destruct (act_work cf mem n n' Hact) as [Hlt | (Heq & Hacc & Hoff)].
  1, 3: apply (IHw (work n')); [lia | done].
  - assert (offers n = j) by lia. congruence.
  - apply IHg; lia.
Qed.


(** ** An example *)

(** A schedule: fire the given event, or answer the given packet. *)
Inductive move := Fire (i : nat) | Answer (i : nat).

Definition play_move {S} {HV : NDPMethods S} (cf : config) (mem : Z -> Z) (m : move) (n : ndp S)
    : res (ndp S) :=
  match m with
  | Fire i => match events n !! i with
              | Some (_, e) => fire cf e (set_events (take i (events n) ++ drop (i + 1) (events n)) n)
              | None => Undef
              end
  | Answer i => match sent n !! i with
                | Some p => memCallback cf (answer mem p)
                              (set_sent (take i (sent n) ++ drop (i + 1) (sent n)) n)
                | None => Undef
                end
  end.

Fixpoint play {S} {HV : NDPMethods S} (cf : config) (mem : Z -> Z) (l : list move) (n : ndp S)
    : res (ndp S) :=
  match l with [] => Ret n | m :: l => n1 ← play_move cf mem m n; play cf mem l n1 end.

Lemma play_acts {S} {HV : NDPMethods S} cf mem m (n n' : ndp S) :
  play_move cf mem m n = Ret n' -> acts cf mem n (Ret n').
Proof.
  intros H. destruct m as [i|i]; simpl in H.
  - destruct (events n !! i) as [[x e]|] eqn:E; [| done]. rewrite <- H. eapply act_event.
    rewrite Nat.add_1_r. symmetry. by apply take_drop_middle.
  - destruct (sent n !! i) as [p|] eqn:E; [| done]. rewrite <- H. eapply act_answer.
    rewrite Nat.add_1_r. symmetry. by apply take_drop_middle.
Qed.

Lemma play_runs {S} {HV : NDPMethods S} cf mem l (n0 n n' : ndp S) :
  runs cf mem n0 n -> play cf mem l n = Ret n' -> runs cf mem n0 n'.
Proof.
  revert n. induction l as [|m l IH]; intros n Hr H; simpl in H; [by injection H as <- |].
  apply bind_ret_inv in H as (n1 & E & H). eapply IH; [| done].
  eapply runs_step; [done |]. by eapply play_acts.
Qed.

Definition sample_config : config :=
  {| ndpCtrl := AddrRange_plain 0x1000 0x1040;
     ndpData := AddrRange_plain 0 0x1000; mmioOnly := false; maxRSze := 16; maxReqs := 2;
     accept _ := true; getOffset a z := Z.land a (z - 1) |}.

(** Three words, 5, 9 and 5, from address 64. *)
Definition sample_mem (a : Z) : Z := if a =? 64 then 5 else if a =? 72 then 9 else if a =? 80 then 5 else 0.

Definition sample_ndp : ndp dev_a :=
  {| flyReqs := 0; dmaActv := false; pendingRequests := []; pendingReqPackets := []; heap := ∅;
     heap_next := 1; events := []; sent := []; offers := 0;
     sub := set_args 64 3 5 1 dev_a_init |}.


(** ** Operands that are not aligned *)

(** Two words from address 8, in packets of 16 bytes. *)
Definition misaligned_ndp : ndp dev_a :=
  {| flyReqs := 0; dmaActv := false; pendingRequests := []; pendingReqPackets := []; heap := ∅;
     heap_next := 1; events := []; sent := []; offers := 0;
     sub := set_args 8 2 5 1 dev_a_init |}.

