(* ===== verification/Gemmini.v ===== *)
(** * The Gemmini-like device ([gemmini_dev_a/gemmini_dev_a.cc])

    A second subclass of the near-data processing device: it loads one or two
    operands, computes a matrix or convolution operator on 32-bit floats, and
    writes the result back.  The processor's float arithmetic is a class. *)

From S2P Require Import Prelude Ndp.

(** ** Floats *)

(** The operations of [float] the kernels use, on their bit patterns. *)
Class Float32 := {
  fadd : Z -> Z -> Z;
  fmul : Z -> Z -> Z;
  fless : Z -> Z -> bool }.

(** The conversion of the literal 0. *)
Definition fzero : Z := 0.

Section kernels.
Context {HF : Float32}.

(** [p[i]] of a float array, and its assignment. *)
Definition fld (b : buf) (i : Z) : res Z := load_u32 b (4 * i).
Definition fst_ (b : buf) (i v : Z) : res buf := store_u32 b (4 * i) v.

(** [o[i] += v]. *)
Definition facc (b : buf) (i v : Z) : res buf := x ← fld b i; fst_ b i (fadd x v).

(** A loop whose index is an [int] and whose bound is unsigned. *)
Definition for_int (n : Z) (body : Z -> buf -> res buf) (o : buf) : res buf :=
  undef_unless (n <=? 2 ^ 31);; forZ n body o.

Definition baseConv_2D (m k o : buf) (m_size k_size : Z) : res buf :=
  for_int m_size (fun i => for_int m_size (fun j o =>
    let o_idx := u32 (i * m_size + j) in
    o ← fst_ o o_idx fzero;
    for_int k_size (fun w => for_int k_size (fun x o =>
      let m_i := i32 (u32 (i + w - k_size / 2)) in
      let m_j := i32 (u32 (j + x - k_size / 2)) in
      let m_1d_idx :=
        if (m_i <? 0) || (m_size <=? m_i) || (m_j <? 0) || (m_size <=? m_j) then -1
        else i32 (u32 (m_i * m_size + m_j)) in
      v ← (if m_1d_idx =? -1 then Ret fzero
           else a ← fld m m_1d_idx; b ← fld k (u32 (w * k_size + x)); Ret (fmul a b));
      facc o o_idx v)) o)) o.

Definition baseConv_3D (m k o : buf) (m_size k_size : Z) : res buf :=
  for_int m_size (fun i => for_int m_size (fun j => for_int m_size (fun w o =>
    let o_idx := u32 (i * m_size * m_size + j * m_size + w) in
    o ← fst_ o o_idx fzero;
    for_int k_size (fun x => for_int k_size (fun y => for_int k_size (fun z o =>
      let m_i := i32 (u32 (i + x - k_size / 2)) in
      let m_j := i32 (u32 (j + y - k_size / 2)) in
      let m_w := i32 (u32 (w + z - k_size / 2)) in
      let m_1d_idx :=
        if (m_i <? 0) || (m_size <=? m_i) || (m_j <? 0) || (m_size <=? m_j) ||
           (m_w <? 0) || (m_size <=? m_w) then -1
        else i32 (u32 (m_i * m_size * m_size + m_j * m_size + m_w)) in
      v ← (if m_1d_idx =? -1 then Ret fzero
           else a ← fld m m_1d_idx; b ← fld k (u32 (x * k_size * k_size + y * k_size + z));
                Ret (fmul a b));
      facc o o_idx v))) o))) o.

Definition baseConvGemm (a k o : buf) (o_size k_size : Z) : res buf :=
  for_int o_size (fun i o =>
    o ← fst_ o i fzero;
    for_int k_size (fun j o =>
      x ← fld a (u32 (i * k_size + j)); y ← fld k j; facc o i (fmul x y)) o) o.

Definition baseMaxPool (m o : buf) (m_size k_size : Z) : res buf :=
  undef_unless (negb (k_size =? 0));;
  fatal_if (negb (m_size mod k_size =? 0));;      (* assert *)
  for_int (m_size / k_size) (fun i => for_int (m_size / k_size) (fun j o =>
    let o_idx := u32 (u32 (i * m_size) / k_size + j) in
    v ← fld m (u32 (i * k_size * m_size + j * k_size));
    o ← fst_ o o_idx v;
    for_int k_size (fun w => for_int k_size (fun x o =>
      let m_1d_idx := u32 ((i * k_size + w) * m_size + j * k_size + x) in
      a ← fld m m_1d_idx; c ← fld o o_idx;
      if fless c a then fst_ o o_idx a else Ret o)) o)) o.

Definition baseMaxPoolGemm (a o : buf) (m_size k_size : Z) : res buf :=
  undef_unless (negb (k_size =? 0));;
  for_int (m_size / k_size) (fun i => for_int (m_size / k_size) (fun j o =>
    let offset := u32 (u32 (u32 (i * m_size) / k_size + j) * k_size * k_size) in
    max ← fld a offset;
    undef_unless (k_size <=? 2 ^ 31);;
    max ← forZ k_size (fun w => forZ k_size (fun x max =>
      v ← fld a (u32 (offset + w * k_size + x));
      Ret (if fless max v then v else max))) max;
    fst_ o (u32 (u32 (i * m_size) / 2 + j)) max)) o.

Definition baseRelu (m o : buf) (m_size : Z) : res buf :=
  for_int m_size (fun i => for_int m_size (fun j o =>
    let idx := u32 (i * m_size + j) in
    v ← fld m idx;
    fst_ o idx (if fless v fzero then fzero else v))) o.

Definition baseMM (a b c : buf) (m_size : Z) : res buf :=
  for_int m_size (fun i => for_int m_size (fun j c =>
    let idx := u32 (i * m_size + j) in
    c ← fst_ c idx fzero;
    for_int m_size (fun w c =>
      x ← fld a (u32 (i * m_size + w)); y ← fld b (u32 (w * m_size + j));
      facc c idx (fmul x y)) c)) c.

Definition baseMMGemm (a b c : buf) (m_size : Z) : res buf :=
  for_int m_size (fun i => for_int m_size (fun j c =>
    let idx := u32 (i * m_size + j) in
    c ← fst_ c idx fzero;
    for_int m_size (fun w c =>
      x ← fld a (u32 (i * m_size + w)); y ← fld b (u32 (j * m_size + w));
      facc c idx (fmul x y)) c)) c.

(** ** The device *)

Definition op_conv2d : Z := 0.
Definition op_conv2d_gemm : Z := 1.
Definition op_conv3d : Z := 2.
Definition op_conv3d_gemm : Z := 3.
Definition op_maxpool : Z := 4.
Definition op_maxpool_gemm : Z := 5.
Definition op_relu : Z := 6.
Definition op_mm : Z := 7.
Definition op_mm_gemm : Z := 8.

Record gemmini := {
  pi_addr_m : Z; pi_addr_k : Z; pi_addr_o : Z; pi_size_m : Z; pi_size_k : Z; pi_opcode : Z;
  pi_status : Z; g_operands : Z; g_m : Z; g_k : Z; g_o : Z;
  m_size : Z; k_size : Z; o_size : Z }.

Definition gemmini_init : gemmini :=
  {| pi_addr_m := 0; pi_addr_k := 0; pi_addr_o := 0; pi_size_m := 0; pi_size_k := 0;
     pi_opcode := 0; pi_status := 1; g_operands := 0; g_m := 0; g_k := 0; g_o := 0;
     m_size := 0; k_size := 0; o_size := 0 |}.

Definition set_pi (am ak ao sm sk op : Z) (g : gemmini) : gemmini :=
  {| pi_addr_m := am; pi_addr_k := ak; pi_addr_o := ao; pi_size_m := sm; pi_size_k := sk;
     pi_opcode := op; pi_status := pi_status g; g_operands := g_operands g; g_m := g_m g;
     g_k := g_k g; g_o := g_o g; m_size := m_size g; k_size := k_size g; o_size := o_size g |}.
Definition set_status (st ops : Z) (g : gemmini) : gemmini :=
  {| pi_addr_m := pi_addr_m g; pi_addr_k := pi_addr_k g; pi_addr_o := pi_addr_o g;
     pi_size_m := pi_size_m g; pi_size_k := pi_size_k g; pi_opcode := pi_opcode g;
     pi_status := st; g_operands := ops; g_m := g_m g; g_k := g_k g; g_o := g_o g;
     m_size := m_size g; k_size := k_size g; o_size := o_size g |}.
Definition set_blocks (m k o ms ks os : Z) (g : gemmini) : gemmini :=
  {| pi_addr_m := pi_addr_m g; pi_addr_k := pi_addr_k g; pi_addr_o := pi_addr_o g;
     pi_size_m := pi_size_m g; pi_size_k := pi_size_k g; pi_opcode := pi_opcode g;
     pi_status := pi_status g; g_operands := g_operands g; g_m := m; g_k := k; g_o := o;
     m_size := ms; k_size := ks; o_size := os |}.

(** The sizes of the operands and the result, in elements. *)
Definition operand_sizes (op m k : Z) : res (Z * Z * Z) :=
  if op =? op_conv2d then Ret (u64 (m * m), u64 (k * k), u64 (m * m))
  else if op =? op_conv2d_gemm then Ret (u64 (m * m * k * k), u64 (k * k), u64 (m * m))
  else if op =? op_conv3d then Ret (u64 (m * m * m), u64 (k * k * k), u64 (m * m * m))
  else if op =? op_conv3d_gemm then
    Ret (u64 (m * m * m * k * k * k), u64 (k * k * k), u64 (m * m * m))
  else if (op =? op_maxpool_gemm) || (op =? op_maxpool) then
    undef_unless (negb (k =? 0));;      (* division by zero *)
    Ret (u64 (m * m), 0, u64 (m * m) / k / k)
  else if op =? op_relu then Ret (u64 (m * m), 0, u64 (m * m))
  else if (op =? op_mm_gemm) || (op =? op_mm) then Ret (u64 (m * m), u64 (m * m), u64 (m * m))
  else Fatal.

(** The operator on the blocks; the sizes are passed as [unsigned int]. *)
Definition run_operator (g : gemmini) (m k o : buf) : res buf :=
  let sm := pi_size_m g in
  let sk := pi_size_k g in
  let op := pi_opcode g in
  if op =? op_conv2d then baseConv_2D m k o (u32 sm) (u32 sk)
  else if op =? op_conv2d_gemm then baseConvGemm m k o (u32 (sm * sm)) (u32 (sk * sk))
  else if op =? op_conv3d then baseConv_3D m k o (u32 sm) (u32 sk)
  else if op =? op_conv3d_gemm then baseConvGemm m k o (u32 (sm * sm * sm)) (u32 (sk * sk * sk))
  else if op =? op_maxpool then baseMaxPool m o (u32 sm) (u32 sk)
  else if op =? op_maxpool_gemm then baseMaxPoolGemm m o (u32 sm) (u32 sk)
  else if op =? op_relu then baseRelu m o (u32 sm)
  else if op =? op_mm then baseMM m k o (u32 sm)
  else if op =? op_mm_gemm then baseMMGemm m k o (u32 sm)
  else Fatal.

Definition block (id : Z) (n : ndp gemmini) : res buf :=
  match heap n !! id with Some b => Ret b | None => Undef end.

Definition gemmini_fsm (cf : config) (n : ndp gemmini) : res (ndp gemmini) :=
  let g := sub n in
  if g_operands g =? 0 then accessMemory cf (pi_addr_m g) (m_size g) false (g_m g, 0) n
  else if (g_operands g =? 1) && (0 <? k_size g)
  then accessMemory cf (pi_addr_k g) (k_size g) false (g_k g, 0) n
  else
    m ← block (g_m g) n;
    k ← (if 0 <? k_size g then block (g_k g) n else Ret (buf_new 0));
    o ← block (g_o g) n;
    o' ← run_operator g m k o;
    accessMemory cf (pi_addr_o g) (o_size g) true (g_o g, 0)
      (set_heap (<[g_o g := o']> (heap n)) (heap_next n) n).

Definition gemmini_readPI (ridx : Z) (n : ndp gemmini) : res (Z * ndp gemmini) :=
  if ridx =? 7 then Ret (pi_status (sub n), n) else Fatal.

(** [case 6] of [writePI]: sizes, allocation, start. *)
Definition gemmini_start (cf : config) (n : ndp gemmini) : res (ndp gemmini) :=
  let g := set_status 0 (g_operands (sub n)) (sub n) in
  '(ms, ks, os) ← operand_sizes (pi_opcode g) (pi_size_m g) (pi_size_k g);
  let ms := u64 (ms * 4) in
  let ks := u64 (ks * 4) in
  let os := u64 (os * 4) in
  let '(m, n1) := alloc ms n in
  let '(o, n2) := alloc os n1 in
  let '(k, n3) := if 0 <? ks then alloc ks n2 else (g_k g, n2) in
  gemmini_fsm cf (set_sub (set_blocks m k o ms ks os g) n3).

Definition gemmini_writePI (cf : config) (ridx data : Z) (n : ndp gemmini) : res (ndp gemmini) :=
  let g := sub n in
  if pi_status g =? 0 then Fatal else
  let arg am ak ao sm sk op := Ret (set_sub (set_pi am ak ao sm sk op g) n) in
  let am := pi_addr_m g in let ak := pi_addr_k g in let ao := pi_addr_o g in
  let sm := pi_size_m g in let sk := pi_size_k g in let op := pi_opcode g in
  if ridx =? 0 then arg data ak ao sm sk op
  else if ridx =? 1 then arg am data ao sm sk op
  else if ridx =? 2 then arg am ak data sm sk op
  else if ridx =? 3 then arg am ak ao data sk op
  else if ridx =? 4 then arg am ak ao sm data op
  else if ridx =? 5 then arg am ak ao sm sk data
  else if ridx =? 6 then gemmini_start cf n
  else Fatal.

Definition gemmini_recvData (cf : config) (addr : Z) (data : option ptr) (size : Z)
    (n : ndp gemmini) : res (ndp gemmini) :=
  let g := sub n in
  match data with
  | Some _ => gemmini_fsm cf (set_sub (set_status (pi_status g) (u32 (g_operands g + 1)) g) n)
  | None =>
      let n1 := set_sub (set_status 1 0 g) n in
      n2 ← heap_free (g_m g) n1;
      n3 ← heap_free (g_o g) n2;
      if 0 <? k_size g then heap_free (g_k g) n3 else Ret n3
  end.

#[export] Instance gemmini_methods : NDPMethods gemmini := {|
  readPI := gemmini_readPI; writePI := gemmini_writePI; recvData := gemmini_recvData;
  writeBackResults n := Fatal |}.

End kernels.
