(* ===== verification/GemminiSpec.v ===== *)
(** * The float operators of the Gemmini-like device

    Matrix multiplication computes the dot products, in the order of the
    loops; the variant for a transposed operand gives the same bits; where the
    rearranged max pooling writes. *)

From S2P Require Import Prelude Words Ndp Gemmini.

Section mm.
Context {HF : Float32} (n : Z) (Hn : 0 < n) (Hnn : n * n <= 2 ^ 30).

(** Element [(i, j)] of a square matrix. *)
Definition elem (b : buf) (i j : Z) : Z := word b (4 * (i * n + j)).

(** The dot product over the first [t] terms, as the loop adds them up. *)
Definition dot (a b : buf) (i j t : Z) : Z :=
  foldl (fun acc w => u32 (fadd acc (fmul (elem a i w) (elem b w j)))) 0 (seqZ 0 t).

Lemma dot_succ a b i j t :
  0 <= t -> dot a b i j (t + 1) = u32 (fadd (dot a b i j t) (fmul (elem a i t) (elem b t j))).
Proof. intros Ht. unfold dot. rewrite seqZ_snoc by done. by rewrite foldl_app. Qed.

Definition square (b : buf) : Prop := buf_len b = 4 * (n * n).

Lemma index_lt i j : 0 <= i < n -> 0 <= j < n -> 0 <= i * n + j < n * n.
Proof. intros. nia. Qed.

Lemma index_small i j : 0 <= i < n -> 0 <= j < n -> u32 (i * n + j) = i * n + j.
Proof. intros Hi Hj. apply wrap_small. pose proof (index_lt i j Hi Hj). lia. Qed.

Lemma fld_square b q : square b -> 0 <= q < n * n -> fld b q = Ret (word b (4 * q)).
Proof. intros Hb Hq. apply load_u32_word; unfold square in Hb; lia. Qed.

Lemma fst_square b q v : square b -> 0 <= q < n * n -> fst_ b q v = Ret (put b (4 * q) v).
Proof. intros Hb Hq. apply store_u32_put; unfold square in Hb; lia. Qed.

Lemma for_int_ret (P : Z -> buf -> Prop) body o :
  P 0 o -> (forall i o, 0 <= i < n -> P i o -> exists o', body i o = Ret o' /\ P (i + 1) o') ->
  exists o', for_int n body o = Ret o' /\ P n o'.
Proof.
  intros H0 Hs. unfold for_int. destruct (Z.leb_spec n (2 ^ 31)); [| nia].
  cbn [undef_unless mbind res_bind]. apply forZ_ret; [lia | done | done].
Qed.

(** The first [p] elements of the result are there. *)
Definition done_upto (F : Z -> Z) (p : Z) (c : buf) : Prop :=
  square c /\ forall q, 0 <= q < p -> word c (4 * q) = F q.

Definition product (a b : buf) (q : Z) : Z := dot a b (q / n) (q mod n) n.

Lemma product_at a b i j : 0 <= j < n -> product a b (i * n + j) = dot a b i j n.
Proof.
  intros Hj. unfold product. replace (i * n + j) with (j + i * n) by lia.
  rewrite Z.div_add, Z.mod_add, Z.div_small, Z.mod_small by lia. by rewrite Z.add_0_l.
Qed.

(** One element of the product. *)
Lemma mm_element a b c i j :
  square a -> square b -> 0 <= i < n -> 0 <= j < n -> done_upto (product a b) (i * n + j) c ->
  exists c', (c ← fst_ c (i * n + j) fzero;
              for_int n (fun w c =>
                x ← fld a (u32 (i * n + w)); y ← fld b (u32 (w * n + j));
                facc c (i * n + j) (fmul x y)) c) = Ret c' /\
    done_upto (product a b) (i * n + j + 1) c'.
Proof.
  intros Ha Hb Hi Hj [Hc Hq]. pose proof (index_lt i j Hi Hj) as Hp. set (p := i * n + j) in *.
  rewrite fst_square by done. cbn [mbind res_bind].
  destruct (for_int_ret (fun t c => done_upto (product a b) p c /\ word c (4 * p) = dot a b i j t)
    (fun w c => x ← fld a (u32 (i * n + w)); y ← fld b (u32 (w * n + j)); facc c p (fmul x y))
    (put c (4 * p) fzero)) as (c' & E & [Hc' Hq'] & Hv).
  - split; [split; [done |] | by rewrite word_put_same]. intros q Hq0.
    rewrite word_put_other by lia. by apply Hq.
  - intros w c1 Hw [[Hc1 Hq1] Hv]. rewrite index_small, index_small by done.
    pose proof (index_lt i w Hi Hw). pose proof (index_lt w j Hw Hj).
    rewrite !fld_square by done. cbn [mbind res_bind]. unfold facc. rewrite fld_square by done.
    cbn [mbind res_bind]. rewrite fst_square by done. eexists. split; [done |]. split.
    + split; [done |]. intros q Hq0. rewrite word_put_other by lia. by apply Hq1.
    + rewrite word_put_same, dot_succ, Hv by lia. done.
  - exists c'. split; [done |]. split; [done |]. intros q Hq0.
    destruct (decide (q = p)) as [->|]; [| apply Hq'; lia].
    rewrite Hv. symmetry. by apply product_at.
Qed.

Lemma mm_rows a b c :
  square a -> square b -> square c ->
  exists c', baseMM a b c n = Ret c' /\ done_upto (product a b) (n * n) c'.
Proof.
  intros Ha Hb Hc. unfold baseMM. apply (for_int_ret (fun i => done_upto (product a b) (i * n))).
  - split; [done | lia].
  - intros i c1 Hi H1.
    destruct (for_int_ret (fun j => done_upto (product a b) (i * n + j)) (fun j c =>
      let idx := u32 (i * n + j) in
      c ← fst_ c idx fzero;
      for_int n (fun w c =>
        x ← fld a (u32 (i * n + w)); y ← fld b (u32 (w * n + j)); facc c idx (fmul x y)) c) c1)
      as (c' & E & H).
    + by rewrite Z.add_0_r.
    + intros j c2 Hj H2. cbn zeta. rewrite index_small by done. rewrite Z.add_assoc.
      by apply mm_element.
    + exists c'. split; [done |]. by replace ((i + 1) * n) with (i * n + n) by lia.
Qed.

Lemma for_int_ext k (f g : Z -> buf -> res buf) o :
  (forall i o, 0 <= i < k -> f i o = g i o) -> for_int k f o = for_int k g o.
Proof.
  intros H. unfold for_int. destruct (undef_unless _); [| done ..]. cbn [mbind res_bind].
  by apply forZ_ext.
Qed.

Lemma mm_transposed a b bt c :
  (forall i j, 0 <= i < n -> 0 <= j < n -> fld bt (u32 (j * n + i)) = fld b (u32 (i * n + j))) ->
  baseMMGemm a bt c n = baseMM a b c n.
Proof.
  intros Ht. unfold baseMMGemm, baseMM. apply for_int_ext. intros i c1 Hi.
  apply for_int_ext. intros j c2 Hj. cbn zeta. destruct (fst_ c2 _ _); [| done ..].
  cbn [mbind res_bind]. apply for_int_ext. intros w c3 Hw. by rewrite Ht.
Qed.

End mm.

(** C27: matrix multiplication on the device is correct, in both variants.  For
    square matrices that fit the address arithmetic, [baseMM] returns, every
    access is inside its array, and each element of the result is the dot
    product of its row and column, added up from zero in index order; and
    [baseMMGemm], given the transposed second operand, returns the very same
    bits, for any floating-point addition and multiplication. *)
Theorem mm_correct {HF : Float32} n a b bt c
  (Hn : 0 < n) (Hnn : n * n <= 2 ^ 30)
  (Ha : square n a) (Hb : square n b) (Hbt : square n bt) (Hc : square n c)
  (Ht : forall i j, 0 <= i < n -> 0 <= j < n -> elem n bt j i = elem n b i j) :
  exists c', baseMM a b c n = Ret c' /\ baseMMGemm a bt c n = Ret c' /\
    forall i j, 0 <= i < n -> 0 <= j < n -> elem n c' i j = dot n a b i j n.
Proof.
  destruct (mm_rows n Hn Hnn a b c Ha Hb Hc) as (c' & E & _ & Hq). exists c'. split; [done |]. split.
  - rewrite (mm_transposed n a b bt c); [done |]. intros i j Hi Hj.
    rewrite !(index_small n Hn Hnn) by done.
    rewrite !(fld_square n) by (done || by apply index_lt). f_equal. by apply Ht.
  - intros i j Hi Hj. unfold elem. rewrite Hq by (by apply index_lt).
    by apply product_at.
Qed.

(** ** Examples *)

(** A float unit for the examples: addition and multiplication of small
    integers. *)
Definition int_floats : Float32 :=
  {| fadd := Z.add; fmul := Z.mul; fless a b := a <? b |}.

Definition matrix (l : list Z) : buf :=
  foldr (fun '(i, v) b => put b (4 * Z.of_nat i) v) (buf_new (4 * Z.of_nat (length l)))
    (zip (seq 0 (length l)) l).

Lemma mm_correct_witness :
  exists c', baseMM (HF := int_floats) (matrix [1; 2; 3; 4]) (matrix [5; 6; 7; 8]) (matrix [0; 0; 0; 0]) 2
      = Ret c' /\
    baseMMGemm (HF := int_floats) (matrix [1; 2; 3; 4]) (matrix [5; 7; 6; 8]) (matrix [0; 0; 0; 0]) 2
      = Ret c' /\
    elem 2 c' 1 0 = 43.
Proof.
  destruct (mm_correct (HF := int_floats) 2 (matrix [1; 2; 3; 4]) (matrix [5; 6; 7; 8])
    (matrix [5; 7; 6; 8]) (matrix [0; 0; 0; 0])) as (c' & E1 & E2 & H).
  - lia.
  - lia.
  - done.
  - done.
  - done.
  - done.
  - intros i j Hi Hj. assert (i = 0 \/ i = 1) as [->| ->] by lia;
      assert (j = 0 \/ j = 1) as [->| ->] by lia; vm_compute; done.
  - exists c'. split; [exact E1 |]. split; [exact E2 |].
    rewrite (H 1 0) by lia. vm_compute. done.
Defined.

(** ** Max pooling *)

Section pool.
Context {HF : Float32} (a : buf) (Ha : square 8 a).

Lemma fld_64 q : 0 <= q < 64 -> fld a (u32 q) = Ret (word a (4 * q)).
Proof. intros Hq. rewrite wrap_small by lia. apply (fld_square 8); [done | lia]. Qed.

Lemma forZ_total {S} n (body : Z -> S -> res S) s :
  0 <= n -> (forall i s, 0 <= i < n -> exists s', body i s = Ret s') ->
  exists s', forZ n body s = Ret s'.
Proof.
  intros Hn Hb. destruct (forZ_ret (fun _ _ => True) n body s) as (s' & E & _); [done | done | | by exists s'].
  intros i s1 Hi _. destruct (Hb i s1 Hi) as [s2 ->]. by exists s2.
Qed.

(** The maximum over one window of 16 elements. *)
Lemma window_max off max :
  0 <= off -> off + 16 <= 64 ->
  exists v, forZ 4 (fun w => forZ 4 (fun x max =>
    v ← fld a (u32 (off + w * 4 + x)); Ret (if fless max v then v else max))) max = Ret v.
Proof.
  intros H1 H2. apply forZ_total; [lia |]. intros w m Hw. apply forZ_total; [lia |].
  intros x m' Hx. rewrite fld_64 by lia. by eexists.
Qed.

(** One result of [baseMaxPoolGemm], the [p]-th of the four windows. *)
Definition gemm_result (i j : Z) (o : buf) : res buf :=
  let offset := u32 (u32 (u32 (i * 8) / 4 + j) * 4 * 4) in
  max ← fld a offset;
  undef_unless (4 <=? 2 ^ 31);;
  max ← forZ 4 (fun w => forZ 4 (fun x max =>
    v ← fld a (u32 (offset + w * 4 + x));
    Ret (if fless max v then v else max))) max;
  fst_ o (u32 (u32 (i * 8) / 2 + j)) max.

Lemma gemm_result_at i j o :
  0 <= i < 2 -> 0 <= j < 2 -> exists v, gemm_result i j o = fst_ o (4 * i + j) v.
Proof.
  intros Hi Hj. unfold gemm_result. cbn zeta. rewrite (wrap_small 32 (i * 8)) by lia.
  replace (i * 8 / 4) with (2 * i) by (assert (i = 0 \/ i = 1) as [->| ->] by lia; done).
  replace (i * 8 / 2) with (4 * i) by (assert (i = 0 \/ i = 1) as [->| ->] by lia; done).
  rewrite (wrap_small 32 (2 * i + j)), (wrap_small 32 (4 * i + j)) by lia.
  rewrite fld_64 by lia. cbn [mbind res_bind undef_unless].
  rewrite (wrap_small 32 ((2 * i + j) * 4 * 4)) by lia.
  destruct (window_max ((2 * i + j) * 4 * 4) (word a (4 * ((2 * i + j) * 4 * 4)))) as [v ->];
    [lia | lia |]. by exists v.
Qed.

Lemma gemm_overrun : baseMaxPoolGemm a (buf_new 16) 8 4 = Undef.
Proof.
  change (baseMaxPoolGemm a (buf_new 16) 8 4) with
    (o ← (o ← gemm_result 0 0 (buf_new 16); o ← gemm_result 0 1 o; Ret o);
     o ← (o ← gemm_result 1 0 o; o ← gemm_result 1 1 o; Ret o); Ret o).
  destruct (gemm_result_at 0 0 (buf_new 16)) as [v0 ->]; [lia | lia |].
  unfold fst_ at 1. rewrite store_u32_put by (simpl; lia). cbn [mbind res_bind].
  destruct (gemm_result_at 0 1 (put (buf_new 16) (4 * (4 * 0 + 0)) v0)) as [v1 ->]; [lia | lia |].
  unfold fst_ at 1. rewrite store_u32_put by (simpl; lia). cbn [mbind res_bind].
  edestruct (gemm_result_at 1 0) as [v2 ->]; [lia | lia |]. reflexivity.
Qed.

(** A loop that keeps the length of the result. *)
Lemma for_int_len k body o :
  0 <= k <= 8 -> buf_len o = 16 ->
  (forall i o, 0 <= i < k -> buf_len o = 16 -> exists o', body i o = Ret o' /\ buf_len o' = 16) ->
  exists o', for_int k body o = Ret o' /\ buf_len o' = 16.
Proof.
  intros Hk Ho Hb. unfold for_int. destruct (Z.leb_spec k (2 ^ 31)); [| lia].
  cbn [undef_unless mbind res_bind]. apply (forZ_ret (fun _ o => buf_len o = 16)); [lia | done | done].
Qed.

Lemma pool_defined : exists o', baseMaxPool a (buf_new 16) 8 4 = Ret o'.
Proof.
  unfold baseMaxPool. change (8 mod 4 =? 0) with true. change (8 / 4) with 2.
  cbn [negb Z.eqb undef_unless fatal_if mbind res_bind].
  destruct (for_int_len 2 (fun i => for_int 2 (fun j o =>
    let o_idx := u32 (u32 (i * 8) / 4 + j) in
    v ← fld a (u32 (i * 4 * 8 + j * 4));
    o ← fst_ o o_idx v;
    for_int 4 (fun w => for_int 4 (fun x o =>
      let m_1d_idx := u32 ((i * 4 + w) * 8 + j * 4 + x) in
      a ← fld a m_1d_idx; c ← fld o o_idx;
      if fless c a then fst_ o o_idx a else Ret o)) o)) (buf_new 16)) as (o' & E & _);
    [lia | done | | by exists o'].
  intros i o Hi Ho. apply for_int_len; [lia | done |]. intros j o1 Hj Ho1. cbn zeta.
  rewrite (wrap_small 32 (i * 8)) by lia.
  replace (i * 8 / 4) with (2 * i) by (assert (i = 0 \/ i = 1) as [->| ->] by lia; done).
  rewrite (wrap_small 32 (2 * i + j)) by lia. rewrite fld_64 by lia. cbn [mbind res_bind].
  assert (forall v o, buf_len o = 16 -> exists o', fst_ o (2 * i + j) v = Ret o' /\ buf_len o' = 16) as Hst.
  { intros v o2 Ho2. unfold fst_. rewrite store_u32_put by lia. by eexists. }
  destruct (Hst (word a (4 * (i * 4 * 8 + j * 4))) o1 Ho1) as (o2 & -> & Ho2). cbn [mbind res_bind].
  apply for_int_len; [lia | done |]. intros w o3 Hw Ho3.
  apply for_int_len; [lia | done |]. intros x o4 Hx Ho4. rewrite fld_64 by lia. cbn [mbind res_bind].
  unfold fld at 1. rewrite load_u32_word by lia. cbn [mbind res_bind].
  destruct (fless _ _); [by apply Hst | by exists o4].
Qed.

End pool.

(** The rearranged max pooling is right only for windows of two: its result
    index is computed with the constant 2 instead of the window.  Pooling an
    8x8 matrix with windows of 4 (four results) by [baseMaxPool] is defined,
    but [baseMaxPoolGemm], on any arrangement of the same elements, writes the
    third result behind the end of the result array. *)
Theorem maxpool_gemm_overrun {HF : Float32} (a : buf) (Ha : square 8 a) :
  is_ret (baseMaxPoolGemm a (buf_new 16) 8 4) = false /\
  is_ret (baseMaxPool a (buf_new 16) 8 4) = true.
Proof.
  rewrite gemm_overrun by done. split; [done |].
  destruct (pool_defined a Ha) as [o' ->]. done.
Qed.

Lemma maxpool_gemm_overrun_witness :
  is_ret (baseMaxPoolGemm (HF := int_floats) (matrix (replicate 64 1)) (buf_new 16) 8 4) = false /\
  is_ret (baseMaxPool (HF := int_floats) (matrix (replicate 64 1)) (buf_new 16) 8 4) = true.
Proof. apply (maxpool_gemm_overrun (HF := int_floats)). reflexivity. Defined.
